(* ===== verification/_CoqProject ===== *)
-Q . S2P
Prelude.v
Abi.v
Snapshot.v
PolicyQuery.v
Userspace.v
PolicyResolve.v
Ctl.v
RoundTrip.v
EndToEnd.v
Load.v
UserMem.v
OwnedPorts.v
PendingSeq.v
Stats.v
PortStats.v
UdpRate.v
Device.v
CharDev.v
DeviceInv.v
Bpf.v
StatsRing.v
SeqFilter.v
SocketHooks.v
Iface.v
SockOpt.v
Names.v
PktInfo.v
Netlink.v
ModuleInit.v
PortScan.v
Cover.v
FileHiding.v
StatsJson.v
DaemonLoop.v
KCore.v
KSocket.v
KNet.v
JsonObject.v
JsonParse.v
JsonEdit.v
JsonPrint.v
JsonTree.v
JsonText.v
CtlMain.v
CtlPreview.v
CtlStats.v
DaemonMain.v
Reload.v
