(* ===== verification/Prelude.v ===== *)
(** * VPNHide Next: verification library

    VPNHide hides VPN interfaces and local ports from chosen Android
    applications.  A JSON configuration is parsed ([kmod/parson.c]) and compiled
    by a control tool ([kmod/vpnhide_ctl.c], [kmod/vpnhide_policy.c]) into a
    binary policy payload; a kernel module ([kmod/main.c]) validates the payload,
    publishes it as an immutable snapshot and answers the questions of its
    kretprobes ([kmod/hooks_*.c]): is this UID hidden from, is this hook on for
    it, may it reach this local port.  A daemon ([daemon/]) reports VPN
    interfaces, cover addresses and the ports each application has bound, keeps a
    history of the counters and serves it; the framework side reads the
    configuration as text and reports its own counters.  [kpatch/] is the module
    again as a patch to the kernel's own sources.

    ** Files and what they model

    Foundations:
    - [Prelude]: machine integers and their wrap-around, the error monad,
      little-endian byte strings, C strings, the binary search that
      [kmod/main.c] writes out five times, the interface of [sort()] and the
      tactics and hint databases of the library.
    - [Abi]: the structures of [kmod/include/vpnhide.h] and
      [kmod/vpnhide_kmod.h], their byte layout, encoders and decoders.
    - [UserMem]: the address space of the process a probe runs in.
    - [Userspace]: JSON trees with the getters of [parson.c], conversions from
      [double], a monad for code whose allocations can fail, [grow_array].

    From a file to a policy in force:
    - [JsonObject], [JsonEdit], [JsonParse], [JsonPrint], [JsonTree], [JsonText]:
      [parson.c], its hash tables, their mutators, its parser, its serializer, deep
      copies, schemas and dotted paths with every allocation, comments and the
      comparison of values.
    - [PolicyResolve]: [vpnhide_policy.c], the resolution of the JSON
      configuration to UID sets and per-UID block rules, with the complement of
      the rules in allowlist mode.
    - [Ctl]: [vpnhide_ctl.c], application hook masks, [sort_uids],
      [pack_policy_v4] and the [load] command up to the ioctl.
    - [Snapshot]: [policy_snapshot_from_v3], [policy_snapshot_from_v4] and their
      helpers; the well-formedness [snapshot_wf] of a published policy.
    - [RoundTrip], [EndToEnd], [Load]: controller and kernel composed; the
      specification of a configuration ([config_hides], [config_blocks],
      [config_hook]) reads the JSON tree only.
    - [CtlMain]: [main] of [vpnhide_ctl.c], every command from its arguments to
      its output, its exit status and the device; [CtlPreview]: the dry run against
      the load; [CtlStats]: the loop of [stats] against a table that changes.

    The module:
    - [PolicyQuery]: the read side of [main.c] ([is_target_uid_val],
      [is_hook_active], [vpnhide_find_port_target]) and [should_block_port] of
      [hooks_socket.c], against declarative specifications.
    - [OwnedPorts]: the owned-port table and the pending-port cache;
      [PendingSeq]: one set of that cache as a concurrent system, recorders and
      publications under the lock, lookups without it, every store and load a step.
    - [Stats], [PortStats]: per-UID and per-port counters, reconciliation with a
      policy, the two snapshot ioctls, expiry and clearing.
    - [Device]: the state behind the control device as one record, publication
      of a policy, the legacy v2 payload, cover addresses, the VPN name cache
      and every command of [handle_vpnhide_ioctl].
    - [CharDev]: [open], [read] and [write] of the device.
    - [DeviceInv]: the module as a step relation over [device]: ioctls, text
      commands, the two halves of a publication (interleavings included) and
      hook events; the invariant [device_wf] of every reachable state.
    - [ModuleInit]: [vpnhide_init], [vpnhide_exit] and the table of probes.
    - [UdpRate], [Bpf]: [hooks_fs.c], the datagram limiter and the laundering of
      BPF traffic statistics.
    - [SeqFilter], [Netlink]: [hooks_netlink.c], the probes that compact
      [/proc/net] text and the [SIOCGIFCONF] buffer in place, and those that cut
      records off netlink dumps.
    - [SocketHooks], [SockOpt], [Names], [PktInfo]: [hooks_socket.c], the probes
      on connect, bind and listen, on socket options, on socket names and
      link-local scopes, and on received packet information.

    The daemon:
    - [Iface]: [generated/iface_lists.h] and [interface.h].
    - [Cover]: [network.c], VPN detection and the choice of the cover interface.
    - [PortScan]: [owned_ports.c], the socket dumps up to the module's table.
    - [StatsRing], [StatsJson]: [stats.c], sampling, the circular history and the
      text a client is sent.
    - [FileHiding]: [file_hiding.c]; [DaemonLoop]: the timers of [main.c] and
      [config_watch.c]; [DaemonMain]: [main] around them, its arguments, its
      descriptors, what it polls and how it dispatches.
    - [Reload]: daemon, tool and module composed, from an inotify event to the
      kernel's decisions.

    The in-tree port:
    - [KCore], [KSocket], [KNet]: what [kpatch/security/vpnhide/] writes
      differently from the module.  Functions it repeats word for word are the
      module's definitions.

    Definitions keep the names of the C functions; a helper named after a part
    of a function models those lines of it, and the prefix [kp_] marks in-tree
    code whose name the module has too.  A table and its element count are one
    list, an RCU pointer is an [option], a section under one lock is one step (where
    a call has two, the state each sees is an argument), and what is copied from user space, the clock and the outcome of each allocation
    are arguments.  Integers are [Z] with explicit wrap-around where the code
    relies on or is exposed to a width.

    ** What is proved

    - The policy path ([CtlMain], [Load], [RoundTrip], [PolicyResolve]): a text
      that parses as a loadable configuration is loaded, and the kernel's
      decisions about UIDs, hooks and ports are those the text describes;
      whatever the file holds and whatever fails, a load is all or nothing, and
      the lines the dry run prints tell exactly the ports that a load blocks
      ([CtlPreview]).
      Conversely any payload the kernel accepts, from any source, yields a
      well-formed snapshot ([Snapshot]).
    - JSON ([JsonObject], [JsonEdit], [JsonParse], [JsonPrint], [JsonTree],
      [JsonText]): the hash tables behave like lists of fields, also under removal with backward
      shifts, the parser ends on every text and writes nothing outside its string
      buffers, arrays and tables, memory pressure never changes its answer, trees
      whose text an [int] can count read back as written, copies are equal and
      schemas are decided.
    - Queries ([PolicyQuery]): binary searches and the early exit of the rule
      scan decide the declarative policy and never read outside a table.  The port
      decision is stated for application UIDs; the code also honours a target that
      names another UID, which [POLICY.md] rules out ([port_target_of_core_uid]).
    - The device ([Device], [DeviceInv]): setting a policy is all or nothing,
      all invariants hold in every reachable state, stale requests change
      nothing, and where two locked sections are not atomic together
      ([stale_writer_admitted], [reader_misses_update],
      [get_stats_race_overreads]) what that lets happen.
    - Tables ([OwnedPorts], [Stats], [PortStats]): open addressing loses and
      invents nothing, counters are exact and survive a policy change.
    - Concurrency ([PendingSeq], [CtlStats]): a lookup of pending ports without the
      lock is wait-free, finds a record that stays, and a positive answer is that
      of one moment, unless a policy is published meanwhile
      ([publication_tears_lookup]); a recording is one step of the sequential
      model; [stats] ends and prints the table of one moment, unless the table grew
      within its last call.
    - Enforcement ([SocketHooks], [SockOpt], [Names], [PktInfo], [SeqFilter],
      [Netlink], [Bpf], [UdpRate]): a connection is refused exactly when policy
      and ownership say so; filtered buffers, dumps and control messages contain
      exactly what is visible; a page of traffic rows keeps its sums when the cover
      is in it; rewritten user memory shows no VPN; the rate limiter bounds what it
      admits over any interval.  Where a probe fails to do so a theorem says how
      ([fib_trie_ret_diverges], [short_getsockname_leaks] and others).
    - The daemon ([Cover], [PortScan], [StatsRing], [StatsJson], [DaemonLoop],
      [DaemonMain], [FileHiding]): VPNs are reported and the best uplink covers them, the
      module owns exactly the endpoints of the dumps, the history refines a
      bounded queue whose deltas add up, its text is one JSON document, due jobs
      run, no descriptor is lost at start-up and events reach their own jobs; a
      change of the configuration file ends up in force ([Reload]).
    - The in-tree port ([KCore], [KSocket], [KNet]): it accepts the same
      payloads, answers the ioctls and text commands alike, refuses the same
      connections and bounds the same sends; where it differs, how
      ([kp_large_batch_unfiltered] and others).

    ** Bounds and fuel

    Loops over a list recurse on it.  The others have fuel that their lemmas
    show to be enough: a binary search has the length of the table plus one; a
    probe sequence the size of its table, as in the code; [bucket_loop] 16
    doublings from 8 (65536 entries need 131072 buckets); [grow_loop] 66
    doublings of a [size_t]; [complement_loop] the 65537 rounds of the C loop;
    [java_lines] the 4096 bytes of its buffer; [compact_loop] and [lines] the
    number of bytes, since each round consumes one at least; the JSON parser
    three units per character and one ([parser_ends]); [object_add] two levels,
    since a rehash finds room for fewer than 2^30 fields ([json_object_add_spec]),
    which is what a text of less than 2^32 bytes can name; the string loop one round
    per character ([process_loop_ends]); [shift_loop] one round less
    than there are cells, as in the code; copies and schemas the depth of the tree
    and one; [stats_loop] the two
    rounds of a table that does not change meanwhile; [stats_session] and
    [read_kernel_stats] as many rounds as the tables can grow
    ([ctl_stats_consistent], [read_kernel_stats_terminates]); [remove_from] one unit
    per character.  Only the
    [fib_trie] scan has no sufficient fuel: that is what [fib_trie_ret_diverges]
    states.

    ** Parameters

    Classes with laws, each with an instance that satisfies them:
    [KSort]/[KSortLaws] is the kernel's [sort()] by its documented contract
    ([merge_ksort]); [FloatConv]/[FloatConvLaws] the conversion of [double] to
    integers, determined for values in range ([arm64_conv]);
    [Strtod]/[StrtodLaws] and [FormatNumber]/[FormatNumberLaws] the C library's
    reading and printing of numbers, determined for integers a [double] holds
    exactly ([integer_strtod], [integer_format]); [FillLaws] what a fill routine
    of the kernel does to a socket buffer.  Arguments: [scan3] and [scan2], the
    two [sscanf] calls of [vpnhide_dev_write], which yield unsigned 32-bit values
    ([ScanLaws]); [inet_pton]; [HZ], the tick rate; [ipv6_is_linklocal]; the
    results of system calls, socket dumps, probe registrations and files the
    daemon and the tool read.

    ** Not modelled

    Memory ordering beyond the freedom that the barriers of the pending-port cache
    leave; every other section under one lock is one step.  Messages on standard
    error and debugging output.  Of the daemon what the kernel does with its system
    calls.  Of [parson.c] what the program does not call: writing files, setting
    and removing by a dotted path.  Of [kpatch/] the scripts that patch a kernel.
    Tests and build files.

    ** Order of extension

    The publication of a policy as interleaved stores, with the reset of the
    counters repaired; dotted paths as an update of a tree; the kretprobe instances
    a call that sleeps holds. *)
From Stdlib Require Import Strings.Byte NArith ZArith Lia.
From stdpp Require Export base sorting numbers list.

#[global] Open Scope Z_scope.

(** ** Machine integers *)

(** Unsigned wrap-around at [w] bits and the C conversion to [int]. *)
Definition wrap (w : Z) (x : Z) : Z := x mod 2 ^ w.
Definition u8 (x : Z) : Z := wrap 8 x.
Definition u16 (x : Z) : Z := wrap 16 x.
Definition u32 (x : Z) : Z := wrap 32 x.
Definition u64 (x : Z) : Z := wrap 64 x.
Definition s32 (x : Z) : Z := (x + 2 ^ 31) mod 2 ^ 32 - 2 ^ 31.

Definition SIZE_MAX : Z := 2 ^ 64 - 1.
Definition UINT32_MAX : Z := 2 ^ 32 - 1.

(** [x] is a value of an unsigned [w]-bit type. *)
Definition fits (w : Z) (x : Z) : Prop := 0 <= x < 2 ^ w.

(** C's [!!x]. *)
Definition bang_bang (x : Z) : Z := Z.b2z (negb (x =? 0)).

(** [BIT(n)]. *)
Definition BIT (n : Z) : Z := Z.shiftl 1 n.

(** ** Error codes and results *)

Inductive errno :=
  | EPERM | ENOENT | EIO | EAGAIN | ENOMEM | EFAULT | ENODEV | EINVAL | ENOTTY
  | ENOSPC | EOVERFLOW | EPROTONOSUPPORT | ENOBUFS | ETIMEDOUT | ECONNREFUSED
  | ENOIOCTLCMD | ERESTARTSYS.

#[export] Instance errno_eq_dec : EqDecision errno.
Proof. solve_decision. Defined.

Inductive result (A : Type) :=
  | Ok (a : A)
  | Err (e : errno).
Arguments Ok {A} a.
Arguments Err {A} e.

(** The error monad, with stdpp's [x ← m; k] notation. *)
#[export] Instance result_ret : MRet result := λ A a, Ok a.
#[export] Instance result_bind : MBind result := λ A B k m,
  match m with Ok a => k a | Err e => Err e end.

(** [if (!b) return -e;] *)
Definition require (b : bool) (e : errno) : result unit := if b then Ok () else Err e.

Lemma bind_Ok {A B} (m : result A) (k : A → result B) b :
  (m ≫= k) = Ok b ↔ ∃ a, m = Ok a ∧ k a = Ok b.
Proof.
  unfold mbind, result_bind. destruct m as [a|e]; split; [eauto| |done|];
    intros (a' & Ha & Hb); congruence.
Qed.

Lemma require_Ok b e u : require b e = Ok u ↔ b = true.
Proof. by destruct b, u. Qed.

(** ** Tactics *)

(** Split every [if]/[match] scrutinee of a hypothesis, discarding the error
    branches of a [result]. *)
Ltac case_result :=
  repeat match goal with
  | H : (_ ≫= _) = Ok _ |- _ => apply bind_Ok in H as (? & ? & ?)
  | H : require _ _ = Ok _ |- _ => apply require_Ok in H
  | H : (if ?b then Err _ else _) = Ok _ |- _ =>
      let E := fresh "E" in destruct b eqn:E; [discriminate H|]
  | H : (if ?b then _ else Err _) = Ok _ |- _ =>
      let E := fresh "E" in destruct b eqn:E; [|discriminate H]
  | H : Ok _ = Ok _ |- _ => injection H as H
  | H : Err _ = Ok _ |- _ => discriminate H
  end.

(** Turn boolean connectives and comparisons into propositions everywhere. *)
Ltac b2p :=
  repeat match goal with
  | H : (_ && _)%bool = true |- _ => apply andb_true_iff in H as [? ?]
  | H : (_ || _)%bool = false |- _ => apply orb_false_iff in H as [? ?]
  | H : negb _ = true |- _ => apply negb_true_iff in H
  | H : negb _ = false |- _ => apply negb_false_iff in H
  | H : (_ =? _) = true |- _ => apply Z.eqb_eq in H
  | H : (_ =? _) = false |- _ => apply Z.eqb_neq in H
  | H : (_ <? _) = true |- _ => apply Z.ltb_lt in H
  | H : (_ <? _) = false |- _ => apply Z.ltb_ge in H
  | H : (_ <=? _) = true |- _ => apply Z.leb_le in H
  | H : (_ <=? _) = false |- _ => apply Z.leb_gt in H
  | H : bool_decide _ = true |- _ => apply bool_decide_eq_true_1 in H
  | H : bool_decide _ = false |- _ => apply bool_decide_eq_false_1 in H
  end.

Create HintDb vh discriminated.

(** ** Integer facts *)

Lemma wrap_small w x : fits w x → wrap w x = x.
Proof. intros. by apply Z.mod_small. Qed.

Lemma wrap_fits w x : 0 <= w → fits w (wrap w x).
Proof. intros. apply Z.mod_pos_bound, Z.pow_pos_nonneg; lia. Qed.

Lemma s32_range x : - 2 ^ 31 <= s32 x < 2 ^ 31.
Proof. unfold s32. pose proof (Z.mod_pos_bound (x + 2 ^ 31) (2 ^ 32)). lia. Qed.

Lemma s32_small x : - 2 ^ 31 <= x < 2 ^ 31 → s32 x = x.
Proof. intros. unfold s32. rewrite Z.mod_small; lia. Qed.

Lemma land_mod_pow2 x k : 0 <= k → Z.land x (2 ^ k - 1) = x mod 2 ^ k.
Proof. intros. rewrite <- Z.land_ones by done. by rewrite Z.ones_equiv, <- Z.sub_1_r. Qed.

Lemma bang_bang_01 x : bang_bang x = 0 ∨ bang_bang x = 1.
Proof. unfold bang_bang. destruct (x =? 0); simpl; auto. Qed.

Lemma testbit_BIT n i : 0 <= n → 0 <= i → Z.testbit (BIT n) i = bool_decide (i = n).
Proof.
  intros. unfold BIT. rewrite Z.shiftl_1_l, Z.pow2_bits_eqb by lia.
  case_bool_decide; [subst; apply Z.eqb_refl | apply Z.eqb_neq; lia].
Qed.

(** ** Little-endian byte strings *)

Abbreviation bytes := (list byte).

#[export] Instance byte_eq_dec : EqDecision byte := Byte.byte_eq_dec.

Definition byte_to_Z (b : byte) : Z := Z.of_N (Byte.to_N b).
Definition byte_of_Z (z : Z) : byte :=
  default x00 (Byte.of_N (Z.to_N (z mod 256))).

Lemma byte_to_Z_range b : 0 <= byte_to_Z b < 256.
Proof. unfold byte_to_Z. pose proof (Byte.to_N_bounded b). lia. Qed.

Lemma byte_of_to b : byte_of_Z (byte_to_Z b) = b.
Proof.
  unfold byte_of_Z. rewrite Z.mod_small by apply byte_to_Z_range.
  unfold byte_to_Z. by rewrite N2Z.id, Byte.of_to_N.
Qed.

Lemma byte_to_of z : byte_to_Z (byte_of_Z z) = z mod 256.
Proof.
  pose proof (Z.mod_pos_bound z 256 ltac:(lia)).
  unfold byte_of_Z, byte_to_Z.
  destruct (Byte.of_N (Z.to_N (z mod 256))) as [b|] eqn:E; simpl.
  - apply Byte.to_of_N in E. rewrite E. lia.
  - apply Byte.of_N_None_iff in E. lia.
Qed.

Fixpoint le_combine (bs : bytes) : Z :=
  match bs with
  | [] => 0
  | b :: bs => byte_to_Z b + 256 * le_combine bs
  end.

Fixpoint le_split (n : nat) (z : Z) : bytes :=
  match n with
  | O => []
  | S n => byte_of_Z z :: le_split n (z / 256)
  end.

Lemma le_combine_split n z : le_combine (le_split n z) = z mod 2 ^ (8 * Z.of_nat n).
Proof.
  revert z; induction n as [|n IH]; intros z; cbn [le_combine le_split].
  - by rewrite Z.mod_1_r.
  - rewrite IH, byte_to_of.
    replace (8 * Z.of_nat (S n)) with (8 + 8 * Z.of_nat n) by lia.
    rewrite Z.pow_add_r by lia. change (2 ^ 8) with 256.
    rewrite Z.rem_mul_r; lia.
Qed.

Lemma length_le_split n z : length (le_split n z) = n.
Proof. revert z; induction n; intros; simpl; auto. Qed.

Lemma le_split_combine bs : le_split (length bs) (le_combine bs) = bs.
Proof.
  induction bs as [|b bs IH]; [done|].
  cbn [length le_split le_combine]. f_equal.
  - unfold byte_of_Z. rewrite Z.mul_comm, Z_mod_plus_full. apply byte_of_to.
  - rewrite Z.mul_comm, Z.div_add by lia.
    rewrite (Z.div_small _ _ (byte_to_Z_range b)). apply IH.
Qed.

Lemma le_combine_range bs : fits (8 * Z.of_nat (length bs)) (le_combine bs).
Proof.
  rewrite <- (le_split_combine bs) at 2. rewrite le_combine_split.
  apply wrap_fits. lia.
Qed.

Lemma le_combine_split_small n z :
  fits (8 * Z.of_nat n) z → le_combine (le_split n z) = z.
Proof. intros. rewrite le_combine_split. by apply Z.mod_small. Qed.

(** The [n]-byte field at byte offset [off] of an object of memory; reading
    past the end is not defined in C and yields the value of what is there. *)
Definition slice (bs : bytes) (off n : nat) : bytes := take n (drop off bs).
Definition le_at (n : nat) (bs : bytes) (off : nat) : Z := le_combine (slice bs off n).

Lemma slice_app bs1 bs2 bs3 :
  slice (bs1 ++ bs2 ++ bs3) (length bs1) (length bs2) = bs2.
Proof. unfold slice. by rewrite drop_app_length, take_app_length. Qed.

Lemma le_at_app bs1 n z bs3 :
  fits (8 * Z.of_nat n) z → le_at n (bs1 ++ le_split n z ++ bs3) (length bs1) = z.
Proof.
  intros. unfold le_at. pose proof (slice_app bs1 (le_split n z) bs3) as E.
  rewrite length_le_split in E. rewrite E. by apply le_combine_split_small.
Qed.

Lemma le_at_range n bs off : fits (8 * Z.of_nat n) (le_at n bs off).
Proof.
  unfold le_at, slice. pose proof (le_combine_range (take n (drop off bs))) as H.
  rewrite length_take in H. unfold fits in *.
  split; [lia|]. eapply Z.lt_le_trans; [apply H|].
  apply Z.pow_le_mono_r; lia.
Qed.

Arguments le_split : simpl never.
Arguments le_combine : simpl never.

(** ** C strings *)

(** The characters of a buffer up to its first NUL. *)
Fixpoint cstr (buf : bytes) : bytes :=
  match buf with
  | [] => []
  | b :: buf => if bool_decide (b = x00) then [] else b :: cstr buf
  end.

(** [strncmp(a, b, n) == 0] on two buffers. *)
Fixpoint strncmp_eq (n : nat) (a b : bytes) : bool :=
  match n with
  | O => true
  | S n =>
      match a, b with
      | x :: a, y :: b =>
          bool_decide (x = y) && (bool_decide (x = x00) || strncmp_eq n a b)
      | [], [] => true
      | [], y :: _ => bool_decide (y = x00)
      | x :: _, [] => bool_decide (x = x00)
      end
  end.

(** [strncpy(dst, src, n)] writes exactly [n] bytes, padded with NUL. *)
Definition strncpy (n : nat) (src : bytes) : bytes :=
  let s := take n (cstr src) in s ++ replicate (n - length s) x00.

Lemma cstr_no_nul buf : Forall (λ b, b ≠ x00) (cstr buf).
Proof. induction buf; simpl; [done|]. case_bool_decide; constructor; auto. Qed.

Lemma cstr_app_nul s rest : Forall (λ b, b ≠ x00) s → cstr (s ++ x00 :: rest) = s.
Proof.
  induction 1 as [|b s Hb _ IH]; simpl; [done|].
  case_bool_decide; [done|]. by rewrite IH.
Qed.

Lemma cstr_id s : Forall (λ b, b ≠ x00) s → cstr s = s.
Proof. induction 1; simpl; [done|]. case_bool_decide; congruence. Qed.

Lemma length_strncpy n src : length (strncpy n src) = n.
Proof. unfold strncpy. rewrite length_app, length_replicate, length_take. lia. Qed.

Lemma strncmp_eq_spec n a b :
  strncmp_eq n a b = true ↔ take n (cstr a) = take n (cstr b).
Proof.
  revert a b; induction n as [|n IH]; intros [|x a] [|y b]; simpl; try done.
  all: rewrite ?andb_true_iff, ?orb_true_iff, ?bool_decide_eq_true, ?IH.
  all: repeat case_bool_decide; simpl; intuition congruence.
Qed.

(** ** Binary search *)

(** Every sorted table of the kernel module is searched by the same loop over
    an inclusive [int] interval; [BsFault] stands for an out-of-range read or a
    loop that does not end, and [bsearch_no_fault] shows neither happens. *)
Inductive bs_result :=
  | BsFound (i : Z)
  | BsMissing (lo : Z)
  | BsFault.

Section bsearch.
Context {A : Type} (key : A → Z).

Fixpoint bsearch_loop (xs : list A) (k : Z) (fuel : nat) (lo hi : Z) : bs_result :=
  match fuel with
  | O => BsFault
  | S fuel =>
      if lo <=? hi then
        let mid := lo + Z.shiftr (hi - lo) 1 in
        match xs !! Z.to_nat mid with
        | None => BsFault
        | Some x =>
            if key x =? k then BsFound mid
            else if key x <? k then bsearch_loop xs k fuel (mid + 1) hi
            else bsearch_loop xs k fuel lo (mid - 1)
        end
      else BsMissing lo
  end.

(** [lo = 0, hi = (int)count - 1]; the interval shrinks every round, so
    [count + 1] rounds are enough. *)
Definition bsearch (xs : list A) (k : Z) : bs_result :=
  bsearch_loop xs k (S (length xs)) 0 (s32 (Z.of_nat (length xs)) - 1).

Definition bs_find (xs : list A) (k : Z) : option A :=
  match bsearch xs k with
  | BsFound i => xs !! Z.to_nat i
  | _ => None
  end.

Definition strictly_sorted (xs : list A) : Prop :=
  StronglySorted (λ a b, key a < key b) xs.

Lemma mid_bounds lo hi : lo <= hi → lo <= lo + Z.shiftr (hi - lo) 1 <= hi.
Proof.
  intros. rewrite Z.shiftr_div_pow2 by lia. change (2 ^ 1) with 2.
  pose proof (Z.div_pos (hi - lo) 2). pose proof (Z.div_le_upper_bound (hi - lo) 2 (hi - lo)).
  lia.
Qed.

Lemma bsearch_loop_no_fault xs k fuel lo hi :
  0 <= lo <= hi + 1 → hi < Z.of_nat (length xs) → hi - lo + 1 < Z.of_nat fuel →
  bsearch_loop xs k fuel lo hi ≠ BsFault.
Proof.
  revert lo hi; induction fuel as [|fuel IH]; intros lo hi Hlo Hhi Hf; simpl.
  - lia.
  - destruct (Z.leb_spec lo hi) as [Hle|]; [|done].
    pose proof (mid_bounds lo hi Hle) as Hm.
    destruct (lookup_lt_is_Some_2 xs (Z.to_nat (lo + Z.shiftr (hi - lo) 1))) as [x ->]; [lia|].
    destruct (_ =? _); [done|]. destruct (_ <? _); apply IH; lia.
Qed.

Lemma bsearch_no_fault xs k : Z.of_nat (length xs) < 2 ^ 31 → bsearch xs k ≠ BsFault.
Proof.
  intros. unfold bsearch. rewrite s32_small by lia. apply bsearch_loop_no_fault; lia.
Qed.

(** A position that is found is one of the table. *)
Lemma bsearch_found xs k i : bsearch xs k = BsFound i → is_Some (xs !! Z.to_nat i).
Proof.
  unfold bsearch. generalize (S (length xs)) 0 (s32 (Z.of_nat (length xs)) - 1). intros fuel.
  induction fuel as [|fuel IH]; intros lo hi; simpl; [done|]. destruct (_ <=? _); [|done].
  destruct (xs !! Z.to_nat (lo + _)) as [x|] eqn:E; [|done]. destruct (_ =? _); [intros [= <-]; rewrite E; by eexists|].
  destruct (_ <? _); apply IH.
Qed.

Definition bs_spec (xs : list A) (k : Z) (r : bs_result) : Prop :=
  match r with
  | BsFound i => 0 <= i ∧ ∃ x, xs !! Z.to_nat i = Some x ∧ key x = k
  | BsMissing lo =>
      0 <= lo <= Z.of_nat (length xs) ∧
      (∀ j x, xs !! j = Some x → Z.of_nat j < lo → key x < k) ∧
      (∀ j x, xs !! j = Some x → lo <= Z.of_nat j → k < key x)
  | BsFault => True
  end.

Lemma strictly_sorted_lookup xs i j x y :
  strictly_sorted xs → xs !! i = Some x → xs !! j = Some y → (i < j)%nat → key x < key y.
Proof.
  intros Hs; revert i j. induction Hs as [|a xs Hs IH Hall]; intros i j Hi Hj Hij; [done|].
  destruct j as [|j]; [lia|]. destruct i as [|i]; simplify_eq/=.
  - rewrite Forall_forall in Hall. by eapply Hall, list_elem_of_lookup_2.
  - eapply (IH i j); eauto with lia.
Qed.

Lemma bsearch_loop_spec xs k fuel lo hi :
  strictly_sorted xs →
  0 <= lo <= hi + 1 → hi < Z.of_nat (length xs) →
  (∀ j x, xs !! j = Some x → Z.of_nat j < lo → key x < k) →
  (∀ j x, xs !! j = Some x → hi < Z.of_nat j → k < key x) →
  bs_spec xs k (bsearch_loop xs k fuel lo hi).
Proof.
  intros Hs. revert lo hi; induction fuel as [|fuel IH]; intros lo hi Hb Hhi Hl Hr; [done|].
  cbn [bsearch_loop]. destruct (Z.leb_spec lo hi) as [Hle|Hgt].
  - pose proof (mid_bounds lo hi Hle) as Hm. cbv zeta.
    set (mid := lo + Z.shiftr (hi - lo) 1) in *. clearbody mid.
    destruct (xs !! Z.to_nat mid) as [x|] eqn:Hx; [|done].
    destruct (Z.eqb_spec (key x) k) as [Hk|Hk]; [simpl; split; [lia|eauto]|].
    destruct (Z.ltb_spec (key x) k) as [Hlt|Hge]; apply IH; auto; try lia.
    + intros j y Hy Hj. destruct (decide (j = Z.to_nat mid)) as [->|]; [by simplify_eq|].
      etrans; [|exact Hlt]. eapply strictly_sorted_lookup; eauto. lia.
    + intros j y Hy Hj. destruct (decide (j = Z.to_nat mid)) as [->|]; [simplify_eq; lia|].
      apply Z.lt_trans with (key x); [lia|]. eapply strictly_sorted_lookup; eauto. lia.
  - simpl. split_and!; try lia; eauto. intros j x Hx Hj. eapply Hr; eauto. lia.
Qed.

Lemma bsearch_spec xs k :
  strictly_sorted xs → Z.of_nat (length xs) < 2 ^ 31 → bs_spec xs k (bsearch xs k).
Proof.
  intros. unfold bsearch. rewrite s32_small by lia. apply bsearch_loop_spec; auto; try lia.
  intros j x Hx Hj. apply lookup_lt_Some in Hx. lia.
Qed.

Lemma bs_find_Some xs k x :
  strictly_sorted xs → Z.of_nat (length xs) < 2 ^ 31 →
  bs_find xs k = Some x ↔ x ∈ xs ∧ key x = k.
Proof.
  intros Hs Hl. pose proof (bsearch_spec xs k Hs Hl) as Hspec.
  pose proof (bsearch_no_fault xs k Hl) as Hnf.
  unfold bs_find. destruct (bsearch xs k) as [i|lo|]; [| |done]; simpl in Hspec.
  - destruct Hspec as (Hi & y & Hy & Hky). split.
    + intros. simplify_eq. eauto using list_elem_of_lookup_2.
    + intros [[j Hj]%list_elem_of_lookup Hk]. rewrite Hy. f_equal.
      destruct (Nat.lt_trichotomy j (Z.to_nat i)) as [?|[->|?]]; [|by simplify_eq|].
      * pose proof (strictly_sorted_lookup _ _ _ _ _ Hs Hj Hy); lia.
      * pose proof (strictly_sorted_lookup _ _ _ _ _ Hs Hy Hj); lia.
  - destruct Hspec as (_ & Hl1 & Hl2). split; [done|].
    intros [[j Hj]%list_elem_of_lookup Hk].
    destruct (Z.lt_ge_cases (Z.of_nat j) lo);
      [pose proof (Hl1 _ _ Hj) | pose proof (Hl2 _ _ Hj)]; lia.
Qed.

Lemma bs_find_None xs k :
  strictly_sorted xs → Z.of_nat (length xs) < 2 ^ 31 →
  bs_find xs k = None ↔ ∀ x, x ∈ xs → key x ≠ k.
Proof.
  intros Hs Hl. rewrite eq_None_not_Some. split.
  - intros Hn x Hx Hk. apply Hn. exists x. by apply bs_find_Some.
  - intros Hn [x Hx]. apply bs_find_Some in Hx as [Hx Hk]; auto. by eapply Hn.
Qed.

Lemma strictly_sorted_inj xs x y :
  strictly_sorted xs → x ∈ xs → y ∈ xs → key x = key y → x = y.
Proof.
  intros Hs [i Hi]%list_elem_of_lookup [j Hj]%list_elem_of_lookup Hk.
  destruct (Nat.lt_trichotomy i j) as [?|[->|?]]; [|by simplify_eq|].
  - pose proof (strictly_sorted_lookup _ _ _ _ _ Hs Hi Hj); lia.
  - pose proof (strictly_sorted_lookup _ _ _ _ _ Hs Hj Hi); lia.
Qed.
End bsearch.

Arguments bsearch : simpl never.

(** ** Lists *)

Lemma mjoin_cons {A} (x : list A) xs : mjoin (x :: xs) = x ++ mjoin xs.
Proof. done. Qed.

Lemma list_alter_as_insert {A} (f : A → A) (i : nat) (l : list A) x :
  l !! i = Some x → alter f i l = <[i := f x]> l.
Proof.
  revert i. induction l as [|y l IH]; intros [|i] H; simplify_eq/=; [done|]. f_equal. by apply IH.
Qed.

(** ** Sorting *)

(** The kernel's [sort()] and libc's [qsort()], by what they document: the
    result is a permutation of the input in an order compatible with the
    comparison function. *)
Class KSort := ksort : ∀ {A : Type}, (A → A → Z) → list A → list A.

Definition cmp_ok {A} (cmp : A → A → Z) : Prop :=
  (∀ a b, cmp a b <= 0 ∨ cmp b a <= 0) ∧
  (∀ a b c, cmp a b <= 0 → cmp b c <= 0 → cmp a c <= 0).

Class KSortLaws (KS : KSort) : Prop := {
  ksort_perm : ∀ A (cmp : A → A → Z) l, ksort cmp l ≡ₚ l;
  ksort_sorted : ∀ A (cmp : A → A → Z) l,
    cmp_ok cmp → Sorted (λ a b, cmp a b <= 0) (ksort cmp l)
}.

(** A concrete sort that satisfies the laws. *)
Definition cmp_le {A} (cmp : A → A → Z) : relation A := λ a b, cmp a b <= 0.

#[export] Instance cmp_le_dec {A} (cmp : A → A → Z) : RelDecision (cmp_le cmp).
Proof. intros a b. unfold cmp_le. apply _. Defined.

Definition merge_ksort : KSort := λ A cmp l, merge_sort (cmp_le cmp) l.

Lemma merge_ksort_laws : KSortLaws merge_ksort.
Proof.
  split; intros A cmp l; unfold ksort, merge_ksort.
  - apply merge_sort_Permutation.
  - intros [Htot Htr]. apply Sorted_merge_sort. intros a b. apply Htot.
Qed.

Lemma ksort_length {KS : KSort} {HKS : KSortLaws KS} {A} (cmp : A → A → Z) l :
  length (ksort cmp l) = length l.
Proof. apply Permutation_length, ksort_perm. Qed.

Create Rewrite HintDb vh_len.

(** Lengths of the list operations the models use. *)
#[export] Hint Rewrite @length_app @length_take @length_drop @length_fmap @length_replicate
  @length_insert @length_le_split : vh_len.

Ltac len := autorewrite with vh_len in *; lia.
