(* ===== verification/Abi.v ===== *)
(** * Policy ABI: constants, structures and their byte layout

    The structures [include/vpnhide.h] shares between the kernel module and its
    userspace controller, with the little-endian layout the arm64 ABI gives
    them, and the immutable [vpnhide_policy_snapshot] of [vpnhide_kmod.h].  A
    pointer together with its element count is a list. *)
From S2P Require Import Prelude.
From Stdlib Require Import Strings.Byte.

(** ** Constants *)

Definition VPNHIDE_VERSION_CODE : Z := 20508.
Definition VPNHIDE_LEGACY_TARGET_UIDS : Z := 512.
Definition VPNHIDE_LEGACY_PORT_RULES_PER_UID : Z := 16.

Definition VH_PROTO_TCP : Z := 0.
Definition VH_PROTO_UDP : Z := 1.
Definition VH_PROTO_BOTH : Z := 2.

Definition VH_PORT_POLICY_RULES : Z := 0.
Definition VH_PORT_POLICY_UNRESTRICTED : Z := 1.
Definition VH_PORT_POLICY_DENY_ALL : Z := 2.

Definition MAX_IFACE_PREFIXES : Z := 32.
Definition MAX_IFACE_LEN : Z := 16.
Definition MAX_ACTIVE_VPNS : Z := 16.
Definition IFNAMSIZ : Z := 16.

Definition VPNHIDE_POLICY_ABI_VERSION_V2 : Z := 2.
Definition VPNHIDE_POLICY_ABI_VERSION_V3 : Z := 3.
Definition VPNHIDE_POLICY_ABI_VERSION_V4 : Z := 4.
Definition VPNHIDE_MATCH_INCLUDE : Z := 0.
Definition VPNHIDE_MATCH_EXCLUDE : Z := 1.
Definition VPNHIDE_POLICY_MAX_BYTES : Z := 16 * 1024 * 1024.

(** [enum vpnhide_hook_idx] *)
Inductive vpnhide_hook_idx :=
  | HOOK_DEV_IOCTL | HOOK_SOCK_IOCTL | HOOK_RTNL_FILL | HOOK_INET6_FILL
  | HOOK_INET_FILL | HOOK_FIB_ROUTE | HOOK_IPV6_ROUTE | HOOK_FIB_DUMP
  | HOOK_FIB_RULE_FILL | HOOK_RT6_FILL | HOOK_RT_FILL | HOOK_SETSOCKOPT
  | HOOK_GETSOCKOPT | HOOK_CONNECT | HOOK_GETNAME_INET | HOOK_GETNAME_INET6
  | HOOK_BIND | HOOK_BPF | HOOK_GETDENTS64 | HOOK_FACCESSAT | HOOK_FACCESSAT2
  | HOOK_NEWFSTATAT | HOOK_OPENAT | HOOK_OPENAT2 | HOOK_READLINKAT
  | HOOK_UDP_SENDMSG | HOOK_DEV_SEQ | HOOK_IF6_SEQ | HOOK_INET6_BIND_LL
  | HOOK_UDPV6_SENDMSG | HOOK_FIB_TRIE | HOOK_TC_FILL_QDISC.

#[export] Instance hook_idx_eq_dec : EqDecision vpnhide_hook_idx.
Proof. solve_decision. Defined.

Definition hook_bit (h : vpnhide_hook_idx) : Z :=
  match h with
  | HOOK_DEV_IOCTL => 0 | HOOK_SOCK_IOCTL => 1 | HOOK_RTNL_FILL => 2
  | HOOK_INET6_FILL => 3 | HOOK_INET_FILL => 4 | HOOK_FIB_ROUTE => 5
  | HOOK_IPV6_ROUTE => 6 | HOOK_FIB_DUMP => 7 | HOOK_FIB_RULE_FILL => 8
  | HOOK_RT6_FILL => 9 | HOOK_RT_FILL => 10 | HOOK_SETSOCKOPT => 11
  | HOOK_GETSOCKOPT => 12 | HOOK_CONNECT => 13 | HOOK_GETNAME_INET => 14
  | HOOK_GETNAME_INET6 => 15 | HOOK_BIND => 16 | HOOK_BPF => 17
  | HOOK_GETDENTS64 => 18 | HOOK_FACCESSAT => 19 | HOOK_FACCESSAT2 => 20
  | HOOK_NEWFSTATAT => 21 | HOOK_OPENAT => 22 | HOOK_OPENAT2 => 23
  | HOOK_READLINKAT => 24 | HOOK_UDP_SENDMSG => 25 | HOOK_DEV_SEQ => 26
  | HOOK_IF6_SEQ => 27 | HOOK_INET6_BIND_LL => 28 | HOOK_UDPV6_SENDMSG => 29
  | HOOK_FIB_TRIE => 30 | HOOK_TC_FILL_QDISC => 31
  end.

(** [BIT(HOOK_CONNECT) | BIT(HOOK_BIND)]: the hooks that enforce port policy. *)
Definition PORT_HOOK_BITS : Z :=
  Z.lor (BIT (hook_bit HOOK_CONNECT)) (BIT (hook_bit HOOK_BIND)).

(** ** Structures *)

Record vpnhide_port_rule_v3 := mk_port_rule_v3 {
  pr_start_port : Z;
  pr_end_port : Z;
  pr_protocol : Z;
  pr_reserved : list Z
}.

Record vpnhide_port_target_v3 := mk_port_target_v3 {
  pt_uid : Z;
  pt_first_rule : Z;
  pt_rule_count : Z;
  pt_mode : Z;
  pt_reserved : list Z
}.

Record vpnhide_app_hook_mask_v3 := mk_app_hook_mask_v3 {
  am_uid : Z;
  am_kernel_mask : Z;
  am_java_mask : Z;
  am_has_kernel_override : Z;
  am_has_java_override : Z;
  am_reserved : list Z
}.

Record vpnhide_policy_section_v3 := mk_section {
  sec_offset : Z;
  sec_count : Z
}.

(** [char prefixes[MAX_IFACE_PREFIXES][MAX_IFACE_LEN]] with its count. *)
Record vpnhide_iface_ioctl_data := mk_iface_data {
  if_count : Z;
  if_prefixes : list bytes
}.

(** The fixed headers of the two variable-length payloads. *)
Record vpnhide_policy_payload_v3 := mk_payload_v3 {
  p3_total_size : Z;
  p3_flags : Z;
  p3_active_hooks_mask : Z;
  p3_java_hooks_mask : Z;
  p3_debug_enabled : Z;
  p3_iface_count : Z;
  p3_iface_prefixes : list bytes;
  p3_kmod_uids : vpnhide_policy_section_v3;
  p3_lsposed_uids : vpnhide_policy_section_v3;
  p3_port_targets : vpnhide_policy_section_v3;
  p3_port_rules : vpnhide_policy_section_v3;
  p3_app_hook_masks : vpnhide_policy_section_v3
}.

Record vpnhide_policy_payload_v4 := mk_payload_v4 {
  p4_total_size : Z;
  p4_flags : Z;
  p4_active_hooks_mask : Z;
  p4_java_hooks_mask : Z;
  p4_debug_enabled : Z;
  p4_iface_count : Z;
  p4_kmod_match_mode : Z;
  p4_lsposed_match_mode : Z;
  p4_port_match_mode : Z;
  p4_reserved : Z;
  p4_iface_prefixes : list bytes;
  p4_kmod_uids : vpnhide_policy_section_v3;
  p4_lsposed_uids : vpnhide_policy_section_v3;
  p4_port_targets : vpnhide_policy_section_v3;
  p4_port_rules : vpnhide_policy_section_v3;
  p4_app_hook_masks : vpnhide_policy_section_v3
}.

(** One immutable policy generation. *)
Record vpnhide_policy_snapshot := mk_snapshot {
  active_hooks_mask : Z;
  java_hooks_mask : Z;
  debug_enabled : Z;
  flags : Z;
  kmod_match_mode : Z;
  lsposed_match_mode : Z;
  port_match_mode : Z;
  iface_prefixes : vpnhide_iface_ioctl_data;
  kmod_uids : list Z;
  lsposed_uids : list Z;
  port_targets : list vpnhide_port_target_v3;
  port_rules : list vpnhide_port_rule_v3;
  app_hook_masks : list vpnhide_app_hook_mask_v3
}.

(** ** Byte layout *)

Definition sizeof_u32 : nat := 4.
Definition sizeof_port_rule_v3 : nat := 8.
Definition sizeof_port_target_v3 : nat := 16.
Definition sizeof_app_hook_mask_v3 : nat := 16.
Definition sizeof_prefixes : nat := 512.
Definition sizeof_payload_v3 : nat := 576.
Definition sizeof_payload_v4 : nat := 592.

Definition get_u32 (bs : bytes) (off : nat) : Z := le_at 4 bs off.
Definition put_u32 (z : Z) : bytes := le_split 4 z.

Definition decode_u32 (bs : bytes) : Z := get_u32 bs 0.

Definition decode_port_rule_v3 (bs : bytes) : vpnhide_port_rule_v3 := {|
  pr_start_port := le_at 2 bs 0;
  pr_end_port := le_at 2 bs 2;
  pr_protocol := le_at 1 bs 4;
  pr_reserved := byte_to_Z <$> slice bs 5 3
|}.

Definition encode_port_rule_v3 (r : vpnhide_port_rule_v3) : bytes :=
  le_split 2 (pr_start_port r) ++ le_split 2 (pr_end_port r) ++
  le_split 1 (pr_protocol r) ++ (byte_of_Z <$> pr_reserved r).

Definition decode_port_target_v3 (bs : bytes) : vpnhide_port_target_v3 := {|
  pt_uid := get_u32 bs 0;
  pt_first_rule := get_u32 bs 4;
  pt_rule_count := get_u32 bs 8;
  pt_mode := le_at 1 bs 12;
  pt_reserved := byte_to_Z <$> slice bs 13 3
|}.

Definition encode_port_target_v3 (t : vpnhide_port_target_v3) : bytes :=
  put_u32 (pt_uid t) ++ put_u32 (pt_first_rule t) ++ put_u32 (pt_rule_count t) ++
  le_split 1 (pt_mode t) ++ (byte_of_Z <$> pt_reserved t).

Definition decode_app_hook_mask_v3 (bs : bytes) : vpnhide_app_hook_mask_v3 := {|
  am_uid := get_u32 bs 0;
  am_kernel_mask := get_u32 bs 4;
  am_java_mask := get_u32 bs 8;
  am_has_kernel_override := le_at 1 bs 12;
  am_has_java_override := le_at 1 bs 13;
  am_reserved := byte_to_Z <$> slice bs 14 2
|}.

Definition encode_app_hook_mask_v3 (m : vpnhide_app_hook_mask_v3) : bytes :=
  put_u32 (am_uid m) ++ put_u32 (am_kernel_mask m) ++ put_u32 (am_java_mask m) ++
  le_split 1 (am_has_kernel_override m) ++ le_split 1 (am_has_java_override m) ++
  (byte_of_Z <$> am_reserved m).

(** [memcpy] of [count] elements of [size] bytes from byte offset [off]. *)
Fixpoint read_array {A} (dec : bytes → A) (size : nat) (bs : bytes) (off count : nat) : list A :=
  match count with
  | O => []
  | S n => dec (slice bs off size) :: read_array dec size bs (off + size) n
  end.

Definition decode_section (bs : bytes) (off : nat) : vpnhide_policy_section_v3 :=
  mk_section (get_u32 bs off) (get_u32 bs (off + 4)).

Definition encode_section (s : vpnhide_policy_section_v3) : bytes :=
  put_u32 (sec_offset s) ++ put_u32 (sec_count s).

Definition decode_prefixes (bs : bytes) (off : nat) : list bytes :=
  read_array id 16 bs off 32.

Definition decode_payload_v3 (bs : bytes) : vpnhide_policy_payload_v3 := {|
  p3_total_size := get_u32 bs 0;
  p3_flags := get_u32 bs 4;
  p3_active_hooks_mask := get_u32 bs 8;
  p3_java_hooks_mask := get_u32 bs 12;
  p3_debug_enabled := get_u32 bs 16;
  p3_iface_count := get_u32 bs 20;
  p3_iface_prefixes := decode_prefixes bs 24;
  p3_kmod_uids := decode_section bs 536;
  p3_lsposed_uids := decode_section bs 544;
  p3_port_targets := decode_section bs 552;
  p3_port_rules := decode_section bs 560;
  p3_app_hook_masks := decode_section bs 568
|}.

Definition encode_payload_v3 (p : vpnhide_policy_payload_v3) : bytes :=
  put_u32 (p3_total_size p) ++ put_u32 (p3_flags p) ++
  put_u32 (p3_active_hooks_mask p) ++ put_u32 (p3_java_hooks_mask p) ++
  put_u32 (p3_debug_enabled p) ++ put_u32 (p3_iface_count p) ++
  mjoin (p3_iface_prefixes p) ++
  encode_section (p3_kmod_uids p) ++ encode_section (p3_lsposed_uids p) ++
  encode_section (p3_port_targets p) ++ encode_section (p3_port_rules p) ++
  encode_section (p3_app_hook_masks p).

Definition decode_payload_v4 (bs : bytes) : vpnhide_policy_payload_v4 := {|
  p4_total_size := get_u32 bs 0;
  p4_flags := get_u32 bs 4;
  p4_active_hooks_mask := get_u32 bs 8;
  p4_java_hooks_mask := get_u32 bs 12;
  p4_debug_enabled := get_u32 bs 16;
  p4_iface_count := get_u32 bs 20;
  p4_kmod_match_mode := get_u32 bs 24;
  p4_lsposed_match_mode := get_u32 bs 28;
  p4_port_match_mode := get_u32 bs 32;
  p4_reserved := get_u32 bs 36;
  p4_iface_prefixes := decode_prefixes bs 40;
  p4_kmod_uids := decode_section bs 552;
  p4_lsposed_uids := decode_section bs 560;
  p4_port_targets := decode_section bs 568;
  p4_port_rules := decode_section bs 576;
  p4_app_hook_masks := decode_section bs 584
|}.

Definition encode_payload_v4 (p : vpnhide_policy_payload_v4) : bytes :=
  put_u32 (p4_total_size p) ++ put_u32 (p4_flags p) ++
  put_u32 (p4_active_hooks_mask p) ++ put_u32 (p4_java_hooks_mask p) ++
  put_u32 (p4_debug_enabled p) ++ put_u32 (p4_iface_count p) ++
  put_u32 (p4_kmod_match_mode p) ++ put_u32 (p4_lsposed_match_mode p) ++
  put_u32 (p4_port_match_mode p) ++ put_u32 (p4_reserved p) ++
  mjoin (p4_iface_prefixes p) ++
  encode_section (p4_kmod_uids p) ++ encode_section (p4_lsposed_uids p) ++
  encode_section (p4_port_targets p) ++ encode_section (p4_port_rules p) ++
  encode_section (p4_app_hook_masks p).

(** ** Layout round trips *)

Definition port_rule_fits (r : vpnhide_port_rule_v3) : Prop :=
  fits 16 (pr_start_port r) ∧ fits 16 (pr_end_port r) ∧ fits 8 (pr_protocol r) ∧
  length (pr_reserved r) = 3%nat ∧ Forall (fits 8) (pr_reserved r).

Definition port_target_fits (t : vpnhide_port_target_v3) : Prop :=
  fits 32 (pt_uid t) ∧ fits 32 (pt_first_rule t) ∧ fits 32 (pt_rule_count t) ∧
  fits 8 (pt_mode t) ∧ length (pt_reserved t) = 3%nat ∧ Forall (fits 8) (pt_reserved t).

Definition app_hook_mask_fits (m : vpnhide_app_hook_mask_v3) : Prop :=
  fits 32 (am_uid m) ∧ fits 32 (am_kernel_mask m) ∧ fits 32 (am_java_mask m) ∧
  fits 8 (am_has_kernel_override m) ∧ fits 8 (am_has_java_override m) ∧
  length (am_reserved m) = 2%nat ∧ Forall (fits 8) (am_reserved m).

Definition section_fits (s : vpnhide_policy_section_v3) : Prop :=
  fits 32 (sec_offset s) ∧ fits 32 (sec_count s).

Definition prefixes_fit (ps : list bytes) : Prop :=
  length ps = 32%nat ∧ Forall (λ p, length p = 16%nat) ps.

Lemma slice_skip xs rest off n :
  (length xs <= off)%nat → slice (xs ++ rest) off n = slice rest (off - length xs) n.
Proof. intros. unfold slice. by rewrite drop_app_ge. Qed.

Lemma slice_head xs rest n : length xs = n → slice (xs ++ rest) 0 n = xs.
Proof. intros <-. unfold slice. rewrite drop_0. apply take_app_length. Qed.

Lemma slice_all xs n : length xs = n → slice xs 0 n = xs.
Proof. intros <-. unfold slice. rewrite drop_0. by apply take_ge. Qed.

Lemma le_at_skip n xs rest off :
  (length xs <= off)%nat → le_at n (xs ++ rest) off = le_at n rest (off - length xs).
Proof. intros. unfold le_at. by rewrite slice_skip. Qed.

Lemma le_at_head n z rest :
  fits (8 * Z.of_nat n) z → le_at n (le_split n z ++ rest) 0 = z.
Proof. apply (le_at_app [] n z rest). Qed.

Lemma bytes_of_to_Z l : Forall (fits 8) l → byte_to_Z <$> (byte_of_Z <$> l) = l.
Proof.
  induction 1 as [|x l Hx _ IH]; [done|]. rewrite !fmap_cons, IH. f_equal.
  rewrite byte_to_of. by apply Z.mod_small.
Qed.

(** Read a field of a concatenation of encoded fields. *)
Ltac read_field :=
  repeat (rewrite le_at_skip by (rewrite ?length_le_split; lia);
          rewrite ?length_le_split; cbn [Nat.sub]);
  rewrite le_at_head by (simpl; done).

Lemma decode_encode_u32 z : fits 32 z → decode_u32 (put_u32 z) = z.
Proof.
  intros. unfold decode_u32, get_u32, put_u32. rewrite <- (app_nil_r (le_split 4 z)).
  by rewrite le_at_head.
Qed.

Lemma decode_encode_port_rule_v3 r :
  port_rule_fits r → decode_port_rule_v3 (encode_port_rule_v3 r) = r.
Proof.
  intros (Hs & He & Hp & Hl & Hr). destruct r as [s e p res]; simpl in *.
  unfold decode_port_rule_v3, encode_port_rule_v3; cbn [pr_start_port pr_end_port pr_protocol pr_reserved].
  f_equal; try read_field; auto.
  rewrite !slice_skip by (rewrite !length_le_split; lia). rewrite !length_le_split; cbn [Nat.sub].
  rewrite slice_all by (by rewrite length_fmap). by apply bytes_of_to_Z.
Qed.

Lemma decode_encode_port_target_v3 t :
  port_target_fits t → decode_port_target_v3 (encode_port_target_v3 t) = t.
Proof.
  intros (Hu & Hf & Hc & Hm & Hl & Hr). destruct t as [u f c m res]; simpl in *.
  unfold decode_port_target_v3, encode_port_target_v3, get_u32, put_u32;
    cbn [pt_uid pt_first_rule pt_rule_count pt_mode pt_reserved].
  f_equal; try read_field; auto.
  rewrite !slice_skip by (rewrite !length_le_split; lia). rewrite !length_le_split; cbn [Nat.sub].
  rewrite slice_all by (by rewrite length_fmap). by apply bytes_of_to_Z.
Qed.

Lemma decode_encode_app_hook_mask_v3 m :
  app_hook_mask_fits m → decode_app_hook_mask_v3 (encode_app_hook_mask_v3 m) = m.
Proof.
  intros (Hu & Hk & Hj & Hhk & Hhj & Hl & Hr). destruct m as [u k j hk hj res]; simpl in *.
  unfold decode_app_hook_mask_v3, encode_app_hook_mask_v3, get_u32, put_u32;
    cbn [am_uid am_kernel_mask am_java_mask am_has_kernel_override am_has_java_override am_reserved].
  f_equal; try read_field; auto.
  rewrite !slice_skip by (rewrite !length_le_split; lia). rewrite !length_le_split; cbn [Nat.sub].
  rewrite slice_all by (by rewrite length_fmap). by apply bytes_of_to_Z.
Qed.

Lemma length_encode_port_rule_v3 r :
  length (pr_reserved r) = 3%nat → length (encode_port_rule_v3 r) = sizeof_port_rule_v3.
Proof.
  intros Hl. unfold encode_port_rule_v3.
  by rewrite !length_app, !length_le_split, length_fmap, Hl.
Qed.

Lemma length_encode_port_target_v3 t :
  length (pt_reserved t) = 3%nat → length (encode_port_target_v3 t) = sizeof_port_target_v3.
Proof.
  intros Hl. unfold encode_port_target_v3, put_u32.
  by rewrite !length_app, !length_le_split, length_fmap, Hl.
Qed.

Lemma length_encode_app_hook_mask_v3 m :
  length (am_reserved m) = 2%nat → length (encode_app_hook_mask_v3 m) = sizeof_app_hook_mask_v3.
Proof.
  intros Hl. unfold encode_app_hook_mask_v3, put_u32.
  by rewrite !length_app, !length_le_split, length_fmap, Hl.
Qed.

Lemma length_read_array {A} (dec : bytes → A) size bs off n :
  length (read_array dec size bs off n) = n.
Proof. revert off; induction n; intros; simpl; auto. Qed.

Lemma read_array_skip {A} (dec : bytes → A) size xs rest off n :
  (length xs <= off)%nat →
  read_array dec size (xs ++ rest) off n = read_array dec size rest (off - length xs) n.
Proof.
  revert off; induction n as [|n IH]; intros off Hoff; simpl; [done|].
  rewrite slice_skip by done. f_equal. rewrite IH by lia. f_equal; lia.
Qed.

Lemma read_array_encoded {A} (dec : bytes → A) (enc : A → bytes) size xs rest :
  (∀ x, x ∈ xs → dec (enc x) = x ∧ length (enc x) = size) →
  read_array dec size (mjoin (enc <$> xs) ++ rest) 0 (length xs) = xs.
Proof.
  induction xs as [|x xs IH]; intros Hx; [done|].
  destruct (Hx x) as [Hd Hl]; [left|]. rewrite fmap_cons. cbn [mjoin list_join length read_array].
  change (mjoin (?a :: ?b)) with (a ++ mjoin b) in *. rewrite <- app_assoc.
  rewrite slice_head by done. rewrite Hd. f_equal.
  rewrite read_array_skip by lia. rewrite Hl. replace (0 + size - size)%nat with O by lia.
  apply IH. intros y Hy. apply Hx. by right.
Qed.

Lemma length_mjoin {A} (size : nat) (ls : list (list A)) :
  Forall (λ l, length l = size) ls → length (mjoin ls) = (length ls * size)%nat.
Proof.
  induction 1 as [|l ls Hl _ IH]; [done|]. change (mjoin (l :: ls)) with (l ++ mjoin ls).
  rewrite length_app, IH, length_cons. lia.
Qed.

Lemma length_prefixes ps : prefixes_fit ps → length (mjoin ps) = 512%nat.
Proof. intros [Hn Hf]. rewrite (length_mjoin 16) by done. by rewrite Hn. Qed.

Lemma read_prefixes ps rest :
  prefixes_fit ps → read_array id 16 (mjoin ps ++ rest) 0 32 = ps.
Proof.
  intros [Hn Hf]. rewrite <- Hn. rewrite <- (list_fmap_id ps) at 1.
  apply read_array_encoded. rewrite Forall_forall in Hf. auto.
Qed.

(** Every header field of an encoded payload is read back, whatever follows. *)
Ltac read_header Hps :=
  repeat first
    [ rewrite le_at_head by (simpl; done)
    | rewrite read_prefixes by done
    | rewrite le_at_skip
        by (rewrite ?length_le_split, ?(length_prefixes _ Hps); by apply Nat.leb_le)
    | rewrite read_array_skip
        by (rewrite ?length_le_split, ?(length_prefixes _ Hps); by apply Nat.leb_le)
    | progress (rewrite ?length_le_split, ?(length_prefixes _ Hps)); cbn [Nat.sub Nat.add] ].

Definition payload_v4_fits (p : vpnhide_policy_payload_v4) : Prop :=
  Forall (fits 32) [p4_total_size p; p4_flags p; p4_active_hooks_mask p; p4_java_hooks_mask p;
    p4_debug_enabled p; p4_iface_count p; p4_kmod_match_mode p; p4_lsposed_match_mode p;
    p4_port_match_mode p; p4_reserved p] ∧
  prefixes_fit (p4_iface_prefixes p) ∧
  Forall section_fits [p4_kmod_uids p; p4_lsposed_uids p; p4_port_targets p; p4_port_rules p;
    p4_app_hook_masks p].

Definition payload_v3_fits (p : vpnhide_policy_payload_v3) : Prop :=
  Forall (fits 32) [p3_total_size p; p3_flags p; p3_active_hooks_mask p; p3_java_hooks_mask p;
    p3_debug_enabled p; p3_iface_count p] ∧
  prefixes_fit (p3_iface_prefixes p) ∧
  Forall section_fits [p3_kmod_uids p; p3_lsposed_uids p; p3_port_targets p; p3_port_rules p;
    p3_app_hook_masks p].

Lemma length_encode_section s : length (encode_section s) = 8%nat.
Proof. unfold encode_section, put_u32. by rewrite length_app, !length_le_split. Qed.

Lemma length_encode_payload_v4 p :
  prefixes_fit (p4_iface_prefixes p) → length (encode_payload_v4 p) = sizeof_payload_v4.
Proof.
  intros. unfold encode_payload_v4, put_u32.
  by rewrite !length_app, !length_le_split, length_prefixes, !length_encode_section.
Qed.

Lemma length_encode_payload_v3 p :
  prefixes_fit (p3_iface_prefixes p) → length (encode_payload_v3 p) = sizeof_payload_v3.
Proof.
  intros. unfold encode_payload_v3, put_u32.
  by rewrite !length_app, !length_le_split, length_prefixes, !length_encode_section.
Qed.

Lemma decode_encode_payload_v4 p rest :
  payload_v4_fits p → decode_payload_v4 (encode_payload_v4 p ++ rest) = p.
Proof.
  intros (Hw & Hps & Hs).
  destruct p as [w0 w1 w2 w3 w4 w5 w6 w7 w8 w9 ps [o1 c1] [o2 c2] [o3 c3] [o4 c4] [o5 c5]].
  rewrite !Forall_cons in Hw. rewrite !Forall_cons in Hs. unfold section_fits in Hs.
  simpl in Hw, Hps, Hs. destruct_and!.
  unfold encode_payload_v4, decode_payload_v4, encode_section, decode_section, decode_prefixes,
    get_u32, put_u32; cbn [p4_total_size p4_flags p4_active_hooks_mask p4_java_hooks_mask
    p4_debug_enabled p4_iface_count p4_kmod_match_mode p4_lsposed_match_mode p4_port_match_mode
    p4_reserved p4_iface_prefixes p4_kmod_uids p4_lsposed_uids p4_port_targets p4_port_rules
    p4_app_hook_masks sec_offset sec_count].
  rewrite <- !app_assoc.
  f_equal; try (f_equal); read_header Hps; done.
Qed.

Lemma decode_encode_payload_v3 p rest :
  payload_v3_fits p → decode_payload_v3 (encode_payload_v3 p ++ rest) = p.
Proof.
  intros (Hw & Hps & Hs).
  destruct p as [w0 w1 w2 w3 w4 w5 ps [o1 c1] [o2 c2] [o3 c3] [o4 c4] [o5 c5]].
  rewrite !Forall_cons in Hw. rewrite !Forall_cons in Hs. unfold section_fits in Hs.
  simpl in Hw, Hps, Hs. destruct_and!.
  unfold encode_payload_v3, decode_payload_v3, encode_section, decode_section, decode_prefixes,
    get_u32, put_u32; cbn [p3_total_size p3_flags p3_active_hooks_mask p3_java_hooks_mask
    p3_debug_enabled p3_iface_count p3_iface_prefixes p3_kmod_uids p3_lsposed_uids
    p3_port_targets p3_port_rules p3_app_hook_masks sec_offset sec_count].
  rewrite <- !app_assoc.
  f_equal; try (f_equal); read_header Hps; done.
Qed.
