(* ===== verification/Snapshot.v ===== *)
(** * Kernel policy snapshots: decoding and validation

    [policy_section_validate], [policy_snapshot_from_v3] and
    [policy_snapshot_from_v4] of [kmod/main.c]: a byte payload copied from
    userspace becomes an immutable snapshot or is rejected as a whole.  The
    kernel's [sort()] is a parameter ([KSort]); the outcome of the one
    allocation of each function is the argument [alloc]. *)
From S2P Require Import Prelude Abi.
From Stdlib Require Import Strings.Byte.

(** ** Comparison functions *)

Definition policy_uid_cmp (ua ub : Z) : Z := Z.b2z (ub <? ua) - Z.b2z (ua <? ub).

Definition policy_port_target_cmp (pa pb : vpnhide_port_target_v3) : Z :=
  Z.b2z (pt_uid pb <? pt_uid pa) - Z.b2z (pt_uid pa <? pt_uid pb).

Definition policy_port_rule_cmp (ra rb : vpnhide_port_rule_v3) : Z :=
  if negb (pr_start_port ra =? pr_start_port rb) then pr_start_port ra - pr_start_port rb
  else if negb (pr_end_port ra =? pr_end_port rb) then pr_end_port ra - pr_end_port rb
  else pr_protocol ra - pr_protocol rb.

Definition policy_app_mask_cmp (ma mb : vpnhide_app_hook_mask_v3) : Z :=
  Z.b2z (am_uid mb <? am_uid ma) - Z.b2z (am_uid ma <? am_uid mb).

(** ** Sections *)

(** [check_mul_overflow] and [check_add_overflow] on [size_t]. *)
Definition check_mul (a b : Z) : option Z := if a * b <=? SIZE_MAX then Some (a * b) else None.
Definition check_add (a b : Z) : option Z := if a + b <=? SIZE_MAX then Some (a + b) else None.

(** The new cursor, or [-EINVAL]. *)
Definition policy_section_validate (section : vpnhide_policy_section_v3)
    (element_size cursor total_size : Z) : result Z :=
  if negb (sec_offset section =? cursor) then Err EINVAL
  else match check_mul (sec_count section) element_size with
       | None => Err EINVAL
       | Some bytes =>
           match check_add cursor bytes with
           | None => Err EINVAL
           | Some cursor' => if total_size <? cursor' then Err EINVAL else Ok cursor'
           end
       end.

(** ** Record validation *)

Definition nonzero (x : Z) : bool := negb (x =? 0).

Definition port_rule_valid (r : vpnhide_port_rule_v3) : bool :=
  negb ((pr_end_port r <? pr_start_port r) || (VH_PROTO_BOTH <? pr_protocol r) ||
        existsb nonzero (pr_reserved r)).

Definition app_mask_valid (m : vpnhide_app_hook_mask_v3) : bool :=
  negb ((am_uid m =? 0) || (1 <? am_has_kernel_override m) ||
        (1 <? am_has_java_override m) || existsb nonzero (am_reserved m)).

(** [mask->kernel_mask |= BIT(HOOK_CONNECT) | BIT(HOOK_BIND)] *)
Definition app_mask_force_port_hooks (m : vpnhide_app_hook_mask_v3) : vpnhide_app_hook_mask_v3 :=
  if am_has_kernel_override m =? 0 then m
  else {| am_uid := am_uid m;
          am_kernel_mask := Z.lor (am_kernel_mask m) PORT_HOOK_BITS;
          am_java_mask := am_java_mask m;
          am_has_kernel_override := am_has_kernel_override m;
          am_has_java_override := am_has_java_override m;
          am_reserved := am_reserved m |}.

Definition port_target_valid (t : vpnhide_port_target_v3) (next_rule port_rule_count : Z) : bool :=
  negb ((pt_uid t =? 0) || (VH_PORT_POLICY_DENY_ALL <? pt_mode t) ||
        existsb nonzero (pt_reserved t) || negb (pt_first_rule t =? next_rule) ||
        (u32 (port_rule_count - next_rule) <? pt_rule_count t)).

(** [arr[i - 1].key == arr[i].key] for some [i]. *)
Fixpoint has_adjacent_duplicate {A} (key : A → Z) (xs : list A) : bool :=
  match xs with
  | x :: (y :: _) as rest => (key x =? key y) || has_adjacent_duplicate key rest
  | _ => false
  end.

(** [count && !uids[0]] *)
Definition head_is_zero (uids : list Z) : bool :=
  match uids with u :: _ => u =? 0 | [] => false end.

Section from_payload.
Context `{KS : KSort}.

(** Sort [count] rules in place from index [first]. *)
Definition sort_rule_range (first count : nat) (rules : list vpnhide_port_rule_v3)
    : list vpnhide_port_rule_v3 :=
  take first rules ++ ksort policy_port_rule_cmp (take count (drop first rules)) ++
  drop (first + count) rules.

(** The loop over port targets: each owns the next [rule_count] rules. *)
Fixpoint validate_port_targets (targets : list vpnhide_port_target_v3)
    (rules : list vpnhide_port_rule_v3) (port_rule_count next_rule : Z)
    : result (list vpnhide_port_rule_v3 * Z) :=
  match targets with
  | [] => Ok (rules, next_rule)
  | t :: targets =>
      if port_target_valid t next_rule port_rule_count then
        let rules' := if 1 <? pt_rule_count t
                      then sort_rule_range (Z.to_nat (pt_first_rule t))
                             (Z.to_nat (pt_rule_count t)) rules
                      else rules in
        validate_port_targets targets rules' port_rule_count
          (u32 (next_rule + pt_rule_count t))
      else Err EINVAL
  end.

(** The guards before the allocation: the header and the five sections,
    which must follow each other and fill the payload. *)
Definition policy_v3_layout (p : vpnhide_policy_payload_v3) (payload_size : Z) : result unit :=
  if (payload_size <? Z.of_nat sizeof_payload_v3) ||
     (VPNHIDE_POLICY_MAX_BYTES <? payload_size) ||
     negb (p3_total_size p =? payload_size) ||
     (MAX_IFACE_PREFIXES <? p3_iface_count p)
  then Err EINVAL else
  cursor ← policy_section_validate (p3_kmod_uids p) (Z.of_nat sizeof_u32)
             (Z.of_nat sizeof_payload_v3) payload_size;
  cursor ← policy_section_validate (p3_lsposed_uids p) (Z.of_nat sizeof_u32)
             cursor payload_size;
  cursor ← policy_section_validate (p3_port_targets p) (Z.of_nat sizeof_port_target_v3)
             cursor payload_size;
  cursor ← policy_section_validate (p3_port_rules p) (Z.of_nat sizeof_port_rule_v3)
             cursor payload_size;
  cursor ← policy_section_validate (p3_app_hook_masks p) (Z.of_nat sizeof_app_hook_mask_v3)
             cursor payload_size;
  require (cursor =? payload_size) EINVAL.

(** The header fields and the five [memcpy]s into the new snapshot. *)
Definition policy_v3_copy (p : vpnhide_policy_payload_v3) (payload : bytes)
    : vpnhide_policy_snapshot :=
  let array {A} (dec : bytes → A) size sec :=
    read_array dec size payload (Z.to_nat (sec_offset sec)) (Z.to_nat (sec_count sec)) in
  {| active_hooks_mask := Z.lor (p3_active_hooks_mask p) PORT_HOOK_BITS;
     java_hooks_mask := p3_java_hooks_mask p;
     debug_enabled := bang_bang (p3_debug_enabled p);
     flags := p3_flags p;
     kmod_match_mode := VPNHIDE_MATCH_INCLUDE;
     lsposed_match_mode := VPNHIDE_MATCH_INCLUDE;
     port_match_mode := VPNHIDE_MATCH_INCLUDE;
     iface_prefixes := mk_iface_data (p3_iface_count p) (p3_iface_prefixes p);
     kmod_uids := array decode_u32 sizeof_u32 (p3_kmod_uids p);
     lsposed_uids := array decode_u32 sizeof_u32 (p3_lsposed_uids p);
     port_targets := array decode_port_target_v3 sizeof_port_target_v3 (p3_port_targets p);
     port_rules := array decode_port_rule_v3 sizeof_port_rule_v3 (p3_port_rules p);
     app_hook_masks :=
       array decode_app_hook_mask_v3 sizeof_app_hook_mask_v3 (p3_app_hook_masks p) |}.

(** Validation of the records, then sorting and the duplicate checks. *)
Definition policy_v3_finish (s : vpnhide_policy_snapshot) : result vpnhide_policy_snapshot :=
  let port_rule_count := Z.of_nat (length (port_rules s)) in
  '(rules, next_rule) ← validate_port_targets (port_targets s) (port_rules s) port_rule_count 0;
  if negb (next_rule =? port_rule_count) then Err EINVAL else
  if negb (forallb port_rule_valid rules) then Err EINVAL else
  if negb (forallb app_mask_valid (app_hook_masks s)) then Err EINVAL else
  let masks := app_mask_force_port_hooks <$> app_hook_masks s in
  let kmod := ksort policy_uid_cmp (kmod_uids s) in
  let lsposed := ksort policy_uid_cmp (lsposed_uids s) in
  let targets := ksort policy_port_target_cmp (port_targets s) in
  let masks := ksort policy_app_mask_cmp masks in
  if head_is_zero kmod || head_is_zero lsposed then Err EINVAL else
  if has_adjacent_duplicate id kmod || has_adjacent_duplicate id lsposed ||
     has_adjacent_duplicate pt_uid targets || has_adjacent_duplicate am_uid masks
  then Err EINVAL else
  Ok {| active_hooks_mask := active_hooks_mask s; java_hooks_mask := java_hooks_mask s;
        debug_enabled := debug_enabled s; flags := flags s;
        kmod_match_mode := kmod_match_mode s; lsposed_match_mode := lsposed_match_mode s;
        port_match_mode := port_match_mode s; iface_prefixes := iface_prefixes s;
        kmod_uids := kmod; lsposed_uids := lsposed; port_targets := targets;
        port_rules := rules; app_hook_masks := masks |}.

(** The overflow check before the allocation is never met: a payload has at most
    [VPNHIDE_POLICY_MAX_BYTES]. *)
Definition policy_snapshot_from_v3 (alloc : bool) (payload : bytes)
    : result vpnhide_policy_snapshot :=
  let p := decode_payload_v3 payload in
  _ ← policy_v3_layout p (Z.of_nat (length payload));
  _ ← require alloc ENOMEM;
  policy_v3_finish (policy_v3_copy p payload).

(** [v3->name = payload->name; v3->name.offset -= delta;] *)
Definition v4_section (s : vpnhide_policy_section_v3) : vpnhide_policy_section_v3 :=
  mk_section (u32 (sec_offset s - Z.of_nat (sizeof_payload_v4 - sizeof_payload_v3)))
             (sec_count s).

Definition with_match_modes (k l p : Z) (s : vpnhide_policy_snapshot)
    : vpnhide_policy_snapshot :=
  {| active_hooks_mask := active_hooks_mask s; java_hooks_mask := java_hooks_mask s;
     debug_enabled := debug_enabled s; flags := flags s;
     kmod_match_mode := k; lsposed_match_mode := l; port_match_mode := p;
     iface_prefixes := iface_prefixes s; kmod_uids := kmod_uids s;
     lsposed_uids := lsposed_uids s; port_targets := port_targets s;
     port_rules := port_rules s; app_hook_masks := app_hook_masks s |}.

Definition v3_of_v4 (p : vpnhide_policy_payload_v4) (payload : bytes) : bytes :=
  encode_payload_v3 {|
    p3_total_size := Z.of_nat (length payload - (sizeof_payload_v4 - sizeof_payload_v3));
    p3_flags := p4_flags p;
    p3_active_hooks_mask := p4_active_hooks_mask p;
    p3_java_hooks_mask := p4_java_hooks_mask p;
    p3_debug_enabled := p4_debug_enabled p;
    p3_iface_count := p4_iface_count p;
    p3_iface_prefixes := p4_iface_prefixes p;
    p3_kmod_uids := v4_section (p4_kmod_uids p);
    p3_lsposed_uids := v4_section (p4_lsposed_uids p);
    p3_port_targets := v4_section (p4_port_targets p);
    p3_port_rules := v4_section (p4_port_rules p);
    p3_app_hook_masks := v4_section (p4_app_hook_masks p) |} ++
  drop sizeof_payload_v4 payload.

Definition policy_snapshot_from_v4 (alloc_v3 alloc : bool) (payload : bytes)
    : result vpnhide_policy_snapshot :=
  let p := decode_payload_v4 payload in
  let payload_size := Z.of_nat (length payload) in
  if (payload_size <? Z.of_nat sizeof_payload_v4) ||
     negb (p4_total_size p =? payload_size) || nonzero (p4_reserved p) ||
     (VPNHIDE_MATCH_EXCLUDE <? p4_kmod_match_mode p) ||
     (VPNHIDE_MATCH_EXCLUDE <? p4_lsposed_match_mode p) ||
     (VPNHIDE_MATCH_EXCLUDE <? p4_port_match_mode p)
  then Err EINVAL else
  if (sec_offset (p4_kmod_uids p) <? Z.of_nat sizeof_payload_v4) ||
     (sec_offset (p4_lsposed_uids p) <? Z.of_nat sizeof_payload_v4) ||
     (sec_offset (p4_port_targets p) <? Z.of_nat sizeof_payload_v4) ||
     (sec_offset (p4_port_rules p) <? Z.of_nat sizeof_payload_v4) ||
     (sec_offset (p4_app_hook_masks p) <? Z.of_nat sizeof_payload_v4)
  then Err EINVAL else
  if negb alloc_v3 then Err ENOMEM else
  s ← policy_snapshot_from_v3 alloc (v3_of_v4 p payload);
  Ok (with_match_modes (p4_kmod_match_mode p) (p4_lsposed_match_mode p)
        (p4_port_match_mode p) s).
End from_payload.

(** ** The snapshot invariant *)

Definition rule_slice (rules : list vpnhide_port_rule_v3) (t : vpnhide_port_target_v3)
    : list vpnhide_port_rule_v3 :=
  take (Z.to_nat (pt_rule_count t)) (drop (Z.to_nat (pt_first_rule t)) rules).

Definition port_rule_ok (r : vpnhide_port_rule_v3) : Prop :=
  0 <= pr_start_port r <= pr_end_port r ∧ pr_end_port r < 2 ^ 16 ∧
  0 <= pr_protocol r <= VH_PROTO_BOTH.

(** A target names an existing slice of the rule table, in search order. *)
Definition port_target_ok (rules : list vpnhide_port_rule_v3) (t : vpnhide_port_target_v3) : Prop :=
  0 < pt_uid t < 2 ^ 32 ∧ 0 <= pt_mode t <= VH_PORT_POLICY_DENY_ALL ∧
  0 <= pt_first_rule t ∧ 0 <= pt_rule_count t ∧
  pt_first_rule t + pt_rule_count t <= Z.of_nat (length rules) ∧
  Sorted (λ a b, policy_port_rule_cmp a b <= 0) (rule_slice rules t).

Definition has_port_hooks (mask : Z) : Prop :=
  Z.testbit mask (hook_bit HOOK_CONNECT) = true ∧ Z.testbit mask (hook_bit HOOK_BIND) = true.

Definition app_mask_ok (m : vpnhide_app_hook_mask_v3) : Prop :=
  0 < am_uid m < 2 ^ 32 ∧ 0 <= am_has_kernel_override m <= 1 ∧
  0 <= am_has_java_override m <= 1 ∧
  (am_has_kernel_override m = 1 → has_port_hooks (am_kernel_mask m)).

Definition uid_set_ok (uids : list Z) : Prop :=
  strictly_sorted id uids ∧ Forall (λ u, 0 < u < 2 ^ 32) uids ∧
  Z.of_nat (length uids) < 2 ^ 31.

Record snapshot_wf (s : vpnhide_policy_snapshot) : Prop := {
  wf_kmod : uid_set_ok (kmod_uids s);
  wf_lsposed : uid_set_ok (lsposed_uids s);
  wf_targets_sorted : strictly_sorted pt_uid (port_targets s);
  wf_targets_length : Z.of_nat (length (port_targets s)) < 2 ^ 31;
  wf_targets : Forall (port_target_ok (port_rules s)) (port_targets s);
  wf_rules : Forall port_rule_ok (port_rules s);
  wf_rules_length : Z.of_nat (length (port_rules s)) < 2 ^ 31;
  wf_masks_sorted : strictly_sorted am_uid (app_hook_masks s);
  wf_masks_length : Z.of_nat (length (app_hook_masks s)) < 2 ^ 31;
  wf_masks : Forall app_mask_ok (app_hook_masks s);
  wf_active : has_port_hooks (active_hooks_mask s);
  wf_kmod_mode : 0 <= kmod_match_mode s <= VPNHIDE_MATCH_EXCLUDE;
  wf_lsposed_mode : 0 <= lsposed_match_mode s <= VPNHIDE_MATCH_EXCLUDE;
  wf_port_mode : 0 <= port_match_mode s <= VPNHIDE_MATCH_EXCLUDE;
  wf_ifaces : 0 <= if_count (iface_prefixes s) <= MAX_IFACE_PREFIXES
}.

(** ** Comparison functions are total preorders *)

Lemma b2z_cmp_le a b : Z.b2z (b <? a) - Z.b2z (a <? b) <= 0 ↔ a <= b.
Proof. destruct (Z.ltb_spec b a), (Z.ltb_spec a b); simpl; lia. Qed.

Lemma key_cmp_ok {A} (key : A → Z) :
  cmp_ok (λ a b, Z.b2z (key b <? key a) - Z.b2z (key a <? key b)).
Proof. split; intros *; rewrite !b2z_cmp_le; lia. Qed.

(** The lexicographic order behind [policy_port_rule_cmp]. *)
Lemma policy_port_rule_cmp_le a b :
  policy_port_rule_cmp a b <= 0 ↔
    pr_start_port a < pr_start_port b ∨
    (pr_start_port a = pr_start_port b ∧
      (pr_end_port a < pr_end_port b ∨
       (pr_end_port a = pr_end_port b ∧ pr_protocol a <= pr_protocol b))).
Proof.
  unfold policy_port_rule_cmp.
  destruct (Z.eqb_spec (pr_start_port a) (pr_start_port b)),
    (Z.eqb_spec (pr_end_port a) (pr_end_port b)); simpl; lia.
Qed.

Lemma policy_port_rule_cmp_ok : cmp_ok policy_port_rule_cmp.
Proof. split; intros *; rewrite !policy_port_rule_cmp_le; lia. Qed.

Lemma sorted_distinct_strict {A} (key : A → Z) xs :
  Sorted (λ a b, key a <= key b) xs → has_adjacent_duplicate key xs = false →
  strictly_sorted key xs.
Proof.
  intros Hs Hd. apply Sorted_StronglySorted; [intros ???; lia|].
  induction Hs as [|x xs Hs IH Hhd]; [done|].
  destruct xs as [|y ys]; [by repeat constructor|].
  simpl in Hd. b2p. inversion Hhd. constructor; [by apply IH|]. constructor. lia.
Qed.

Lemma ksort_strict {KS : KSort} {HKS : KSortLaws KS} {A} (key : A → Z) (cmp : A → A → Z) xs :
  (∀ a b, cmp a b = Z.b2z (key b <? key a) - Z.b2z (key a <? key b)) →
  has_adjacent_duplicate key (ksort cmp xs) = false → strictly_sorted key (ksort cmp xs).
Proof.
  intros Hcmp Hd. apply sorted_distinct_strict; [|done].
  assert (cmp_ok cmp) as Hok.
  { pose proof (key_cmp_ok key) as [Ht Htr].
    split; intros *; rewrite !Hcmp; [apply Ht | apply Htr]. }
  pose proof (ksort_sorted _ cmp xs Hok) as Hs.
  induction Hs as [|x l Hs IH Hhd]; constructor; auto.
  - apply IH. destruct l; simpl in *; [done|]. by b2p.
  - destruct Hhd; constructor. rewrite Hcmp in *. by apply b2z_cmp_le.
Qed.

(** ** Decoded fields are in range *)

Lemma read_array_Forall {A} (P : A → Prop) (dec : bytes → A) size bs off n :
  (∀ b, P (dec b)) → Forall P (read_array dec size bs off n).
Proof. intros HP. revert off; induction n; intros; simpl; constructor; auto. Qed.

Lemma byte_list_fits bs : Forall (fits 8) (byte_to_Z <$> bs).
Proof. apply Forall_fmap, Forall_true. intros b. apply byte_to_Z_range. Qed.

Lemma forallb_elem {A} (f : A → bool) xs x : forallb f xs = true → x ∈ xs → f x = true.
Proof. rewrite List.forallb_forall, list_elem_of_In. auto. Qed.

(** ** The port-target loop *)

Section validate.
Context {KS : KSort} {HKS : KSortLaws KS}.

Ltac lens := autorewrite with vh_len; rewrite ?ksort_length; autorewrite with vh_len; lia.

Lemma length_sort_rule_range first count rules :
  length (sort_rule_range first count rules) = length rules.
Proof. unfold sort_rule_range. lens. Qed.

Lemma sort_rule_range_perm first count rules : sort_rule_range first count rules ≡ₚ rules.
Proof.
  unfold sort_rule_range. rewrite (ksort_perm _ _ (take count _)), <- drop_drop.
  by rewrite take_drop, take_drop.
Qed.

(** Outside the range nothing moves. *)
Lemma take_sort_rule_range n first count rules :
  (n <= first)%nat → (first + count <= length rules)%nat →
  take n (sort_rule_range first count rules) = take n rules.
Proof.
  intros. unfold sort_rule_range. rewrite take_app_le by lens.
  rewrite take_take. f_equal. lia.
Qed.

Lemma drop_sort_rule_range n first count rules :
  (first + count <= n)%nat → (first + count <= length rules)%nat →
  drop n (sort_rule_range first count rules) = drop n rules.
Proof.
  intros. unfold sort_rule_range. rewrite app_assoc, drop_app_ge by lens.
  rewrite drop_drop. f_equal. lens.
Qed.

Lemma slice_sort_rule_range first count rules :
  (first + count <= length rules)%nat →
  take count (drop first (sort_rule_range first count rules)) =
    ksort policy_port_rule_cmp (take count (drop first rules)).
Proof.
  intros. unfold sort_rule_range. rewrite drop_app_ge by lens.
  replace (first - length (take first rules))%nat with O by lens.
  rewrite drop_0, take_app_le by lens. apply take_ge. lens.
Qed.

Lemma sorted_short {A} (R : relation A) (l : list A) : (length l <= 1)%nat → Sorted R l.
Proof. destruct l as [|x [|y l]]; simpl; intros; [constructor|by repeat constructor|lia]. Qed.

(** The rules of a target lie between the cursors, so sorting elsewhere
    leaves them alone. *)
Lemma rule_slice_take rules rules' t n :
  0 <= pt_first_rule t → 0 <= pt_rule_count t → pt_first_rule t + pt_rule_count t <= Z.of_nat n →
  take n rules = take n rules' → rule_slice rules t = rule_slice rules' t.
Proof.
  intros Hf Hc Hn Ht. unfold rule_slice.
  rewrite !take_drop_commute.
  replace (take (Z.to_nat (pt_first_rule t) + Z.to_nat (pt_rule_count t)) rules)
    with (take (Z.to_nat (pt_first_rule t) + Z.to_nat (pt_rule_count t)) (take n rules))
    by (rewrite take_take; f_equal; lia).
  rewrite Ht, take_take. do 2 f_equal. lia.
Qed.

Lemma rule_slice_drop rules rules' t n :
  Z.of_nat n <= pt_first_rule t → drop n rules = drop n rules' →
  rule_slice rules t = rule_slice rules' t.
Proof.
  intros Hf Hd. unfold rule_slice.
  replace (Z.to_nat (pt_first_rule t)) with (n + (Z.to_nat (pt_first_rule t) - n))%nat by lia.
  by rewrite <- !drop_drop, Hd.
Qed.

(** What the loop has established once it returns. *)
Record targets_validated (targets : list vpnhide_port_target_v3)
    (rules rules' : list vpnhide_port_rule_v3) (next next' : Z) : Prop := {
  tv_perm : rules' ≡ₚ rules;
  tv_next : 0 <= next <= next' ∧ next' <= Z.of_nat (length rules);
  tv_before : take (Z.to_nat next) rules' = take (Z.to_nat next) rules;
  tv_targets : Forall (λ t,
    0 < pt_uid t ∧ 0 <= pt_mode t <= VH_PORT_POLICY_DENY_ALL ∧
    next <= pt_first_rule t ∧ 0 <= pt_rule_count t ∧
    pt_first_rule t + pt_rule_count t <= next' ∧
    rule_slice rules' t ≡ₚ rule_slice rules t ∧
    Sorted (λ a b, policy_port_rule_cmp a b <= 0) (rule_slice rules' t)) targets
}.

Definition port_target_range (t : vpnhide_port_target_v3) : Prop :=
  fits 32 (pt_uid t) ∧ fits 32 (pt_first_rule t) ∧ fits 32 (pt_rule_count t) ∧ fits 8 (pt_mode t).

(** One iteration: the rules after the optional in-place sort. *)
Definition target_step (t : vpnhide_port_target_v3) (rules : list vpnhide_port_rule_v3) :=
  if 1 <? pt_rule_count t
  then sort_rule_range (Z.to_nat (pt_first_rule t)) (Z.to_nat (pt_rule_count t)) rules
  else rules.

Lemma target_step_spec t rules :
  0 <= pt_first_rule t → 0 <= pt_rule_count t →
  pt_first_rule t + pt_rule_count t <= Z.of_nat (length rules) →
  target_step t rules ≡ₚ rules ∧
  take (Z.to_nat (pt_first_rule t)) (target_step t rules) =
    take (Z.to_nat (pt_first_rule t)) rules ∧
  (∀ n, pt_first_rule t + pt_rule_count t <= Z.of_nat n →
    drop n (target_step t rules) = drop n rules) ∧
  rule_slice (target_step t rules) t ≡ₚ rule_slice rules t ∧
  Sorted (λ a b, policy_port_rule_cmp a b <= 0) (rule_slice (target_step t rules) t).
Proof.
  intros Hf Hc Hb. unfold target_step, rule_slice.
  destruct (Z.ltb_spec 1 (pt_rule_count t)).
  - rewrite slice_sort_rule_range by lia. split_and!.
    + apply sort_rule_range_perm.
    + apply take_sort_rule_range; lia.
    + intros. apply drop_sort_rule_range; lia.
    + apply ksort_perm.
    + apply ksort_sorted, policy_port_rule_cmp_ok.
  - split_and!; try done. apply sorted_short. lens.
Qed.

Lemma validate_port_targets_ok targets rules next rules' next' :
  Forall port_target_range targets → 0 <= next <= Z.of_nat (length rules) →
  Z.of_nat (length rules) < 2 ^ 32 →
  validate_port_targets targets rules (Z.of_nat (length rules)) next = Ok (rules', next') →
  targets_validated targets rules rules' next next'.
Proof.
  intros Hfit. revert rules next.
  induction Hfit as [|t targets Ht _ IH]; intros rules next Hn Hlen Hv; simpl in Hv.
  { simplify_eq. constructor; try done; lia. }
  destruct (port_target_valid _ _ _) eqn:Hval; [|done].
  unfold port_target_valid in Hval. b2p.
  destruct Ht as ([Hu0 _] & _ & [Hc0 _] & [Hm0 _]).
  unfold u32 in *. rewrite wrap_small in * by (unfold fits; lia).
  change (if 1 <? pt_rule_count t then _ else rules) with (target_step t rules) in Hv.
  destruct (target_step_spec t rules) as (Hp & Hb & Hd & Hsl & Hso); [lia..|].
  assert (length (target_step t rules) = length rules) as Hl by by rewrite Hp.
  assert (next = pt_first_rule t) as -> by lia.
  rewrite wrap_small in Hv by (unfold fits; lia). rewrite <- Hl in Hv.
  apply IH in Hv; [|lia..]. destruct Hv as [Hp' Hn' Hb' Hts].
  rewrite Hl in Hn'. constructor; [by rewrite Hp'|lia| |constructor].
  - rewrite <- Hb. pose proof (f_equal (take (Z.to_nat (pt_first_rule t))) Hb') as Hb2.
    rewrite !take_take, Nat.min_l in Hb2 by lia. done.
  - rewrite (rule_slice_take rules' (target_step t rules) t (Z.to_nat (pt_first_rule t + pt_rule_count t)))
      by (done || lia). split_and!; (done || lia).
  - eapply Forall_impl; [exact Hts|]. intros u (? & ? & ? & ? & ? & Hsu & ?).
    split_and!; try done; try lia. rewrite Hsu.
    by erewrite (rule_slice_drop _ rules u (Z.to_nat (pt_first_rule t + pt_rule_count t)))
      by (lia || apply Hd; lia).
Qed.
End validate.

(** ** Decoded elements fit their fields *)

Lemma decode_u32_fits bs : fits 32 (decode_u32 bs).
Proof. apply (le_at_range 4). Qed.

Lemma length_slice bs off n : (length (slice bs off n) <= n)%nat.
Proof. unfold slice. rewrite length_take. lia. Qed.

Lemma decode_port_rule_range bs :
  fits 16 (pr_start_port (decode_port_rule_v3 bs)) ∧
  fits 16 (pr_end_port (decode_port_rule_v3 bs)) ∧ fits 8 (pr_protocol (decode_port_rule_v3 bs)).
Proof. split_and!; [apply (le_at_range 2)..|apply (le_at_range 1)]. Qed.

Lemma decode_port_target_range bs : port_target_range (decode_port_target_v3 bs).
Proof. split_and!; [apply (le_at_range 4)..|apply (le_at_range 1)]. Qed.

Lemma decode_section_range bs off : section_fits (decode_section bs off).
Proof. split; apply (le_at_range 4). Qed.

Lemma policy_section_validate_Ok sec size cursor total cursor' :
  policy_section_validate sec size cursor total = Ok cursor' ↔
    sec_offset sec = cursor ∧ cursor' = cursor + sec_count sec * size ∧
    sec_count sec * size <= SIZE_MAX ∧ cursor' <= SIZE_MAX ∧ cursor' <= total.
Proof.
  unfold policy_section_validate, check_mul, check_add.
  destruct (Z.eqb_spec (sec_offset sec) cursor); simpl; [|naive_solver].
  destruct (Z.leb_spec (sec_count sec * size) SIZE_MAX); [|naive_solver lia].
  destruct (Z.leb_spec (cursor + sec_count sec * size) SIZE_MAX); [|naive_solver lia].
  destruct (Z.ltb_spec total (cursor + sec_count sec * size)); naive_solver lia.
Qed.

Lemma has_port_hooks_lor m : has_port_hooks (Z.lor m PORT_HOOK_BITS).
Proof. split; rewrite Z.lor_spec; apply orb_true_intro; by right. Qed.

Lemma force_port_hooks_ok m :
  fits 32 (am_uid m) → fits 8 (am_has_kernel_override m) → fits 8 (am_has_java_override m) →
  app_mask_valid m = true → app_mask_ok (app_mask_force_port_hooks m).
Proof.
  unfold app_mask_valid, app_mask_force_port_hooks, app_mask_ok, fits. intros ??? Hv. b2p.
  destruct (Z.eqb_spec (am_has_kernel_override m) 0); simpl; split_and!; try lia.
  intros _. apply has_port_hooks_lor.
Qed.

Lemma am_uid_force m : am_uid (app_mask_force_port_hooks m) = am_uid m.
Proof. unfold app_mask_force_port_hooks. by destruct (_ =? _). Qed.

Lemma uid_set_ok_sorted {KS : KSort} {HKS : KSortLaws KS} uids :
  Forall (fits 32) uids → Z.of_nat (length uids) < 2 ^ 31 →
  head_is_zero (ksort policy_uid_cmp uids) = false →
  has_adjacent_duplicate id (ksort policy_uid_cmp uids) = false →
  uid_set_ok (ksort policy_uid_cmp uids).
Proof.
  intros Hf Hl Hz Hd.
  assert (strictly_sorted id (ksort policy_uid_cmp uids)) as Hs by by apply ksort_strict.
  rewrite <- (ksort_perm _ policy_uid_cmp uids) in Hf.
  split_and!; [done| |by rewrite ksort_length].
  destruct Hs as [|u l Hs Hall]; [done|]. simpl in Hz. b2p.
  inversion Hf as [|?? Hu Hl']; subst. constructor; [unfold fits in *; lia|].
  rewrite Forall_forall in *. intros v Hv.
  pose proof (Hall v Hv). pose proof (Hl' v Hv). unfold fits, id in *. lia.
Qed.

(** ** Accepted payloads give well-formed snapshots *)

Section wf.
Context {KS : KSort} {HKS : KSortLaws KS}.

(** What the copy phase guarantees before any validation. *)
Record snapshot_raw (s : vpnhide_policy_snapshot) : Prop := {
  raw_kmod : Forall (fits 32) (kmod_uids s) ∧ Z.of_nat (length (kmod_uids s)) < 2 ^ 31;
  raw_lsposed : Forall (fits 32) (lsposed_uids s) ∧ Z.of_nat (length (lsposed_uids s)) < 2 ^ 31;
  raw_targets : Forall port_target_range (port_targets s) ∧
    Z.of_nat (length (port_targets s)) < 2 ^ 31;
  raw_rules : Forall (λ r, fits 16 (pr_start_port r) ∧ fits 16 (pr_end_port r) ∧
    fits 8 (pr_protocol r)) (port_rules s) ∧ Z.of_nat (length (port_rules s)) < 2 ^ 31;
  raw_masks : Forall (λ m, fits 32 (am_uid m) ∧ fits 8 (am_has_kernel_override m) ∧
    fits 8 (am_has_java_override m)) (app_hook_masks s) ∧
    Z.of_nat (length (app_hook_masks s)) < 2 ^ 31;
  raw_active : has_port_hooks (active_hooks_mask s);
  raw_kmod_mode : 0 <= kmod_match_mode s <= VPNHIDE_MATCH_EXCLUDE;
  raw_lsposed_mode : 0 <= lsposed_match_mode s <= VPNHIDE_MATCH_EXCLUDE;
  raw_port_mode : 0 <= port_match_mode s <= VPNHIDE_MATCH_EXCLUDE;
  raw_ifaces : 0 <= if_count (iface_prefixes s) <= MAX_IFACE_PREFIXES
}.

Definition v3_sections (p : vpnhide_policy_payload_v3) : list vpnhide_policy_section_v3 :=
  [p3_kmod_uids p; p3_lsposed_uids p; p3_port_targets p; p3_port_rules p; p3_app_hook_masks p].

(** The accepted layouts: the sections follow each other without gaps. *)
Definition v3_layout_spec (p : vpnhide_policy_payload_v3) (size : Z) : Prop :=
  let o2 := 576 + 4 * sec_count (p3_kmod_uids p) in
  let o3 := o2 + 4 * sec_count (p3_lsposed_uids p) in
  let o4 := o3 + 16 * sec_count (p3_port_targets p) in
  let o5 := o4 + 8 * sec_count (p3_port_rules p) in
  size <= VPNHIDE_POLICY_MAX_BYTES ∧ p3_total_size p = size ∧
  p3_iface_count p <= MAX_IFACE_PREFIXES ∧
  sec_offset (p3_kmod_uids p) = 576 ∧ sec_offset (p3_lsposed_uids p) = o2 ∧
  sec_offset (p3_port_targets p) = o3 ∧ sec_offset (p3_port_rules p) = o4 ∧
  sec_offset (p3_app_hook_masks p) = o5 ∧
  size = o5 + 16 * sec_count (p3_app_hook_masks p).

Lemma policy_v3_layout_Ok p size :
  Forall (λ s, 0 <= sec_count s) (v3_sections p) →
  policy_v3_layout p size = Ok () ↔ v3_layout_spec p size.
Proof.
  unfold v3_sections. rewrite !Forall_cons. intros (? & ? & ? & ? & ? & _).
  unfold policy_v3_layout, v3_layout_spec. split.
  - intros HL. case_result. b2p.
    repeat match goal with
    | H : policy_section_validate _ _ _ _ = Ok _ |- _ =>
        apply policy_section_validate_Ok in H as (? & -> & ? & ? & ?)
    end.
    unfold sizeof_u32, sizeof_payload_v3, sizeof_port_target_v3, sizeof_port_rule_v3,
      sizeof_app_hook_mask_v3 in *. lia.
  - unfold VPNHIDE_POLICY_MAX_BYTES, MAX_IFACE_PREFIXES.
    intros (? & ? & ? & ? & ? & ? & ? & ? & ?).
    destruct (_ || _) eqn:E.
    { rewrite !orb_true_iff, negb_true_iff, !Z.ltb_lt, Z.eqb_neq in E.
      unfold sizeof_payload_v3 in E. lia. }
    unfold sizeof_u32, sizeof_payload_v3, sizeof_port_target_v3, sizeof_port_rule_v3,
      sizeof_app_hook_mask_v3, SIZE_MAX in *.
    do 5 (apply bind_Ok; eexists; split;
      [apply policy_section_validate_Ok; split_and!;
         [eassumption || lia | reflexivity | unfold SIZE_MAX; lia ..]|]).
    apply require_Ok, Z.eqb_eq. lia.
Qed.

Lemma decode_sections_fit payload : Forall section_fits (v3_sections (decode_payload_v3 payload)).
Proof. repeat constructor; apply (le_at_range 4). Qed.

Lemma policy_v3_copy_raw payload :
  policy_v3_layout (decode_payload_v3 payload) (Z.of_nat (length payload)) = Ok () →
  snapshot_raw (policy_v3_copy (decode_payload_v3 payload) payload).
Proof.
  pose proof (decode_sections_fit payload) as Hf.
  assert (0 <= p3_iface_count (decode_payload_v3 payload)) by apply (le_at_range 4).
  set (p := decode_payload_v3 payload) in *. clearbody p.
  rewrite policy_v3_layout_Ok by (eapply Forall_impl; [exact Hf|]; by intros ? [? []]).
  unfold v3_sections in Hf. rewrite !Forall_cons in Hf. destruct Hf as (? & ? & ? & ? & ? & _).
  unfold v3_layout_spec, section_fits, fits, VPNHIDE_POLICY_MAX_BYTES in *. intros.
  split; cbn [kmod_uids lsposed_uids port_targets port_rules app_hook_masks active_hooks_mask
    kmod_match_mode lsposed_match_mode port_match_mode iface_prefixes if_count policy_v3_copy].
  1-5: rewrite length_read_array; split; [apply read_array_Forall|lia].
  1,2: apply decode_u32_fits.
  - apply decode_port_target_range.
  - apply decode_port_rule_range.
  - intros b. split_and!; [apply (le_at_range 4)|apply (le_at_range 1)..].
  - apply has_port_hooks_lor.
  - done.
  - done.
  - done.
  - lia.
Qed.

Lemma policy_v3_finish_wf s s' :
  snapshot_raw s → policy_v3_finish s = Ok s' → snapshot_wf s'.
Proof.
  intros [[Hk Hkl] [Hl Hll] [Ht Htl] [Hr Hrl] [Hm Hml] Ha Hkm Hlm Hpm Hi] H.
  unfold policy_v3_finish in H. case_result.
  match goal with H : (let '(_, _) := ?x in _) = _ |- _ => destruct x as [rules next_rule] end.
  case_result. b2p. subst s'.
  match goal with H : validate_port_targets _ _ _ _ = _ |- _ =>
    apply validate_port_targets_ok in H as [Hp Hn _ Hts]; [|done|lia..] end.
  split; cbn [kmod_uids lsposed_uids port_targets port_rules app_hook_masks active_hooks_mask
    kmod_match_mode lsposed_match_mode port_match_mode iface_prefixes];
    try done; rewrite ?ksort_length, ?length_fmap; try done.
  - by apply uid_set_ok_sorted.
  - by apply uid_set_ok_sorted.
  - by apply ksort_strict.
  - rewrite (ksort_perm _ policy_port_target_cmp). apply Forall_forall. intros t Hin.
    rewrite Forall_forall in Ht, Hts. specialize (Ht t Hin) as [[_ ?] _].
    specialize (Hts t Hin) as (? & ? & ? & ? & ? & _ & ?).
    assert (length rules = length (port_rules s)) by by rewrite Hp.
    unfold port_target_ok. split_and!; try done; lia.
  - rewrite <- Hp in Hr. apply Forall_forall. intros r Hin.
    rewrite Forall_forall in Hr. destruct (Hr r Hin) as (? & ? & ?). unfold port_rule_ok, fits in *.
    assert (port_rule_valid r = true) as Hv by by eapply forallb_elem.
    unfold port_rule_valid in Hv. b2p. lia.
  - by rewrite Hp.
  - by apply ksort_strict.
  - rewrite (ksort_perm _ policy_app_mask_cmp). apply Forall_fmap, Forall_forall.
    intros m Hin. rewrite Forall_forall in Hm. destruct (Hm m Hin) as (? & ? & ?).
    apply force_port_hooks_ok; try done. by eapply forallb_elem.
Qed.

Lemma policy_snapshot_from_v3_wf alloc payload s :
  policy_snapshot_from_v3 alloc payload = Ok s → snapshot_wf s.
Proof.
  unfold policy_snapshot_from_v3. intros H. case_result. destruct x, x0.
  eauto using policy_v3_finish_wf, policy_v3_copy_raw.
Qed.

Lemma policy_snapshot_from_v4_wf alloc_v3 alloc payload s :
  policy_snapshot_from_v4 alloc_v3 alloc payload = Ok s → snapshot_wf s.
Proof.
  unfold policy_snapshot_from_v4. intros H. case_result. b2p. subst s.
  match goal with H : policy_snapshot_from_v3 _ _ = _ |- _ =>
    apply policy_snapshot_from_v3_wf in H as [] end.
  split; cbn [with_match_modes kmod_match_mode lsposed_match_mode port_match_mode]; try done.
  all: split; [apply (le_at_range 4)|done].
Qed.
End wf.

(** ** A concrete policy *)

(** Two hidden apps, one of them with a closed port range, one with its own
    hook mask. *)
Definition example_snapshot : vpnhide_policy_snapshot := {|
  active_hooks_mask := Z.lor PORT_HOOK_BITS 7;
  java_hooks_mask := 15; debug_enabled := 0; flags := 0;
  kmod_match_mode := 0; lsposed_match_mode := 0; port_match_mode := 0;
  iface_prefixes := mk_iface_data 1 (([x74; x75; x6e] ++ replicate 13 x00) :: replicate 31 (replicate 16 x00));
  kmod_uids := [10123; 10200]; lsposed_uids := [10123];
  port_targets := [mk_port_target_v3 10123 0 1 VH_PORT_POLICY_RULES [0; 0; 0]];
  port_rules := [mk_port_rule_v3 8080 8090 VH_PROTO_TCP [0; 0; 0]];
  app_hook_masks := [mk_app_hook_mask_v3 10200 PORT_HOOK_BITS 0 1 0 [0; 0]] |}.

Lemma example_snapshot_wf : snapshot_wf example_snapshot.
Proof.
  split; cbn [example_snapshot kmod_uids lsposed_uids port_targets port_rules app_hook_masks
    active_hooks_mask kmod_match_mode lsposed_match_mode port_match_mode iface_prefixes if_count]; try done.
  - split; [|split]; [|by repeat constructor|done].
    repeat constructor; unfold id; lia.
  - split; [|split]; [|by repeat constructor|done]. repeat constructor.
  - repeat constructor.
  - constructor; [|constructor]. unfold port_target_ok. simpl. split_and!; try done.
    repeat constructor.
  - constructor; [|constructor]. by unfold port_rule_ok.
  - repeat constructor.
  - constructor; [|constructor]. by unfold app_mask_ok.
Qed.

(** ** Accepted payloads *)

(** C19: a payload the kernel accepts in the version 4 format, whatever its
    bytes, becomes a snapshot whose tables are sorted, duplicate-free and
    within bounds, whose rule slices exist, and whose masks enable the port
    hooks. *)
Theorem accepted_v4_payload_wf {KS : KSort} {HKS : KSortLaws KS} alloc_v3 alloc payload s :
  policy_snapshot_from_v4 alloc_v3 alloc payload = Ok s → snapshot_wf s.
Proof. apply policy_snapshot_from_v4_wf. Qed.

(** The same holds for the version 3 format, from which the other two are
    translated. *)
Theorem accepted_v3_payload_wf {KS : KSort} {HKS : KSortLaws KS} alloc payload s :
  policy_snapshot_from_v3 alloc payload = Ok s → snapshot_wf s.
Proof. apply policy_snapshot_from_v3_wf. Qed.
