(* ===== verification/PolicyQuery.v ===== *)
(** * Policy queries of the kernel module

    The read side of [kmod/main.c]: UID matching, per-app hook masks and the
    port-target lookup, and [should_block_port] of [kmod/hooks_socket.c].
    [global_policy_snapshot] is an [option]: [None] is the NULL pointer before
    the first policy.  The eligibility rule for system UIDs, the two match
    modes and the early exit of the rule scan are the behaviours proved. *)
From S2P Require Import Prelude Abi Snapshot.

(** ** Lookups *)

Definition vpnhide_debug_is_enabled (snapshot : option vpnhide_policy_snapshot) : bool :=
  match snapshot with Some s => nonzero (debug_enabled s) | None => false end.

Definition vpnhide_active_hooks_mask (snapshot : option vpnhide_policy_snapshot) : Z :=
  match snapshot with Some s => active_hooks_mask s | None => 0 end.

Definition vpnhide_java_hooks_mask (snapshot : option vpnhide_policy_snapshot) : Z :=
  match snapshot with Some s => java_hooks_mask s | None => 0 end.

(** [*out] when the function returns true. *)
Definition lookup_app_kernel_mask (snapshot : option vpnhide_policy_snapshot) (uid : Z) : option Z :=
  s ← snapshot;
  m ← bs_find am_uid (app_hook_masks s) uid;
  if nonzero (am_has_kernel_override m) then Some (am_kernel_mask m) else None.

Definition is_hook_active (snapshot : option vpnhide_policy_snapshot)
    (index : vpnhide_hook_idx) (uid : Z) : bool :=
  let bit := u32 (Z.shiftl 1 (hook_bit index)) in
  match snapshot with
  | None => false
  | Some s =>
      let mask :=
        match bs_find am_uid (app_hook_masks s) uid with
        | Some m => if nonzero (am_has_kernel_override m) then am_kernel_mask m
                    else active_hooks_mask s
        | None => active_hooks_mask s
        end in
      nonzero (Z.land mask bit)
  end.

Definition vpnhide_uid_matches_mode (uids : list Z) (mode uid : Z) : bool :=
  if (uid =? 0) || (uid =? 1000) || (uid mod 100000 <? 10000) then false
  else
    let found := if bs_find id uids uid is Some _ then true else false in
    if mode =? VPNHIDE_MATCH_EXCLUDE then negb found else found.

Definition is_target_uid_val (snapshot : option vpnhide_policy_snapshot) (uid : Z) : bool :=
  match snapshot with
  | Some s => vpnhide_uid_matches_mode (kmod_uids s) (kmod_match_mode s) uid
  | None => false
  end.

(** [static const struct vpnhide_port_target_v3 deny_all] *)
Definition deny_all : vpnhide_port_target_v3 := {|
  pt_uid := 0; pt_first_rule := 0; pt_rule_count := 0;
  pt_mode := VH_PORT_POLICY_DENY_ALL; pt_reserved := [0; 0; 0]
|}.

Definition vpnhide_find_port_target (snapshot : option vpnhide_policy_snapshot) (uid : Z)
    : option vpnhide_port_target_v3 :=
  s ← snapshot;
  match bs_find pt_uid (port_targets s) uid with
  | Some t => Some t
  | None =>
      if (port_match_mode s =? VPNHIDE_MATCH_EXCLUDE) &&
         vpnhide_uid_matches_mode [] VPNHIDE_MATCH_EXCLUDE uid
      then Some deny_all else None
  end.

Definition rule_covers (r : vpnhide_port_rule_v3) (port proto : Z) : bool :=
  (pr_start_port r <=? port) && (port <=? pr_end_port r) &&
  ((pr_protocol r =? VH_PROTO_BOTH) || (pr_protocol r =? proto)).

(** The scan of rules [first_rule + i]; [None] is a read outside the table. *)
Fixpoint scan_port_rules (rules : list vpnhide_port_rule_v3) (first i : Z) (remaining : nat)
    (port proto : Z) : option bool :=
  match remaining with
  | O => Some false
  | S remaining =>
      r ← rules !! Z.to_nat (u32 (first + i));
      if rule_covers r port proto then Some true
      else if port <? pr_start_port r then Some false
      else scan_port_rules rules first (i + 1) remaining port proto
  end.

Definition should_block_port (s : vpnhide_policy_snapshot) (urules : vpnhide_port_target_v3)
    (port proto : Z) : option bool :=
  if pt_mode urules =? VH_PORT_POLICY_UNRESTRICTED then Some false
  else if pt_mode urules =? VH_PORT_POLICY_DENY_ALL then Some true
  else scan_port_rules (port_rules s) (pt_first_rule urules) 0
         (Z.to_nat (pt_rule_count urules)) port proto.

(** The port decision of a UID as the hooks take it: no target, no block. *)
Definition port_blocked (s : vpnhide_policy_snapshot) (uid port proto : Z) : option bool :=
  match vpnhide_find_port_target (Some s) uid with
  | None => Some false
  | Some t => should_block_port s t port proto
  end.

(** ** Declarative specifications *)

(** Android application UIDs: everything a policy may ever hide from. *)
Definition eligible (uid : Z) : Prop := uid ≠ 0 ∧ uid ≠ 1000 ∧ 10000 <= uid mod 100000.

#[export] Instance eligible_dec uid : Decision (eligible uid).
Proof. unfold eligible. apply _. Defined.

(** Membership under a match mode. *)
Definition matches (uids : list Z) (mode uid : Z) : Prop :=
  eligible uid ∧ if decide (mode = VPNHIDE_MATCH_EXCLUDE) then uid ∉ uids else uid ∈ uids.

(** The kernel hook mask in force for a UID. *)
Definition effective_mask (s : vpnhide_policy_snapshot) (uid mask : Z) : Prop :=
  (∃ m, m ∈ app_hook_masks s ∧ am_uid m = uid ∧ am_has_kernel_override m = 1 ∧
        mask = am_kernel_mask m) ∨
  ((∀ m, m ∈ app_hook_masks s → am_uid m = uid → am_has_kernel_override m ≠ 1) ∧
   mask = active_hooks_mask s).

Definition rule_covers_spec (r : vpnhide_port_rule_v3) (port proto : Z) : Prop :=
  pr_start_port r <= port <= pr_end_port r ∧
  (pr_protocol r = VH_PROTO_BOTH ∨ pr_protocol r = proto).

(** What a target blocks, by its mode. *)
Definition target_blocks (s : vpnhide_policy_snapshot) (t : vpnhide_port_target_v3)
    (port proto : Z) : Prop :=
  pt_mode t = VH_PORT_POLICY_DENY_ALL ∨
  (pt_mode t = VH_PORT_POLICY_RULES ∧
   ∃ r, r ∈ rule_slice (port_rules s) t ∧ rule_covers_spec r port proto).

(** What a whole policy blocks for a UID. *)
Definition policy_blocks (s : vpnhide_policy_snapshot) (uid port proto : Z) : Prop :=
  (∃ t, t ∈ port_targets s ∧ pt_uid t = uid ∧ target_blocks s t port proto) ∨
  ((∀ t, t ∈ port_targets s → pt_uid t ≠ uid) ∧
   port_match_mode s = VPNHIDE_MATCH_EXCLUDE ∧ eligible uid).

(** ** Lemmas *)

Lemma eligible_guard uid :
  (uid =? 0) || (uid =? 1000) || (uid mod 100000 <? 10000) = negb (bool_decide (eligible uid)).
Proof.
  unfold eligible. destruct (Z.eqb_spec uid 0), (Z.eqb_spec uid 1000),
    (Z.ltb_spec (uid mod 100000) 10000); simpl; case_bool_decide; simpl; try done; lia.
Qed.

Lemma bs_find_uid uids uid :
  strictly_sorted id uids → Z.of_nat (length uids) < 2 ^ 31 →
  (if bs_find id uids uid is Some _ then true else false) = bool_decide (uid ∈ uids).
Proof.
  intros Hs Hl. destruct (bs_find id uids uid) as [u|] eqn:E; symmetry.
  - apply bs_find_Some in E as [Hu Hk]; [|done..]. apply bool_decide_eq_true_2. by rewrite <- Hk.
  - apply bool_decide_eq_false_2. intros Hin.
    rewrite bs_find_None in E by done. by apply (E uid).
Qed.

Lemma uid_matches_mode_spec uids mode uid :
  uid_set_ok uids →
  vpnhide_uid_matches_mode uids mode uid = true ↔ matches uids mode uid.
Proof.
  intros (Hs & _ & Hl). unfold vpnhide_uid_matches_mode, matches.
  rewrite eligible_guard, bs_find_uid by done.
  destruct (decide (eligible uid)) as [He|He];
    [rewrite bool_decide_eq_true_2 by done | rewrite bool_decide_eq_false_2 by done]; simpl.
  - destruct (Z.eqb_spec mode VPNHIDE_MATCH_EXCLUDE), (decide (mode = VPNHIDE_MATCH_EXCLUDE));
      try done; rewrite ?negb_true_iff, ?bool_decide_eq_true, ?bool_decide_eq_false; tauto.
  - split; [done|tauto].
Qed.

Lemma uid_matches_mode_eligible uids mode uid :
  vpnhide_uid_matches_mode uids mode uid = true → eligible uid.
Proof.
  unfold vpnhide_uid_matches_mode. rewrite eligible_guard.
  case_bool_decide; [done|]. simpl. done.
Qed.

Lemma uid_matches_empty_exclude uid :
  vpnhide_uid_matches_mode [] VPNHIDE_MATCH_EXCLUDE uid = bool_decide (eligible uid).
Proof.
  unfold vpnhide_uid_matches_mode. rewrite eligible_guard. by case_bool_decide.
Qed.

Lemma hook_bit_range h : 0 <= hook_bit h < 32.
Proof. destruct h; simpl; lia. Qed.

Lemma land_bit_testbit mask n :
  0 <= n < 32 → nonzero (Z.land mask (u32 (Z.shiftl 1 n))) = Z.testbit mask n.
Proof.
  intros Hn. unfold u32. rewrite Z.shiftl_1_l, wrap_small.
  2:{ split; [lia|]. apply Z.pow_lt_mono_r; lia. }
  unfold nonzero. destruct (Z.testbit mask n) eqn:E.
  - apply negb_true_iff, Z.eqb_neq. intros H0.
    pose proof (f_equal (λ z, Z.testbit z n) H0) as Hb. simpl in Hb.
    rewrite Z.land_spec, E, Z.pow2_bits_true, Z.bits_0 in Hb by lia. done.
  - apply negb_false_iff, Z.eqb_eq, Z.bits_inj'. intros i Hi.
    rewrite Z.land_spec, Z.bits_0, Z.pow2_bits_eqb by lia.
    destruct (Z.eqb_spec n i) as [->|]; [by rewrite E | by rewrite andb_false_r].
Qed.

Section wf.
Context (s : vpnhide_policy_snapshot) (Hwf : snapshot_wf s).

Lemma find_mask_Some uid m :
  bs_find am_uid (app_hook_masks s) uid = Some m ↔ m ∈ app_hook_masks s ∧ am_uid m = uid.
Proof. apply bs_find_Some; apply Hwf. Qed.

Lemma find_mask_None uid :
  bs_find am_uid (app_hook_masks s) uid = None ↔ ∀ m, m ∈ app_hook_masks s → am_uid m ≠ uid.
Proof. apply bs_find_None; apply Hwf. Qed.

Lemma mask_override m :
  m ∈ app_hook_masks s →
  nonzero (am_has_kernel_override m) = bool_decide (am_has_kernel_override m = 1).
Proof.
  intros Hm. pose proof (wf_masks s Hwf) as Ha. rewrite Forall_forall in Ha.
  destruct (Ha m Hm) as (_ & ? & _). unfold nonzero.
  destruct (Z.eqb_spec (am_has_kernel_override m) 0); simpl; case_bool_decide; lia || done.
Qed.

Lemma is_hook_active_effective h uid mask :
  effective_mask s uid mask → is_hook_active (Some s) h uid = Z.testbit mask (hook_bit h).
Proof.
  intros Heff. unfold is_hook_active. rewrite land_bit_testbit by apply hook_bit_range. f_equal.
  destruct Heff as [(m & Hm & Hu & Ho & ->)|[Hno ->]].
  - rewrite (proj2 (find_mask_Some uid m)) by done. by rewrite Ho.
  - destruct (bs_find am_uid _ _) as [m|] eqn:E; [|done].
    apply find_mask_Some in E as [Hm Hu]. rewrite mask_override by done.
    by rewrite bool_decide_eq_false_2 by auto.
Qed.

Lemma effective_mask_exists uid : ∃ mask, effective_mask s uid mask.
Proof.
  destruct (bs_find am_uid (app_hook_masks s) uid) as [m|] eqn:E.
  - apply find_mask_Some in E as [Hm Hu].
    destruct (decide (am_has_kernel_override m = 1)) as [Ho|Ho].
    + exists (am_kernel_mask m). left. eauto.
    + exists (active_hooks_mask s). right. split; [|done]. intros m' Hm' Hu'.
      by rewrite (strictly_sorted_inj am_uid _ m' m (wf_masks_sorted s Hwf)) by congruence.
  - rewrite find_mask_None in E. exists (active_hooks_mask s). right. split; [|done].
    intros m Hm Hu. by destruct (E m).
Qed.

Lemma effective_mask_port_hooks uid mask : effective_mask s uid mask → has_port_hooks mask.
Proof.
  intros [(m & Hm & _ & Ho & ->)|[_ ->]]; [|apply Hwf].
  pose proof (wf_masks s Hwf) as Ha. rewrite Forall_forall in Ha.
  destruct (Ha m Hm) as (_ & _ & _ & Hp). auto.
Qed.

Lemma find_port_target_listed uid t :
  t ∈ port_targets s → pt_uid t = uid → vpnhide_find_port_target (Some s) uid = Some t.
Proof.
  intros Ht Hu. unfold vpnhide_find_port_target. simpl.
  by rewrite (proj2 (bs_find_Some pt_uid _ uid t (wf_targets_sorted s Hwf) (wf_targets_length s Hwf))).
Qed.

Lemma find_port_target_unlisted uid :
  (∀ t, t ∈ port_targets s → pt_uid t ≠ uid) →
  vpnhide_find_port_target (Some s) uid =
    if decide (port_match_mode s = VPNHIDE_MATCH_EXCLUDE ∧ eligible uid)
    then Some deny_all else None.
Proof.
  intros Hno. unfold vpnhide_find_port_target. simpl.
  rewrite (proj2 (bs_find_None pt_uid _ uid (wf_targets_sorted s Hwf) (wf_targets_length s Hwf))) by done.
  rewrite uid_matches_empty_exclude.
  destruct (Z.eqb_spec (port_match_mode s) VPNHIDE_MATCH_EXCLUDE); simpl;
    repeat case_bool_decide; repeat case_decide; tauto.
Qed.
End wf.

(** ** The rule scan *)

Lemma rule_covers_true r port proto :
  rule_covers r port proto = true ↔ rule_covers_spec r port proto.
Proof.
  unfold rule_covers, rule_covers_spec.
  rewrite !andb_true_iff, orb_true_iff, !Z.leb_le, !Z.eqb_eq. tauto.
Qed.

(** With the rules in ascending start order, stopping at the first rule that
    starts above the port loses nothing. *)
Lemma scan_port_rules_spec rules first port proto i n :
  0 <= first → 0 <= i → first + i + Z.of_nat n <= Z.of_nat (length rules) →
  Z.of_nat (length rules) < 2 ^ 32 →
  Sorted (λ a b, policy_port_rule_cmp a b <= 0)
    (take n (drop (Z.to_nat (first + i)) rules)) →
  scan_port_rules rules first i n port proto =
    Some (existsb (λ r, rule_covers r port proto) (take n (drop (Z.to_nat (first + i)) rules))).
Proof.
  intros Hf Hi Hb Hl. revert i Hi Hb.
  induction n as [|n IH]; intros i Hi Hb Hs; [by rewrite take_0|].
  cbn [scan_port_rules]. unfold u32. rewrite wrap_small by (unfold fits; lia).
  destruct (lookup_lt_is_Some_2 rules (Z.to_nat (first + i))) as [r Hr]; [lia|].
  rewrite Hr. cbn [mbind option_bind].
  rewrite (drop_S _ _ _ Hr) in Hs |- *. rewrite firstn_cons in Hs |- *. cbn [existsb].
  destruct (rule_covers r port proto) eqn:Hc; [done|]. simpl.
  replace (S (Z.to_nat (first + i))) with (Z.to_nat (first + (i + 1))) in * by lia.
  destruct (Z.ltb_spec port (pr_start_port r)) as [Hlt|Hge].
  - f_equal. symmetry. apply not_true_iff_false. rewrite List.existsb_exists.
    intros (r' & Hin & Hcov%rule_covers_true).
    apply Sorted_extends in Hs.
    2:{ intros a b c. apply policy_port_rule_cmp_ok. }
    rewrite List.Forall_forall in Hs. specialize (Hs r' Hin).
    rewrite policy_port_rule_cmp_le in Hs. destruct Hcov as [Hcov _]. lia.
  - apply IH; [lia..|]. by inversion Hs.
Qed.

Lemma should_block_port_spec s t port proto :
  snapshot_wf s → t ∈ port_targets s →
  ∃ b, should_block_port s t port proto = Some b ∧ (b = true ↔ target_blocks s t port proto).
Proof.
  intros Hwf Ht. pose proof (wf_rules_length s Hwf) as Hl. pose proof (wf_targets s Hwf) as Ha. rewrite Forall_forall in Ha.
  destruct (Ha t Ht) as (_ & Hm & Hf & Hc & Hb & Hs).
  unfold should_block_port, target_blocks, VH_PORT_POLICY_UNRESTRICTED, VH_PORT_POLICY_DENY_ALL,
    VH_PORT_POLICY_RULES in *.
  destruct (Z.eqb_spec (pt_mode t) 1) as [->|]; [exists false; split; [done|]; split; [done|lia]|].
  destruct (Z.eqb_spec (pt_mode t) 2) as [->|]; [exists true; split; [done|]; tauto|].
  eexists. split.
  { apply scan_port_rules_spec; try lia. by rewrite Z.add_0_r. }
  rewrite Z.add_0_r, List.existsb_exists. split.
  - intros (r & Hin & Hcov%rule_covers_true). right. split; [lia|]. exists r. split; [|done].
    by apply list_elem_of_In.
  - intros [?|(_ & r & Hin & Hcov)]; [lia|]. exists r. split; [by apply list_elem_of_In|].
    by apply rule_covers_true.
Qed.

(** The decision of the whole module, against the declarative policy. *)
Lemma port_blocked_spec s uid port proto :
  snapshot_wf s →
  ∃ b, port_blocked s uid port proto = Some b ∧ (b = true ↔ policy_blocks s uid port proto).
Proof.
  intros Hwf. unfold port_blocked, policy_blocks.
  destruct (bs_find pt_uid (port_targets s) uid) as [t|] eqn:E.
  - apply bs_find_Some in E as [Ht Hu]; [|apply Hwf..].
    rewrite (find_port_target_listed s Hwf uid t) by done.
    destruct (should_block_port_spec s t port proto Hwf Ht) as (b & -> & Hb).
    exists b. split; [done|]. rewrite Hb. split.
    + intros. left. eauto.
    + intros [(t' & Ht' & Hu' & Hb')|(Hno & _)]; [|by destruct (Hno t Ht)].
      by rewrite (strictly_sorted_inj pt_uid _ t t' (wf_targets_sorted s Hwf)) by congruence.
  - rewrite bs_find_None in E by apply Hwf.
    rewrite (find_port_target_unlisted s Hwf uid) by done. case_decide as Hd.
    + exists true. split; [done|]. split; [|done]. intros _. right. tauto.
    + exists false. split; [done|]. split; [done|].
      intros [(t & Ht & Hu & _)|(_ & Hm & He)]; [by destruct (E t Ht)|tauto].
Qed.

(** A UID outside the application range is closed only by a target of its own. *)
Lemma policy_blocks_core s uid port proto :
  ¬ eligible uid → (∀ t, t ∈ port_targets s → pt_uid t ≠ uid) → ¬ policy_blocks s uid port proto.
Proof. intros He Hno [(t & Ht & Hu & _)|(_ & _ & H)]; [by apply (Hno t)|done]. Qed.

(** ** Properties *)

(** Whatever policy is published (also a damaged one, also none), root, the
    system server and every other UID outside the application range are never
    hidden from. *)
Theorem core_uid_never_hidden snapshot uid :
  ¬ eligible uid → is_target_uid_val snapshot uid = false.
Proof.
  intros He. destruct snapshot as [s|]; [|done]. apply not_true_is_false.
  intros H%uid_matches_mode_eligible. done.
Qed.

Lemma core_uid_never_hidden_witness :
  is_target_uid_val (Some (with_match_modes 1 1 1 example_snapshot)) 1000 = false.
Proof. apply (core_uid_never_hidden (Some (with_match_modes 1 1 1 example_snapshot)) 1000).
  unfold eligible. lia. Defined.

(** The binary search over the target UIDs decides exactly set membership
    under the policy's match mode. *)
Theorem target_uid_iff s uid :
  snapshot_wf s →
  is_target_uid_val (Some s) uid = true ↔ matches (kmod_uids s) (kmod_match_mode s) uid.
Proof. intros Hwf. by apply uid_matches_mode_spec, Hwf. Qed.

Lemma target_uid_iff_witness :
  is_target_uid_val (Some example_snapshot) 10200 = true ↔
  matches (kmod_uids example_snapshot) (kmod_match_mode example_snapshot) 10200.
Proof. apply (target_uid_iff example_snapshot 10200 example_snapshot_wf). Defined.

(** A hook is active for a UID exactly when its bit is set in the mask in
    force for that UID (the override of its entry, else the global mask), there
    always is such a mask, and the two port hooks are on in it. *)
Theorem hook_active_effective s uid :
  snapshot_wf s →
  ∃ mask, effective_mask s uid mask ∧
    (∀ h, is_hook_active (Some s) h uid = Z.testbit mask (hook_bit h)) ∧
    is_hook_active (Some s) HOOK_CONNECT uid = true ∧ is_hook_active (Some s) HOOK_BIND uid = true.
Proof.
  intros Hwf. destruct (effective_mask_exists s Hwf uid) as [mask Hm]. exists mask.
  destruct (effective_mask_port_hooks s Hwf uid mask Hm) as [Hc Hb].
  split; [done|]. split; [|split]; intros; by rewrite (is_hook_active_effective s Hwf _ uid mask Hm).
Qed.

Lemma hook_active_effective_witness :
  ∃ mask, effective_mask example_snapshot 10200 mask ∧
    (∀ h, is_hook_active (Some example_snapshot) h 10200 = Z.testbit mask (hook_bit h)) ∧
    is_hook_active (Some example_snapshot) HOOK_CONNECT 10200 = true ∧
    is_hook_active (Some example_snapshot) HOOK_BIND 10200 = true.
Proof. apply (hook_active_effective example_snapshot 10200 example_snapshot_wf). Defined.

(** C17: looking up a UID's port target and scanning its rules, with the early
    exit once the rules start above the port, never reads outside the tables.
    For every application UID it blocks exactly the ports the policy blocks.
    UIDs outside the application range are never blocked by EXCLUDE mode; the
    lookup does honour a target that names such a UID, which [POLICY.md]
    rules out ([port_target_of_core_uid]). *)
Theorem port_decision_exact s uid port proto :
  snapshot_wf s →
  ∃ b, port_blocked s uid port proto = Some b ∧
    (eligible uid → (b = true ↔ policy_blocks s uid port proto)) ∧
    (¬ eligible uid → (∀ t, t ∈ port_targets s → pt_uid t ≠ uid) → b = false).
Proof.
  intros Hwf. destruct (port_blocked_spec s uid port proto Hwf) as (b & Hb & Hiff).
  exists b. split_and!; [done|done|]. intros He Hno. apply not_true_is_false.
  rewrite Hiff. apply policy_blocks_core; done.
Qed.

Lemma port_decision_exact_witness :
  eligible 10123 ∧
  ∃ b, port_blocked example_snapshot 10123 8085 VH_PROTO_TCP = Some b ∧
    (b = true ↔ policy_blocks example_snapshot 10123 8085 VH_PROTO_TCP).
Proof.
  assert (eligible 10123) as He by (repeat split; discriminate). split; [exact He|].
  destruct (port_decision_exact example_snapshot 10123 8085 VH_PROTO_TCP example_snapshot_wf)
    as (b & Hb & Hiff & _). exists b. split; [exact Hb|]. exact (Hiff He).
Defined.

(** Unlike hiding, port blocking has no eligibility check: a valid policy
    with an explicit target for the system server's UID closes its ports. *)
Theorem port_target_of_core_uid :
  ∃ s, snapshot_wf s ∧ ¬ eligible 1000 ∧ port_blocked s 1000 443 VH_PROTO_TCP = Some true.
Proof.
  exists (mk_snapshot PORT_HOOK_BITS 0 0 0 0 0 0 (mk_iface_data 0 []) [] []
    [mk_port_target_v3 1000 0 0 VH_PORT_POLICY_DENY_ALL [0; 0; 0]] [] []).
  split; [|split; [unfold eligible; lia|done]].
  split; cbn [kmod_uids lsposed_uids port_targets port_rules app_hook_masks active_hooks_mask
    kmod_match_mode lsposed_match_mode port_match_mode iface_prefixes if_count]; try done;
    by repeat constructor.
Qed.
