(* ===== verification/Userspace.v ===== *)
(** * Userspace substrate: JSON values, C conversions, allocation

    The parsed JSON tree and the typed getters of [kmod/parson.c] the policy
    resolver reads it with, the C conversions from [double], and a monad for
    code that allocates.  The tree is what the parser of [JsonParse] returns. *)
From S2P Require Import Prelude.
From Stdlib Require Import Strings.Byte QArith.
From stdpp Require Export strings.

#[global] Open Scope Z_scope.
#[local] Set Warnings "-register-all".

(** ** JSON trees *)

(** Numbers are finite doubles, hence rationals; strings keep their bytes. *)
Inductive json :=
  | JNull
  | JBool (b : bool)
  | JNumber (q : Q)
  | JString (s : bytes)
  | JArray (xs : list json)
  | JObject (fields : list (bytes * json)).

Abbreviation JSON_Object := (list (bytes * json)).
Abbreviation JSON_Array := (list json).

(** A C string literal. *)
Definition lit (s : string) : bytes := String.list_byte_of_string s.

(** [strcmp(a, b) == 0] *)
Definition strcmp_eq (a b : bytes) : bool := bool_decide (cstr a = cstr b).

(** Names of an object are distinct (the parser rejects duplicates), so the
    hash lookup is the lookup of the one entry with that name. *)
Fixpoint json_object_get_value (object : JSON_Object) (name : bytes) : option json :=
  match object with
  | [] => None
  | (k, v) :: object => if bool_decide (k = name) then Some v else json_object_get_value object name
  end.

Definition json_value_get_string (v : option json) : option bytes :=
  match v with Some (JString s) => Some s | _ => None end.
Definition json_value_get_number (v : option json) : Q :=
  match v with Some (JNumber q) => q | _ => 0%Q end.
Definition json_value_get_object (v : option json) : option JSON_Object :=
  match v with Some (JObject o) => Some o | _ => None end.
Definition json_value_get_array (v : option json) : option JSON_Array :=
  match v with Some (JArray a) => Some a | _ => None end.
Definition json_value_get_boolean (v : option json) : Z :=
  match v with Some (JBool b) => Z.b2z b | _ => -1 end.

Definition json_object_get_string (o : JSON_Object) (name : bytes) : option bytes :=
  json_value_get_string (json_object_get_value o name).
Definition json_object_get_number (o : JSON_Object) (name : bytes) : Q :=
  json_value_get_number (json_object_get_value o name).
Definition json_object_get_object (o : JSON_Object) (name : bytes) : option JSON_Object :=
  json_value_get_object (json_object_get_value o name).
Definition json_object_get_array (o : JSON_Object) (name : bytes) : option JSON_Array :=
  json_value_get_array (json_object_get_value o name).
Definition json_object_get_boolean (o : JSON_Object) (name : bytes) : Z :=
  json_value_get_boolean (json_object_get_value o name).
Definition json_object_has_value (o : JSON_Object) (name : bytes) : bool :=
  match json_object_get_value o name with Some _ => true | None => false end.

(** [array ? json_array_get_count(array) : 0] iterations over
    [json_array_get_object]; entries that are not objects are skipped. *)
Definition array_objects (a : option JSON_Array) : list JSON_Object :=
  omap (λ v, json_value_get_object (Some v)) (default [] a).

(** ** Conversions from double *)

(** C defines the conversion when the truncated value is representable; beyond
    that the platform decides, and all that is used is that the result is a
    value of the type. *)
Class FloatConv := {
  to_uint : Q → Z;
  to_int : Q → Z;
  to_long : Q → Z
}.

Definition Qtrunc (q : Q) : Z := Z.quot (Qnum q) (Zpos (Qden q)).

Class FloatConvLaws (FC : FloatConv) : Prop := {
  to_uint_fits : ∀ q, fits 32 (to_uint q);
  to_uint_trunc : ∀ q, fits 32 (Qtrunc q) → to_uint q = Qtrunc q;
  to_int_trunc : ∀ q, - 2 ^ 31 <= Qtrunc q < 2 ^ 31 → to_int q = Qtrunc q;
  to_long_trunc : ∀ q, - 2 ^ 63 <= Qtrunc q < 2 ^ 63 → to_long q = Qtrunc q
}.

(** arm64 saturates. *)
Definition clamp (lo hi x : Z) : Z := Z.max lo (Z.min hi x).

Definition arm64_conv : FloatConv := {|
  to_uint q := clamp 0 UINT32_MAX (Qtrunc q);
  to_int q := clamp (- 2 ^ 31) (2 ^ 31 - 1) (Qtrunc q);
  to_long q := clamp (- 2 ^ 63) (2 ^ 63 - 1) (Qtrunc q)
|}.

Lemma arm64_conv_laws : FloatConvLaws arm64_conv.
Proof. split; intros q; unfold fits; simpl; unfold clamp, UINT32_MAX; lia. Qed.

(** ** Allocation *)

(** A computation that allocates consumes the outcomes of the allocator, one
    per request; an exhausted list stands for a machine with enough memory. *)
Definition Alloc (A : Type) : Type := list bool → result (A * list bool).

#[export] Instance alloc_ret : MRet Alloc := λ A a mem, Ok (a, mem).
#[export] Instance alloc_bind : MBind Alloc := λ A B k m mem,
  match m mem with Ok (a, mem) => k a mem | Err e => Err e end.

Definition alloc_fail {A} (e : errno) : Alloc A := λ _, Err e.

(** One call of [malloc], [realloc] or [calloc]. *)
Definition alloc_once : Alloc bool := λ mem,
  match mem with
  | [] => Ok (true, [])
  | b :: mem => Ok (b, mem)
  end.

Lemma alloc_bind_Ok {A B} (m : Alloc A) (k : A → Alloc B) mem b mem' :
  (m ≫= k) mem = Ok (b, mem') ↔ ∃ a mem1, m mem = Ok (a, mem1) ∧ k a mem1 = Ok (b, mem').
Proof.
  unfold mbind, alloc_bind. destruct (m mem) as [[a mem1]|e]; split.
  - eauto.
  - intros (a' & m1 & [= -> ->] & H). done.
  - done.
  - intros (a' & m1 & H & _). done.
Qed.

Lemma alloc_ret_Ok {A} (a b : A) mem mem' :
  (mret a : Alloc A) mem = Ok (b, mem') ↔ a = b ∧ mem = mem'.
Proof. unfold mret, alloc_ret. split; [by intros [= -> ->]|by intros [-> ->]]. Qed.

Lemma alloc_fail_Ok {A} e mem (b : A) mem' : alloc_fail e mem = Ok (b, mem') ↔ False.
Proof. done. Qed.

(** Split a successful run into its steps. *)
Ltac run_alloc :=
  repeat match goal with
  | H : (_ ≫= _) _ = Ok (_, _) |- _ => apply alloc_bind_Ok in H as (? & ? & ? & ?)
  | H : mret _ _ = Ok (_, _) |- _ => apply alloc_ret_Ok in H as [? ?]
  | H : alloc_fail _ _ = Ok (_, _) |- _ => discriminate H
  | H : (if ?b then alloc_fail _ else _) _ = Ok _ |- _ =>
      let E := fresh "E" in destruct b eqn:E; [discriminate H|]
  | H : (if ?b then _ else alloc_fail _) _ = Ok _ |- _ =>
      let E := fresh "E" in destruct b eqn:E; [|discriminate H]
  end.

(** ** [grow_array] *)

(** [while (new_capacity <= count) new_capacity *= 2], with the overflow guard;
    [None] is [-EOVERFLOW]. Sixty-five doublings exceed any [size_t]. *)
Fixpoint grow_loop (fuel : nat) (new_capacity count : Z) : option Z :=
  match fuel with
  | O => None
  | S fuel =>
      if new_capacity <=? count then
        if SIZE_MAX / 2 <? new_capacity then None
        else grow_loop fuel (new_capacity * 2) count
      else Some new_capacity
  end.

Definition grow_array (capacity count element_size : Z) : Alloc Z :=
  if count <? capacity then mret capacity
  else match grow_loop 66 (if capacity =? 0 then 16 else capacity) count with
       | None => alloc_fail EOVERFLOW
       | Some new_capacity =>
           if SIZE_MAX / element_size <? new_capacity then alloc_fail EOVERFLOW
           else ok ← alloc_once;
                if (ok : bool) then mret new_capacity else alloc_fail ENOMEM
       end.

(** Enough rounds find a capacity above [count], at most double of it. *)
Lemma grow_loop_spec fuel cap count :
  0 < cap → 0 <= count < 2 ^ 62 → count < cap * 2 ^ Z.of_nat fuel →
  ∃ cap', grow_loop (S fuel) cap count = Some cap' ∧ count < cap' <= Z.max cap (2 * count).
Proof.
  revert cap. induction fuel as [|fuel IH]; intros cap Hc Hn Hf.
  - simpl. destruct (Z.leb_spec cap count); [simpl in Hf; lia|]. exists cap. split; [done|lia].
  - remember (S fuel) as n. cbn [grow_loop]. subst n.
    destruct (Z.leb_spec cap count) as [Hle|]; [|exists cap; split; [done|lia]].
    destruct (Z.ltb_spec (SIZE_MAX / 2) cap) as [Hm|_].
    { change (SIZE_MAX / 2) with (2 ^ 63 - 1) in Hm. lia. }
    destruct (IH (cap * 2)) as (cap' & -> & Hb); [lia..| |].
    { rewrite Nat2Z.inj_succ, Z.pow_succ_r in Hf by lia. lia. }
    exists cap'. split; [done|]. lia.
Qed.

(** Whatever the allocator does, success leaves room for one more element. *)
Lemma grow_array_room capacity count size mem cap' mem' :
  grow_array capacity count size mem = Ok (cap', mem') → count < cap'.
Proof.
  assert (∀ fuel cap cap', grow_loop fuel cap count = Some cap' → count < cap') as Hl.
  { induction fuel as [|fuel IH]; intros cap c; simpl; [done|].
    destruct (Z.leb_spec cap count); [|intros; simplify_eq; lia].
    destruct (_ <? _); [done|]. apply IH. }
  unfold grow_array. destruct (Z.ltb_spec count capacity).
  { intros. run_alloc. lia. }
  destruct (grow_loop _ _ _) as [c|] eqn:E; [|done]. apply Hl in E.
  intros. run_alloc. match goal with b : bool |- _ => destruct b end; run_alloc; [lia|done].
Qed.

(** The capacity discipline of a vector built by [grow_array]. *)
Definition capacity_ok (count capacity : Z) : Prop :=
  0 <= count <= capacity ∧ capacity <= Z.max 16 (2 * count).

Lemma grow_array_succeeds capacity count size :
  capacity_ok count capacity → count < 2 ^ 50 → 0 < size <= 256 →
  ∃ cap', grow_array capacity count size [] = Ok (cap', []) ∧ capacity_ok (count + 1) cap'.
Proof.
  unfold capacity_ok. intros [Hc Hcap] Hn Hsz. unfold grow_array.
  destruct (Z.ltb_spec count capacity); [exists capacity; split; [done|lia]|].
  destruct (grow_loop_spec 65 (if capacity =? 0 then 16 else capacity) count) as (cap' & -> & Hb);
    [destruct (Z.eqb_spec capacity 0); lia | lia | | ].
  { destruct (Z.eqb_spec capacity 0); [lia|].
    assert (1 * 2 ^ 65 <= capacity * 2 ^ Z.of_nat 65) by (apply Z.mul_le_mono_nonneg_r; lia). lia. }
  assert (cap' <= 2 ^ 51) as Hmax by (destruct (Z.eqb_spec capacity 0); lia).
  destruct (Z.ltb_spec (SIZE_MAX / size) cap') as [Hlt|_].
  { assert (SIZE_MAX / 256 <= SIZE_MAX / size).
    { apply Z.div_le_compat_l; unfold SIZE_MAX; lia. }
    assert (2 ^ 55 <= SIZE_MAX / 256) by done. lia. }
  exists cap'. split; [done|]. destruct (Z.eqb_spec capacity 0); lia.
Qed.
