(* ===== verification/PolicyResolve.v ===== *)
(** * Resolving the JSON configuration

    [kmod/vpnhide_policy.c]: the declarative configuration becomes UID sets and
    per-UID port rules.  In allowlist mode an application's port rules say what
    it may reach; the kernel only blocks, so they are complemented.  Error
    messages are not modelled, error codes are. *)
From S2P Require Import Prelude Abi Userspace.
From Stdlib Require Import Strings.Byte QArith.

#[local] Open Scope Z_scope.

(** ** Data *)

Inductive vpnhide_list_mode := VPNHIDE_LIST_BLACKLIST | VPNHIDE_LIST_ALLOWLIST.

#[export] Instance list_mode_eq_dec : EqDecision vpnhide_list_mode.
Proof. solve_decision. Defined.

Record vpnhide_port_rule := mk_port_rule {
  start_port : Z;
  end_port : Z;
  protocol : Z
}.

Record vpnhide_uid_vector := mk_uid_vector { uv_items : list Z; uv_capacity : Z }.

Record vpnhide_port_target := mk_port_target {
  tg_uid : Z;
  tg_mode : Z;
  tg_rules : list vpnhide_port_rule;
  tg_capacity : Z
}.

Record vpnhide_port_policy := mk_port_policy {
  pp_targets : list vpnhide_port_target;
  pp_capacity : Z
}.

Record vpnhide_policy_summary := mk_summary {
  sm_mode : vpnhide_list_mode;
  sm_configured_entries : Z;
  sm_rejected_core_uids : Z;
  sm_kmod_targets : Z;
  sm_lsposed_entries : Z;
  sm_port_targets : Z
}.

Definition sizeof_uid_t : Z := 4.
Definition sizeof_port_rule : Z := 6.
Definition sizeof_port_target : Z := 32.

Definition empty_vector : vpnhide_uid_vector := mk_uid_vector [] 0.
Definition zero_target : vpnhide_port_target := mk_port_target 0 0 [] 0.

(** Fail with [e] whatever the inner error was. *)
Definition alloc_or {A} (e : errno) (m : Alloc A) : Alloc A := λ mem,
  match m mem with Ok r => Ok r | Err _ => Err e end.

Definition read_mode (root : JSON_Object) : vpnhide_list_mode :=
  match json_object_get_object root (lit "globalConfig") with
  | None => VPNHIDE_LIST_BLACKLIST
  | Some global =>
      match json_object_get_string global (lit "listMode") with
      | Some mode =>
          if strcmp_eq mode (lit "ALLOWLIST") || strcmp_eq mode (lit "allowlist")
          then VPNHIDE_LIST_ALLOWLIST else VPNHIDE_LIST_BLACKLIST
      | None => VPNHIDE_LIST_BLACKLIST
      end
  end.

Definition add_uid_distinct (vector : vpnhide_uid_vector) (uid : Z) : Alloc vpnhide_uid_vector :=
  if uid =? 0 then mret vector
  else if bool_decide (uid ∈ uv_items vector) then mret vector
  else capacity ← grow_array (uv_capacity vector) (Z.of_nat (length (uv_items vector))) sizeof_uid_t;
       mret (mk_uid_vector (uv_items vector ++ [uid]) capacity).

(** [target->rules[target->rule_count++] = rule] after [grow_array]. *)
Definition push_rule (target : vpnhide_port_target) (rule : vpnhide_port_rule)
    : Alloc vpnhide_port_target :=
  capacity ← grow_array (tg_capacity target) (Z.of_nat (length (tg_rules target))) sizeof_port_rule;
  mret (mk_port_target (tg_uid target) (tg_mode target) (tg_rules target ++ [rule]) capacity).

Section resolve.
Context {FC : FloatConv}.

(** The checks of [add_port_rule]; a disabled rule is [Ok None]. *)
Definition parse_port_rule (rule : JSON_Object) : result (option vpnhide_port_rule) :=
  let start := to_long (json_object_get_number rule (lit "startPort")) in
  let end_ := to_long (json_object_get_number rule (lit "endPort")) in
  if json_object_get_boolean rule (lit "enabled") =? 0 then Ok None
  else if (start <? 0) || (end_ <? 0) || (65535 <? start) || (65535 <? end_) || (end_ <? start)
  then Err EINVAL
  else
    proto ← match json_object_get_string rule (lit "protocol") with
            | None => Ok VH_PROTO_BOTH
            | Some p =>
                if strcmp_eq p (lit "TCP") then Ok VH_PROTO_TCP
                else if strcmp_eq p (lit "UDP") then Ok VH_PROTO_UDP
                else if strcmp_eq p (lit "BOTH") then Ok VH_PROTO_BOTH
                else Err EINVAL
            end;
    Ok (Some (mk_port_rule (u16 start) (u16 end_) proto)).

(** The C result 0 or 1 only says whether a rule was added. *)
Definition add_port_rule (target : vpnhide_port_target) (rule : JSON_Object)
    : Alloc vpnhide_port_target :=
  match parse_port_rule rule with
  | Err e => alloc_fail e
  | Ok None => mret target
  | Ok (Some r) => push_rule target r
  end.

Definition set_full_range_port_rules (target : vpnhide_port_target)
    : Alloc vpnhide_port_target :=
  capacity ← grow_array (tg_capacity target) 0 sizeof_port_rule;
  mret (mk_port_target (tg_uid target) VH_PORT_POLICY_DENY_ALL
          [mk_port_rule 0 65535 VH_PROTO_BOTH] capacity).

(** Does a [portRules] entry name this application? *)
Definition port_rule_matches (package_name : option bytes) (user_id package_uid : Z)
    (rule : JSON_Object) : bool :=
  let name := json_object_get_string rule (lit "packageName") in
  let user := to_int (json_object_get_number rule (lit "userId")) in
  let rule_uid := to_uint (json_object_get_number rule (lit "uid")) in
  let has_user := json_object_has_value rule (lit "userId") in
  (negb (rule_uid =? 0) && negb (package_uid =? 0) && (rule_uid =? package_uid)) ||
  (match name, package_name with
   | Some name, Some package_name => strcmp_eq name package_name
   | _, _ => false
   end && (negb has_user || (user =? user_id))).

Fixpoint add_port_rules (rules : list JSON_Object) (target : vpnhide_port_target)
    : Alloc vpnhide_port_target :=
  match rules with
  | [] => mret target
  | rule :: rules => target ← add_port_rule target rule; add_port_rules rules target
  end.

Fixpoint add_matching_rules (matches : JSON_Object → bool) (rules : list JSON_Object)
    (target : vpnhide_port_target) : Alloc vpnhide_port_target :=
  match rules with
  | [] => mret target
  | rule :: rules =>
      target ← (if matches rule then add_port_rule target rule else mret target);
      add_matching_rules matches rules target
  end.

Definition resolve_named_port_rules (port_rules mass_rules : option JSON_Array)
    (package_name : option bytes) (user_id package_uid : Z) (full_range_fallback : bool)
    (target : vpnhide_port_target) : Alloc vpnhide_port_target :=
  target ← add_matching_rules (port_rule_matches package_name user_id package_uid)
             (array_objects port_rules) target;
  target ← add_port_rules (array_objects mass_rules) target;
  if full_range_fallback && bool_decide (tg_rules target = [])
  then set_full_range_port_rules target
  else mret target.

Definition port_rule_allows (allowed : list vpnhide_port_rule) (port proto : Z) : bool :=
  existsb (λ rule, (start_port rule <=? port) && (port <=? end_port rule) &&
    ((protocol rule =? VH_PROTO_BOTH) || (protocol rule =? proto))) allowed.

(** What must be blocked at [port]: -1 is nothing. *)
Definition blocked_protocol (allowed : list vpnhide_port_rule) (port : Z) : Z :=
  if port <? 65536 then
    let tcp_blocked := negb (port_rule_allows allowed port VH_PROTO_TCP) in
    let udp_blocked := negb (port_rule_allows allowed port VH_PROTO_UDP) in
    if tcp_blocked && udp_blocked then VH_PROTO_BOTH
    else if tcp_blocked then VH_PROTO_TCP
    else if udp_blocked then VH_PROTO_UDP
    else -1
  else -1.

(** The loop over the ports; [n] ports remain from [port] on. *)
Fixpoint complement_loop (allowed : list vpnhide_port_rule) (n : nat)
    (port range_start range_protocol : Z) (target : vpnhide_port_target)
    : Alloc vpnhide_port_target :=
  match n with
  | O => mret target
  | S n =>
      let proto := blocked_protocol allowed port in
      if negb (proto =? range_protocol) then
        target ← (if 0 <=? range_protocol
                  then push_rule target
                         (mk_port_rule (u16 range_start) (u16 (port - 1)) (u8 range_protocol))
                  else mret target);
        complement_loop allowed n (port + 1) port proto target
      else complement_loop allowed n (port + 1) range_start range_protocol target
  end.

Definition resolve_allowlist_exception_rules (port_rules mass_rules : option JSON_Array)
    (package_name : option bytes) (user_id package_uid : Z) : Alloc vpnhide_port_target :=
  allowed ← resolve_named_port_rules port_rules mass_rules package_name user_id package_uid
              false zero_target;
  if bool_decide (tg_rules allowed = [])
  then mret (mk_port_target 0 VH_PORT_POLICY_UNRESTRICTED [] 0)
  else complement_loop (tg_rules allowed) (Z.to_nat 65537) 0 (-1) (-1)
         (mk_port_target 0 VH_PORT_POLICY_RULES [] 0).

Definition app_uid (app : JSON_Object) : Z := to_uint (json_object_get_number app (lit "uid")).

(** [!uid || (uid % 100000) < 10000] *)
Definition is_core_uid (uid : Z) : bool := (uid =? 0) || (uid mod 100000 <? 10000).

Fixpoint resolve_target_apps (apps : list JSON_Object) (kmod lsposed : vpnhide_uid_vector)
    (rejected : Z) : Alloc (vpnhide_uid_vector * vpnhide_uid_vector * Z) :=
  match apps with
  | [] => mret (kmod, lsposed, rejected)
  | app :: apps =>
      let uid := app_uid app in
      if is_core_uid uid
      then resolve_target_apps apps kmod lsposed
             (if uid =? 0 then rejected else rejected + 1)
      else
        kmod ← (if json_object_get_boolean app (lit "kmod") =? 1
                then alloc_or ENOMEM (add_uid_distinct kmod uid) else mret kmod);
        lsposed ← (if json_object_get_boolean app (lit "lsposed") =? 1
                   then alloc_or ENOMEM (add_uid_distinct lsposed uid) else mret lsposed);
        resolve_target_apps apps kmod lsposed rejected
  end.

Definition vpnhide_resolve_targets (root : JSON_Object)
    : Alloc (vpnhide_uid_vector * vpnhide_uid_vector * vpnhide_policy_summary) :=
  let mode := read_mode root in
  let apps := json_object_get_array root (lit "apps") in
  '(kmod, lsposed, rejected) ← resolve_target_apps (array_objects apps) empty_vector empty_vector 0;
  mret (kmod, lsposed,
    {| sm_mode := mode;
       sm_configured_entries := s32 (Z.of_nat (length (default [] apps)));
       sm_rejected_core_uids := rejected;
       sm_kmod_targets := s32 (Z.of_nat (length (uv_items kmod)));
       sm_lsposed_entries := s32 (Z.of_nat (length (uv_items lsposed)));
       sm_port_targets := 0 |}).

(** The body of the loop for an application that gets a target. *)
Definition resolve_app_target (mode : vpnhide_list_mode) (port_rules mass_rules : option JSON_Array)
    (app : JSON_Object) (uid : Z) : Alloc vpnhide_port_target :=
  let package_name := json_object_get_string app (lit "packageName") in
  let user_id := to_int (json_object_get_number app (lit "userId")) in
  target ← match mode with
           | VPNHIDE_LIST_ALLOWLIST =>
               resolve_allowlist_exception_rules port_rules mass_rules package_name user_id uid
           | VPNHIDE_LIST_BLACKLIST =>
               target ← resolve_named_port_rules port_rules mass_rules package_name user_id uid
                          true zero_target;
               mret (mk_port_target (tg_uid target) VH_PORT_POLICY_RULES (tg_rules target)
                       (tg_capacity target))
           end;
  mret (mk_port_target uid (tg_mode target) (tg_rules target) (tg_capacity target)).

Fixpoint resolve_port_apps (mode : vpnhide_list_mode) (port_rules mass_rules : option JSON_Array)
    (apps : list JSON_Object) (result : vpnhide_port_policy) : Alloc vpnhide_port_policy :=
  match apps with
  | [] => mret result
  | app :: apps =>
      let uid := app_uid app in
      if negb (json_object_get_boolean app (lit "portHiding") =? 1) || is_core_uid uid ||
         bool_decide (uid ∈ (tg_uid <$> pp_targets result))
      then resolve_port_apps mode port_rules mass_rules apps result
      else
        capacity ← grow_array (pp_capacity result) (Z.of_nat (length (pp_targets result)))
                     sizeof_port_target;
        target ← resolve_app_target mode port_rules mass_rules app uid;
        resolve_port_apps mode port_rules mass_rules apps
          (mk_port_policy (pp_targets result ++ [target]) capacity)
  end.

Definition vpnhide_resolve_port_rules (root : JSON_Object) (summary : vpnhide_policy_summary)
    : Alloc (vpnhide_port_policy * vpnhide_policy_summary) :=
  result ← resolve_port_apps (sm_mode summary) (json_object_get_array root (lit "portRules"))
             (json_object_get_array root (lit "massPortRules"))
             (array_objects (json_object_get_array root (lit "apps"))) (mk_port_policy [] 0);
  mret (result,
    {| sm_mode := sm_mode summary;
       sm_configured_entries := sm_configured_entries summary;
       sm_rejected_core_uids := sm_rejected_core_uids summary;
       sm_kmod_targets := sm_kmod_targets summary;
       sm_lsposed_entries := sm_lsposed_entries summary;
       sm_port_targets := s32 (Z.of_nat (length (pp_targets result))) |}).
End resolve.

(** ** UID sets *)

Lemma alloc_or_Ok {A} e (m : Alloc A) mem a mem' :
  alloc_or e m mem = Ok (a, mem') ↔ m mem = Ok (a, mem').
Proof. unfold alloc_or. by destruct (m mem). Qed.

Lemma add_uid_distinct_spec v uid mem v' mem' :
  add_uid_distinct v uid mem = Ok (v', mem') → uid ≠ 0 → NoDup (uv_items v) →
  NoDup (uv_items v') ∧ ∀ u, u ∈ uv_items v' ↔ u ∈ uv_items v ∨ u = uid.
Proof.
  unfold add_uid_distinct. intros H Hu Hnd. destruct (Z.eqb_spec uid 0); [done|].
  case_bool_decide as Hin; run_alloc; subst.
  - split; [done|]. intros u. split; [auto|]. intros [?| ->]; auto.
  - simpl. split.
    + apply NoDup_app. split_and!; [done| |apply NoDup_singleton].
      intros y Hy. rewrite list_elem_of_singleton. by intros ->.
    + intros u. by rewrite elem_of_app, list_elem_of_singleton.
Qed.

(** The UIDs an application list configures under a flag. *)
Definition configured_uid {FC : FloatConv} (flag : bytes) (apps : list JSON_Object) (u : Z) : Prop :=
  ∃ app, app ∈ apps ∧ app_uid app = u ∧ is_core_uid u = false ∧
         json_object_get_boolean app flag = 1.

Lemma configured_uid_cons {FC : FloatConv} flag app apps u :
  configured_uid flag (app :: apps) u ↔
  (app_uid app = u ∧ is_core_uid u = false ∧ json_object_get_boolean app flag = 1) ∨
  configured_uid flag apps u.
Proof.
  unfold configured_uid. split.
  - intros (a & [->|Ha]%elem_of_cons & H); [by left|right; eauto].
  - intros [H|(a & Ha & H)]; [exists app|exists a]; (split; [|done]); [left|by right].
Qed.

(** One conditional insertion of the loop. *)
Lemma add_configured {FC : FloatConv} flag app v mem v' mem' :
  is_core_uid (app_uid app) = false → NoDup (uv_items v) →
  (if json_object_get_boolean app flag =? 1
   then alloc_or ENOMEM (add_uid_distinct v (app_uid app)) else mret v) mem = Ok (v', mem') →
  NoDup (uv_items v') ∧
  ∀ u, u ∈ uv_items v' ↔ u ∈ uv_items v ∨
    (app_uid app = u ∧ is_core_uid u = false ∧ json_object_get_boolean app flag = 1).
Proof.
  intros Hc Hnd H. destruct (Z.eqb_spec (json_object_get_boolean app flag) 1) as [Hb|Hb].
  - apply alloc_or_Ok, add_uid_distinct_spec in H as [Hnd' H]; [|unfold is_core_uid in Hc; b2p; done|done].
    split; [done|]. intros u. rewrite H. split; intros [?|?]; auto; right.
    + by subst.
    + by destruct_and!.
  - run_alloc. subst. split; [done|]. intros u. split; [auto|]. by intros [?|(_ & _ & ?)].
Qed.

Lemma resolve_target_apps_spec {FC : FloatConv} apps k l r mem k' l' r' mem' :
  resolve_target_apps apps k l r mem = Ok (k', l', r', mem') →
  NoDup (uv_items k) → NoDup (uv_items l) →
  NoDup (uv_items k') ∧ NoDup (uv_items l') ∧
  (∀ u, u ∈ uv_items k' ↔ u ∈ uv_items k ∨ configured_uid (lit "kmod") apps u) ∧
  (∀ u, u ∈ uv_items l' ↔ u ∈ uv_items l ∨ configured_uid (lit "lsposed") apps u).
Proof.
  revert k l r mem. induction apps as [|app apps IH]; intros k l r mem H Hk Hl;
    cbn [resolve_target_apps] in H.
  { run_alloc. simplify_eq. split_and!; try done; intros u; unfold configured_uid;
      (split; [auto|]); intros [?|(? & Hx & _)]; auto; by apply not_elem_of_nil in Hx. }
  destruct (is_core_uid (app_uid app)) eqn:Hc.
  - apply IH in H as (? & ? & Hks & Hls); [|done..]. split_and!; try done; intros u;
      rewrite ?Hks, ?Hls, configured_uid_cons; split; try tauto; intros [?|[(<- & ? & _)|?]];
      try tauto; congruence.
  - run_alloc.
    match goal with H : _ mem = _ |- _ => apply add_configured in H as [Hk1 Hks1]; [|done..] end.
    match goal with H : (if _ =? 1 then _ else mret l) _ = _ |- _ =>
      apply add_configured in H as [Hl1 Hls1]; [|done..] end.
    match goal with H : resolve_target_apps _ _ _ _ _ = _ |- _ =>
      apply IH in H as (? & ? & Hks & Hls); [|done..] end.
    split_and!; try done; intros u;
      rewrite ?Hks, ?Hls, ?Hks1, ?Hls1, configured_uid_cons; tauto.
Qed.

(** ** Port rules *)

Definition user_rule_ok (r : vpnhide_port_rule) : Prop :=
  0 <= start_port r <= end_port r ∧ end_port r <= 65535 ∧ 0 <= protocol r <= VH_PROTO_BOTH.

Definition user_rule_covers (r : vpnhide_port_rule) (port proto : Z) : Prop :=
  start_port r <= port <= end_port r ∧ (protocol r = VH_PROTO_BOTH ∨ protocol r = proto).

Definition user_rules_cover (rs : list vpnhide_port_rule) (port proto : Z) : Prop :=
  ∃ r, r ∈ rs ∧ user_rule_covers r port proto.

Lemma user_rules_cover_app rs1 rs2 port proto :
  user_rules_cover (rs1 ++ rs2) port proto ↔
  user_rules_cover rs1 port proto ∨ user_rules_cover rs2 port proto.
Proof.
  unfold user_rules_cover. setoid_rewrite elem_of_app. firstorder.
Qed.

Lemma user_rules_cover_singleton r port proto :
  user_rules_cover [r] port proto ↔ user_rule_covers r port proto.
Proof.
  unfold user_rules_cover. setoid_rewrite list_elem_of_singleton. naive_solver.
Qed.

Lemma port_rule_allows_spec rs port proto :
  port_rule_allows rs port proto = true ↔ user_rules_cover rs port proto.
Proof.
  unfold port_rule_allows, user_rules_cover, user_rule_covers. rewrite List.existsb_exists.
  setoid_rewrite list_elem_of_In. split; intros (r & Hr & H); exists r; (split; [done|]).
  - b2p. rewrite orb_true_iff, !Z.eqb_eq in *. lia.
  - rewrite !andb_true_iff, orb_true_iff, !Z.leb_le, !Z.eqb_eq. tauto.
Qed.

Lemma push_rule_spec t r mem t' mem' :
  push_rule t r mem = Ok (t', mem') →
  tg_uid t' = tg_uid t ∧ tg_mode t' = tg_mode t ∧ tg_rules t' = tg_rules t ++ [r] ∧
  Z.of_nat (length (tg_rules t')) <= tg_capacity t'.
Proof.
  unfold push_rule. intros. run_alloc. subst.
  match goal with H : grow_array _ _ _ _ = _ |- _ => apply grow_array_room in H end.
  simpl. split_and!; try done. rewrite length_app. simpl. lia.
Qed.

Section rules.
Context {FC : FloatConv} {HFC : FloatConvLaws FC}.

Definition rule_of (rule : JSON_Object) : option vpnhide_port_rule :=
  match parse_port_rule rule with Ok o => o | Err _ => None end.

Lemma parse_port_rule_ok rule r : parse_port_rule rule = Ok (Some r) → user_rule_ok r.
Proof.
  unfold parse_port_rule. destruct (_ =? 0); [done|]. intros. case_result. b2p. simplify_eq.
  unfold user_rule_ok, u16, VH_PROTO_BOTH; simpl. rewrite !wrap_small by (unfold fits; lia).
  split_and!; try lia; destruct (json_object_get_string _ _) as [p|]; case_result;
    repeat (destruct (strcmp_eq _ _); case_result); subst; done.
Qed.

Lemma rule_of_ok (rules : list JSON_Object) r : r ∈ omap rule_of rules → user_rule_ok r.
Proof.
  rewrite list_elem_of_omap. intros (rule & _ & H). unfold rule_of in H.
  destruct (parse_port_rule rule) as [o|] eqn:E; [|done]. subst. by eapply parse_port_rule_ok.
Qed.

Lemma add_port_rule_spec t rule mem t' mem' :
  add_port_rule t rule mem = Ok (t', mem') →
  tg_uid t' = tg_uid t ∧ tg_mode t' = tg_mode t ∧
  tg_rules t' = tg_rules t ++ omap rule_of [rule].
Proof.
  unfold add_port_rule. simpl. unfold rule_of.
  destruct (parse_port_rule rule) as [[r|]|e]; intros H; run_alloc.
  - apply push_rule_spec in H as (? & ? & ? & _). done.
  - subst. by rewrite app_nil_r.
Qed.

Lemma add_matching_rules_spec matches rules t mem t' mem' :
  add_matching_rules matches rules t mem = Ok (t', mem') →
  tg_uid t' = tg_uid t ∧ tg_mode t' = tg_mode t ∧
  tg_rules t' = tg_rules t ++ omap rule_of (List.filter matches rules).
Proof.
  revert t mem. induction rules as [|rule rules IH]; intros t mem H;
    cbn [add_matching_rules] in H; run_alloc; [subst; by rewrite app_nil_r|].
  match goal with H : add_matching_rules _ _ _ _ = _ |- _ => apply IH in H as (-> & -> & ->) end.
  cbn [List.filter]. destruct (matches rule); run_alloc.
  - match goal with H : add_port_rule _ _ _ = _ |- _ =>
      apply add_port_rule_spec in H as (-> & -> & ->) end.
    split_and!; [done..|]. rewrite <- app_assoc. f_equal. simpl. by destruct (rule_of rule).
  - by subst.
Qed.

Lemma add_port_rules_matching rules t mem :
  add_port_rules rules t mem = add_matching_rules (λ _, true) rules t mem.
Proof.
  revert t mem. induction rules as [|rule rules IH]; intros t mem; [done|].
  cbn [add_port_rules add_matching_rules]. unfold mbind, alloc_bind.
  destruct (add_port_rule t rule mem) as [[t1 mem1]|]; auto.
Qed.

(** The rules a configuration gives an application. *)
Definition config_rules (port_rules mass_rules : option JSON_Array) (package_name : option bytes)
    (user_id uid : Z) : list vpnhide_port_rule :=
  omap rule_of (List.filter (port_rule_matches package_name user_id uid) (array_objects port_rules))
  ++ omap rule_of (array_objects mass_rules).

Lemma filter_true {A} (xs : list A) : List.filter (λ _, true) xs = xs.
Proof. induction xs; simpl; congruence. Qed.

Lemma resolve_named_spec pr mr name user uid fallback t mem t' mem' :
  resolve_named_port_rules pr mr name user uid fallback t mem = Ok (t', mem') →
  tg_rules t = [] →
  (fallback = true ∧ config_rules pr mr name user uid = [] ∧
     tg_rules t' = [mk_port_rule 0 65535 VH_PROTO_BOTH]) ∨
  ((fallback = true → config_rules pr mr name user uid ≠ []) ∧
     tg_rules t' = config_rules pr mr name user uid ∧ tg_mode t' = tg_mode t).
Proof.
  unfold resolve_named_port_rules, config_rules. intros H Ht. run_alloc.
  match goal with H : add_matching_rules _ _ _ _ = _ |- _ =>
    apply add_matching_rules_spec in H as (_ & Hm1 & Hr1) end.
  match goal with H : add_port_rules _ _ _ = _ |- _ =>
    rewrite add_port_rules_matching in H;
    apply add_matching_rules_spec in H as (_ & Hm2 & Hr2) end.
  rewrite filter_true in Hr2. rewrite Hr1, Ht in Hr2. simpl in Hr2.
  match goal with H : (if ?b then _ else _) _ = _ |- _ => destruct b eqn:E end.
  - b2p. subst fallback. left. split_and!; [done|congruence|].
    unfold set_full_range_port_rules in *. run_alloc. by subst.
  - right. run_alloc. subst. split_and!; [|done|congruence].
    intros -> Hnil. b2p. apply bool_decide_eq_false_1 in E. congruence.
Qed.

(** ** The allowlist complement *)

(** The ranges the loop emits, without the vector. *)
Fixpoint complement_ranges (f : Z → Z) (n : nat) (port rs rp : Z) : list vpnhide_port_rule :=
  match n with
  | O => []
  | S n =>
      if negb (f port =? rp) then
        (if 0 <=? rp then [mk_port_rule (u16 rs) (u16 (port - 1)) (u8 rp)] else []) ++
        complement_ranges f n (port + 1) port (f port)
      else complement_ranges f n (port + 1) rs rp
  end.

Lemma complement_loop_ranges allowed n port rs rp t mem t' mem' :
  complement_loop allowed n port rs rp t mem = Ok (t', mem') →
  tg_mode t' = tg_mode t ∧
  tg_rules t' = tg_rules t ++ complement_ranges (blocked_protocol allowed) n port rs rp.
Proof.
  revert port rs rp t mem. induction n as [|n IH]; intros port rs rp t mem H;
    cbn [complement_loop complement_ranges] in *; [run_alloc; subst; by rewrite app_nil_r|].
  destruct (negb _); [|by eapply IH]. run_alloc.
  match goal with H : complement_loop _ _ _ _ _ _ _ = _ |- _ => apply IH in H as [-> ->] end.
  destruct (0 <=? rp); run_alloc.
  - match goal with H : push_rule _ _ _ = _ |- _ => apply push_rule_spec in H as (_ & -> & -> & _) end.
    by rewrite <- app_assoc.
  - by subst.
Qed.

(** [p] blocks [proto]. *)
Definition proto_hit (p proto : Z) : Prop := 0 <= p ∧ (p = VH_PROTO_BOTH ∨ p = proto).

Lemma complement_ranges_cover f n port rs rp q proto :
  (∀ p, -1 <= f p <= 2) → -1 <= rp <= 2 → f (port + Z.of_nat n - 1) = -1 → (0 < n)%nat →
  (0 <= rp → 0 <= rs < port) → 0 <= port → port + Z.of_nat n - 1 <= 65536 →
  user_rules_cover (complement_ranges f n port rs rp) q proto ↔
    (rs <= q < port ∧ proto_hit rp proto) ∨
    (port <= q < port + Z.of_nat n ∧ proto_hit (f q) proto).
Proof.
  intros Hf. revert port rs rp.
  induction n as [|n IH]; intros port rs rp Hrp Hlast Hn Hrs Hport Hmax; [lia|].
  cbn [complement_ranges]. unfold proto_hit.
  assert (0 <= rp → mk_port_rule (u16 rs) (u16 (port - 1)) (u8 rp) =
                    mk_port_rule rs (port - 1) rp) as Hcast.
  { intros Hr. specialize (Hrs Hr). unfold u16, u8.
    rewrite !wrap_small by (unfold fits; lia). done. }
  destruct (Z.eqb_spec (f port) rp) as [Heq|Hne]; cbn [negb].
  - destruct n as [|n].
    { replace (port + Z.of_nat 1 - 1) with port in Hlast by lia.
      assert (rp = -1) as -> by lia. split; [intros (r & Hr & _); by apply not_elem_of_nil in Hr|].
      intros [[_ [? _]]|[Hq [H0 _]]]; [lia|]. replace q with port in H0 by lia. lia. }
    rewrite IH; [|lia| by rewrite <- Hlast; f_equal; lia|lia|lia|lia|lia].
    unfold proto_hit. split; intros [[H1 H2]|[H1 H2]]; try (right; split; [lia|done]).
    + destruct (Z.eq_dec q port) as [->|]; [right|left]; (split; [lia|congruence || done]).
    + left. split; [lia|done].
    + destruct (Z.eq_dec q port) as [->|]; [left|right]; (split; [lia|congruence || done]).
  - rewrite user_rules_cover_app.
    assert (user_rules_cover
      (if 0 <=? rp then [mk_port_rule (u16 rs) (u16 (port - 1)) (u8 rp)] else []) q proto ↔
      rs <= q < port ∧ proto_hit rp proto) as ->.
    { unfold proto_hit. destruct (Z.leb_spec 0 rp).
      - rewrite Hcast, user_rules_cover_singleton by done. unfold user_rule_covers. simpl.
        intuition lia.
      - split; [intros (r & Hr & _); by apply not_elem_of_nil in Hr|lia]. }
    destruct n as [|n].
    { replace (port + Z.of_nat 1 - 1) with port in Hlast by lia. simpl.
      split; intros [H|H]; auto.
      - destruct H as (r & Hr & _). by apply not_elem_of_nil in Hr.
      - destruct H as [Hq [H0 _]]. replace q with port in H0 by lia. lia. }
    rewrite IH; [|apply Hf|by rewrite <- Hlast; f_equal; lia|lia|lia|lia|lia].
    unfold proto_hit. split.
    + intros [H|[[H1 H2]|[H1 H2]]]; [by left|right|right]; (split; [lia|]); [|done].
      by replace q with port by lia.
    + intros [H|[H1 H2]]; [by left|right].
      destruct (Z.eq_dec q port) as [->|]; [left|right]; (split; [lia|done]).
Qed.

Lemma complement_ranges_ok f n port rs rp :
  (∀ p, -1 <= f p <= 2) → -1 <= rp <= 2 → (0 <= rp → 0 <= rs < port) → 0 <= port →
  port + Z.of_nat n - 1 <= 65536 → Forall user_rule_ok (complement_ranges f n port rs rp).
Proof.
  intros Hf. revert port rs rp.
  induction n as [|n IH]; intros port rs rp Hrp Hrs Hport Hmax; cbn [complement_ranges]; [done|].
  destruct (negb _); [|apply IH; lia].
  apply Forall_app. split; [|apply IH; (apply Hf || lia)].
  destruct (Z.leb_spec 0 rp) as [Hr|]; [|done]. constructor; [|done].
  specialize (Hrs Hr). unfold u16, u8. rewrite !wrap_small by (unfold fits; lia).
  unfold user_rule_ok, VH_PROTO_BOTH; simpl. lia.
Qed.

Lemma blocked_protocol_range allowed p : -1 <= blocked_protocol allowed p <= 2.
Proof.
  unfold blocked_protocol, VH_PROTO_BOTH, VH_PROTO_TCP, VH_PROTO_UDP.
  destruct (_ <? _); [|lia]. destruct (port_rule_allows _ _ _), (port_rule_allows _ _ _); simpl; lia.
Qed.

Lemma blocked_protocol_hit allowed p proto :
  p < 65536 → proto = VH_PROTO_TCP ∨ proto = VH_PROTO_UDP →
  proto_hit (blocked_protocol allowed p) proto ↔ ¬ user_rules_cover allowed p proto.
Proof.
  intros Hp Hproto. rewrite <- port_rule_allows_spec. unfold blocked_protocol, proto_hit.
  destruct (Z.ltb_spec p 65536); [|lia].
  unfold VH_PROTO_BOTH, VH_PROTO_TCP, VH_PROTO_UDP in *.
  destruct Hproto as [-> | ->];
    destruct (port_rule_allows allowed p 0), (port_rule_allows allowed p 1); simpl;
    intuition (lia || congruence).
Qed.

(** What a userspace target asks the kernel to block. *)
Definition user_target_blocks (t : vpnhide_port_target) (port proto : Z) : Prop :=
  tg_mode t = VH_PORT_POLICY_DENY_ALL ∨
  (tg_mode t = VH_PORT_POLICY_RULES ∧ user_rules_cover (tg_rules t) port proto).

(** What the configuration means for an application with rules [rs]. *)
Definition app_blocks (mode : vpnhide_list_mode) (rs : list vpnhide_port_rule) (port proto : Z)
    : Prop :=
  match mode with
  | VPNHIDE_LIST_BLACKLIST => rs = [] ∨ user_rules_cover rs port proto
  | VPNHIDE_LIST_ALLOWLIST => rs ≠ [] ∧ ¬ user_rules_cover rs port proto
  end.

Definition real_port (port proto : Z) : Prop :=
  0 <= port <= 65535 ∧ (proto = VH_PROTO_TCP ∨ proto = VH_PROTO_UDP).

Record target_meets (mode : vpnhide_list_mode) (rs : list vpnhide_port_rule)
    (t : vpnhide_port_target) : Prop := {
  tm_rules : Forall user_rule_ok (tg_rules t);
  tm_mode : 0 <= tg_mode t <= VH_PORT_POLICY_DENY_ALL;
  tm_blocks : ∀ port proto, real_port port proto →
    user_target_blocks t port proto ↔ app_blocks mode rs port proto
}.

Lemma config_rules_ok pr mr name user uid : Forall user_rule_ok (config_rules pr mr name user uid).
Proof.
  apply Forall_app. split; apply Forall_forall; intros r; apply rule_of_ok.
Qed.

Lemma resolve_allowlist_exception_spec pr mr name user uid mem t mem' :
  resolve_allowlist_exception_rules pr mr name user uid mem = Ok (t, mem') →
  target_meets VPNHIDE_LIST_ALLOWLIST (config_rules pr mr name user uid) t.
Proof.
  unfold resolve_allowlist_exception_rules. intros H. run_alloc.
  match goal with H : resolve_named_port_rules _ _ _ _ _ _ _ _ = _ |- _ =>
    apply resolve_named_spec in H as [[? _]|(_ & Hr & _)]; [done| |done] end.
  rewrite Hr in *. set (rs := config_rules pr mr name user uid) in *. clearbody rs.
  case_bool_decide as Hrs; run_alloc.
  - subst. split; simpl; [done|unfold VH_PORT_POLICY_UNRESTRICTED, VH_PORT_POLICY_DENY_ALL; lia|].
    intros port proto _. split; [|tauto].
    unfold user_target_blocks; simpl. by intros [?|[? _]].
  - match goal with H : complement_loop _ _ _ _ _ _ _ = _ |- _ =>
      apply complement_loop_ranges in H as [Hm Hrules] end.
    simpl in Hm. change (tg_rules (mk_port_target _ _ [] _)) with (@nil vpnhide_port_rule) in Hrules.
    rewrite app_nil_l in Hrules.
    set (n := Z.to_nat 65537) in *. assert (Z.of_nat n = 65537) as Hn by by apply Z2Nat.id.
    clearbody n. split; rewrite ?Hm, ?Hrules.
    + apply complement_ranges_ok; [apply blocked_protocol_range|lia..].
    + unfold VH_PORT_POLICY_RULES, VH_PORT_POLICY_DENY_ALL; lia.
    + intros port proto [Hp Hproto]. unfold user_target_blocks, app_blocks. rewrite Hm, Hrules.
      rewrite complement_ranges_cover; [|apply blocked_protocol_range|lia|by rewrite Hn|lia..].
      rewrite Hn. rewrite blocked_protocol_hit by (done || lia).
      split; [|intros [_ H]; right; split; [done|]; right; split; [lia|done]].
      intros [?|[_ [[_ [? _]]|[_ H]]]]; [done|lia|done].
Qed.

Lemma resolve_app_target_spec mode pr mr app uid mem t mem' :
  resolve_app_target mode pr mr app uid mem = Ok (t, mem') →
  tg_uid t = uid ∧
  target_meets mode (config_rules pr mr (json_object_get_string app (lit "packageName"))
    (to_int (json_object_get_number app (lit "userId"))) uid) t.
Proof.
  unfold resolve_app_target. intros H. run_alloc. subst. split; [done|].
  destruct mode; run_alloc; subst.
  - match goal with H : resolve_named_port_rules _ _ _ _ _ _ _ _ = _ |- _ =>
      apply resolve_named_spec in H as [(_ & Hnil & Hr)|(Hne & Hr & _)]; [| |done] end.
    + rewrite Hnil. split; cbn [tg_rules tg_mode]; rewrite ?Hr.
      * repeat constructor; simpl; unfold VH_PROTO_BOTH; lia.
      * done.
      * intros port proto [Hp Hproto]. unfold user_target_blocks, app_blocks; simpl.
        split; [by left|]. intros _. right. split; [done|].
        apply user_rules_cover_singleton. split; [simpl; lia|by left].
    + specialize (Hne eq_refl). split; cbn [tg_rules tg_mode]; rewrite ?Hr.
      * apply config_rules_ok.
      * done.
      * intros port proto _. unfold user_target_blocks, app_blocks; simpl.
        split; [intros [?|[_ ?]]; [done|by right]|]. intros [?|?]; [done|by right].
  - match goal with H : resolve_allowlist_exception_rules _ _ _ _ _ _ = _ |- _ =>
      apply resolve_allowlist_exception_spec in H as [Hok Hmode Hb] end.
    split; cbn [tg_rules tg_mode]; auto.
Qed.

(** ** Which applications get a target *)

(** Selected for port policy: an object with [portHiding] true and an
    application UID. *)
Definition port_app (app : JSON_Object) : bool :=
  (json_object_get_boolean app (lit "portHiding") =? 1) && negb (is_core_uid (app_uid app)).

(** The first entry of a UID decides. *)
Definition port_app_for (apps : list JSON_Object) (uid : Z) : option JSON_Object :=
  List.find (λ app, port_app app && (app_uid app =? uid)) apps.

Definition app_rules (pr mr : option JSON_Array) (app : JSON_Object) : list vpnhide_port_rule :=
  config_rules pr mr (json_object_get_string app (lit "packageName"))
    (to_int (json_object_get_number app (lit "userId"))) (app_uid app).

Lemma resolve_port_apps_spec mode pr mr apps res mem res' mem' :
  resolve_port_apps mode pr mr apps res mem = Ok (res', mem') →
  NoDup (tg_uid <$> pp_targets res) →
  ∃ new, pp_targets res' = pp_targets res ++ new ∧ NoDup (tg_uid <$> pp_targets res') ∧
    (∀ t, t ∈ new → ∃ app, port_app_for apps (tg_uid t) = Some app ∧
      target_meets mode (app_rules pr mr app) t) ∧
    (∀ uid app, port_app_for apps uid = Some app → uid ∉ (tg_uid <$> pp_targets res) →
      uid ∈ (tg_uid <$> new)).
Proof.
  revert res mem. induction apps as [|app apps IH]; intros res mem H Hnd;
    cbn [resolve_port_apps] in H.
  { run_alloc. subst. exists []. rewrite app_nil_r. split_and!; try done.
    intros t Ht. by apply not_elem_of_nil in Ht. }
  assert (negb (json_object_get_boolean app (lit "portHiding") =? 1) || is_core_uid (app_uid app)
    = negb (port_app app)) as Hsel.
  { unfold port_app. by rewrite negb_andb, negb_involutive. }
  rewrite Hsel in H. clear Hsel. unfold port_app_for in *. cbn [List.find].
  destruct (port_app app) eqn:Hpa; cbn [negb orb andb] in *; [|by apply (IH _ _ H)].
  case_bool_decide as Hin.
  - destruct (IH _ _ H Hnd) as (new & Hres & Hnd' & Hspec & Hall). exists new.
    split_and!; try done.
    + intros t Ht. destruct (Z.eqb_spec (app_uid app) (tg_uid t)) as [Hu|Hu]; [|by apply Hspec].
      rewrite Hres, fmap_app, NoDup_app in Hnd'. destruct Hnd' as (_ & Hdis & _).
      rewrite Hu in Hin. destruct (Hdis _ Hin). by apply list_elem_of_fmap_2.
    + intros uid a Ha Hno. destruct (Z.eqb_spec (app_uid app) uid) as [<-|]; [done|by eapply Hall].
  - run_alloc.
    match goal with H : resolve_app_target _ _ _ _ _ _ = Ok (?x, _) |- _ =>
      apply resolve_app_target_spec in H as [Hu Hmeets]; rename x into t0 end.
    match goal with H : resolve_port_apps _ _ _ _ _ _ = _ |- _ =>
      apply IH in H as (new & Hres & Hnd' & Hspec & Hall) end.
    2:{ simpl. rewrite fmap_app, NoDup_app. split_and!; [done| |apply NoDup_singleton].
        intros y Hy. simpl. rewrite Hu, list_elem_of_singleton. by intros ->. }
    cbn [pp_targets] in *. exists (t0 :: new). rewrite <- app_assoc in Hres.
    split_and!; [done|done| |].
    + intros t [->|Ht]%elem_of_cons.
      { rewrite Hu, Z.eqb_refl. eauto. }
      destruct (Z.eqb_spec (app_uid app) (tg_uid t)) as [Hut|Hut]; [|by apply Hspec].
      rewrite Hres, !fmap_app, app_assoc, NoDup_app in Hnd'. destruct Hnd' as (_ & Hdis & _).
      destruct (Hdis (tg_uid t)); [|by apply list_elem_of_fmap_2].
      apply elem_of_app. right. simpl. rewrite Hu, Hut. by apply list_elem_of_singleton.
    + intros uid a Ha Hno. simpl. apply elem_of_cons.
      destruct (Z.eqb_spec (app_uid app) uid) as [Hau|Hau]; [left; congruence|right].
      eapply Hall; [done|]. rewrite fmap_app, not_elem_of_app. split; [done|].
      simpl. rewrite list_elem_of_singleton. congruence.
Qed.
End rules.

(** ** Totality *)

(** With memory available, resolving fails only on a rule the format rejects. *)
Section total.
Context {FC : FloatConv}.

Definition vector_ok (t : vpnhide_port_target) : Prop :=
  capacity_ok (Z.of_nat (length (tg_rules t))) (tg_capacity t).

Lemma push_rule_total t r :
  vector_ok t → Z.of_nat (length (tg_rules t)) < 2 ^ 50 →
  ∃ t', push_rule t r [] = Ok (t', []) ∧ vector_ok t' ∧ length (tg_rules t') = S (length (tg_rules t)).
Proof.
  intros Hv Hn. unfold push_rule.
  destruct (grow_array_succeeds (tg_capacity t) (Z.of_nat (length (tg_rules t))) sizeof_port_rule)
    as (cap & Hg & Hc); [done|done|unfold sizeof_port_rule; lia|].
  exists (mk_port_target (tg_uid t) (tg_mode t) (tg_rules t ++ [r]) cap).
  unfold vector_ok; cbn [tg_rules tg_capacity]. rewrite length_app; cbn [length].
  replace (Z.of_nat (length (tg_rules t) + 1)) with (Z.of_nat (length (tg_rules t)) + 1) by lia.
  split_and!; [|done|lia]. unfold mbind, alloc_bind. by rewrite Hg.
Qed.

Lemma complement_loop_total allowed n port rs rp t :
  vector_ok t → Z.of_nat (length (tg_rules t) + n) < 2 ^ 50 →
  ∃ t', complement_loop allowed n port rs rp t [] = Ok (t', []).
Proof.
  revert port rs rp t; induction n as [|n IH]; intros port rs rp t Hv Hn; [by exists t|].
  cbn [complement_loop]. destruct (negb _); [|apply IH; [done|lia]].
  destruct (0 <=? rp).
  - destruct (push_rule_total t (mk_port_rule (u16 rs) (u16 (port - 1)) (u8 rp)) Hv ltac:(lia))
      as (t1 & Hp & Hv1 & Hl1).
    unfold mbind, alloc_bind. rewrite Hp. apply IH; [done|lia].
  - unfold mbind, alloc_bind, mret, alloc_ret. apply IH; [done|lia].
Qed.

Definition rule_parses (r : JSON_Object) : Prop := ∃ o, parse_port_rule r = Ok o.

Lemma add_matching_rules_total m rules t :
  Forall rule_parses rules → vector_ok t → Z.of_nat (length (tg_rules t) + length rules) < 2 ^ 50 →
  ∃ t', add_matching_rules m rules t [] = Ok (t', []) ∧ vector_ok t' ∧
    (length (tg_rules t') <= length (tg_rules t) + length rules)%nat.
Proof.
  intros Hp. revert t; induction Hp as [|r rules [o Ho] _ IH]; intros t Hv Hn; cbn [length] in *.
  { exists t. split_and!; [done|done|lia]. }
  cbn [add_matching_rules]. unfold add_port_rule. rewrite Ho. unfold mbind, alloc_bind.
  assert (∀ t1, vector_ok t1 → (length (tg_rules t1) <= S (length (tg_rules t)))%nat →
    ∃ t', add_matching_rules m rules t1 [] = Ok (t', []) ∧ vector_ok t' ∧
      (length (tg_rules t') <= length (tg_rules t) + S (length rules))%nat) as Hstep.
  { intros t1 Hv1 Hl1. destruct (IH t1 Hv1 ltac:(lia)) as (t' & ? & ? & ?).
    exists t'. split_and!; [done|done|lia]. }
  destruct (m r); [destruct o as [rule|]|]; [|apply Hstep; [done|lia]..].
  destruct (push_rule_total t rule Hv ltac:(lia)) as (t1 & -> & Hv1 & Hl1). apply Hstep; [done|lia].
Qed.

Lemma resolve_allowlist_total pr mr name user uid :
  Forall rule_parses (array_objects pr) → Forall rule_parses (array_objects mr) →
  Z.of_nat (length (array_objects pr) + length (array_objects mr)) < 2 ^ 40 →
  ∃ t, resolve_allowlist_exception_rules pr mr name user uid [] = Ok (t, []).
Proof.
  intros Hp Hm Hn. unfold resolve_allowlist_exception_rules, resolve_named_port_rules.
  assert (vector_ok zero_target) as H0 by (unfold vector_ok, capacity_ok; simpl; lia).
  destruct (add_matching_rules_total (port_rule_matches name user uid) (array_objects pr) zero_target Hp H0)
    as (t1 & E1 & Hv1 & Hl1); [simpl; lia|]. simpl in Hl1.
  destruct (add_matching_rules_total (λ _, true) (array_objects mr) t1 Hm Hv1) as (t2 & E2 & Hv2 & Hl2);
    [lia|]. rewrite <- add_port_rules_matching in E2.
  unfold mbind, alloc_bind, mret, alloc_ret. rewrite E1, E2. cbn [andb].
  case_bool_decide; [by eexists|]. apply complement_loop_total; [unfold vector_ok, capacity_ok; simpl; lia|].
  rewrite Nat2Z.inj_add, Z2Nat.id by lia. simpl. lia.
Qed.
End total.

(** ** Properties *)

(** C20: in allowlist mode an application's rules say what it may reach; with
    memory available and rules the format accepts, the loop over all 65536
    ports ends and yields block rules that close exactly the complement, per
    protocol (nothing when there are no rules). *)
Theorem allowlist_exception_exact {FC : FloatConv} {HFC : FloatConvLaws FC} pr mr name user uid :
  Forall rule_parses (array_objects pr) → Forall rule_parses (array_objects mr) →
  Z.of_nat (length (array_objects pr) + length (array_objects mr)) < 2 ^ 40 →
  ∃ t, resolve_allowlist_exception_rules pr mr name user uid [] = Ok (t, []) ∧
    Forall user_rule_ok (tg_rules t) ∧
    ∀ port proto, real_port port proto →
      user_target_blocks t port proto ↔
      app_blocks VPNHIDE_LIST_ALLOWLIST (config_rules pr mr name user uid) port proto.
Proof.
  intros Hp Hm Hn. destruct (resolve_allowlist_total pr mr name user uid Hp Hm Hn) as [t Ht].
  exists t. apply resolve_allowlist_exception_spec in Ht as Hmeets. by destruct Hmeets.
Qed.

(** A rule that allows TCP ports 80 to 443 to every application. *)
Definition example_rule : JSON_Object :=
  [(lit "enabled", JBool true); (lit "startPort", JNumber (80 # 1));
   (lit "endPort", JNumber (443 # 1)); (lit "protocol", JString (lit "TCP"))].

Lemma allowlist_exception_exact_witness :
  ∃ t, resolve_allowlist_exception_rules (FC := arm64_conv) None (Some [JObject example_rule]) None 0 10123 []
         = Ok (t, []) ∧
    Forall user_rule_ok (tg_rules t) ∧
    ∀ port proto, real_port port proto →
      user_target_blocks t port proto ↔
      app_blocks VPNHIDE_LIST_ALLOWLIST
        (config_rules (FC := arm64_conv) None (Some [JObject example_rule]) None 0 10123) port proto.
Proof.
  apply (allowlist_exception_exact (FC := arm64_conv) (HFC := arm64_conv_laws) None
    (Some [JObject example_rule]) None 0 10123).
  - constructor.
  - constructor; [|constructor]. eexists. vm_compute. reflexivity.
  - vm_compute. reflexivity.
Defined.
