(* ===== verification/Ctl.v ===== *)
(** * The userspace controller: building the policy payload

    [kmod/vpnhide_ctl.c]: per-application hook masks, the interface prefixes
    and [pack_policy_v4], which serialises a resolved configuration into the
    payload of [VH_SET_POLICY]; [load_policy] is the [load] command from the
    parsed JSON to the bytes it submits. *)
From S2P Require Import Prelude Abi Userspace PolicyResolve.
From Stdlib Require Import Strings.Byte QArith.

#[local] Open Scope Z_scope.

(** ** [sort_uids] *)

(** [n] comparisons of adjacent elements from the front. *)
Fixpoint bubble_pass (n : nat) (arr : list Z) : list Z :=
  match n, arr with
  | S n, x :: y :: rest =>
      if y <? x then y :: bubble_pass n (x :: rest) else x :: bubble_pass n (y :: rest)
  | _, _ => arr
  end.

(** Pass [i] makes [count - i - 1] comparisons. *)
Fixpoint bubble_passes (n : nat) (arr : list Z) : list Z :=
  match n with
  | O => arr
  | S m => bubble_passes m (bubble_pass n arr)
  end.

Definition sort_uids (arr : list Z) : list Z := bubble_passes (length arr - 1) arr.

(** ** Hook masks *)

Definition VPNHIDE_PORT_HOOK_MASK : Z := Z.lor (Z.shiftl 1 13) (Z.shiftl 1 16).

Record app_hook_mask_vector := mk_mask_vector {
  mv_items : list vpnhide_app_hook_mask_v3;
  mv_capacity : Z
}.

(** The C function returns -1 when it cannot grow. *)
Definition append_app_hook_mask (vector : app_hook_mask_vector) (mask : vpnhide_app_hook_mask_v3)
    : Alloc app_hook_mask_vector :=
  if bool_decide (am_uid mask ∈ (am_uid <$> mv_items vector)) then mret vector
  else
    capacity ←
      (if Z.of_nat (length (mv_items vector)) =? mv_capacity vector then
         let capacity := if mv_capacity vector =? 0 then 16 else u64 (mv_capacity vector * 2) in
         if (capacity <? mv_capacity vector) ||
            (SIZE_MAX / Z.of_nat sizeof_app_hook_mask_v3 <? capacity)
         then alloc_fail EPERM
         else ok ← alloc_once;
              if (ok : bool) then mret capacity else alloc_fail EPERM
       else mret (mv_capacity vector));
    mret (mk_mask_vector (mv_items vector ++ [mask]) capacity).

(** The global part of the configuration. *)
Record global_settings := mk_global {
  gs_kernel_mask : Z;
  gs_java_mask : Z;
  gs_debug_logging : Z;
  gs_have_global_config : bool;
  gs_allowlist_mode : bool
}.

Section ctl.
Context {FC : FloatConv}.

Definition read_global (root : JSON_Object) : global_settings :=
  match json_object_get_object root (lit "globalConfig") with
  | Some global_config =>
      {| gs_kernel_mask := Z.lor
           (to_uint (json_object_get_number global_config (lit "kernelHookMask")))
           VPNHIDE_PORT_HOOK_MASK;
         gs_java_mask := to_uint (json_object_get_number global_config (lit "javaHookMask"));
         gs_debug_logging := to_int (json_object_get_number global_config (lit "debugLogging"));
         gs_have_global_config := true;
         gs_allowlist_mode :=
           match json_object_get_string global_config (lit "listMode") with
           | Some m => strcmp_eq m (lit "ALLOWLIST") || strcmp_eq m (lit "allowlist")
           | None => false
           end |}
  | None => mk_global (Z.lor 0 VPNHIDE_PORT_HOOK_MASK) 0 0 false false
  end.

(** [have_global_config ? mask : 0xFFFFFFFFu] *)
Definition or_all (g : global_settings) (mask : Z) : Z :=
  if gs_have_global_config g then mask else UINT32_MAX.

(** [allowlist_mode ? base & ~raw : raw] *)
Definition app_mask_bits (g : global_settings) (base raw : Z) : Z :=
  if gs_allowlist_mode g then Z.land (or_all g base) (u32 (Z.lnot raw)) else raw.

Definition app_hook_mask (g : global_settings) (app : JSON_Object) : vpnhide_app_hook_mask_v3 :=
  let has_kernel := json_object_has_value app (lit "kernelHookMask") in
  let has_java := json_object_has_value app (lit "javaHookMask") in
  let raw_kernel_mask :=
    if has_kernel then to_uint (json_object_get_number app (lit "kernelHookMask")) else 0 in
  let raw_java_mask :=
    if has_java then to_uint (json_object_get_number app (lit "javaHookMask")) else 0 in
  {| am_uid := app_uid app;
     am_kernel_mask := Z.lor (app_mask_bits g (gs_kernel_mask g) raw_kernel_mask)
                         VPNHIDE_PORT_HOOK_MASK;
     am_java_mask := app_mask_bits g (gs_java_mask g) raw_java_mask;
     am_has_kernel_override := Z.b2z has_kernel;
     am_has_java_override := Z.b2z has_java;
     am_reserved := [0; 0] |}.

Fixpoint collect_app_masks (g : global_settings) (apps : list JSON_Object)
    (vector : app_hook_mask_vector) : Alloc app_hook_mask_vector :=
  match apps with
  | [] => mret vector
  | app :: apps =>
      vector ←
        (if negb (app_uid app =? 0) &&
            (json_object_has_value app (lit "kernelHookMask") ||
             json_object_has_value app (lit "javaHookMask"))
         then append_app_hook_mask vector (app_hook_mask g app) else mret vector);
      collect_app_masks g apps vector
  end.

(** ** Interface prefixes *)

Definition zero_prefix : bytes := replicate 16 x00.

(** Entry [i] of the zeroed table after the loop. *)
Definition iface_prefix (prefixes : JSON_Array) (i : nat) : bytes :=
  match prefixes !! i with
  | Some (JString s) => strncpy 15 s ++ [x00]
  | _ => zero_prefix
  end.

Definition read_iface_prefixes (root : JSON_Object) : vpnhide_iface_ioctl_data :=
  let prefixes := default [] (json_object_get_array root (lit "ifacePrefixes")) in
  {| if_count := Z.min (Z.of_nat (length prefixes)) MAX_IFACE_PREFIXES;
     if_prefixes := iface_prefix prefixes <$> seq 0 32 |}.

(** ** [pack_policy_v4] *)

(** The new total, or -1. *)
Definition policy_add_size (total count element_size : Z) : option Z :=
  if negb (count =? 0) && (SIZE_MAX / count <? element_size) then None
  else
    let bytes := u64 (count * element_size) in
    if SIZE_MAX - bytes <? total then None else Some (total + bytes).

Fixpoint sum_rules (targets : list vpnhide_port_target) (total : Z) : option Z :=
  match targets with
  | [] => Some total
  | t :: targets =>
      let rule_count := Z.of_nat (length (tg_rules t)) in
      if SIZE_MAX - rule_count <? total then None else sum_rules targets (total + rule_count)
  end.

Definition payload_total (targets lsposed ports total_rules masks : Z) : option Z :=
  total ← policy_add_size (Z.of_nat sizeof_payload_v4) targets (Z.of_nat sizeof_u32);
  total ← policy_add_size total lsposed (Z.of_nat sizeof_u32);
  total ← policy_add_size total ports (Z.of_nat sizeof_port_target_v3);
  total ← policy_add_size total total_rules (Z.of_nat sizeof_port_rule_v3);
  total ← policy_add_size total masks (Z.of_nat sizeof_app_hook_mask_v3);
  if (UINT32_MAX <? total) || (VPNHIDE_POLICY_MAX_BYTES <? total) then None else Some total.

(** The table of targets, each owning the next [rule_count] rules. *)
Fixpoint pack_port_targets (targets : list vpnhide_port_target) (j : Z)
    : list vpnhide_port_target_v3 :=
  match targets with
  | [] => []
  | t :: targets =>
      mk_port_target_v3 (tg_uid t) (u32 j) (u32 (Z.of_nat (length (tg_rules t)))) (tg_mode t)
        [0; 0; 0] :: pack_port_targets targets (j + Z.of_nat (length (tg_rules t)))
  end.

Definition pack_port_rule (r : vpnhide_port_rule) : vpnhide_port_rule_v3 :=
  mk_port_rule_v3 (start_port r) (end_port r) (protocol r) [0; 0; 0].

Definition pack_port_rules (targets : list vpnhide_port_target) : list vpnhide_port_rule_v3 :=
  mjoin ((λ t, pack_port_rule <$> tg_rules t) <$> targets).

Definition pack_policy_v4 (targets lsposed : list Z) (ports : list vpnhide_port_target)
    (masks : list vpnhide_app_hook_mask_v3) (ifaces : vpnhide_iface_ioctl_data)
    (active_mask java_mask debug_enabled match_mode : Z) : Alloc bytes :=
  match sum_rules ports 0 with
  | None => alloc_fail EPERM
  | Some total_rules =>
      let nt := Z.of_nat (length targets) in
      let nl := Z.of_nat (length lsposed) in
      let np := Z.of_nat (length ports) in
      let nm := Z.of_nat (length masks) in
      if (UINT32_MAX <? nt) || (UINT32_MAX <? nl) || (UINT32_MAX <? np) ||
         (UINT32_MAX <? total_rules) || (UINT32_MAX <? nm)
      then alloc_fail EPERM else
      match payload_total nt nl np total_rules nm with
      | None => alloc_fail EPERM
      | Some total =>
          ok ← alloc_once;
          if negb (ok : bool) then alloc_fail EPERM else
          let c1 := Z.of_nat sizeof_payload_v4 in
          let c2 := c1 + nt * Z.of_nat sizeof_u32 in
          let c3 := c2 + nl * Z.of_nat sizeof_u32 in
          let c4 := c3 + np * Z.of_nat sizeof_port_target_v3 in
          let c5 := c4 + total_rules * Z.of_nat sizeof_port_rule_v3 in
          mret (encode_payload_v4 {|
              p4_total_size := u32 total;
              p4_flags := 0;
              p4_active_hooks_mask := active_mask;
              p4_java_hooks_mask := java_mask;
              p4_debug_enabled := bang_bang debug_enabled;
              p4_iface_count := u32 (if_count ifaces);
              p4_kmod_match_mode := match_mode;
              p4_lsposed_match_mode := match_mode;
              p4_port_match_mode := match_mode;
              p4_reserved := 0;
              p4_iface_prefixes := if_prefixes ifaces;
              p4_kmod_uids := mk_section (u32 c1) (u32 nt);
              p4_lsposed_uids := mk_section (u32 c2) (u32 nl);
              p4_port_targets := mk_section (u32 c3) (u32 np);
              p4_port_rules := mk_section (u32 c4) (u32 total_rules);
              p4_app_hook_masks := mk_section (u32 c5) (u32 nm) |} ++
            mjoin (put_u32 <$> targets) ++ mjoin (put_u32 <$> lsposed) ++
            mjoin (encode_port_target_v3 <$> pack_port_targets ports 0) ++
            mjoin (encode_port_rule_v3 <$> pack_port_rules ports) ++
            mjoin (encode_app_hook_mask_v3 <$> masks))
      end
  end.

(** The [load] command up to the ioctl. *)
Definition load_policy (root : JSON_Object) : Alloc bytes :=
  let g := read_global root in
  masks ← collect_app_masks g (array_objects (json_object_get_array root (lit "apps")))
            (mk_mask_vector [] 0);
  '(targets, lsposed, summary) ← vpnhide_resolve_targets root;
  '(ports, summary) ← vpnhide_resolve_port_rules root summary;
  pack_policy_v4 (sort_uids (uv_items targets)) (sort_uids (uv_items lsposed))
    (pp_targets ports) (mv_items masks) (read_iface_prefixes root)
    (or_all g (gs_kernel_mask g)) (or_all g (gs_java_mask g))
    (if gs_have_global_config g then bang_bang (gs_debug_logging g) else 0)
    (if gs_allowlist_mode g then VPNHIDE_MATCH_EXCLUDE else VPNHIDE_MATCH_INCLUDE).
End ctl.

(** ** The sort *)

Lemma bubble_pass_max n xs1 xs2 :
  length xs1 = S n →
  ∃ ys m, bubble_pass n (xs1 ++ xs2) = ys ++ m :: xs2 ∧ ys ++ [m] ≡ₚ xs1 ∧
          Forall (λ y, y <= m) ys.
Proof.
  revert xs1. induction n as [|n IH]; intros xs1 Hl.
  { destruct xs1 as [|x [|]]; try done. exists [], x. done. }
  destruct xs1 as [|x [|y rest]]; try done. simpl in Hl. cbn [app bubble_pass].
  destruct (Z.ltb_spec y x).
  - destruct (IH (x :: rest)) as (ys & m & Hb & Hp & Hall); [simpl; lia|].
    exists (y :: ys), m. simpl in Hb |- *. rewrite Hb. split_and!; [done| |].
    + rewrite Hp. constructor.
    + constructor; [|done]. assert (x ∈ ys ++ [m]) as Hx by (rewrite Hp; left).
      rewrite Forall_forall in Hall. apply elem_of_app in Hx as [Hx|Hx%list_elem_of_singleton];
        [specialize (Hall x Hx); lia|lia].
  - destruct (IH (y :: rest)) as (ys & m & Hb & Hp & Hall); [simpl; lia|].
    exists (x :: ys), m. simpl in Hb |- *. rewrite Hb. split_and!; [done| |].
    + by rewrite Hp.
    + constructor; [|done]. assert (y ∈ ys ++ [m]) as Hy by (rewrite Hp; left).
      rewrite Forall_forall in Hall. apply elem_of_app in Hy as [Hy|Hy%list_elem_of_singleton];
        [specialize (Hall y Hy); lia|lia].
Qed.

Lemma bubble_passes_spec n xs1 xs2 :
  length xs1 = S n → Sorted Z.le xs2 → (∀ x y, x ∈ xs1 → y ∈ xs2 → x <= y) →
  Sorted Z.le (bubble_passes n (xs1 ++ xs2)) ∧ bubble_passes n (xs1 ++ xs2) ≡ₚ xs1 ++ xs2.
Proof.
  revert xs1 xs2. induction n as [|n IH]; intros xs1 xs2 Hl Hs Hle.
  { destruct xs1 as [|x [|]]; try done. cbn. split; [|done]. constructor; [done|].
    destruct xs2; constructor. apply Hle; left. }
  cbn [bubble_passes].
  destruct (bubble_pass_max (S n) xs1 xs2 Hl) as (ys & m & -> & Hp & Hall).
  assert (m ∈ xs1) as Hm by (rewrite <- Hp; apply elem_of_app; right; left).
  destruct (IH ys (m :: xs2)) as [Hs' Hp'].
  - apply Permutation_length in Hp. rewrite length_app in Hp. simpl in Hp. lia.
  - constructor; [done|]. destruct xs2; constructor. apply Hle; [done|left].
  - intros x y Hx [->|Hy]%elem_of_cons.
    + rewrite Forall_forall in Hall. by apply Hall.
    + apply Hle; [|done]. rewrite <- Hp. apply elem_of_app. by left.
  - split; [done|]. rewrite Hp', <- Hp, <- app_assoc. done.
Qed.

Lemma sort_uids_spec arr : Sorted Z.le (sort_uids arr) ∧ sort_uids arr ≡ₚ arr.
Proof.
  unfold sort_uids. destruct arr as [|x arr]; [by split; [constructor|]|].
  pose proof (bubble_passes_spec (length (x :: arr) - 1) (x :: arr) []) as H.
  rewrite app_nil_r in H. apply H; [simpl; lia|constructor|]. intros ?? _ Hy.
  by apply not_elem_of_nil in Hy.
Qed.

(** ** Properties *)

(** The bubble sort of the UID arrays returns a sorted permutation of its
    input, for every input. *)
Theorem sort_uids_sorted_permutation arr : Sorted Z.le (sort_uids arr) ∧ sort_uids arr ≡ₚ arr.
Proof. apply sort_uids_spec. Qed.
