(* ===== verification/RoundTrip.v ===== *)
(** * Controller to kernel: the packed policy is accepted and means the same

    [pack_policy_v4] of the controller composed with [policy_snapshot_from_v4]
    of the kernel module: whatever the controller packs is accepted, and the
    snapshot decides UIDs and ports as the packed tables do. *)
From S2P Require Import Prelude Abi Snapshot PolicyQuery Userspace PolicyResolve Ctl.
From Stdlib Require Import Strings.Byte.

(** ** Sizes *)

Lemma policy_add_size_Some total count size total' :
  0 <= count → 0 < size → policy_add_size total count size = Some total' →
  total' = total + count * size.
Proof.
  unfold policy_add_size. intros Hc Hs. destruct (Z.eqb_spec count 0) as [->|Hne]; simpl.
  { unfold u64. rewrite wrap_small by (unfold fits; lia). destruct (_ <? _); [done|].
    intros. simplify_eq. lia. }
  destruct (Z.ltb_spec (SIZE_MAX / count) size) as [|Hle]; [done|].
  assert (count * size <= SIZE_MAX).
  { etrans; [|apply (Z.mul_div_le SIZE_MAX count); lia]. apply Z.mul_le_mono_nonneg_l; lia. }
  unfold u64. rewrite wrap_small by (unfold fits, SIZE_MAX in *; lia).
  destruct (_ <? _); [done|]. intros. by simplify_eq.
Qed.

Lemma payload_total_Some nt nl np nr nm total :
  0 <= nt → 0 <= nl → 0 <= np → 0 <= nr → 0 <= nm →
  payload_total nt nl np nr nm = Some total →
  total = 592 + 4 * nt + 4 * nl + 16 * np + 8 * nr + 16 * nm ∧ total <= VPNHIDE_POLICY_MAX_BYTES.
Proof.
  unfold payload_total. intros ????? H.
  do 5 (let Ha := fresh "Ha" in apply bind_Some in H as (? & Ha & H);
        apply policy_add_size_Some in Ha; [|done|done]).
  destruct (_ || _) eqn:E; [done|]. b2p. simplify_eq.
  unfold sizeof_payload_v4, sizeof_u32, sizeof_port_target_v3, sizeof_port_rule_v3,
    sizeof_app_hook_mask_v3 in *. lia.
Qed.

Lemma sum_rules_Some ports total total' :
  sum_rules ports total = Some total' →
  total' = total + Z.of_nat (length (pack_port_rules ports)).
Proof.
  revert total. induction ports as [|t ports IH]; intros total H; simpl in H.
  { simplify_eq. simpl. lia. }
  destruct (_ <? _); [done|]. apply IH in H. rewrite H.
  unfold pack_port_rules. rewrite fmap_cons.
  change (mjoin (?a :: ?b)) with (a ++ mjoin b). rewrite length_app, length_fmap. lia.
Qed.

(** ** Reading back a section *)

Lemma read_section {A} (dec : bytes → A) (enc : A → bytes) size pre xs rest off :
  (∀ x, x ∈ xs → dec (enc x) = x ∧ length (enc x) = size) → length pre = off →
  ∀ bs, bs = pre ++ mjoin (enc <$> xs) ++ rest → read_array dec size bs off (length xs) = xs.
Proof.
  intros Hx Hoff bs ->. rewrite read_array_skip by lia. rewrite Hoff.
  replace (off - off)%nat with O by lia. by apply read_array_encoded.
Qed.

Lemma length_section {A} (enc : A → bytes) size xs :
  (∀ x, x ∈ xs → length (enc x) = size) → length (mjoin (enc <$> xs)) = (length xs * size)%nat.
Proof.
  intros Hx. rewrite (length_mjoin size), length_fmap; [done|].
  apply Forall_fmap, Forall_forall. done.
Qed.

(** ** The payload of a snapshot *)

(** What the controller packs: the tables and the header words. *)
Record packable (s : vpnhide_policy_snapshot) : Prop := {
  pk_kmod : Forall (fits 32) (kmod_uids s);
  pk_lsposed : Forall (fits 32) (lsposed_uids s);
  pk_targets : Forall port_target_fits (port_targets s);
  pk_rules : Forall port_rule_fits (port_rules s);
  pk_masks : Forall app_hook_mask_fits (app_hook_masks s);
  pk_words : Forall (fits 32) [active_hooks_mask s; java_hooks_mask s; debug_enabled s; flags s];
  pk_modes : Forall (λ m, 0 <= m <= 1) [kmod_match_mode s; lsposed_match_mode s; port_match_mode s];
  pk_ifaces : 0 <= if_count (iface_prefixes s) <= MAX_IFACE_PREFIXES ∧
              prefixes_fit (if_prefixes (iface_prefixes s))
}.

Definition body (s : vpnhide_policy_snapshot) : bytes :=
  mjoin (put_u32 <$> kmod_uids s) ++ mjoin (put_u32 <$> lsposed_uids s) ++
  mjoin (encode_port_target_v3 <$> port_targets s) ++
  mjoin (encode_port_rule_v3 <$> port_rules s) ++
  mjoin (encode_app_hook_mask_v3 <$> app_hook_masks s).

(** The sections of a body that starts at byte [base]. *)
Definition body_sections (base : Z) (s : vpnhide_policy_snapshot)
    : list vpnhide_policy_section_v3 :=
  let n1 := Z.of_nat (length (kmod_uids s)) in
  let n2 := Z.of_nat (length (lsposed_uids s)) in
  let n3 := Z.of_nat (length (port_targets s)) in
  let n4 := Z.of_nat (length (port_rules s)) in
  let n5 := Z.of_nat (length (app_hook_masks s)) in
  [mk_section base n1; mk_section (base + 4 * n1) n2;
   mk_section (base + 4 * n1 + 4 * n2) n3; mk_section (base + 4 * n1 + 4 * n2 + 16 * n3) n4;
   mk_section (base + 4 * n1 + 4 * n2 + 16 * n3 + 8 * n4) n5].

Definition body_size (s : vpnhide_policy_snapshot) : Z :=
  4 * Z.of_nat (length (kmod_uids s)) + 4 * Z.of_nat (length (lsposed_uids s)) +
  16 * Z.of_nat (length (port_targets s)) + 8 * Z.of_nat (length (port_rules s)) +
  16 * Z.of_nat (length (app_hook_masks s)).

Definition nth_section (n : nat) (l : list vpnhide_policy_section_v3) : vpnhide_policy_section_v3 :=
  nth n l (mk_section 0 0).

Definition header_v4 (s : vpnhide_policy_snapshot) : vpnhide_policy_payload_v4 :=
  let secs := body_sections 592 s in {|
  p4_total_size := 592 + body_size s;
  p4_flags := flags s;
  p4_active_hooks_mask := active_hooks_mask s;
  p4_java_hooks_mask := java_hooks_mask s;
  p4_debug_enabled := debug_enabled s;
  p4_iface_count := if_count (iface_prefixes s);
  p4_kmod_match_mode := kmod_match_mode s;
  p4_lsposed_match_mode := lsposed_match_mode s;
  p4_port_match_mode := port_match_mode s;
  p4_reserved := 0;
  p4_iface_prefixes := if_prefixes (iface_prefixes s);
  p4_kmod_uids := nth_section 0 secs; p4_lsposed_uids := nth_section 1 secs;
  p4_port_targets := nth_section 2 secs; p4_port_rules := nth_section 3 secs;
  p4_app_hook_masks := nth_section 4 secs |}.

Definition header_v3 (s : vpnhide_policy_snapshot) : vpnhide_policy_payload_v3 :=
  let secs := body_sections 576 s in {|
  p3_total_size := 576 + body_size s;
  p3_flags := flags s;
  p3_active_hooks_mask := active_hooks_mask s;
  p3_java_hooks_mask := java_hooks_mask s;
  p3_debug_enabled := debug_enabled s;
  p3_iface_count := if_count (iface_prefixes s);
  p3_iface_prefixes := if_prefixes (iface_prefixes s);
  p3_kmod_uids := nth_section 0 secs; p3_lsposed_uids := nth_section 1 secs;
  p3_port_targets := nth_section 2 secs; p3_port_rules := nth_section 3 secs;
  p3_app_hook_masks := nth_section 4 secs |}.

(** The payload of a policy, in the layout of the version 4 ABI. *)
Definition payload_of (s : vpnhide_policy_snapshot) : bytes := encode_payload_v4 (header_v4 s) ++ body s.

Section payload.
Context (s : vpnhide_policy_snapshot) (Hpk : packable s).
Context (Hsize : 592 + body_size s <= VPNHIDE_POLICY_MAX_BYTES).

Lemma enc_u32 x (l : list Z) : Forall (fits 32) l → x ∈ l →
  decode_u32 (put_u32 x) = x ∧ length (put_u32 x) = sizeof_u32.
Proof.
  intros Hl Hx. rewrite Forall_forall in Hl. split; [apply decode_encode_u32; auto|].
  apply length_le_split.
Qed.

Lemma enc_target x : x ∈ port_targets s →
  decode_port_target_v3 (encode_port_target_v3 x) = x ∧
  length (encode_port_target_v3 x) = sizeof_port_target_v3.
Proof.
  intros Hx. pose proof (pk_targets s Hpk) as Hf. rewrite Forall_forall in Hf. split.
  - apply decode_encode_port_target_v3; auto.
  - apply length_encode_port_target_v3. by apply Hf in Hx as (_ & _ & _ & _ & ? & _).
Qed.

Lemma enc_rule x : x ∈ port_rules s →
  decode_port_rule_v3 (encode_port_rule_v3 x) = x ∧
  length (encode_port_rule_v3 x) = sizeof_port_rule_v3.
Proof.
  intros Hx. pose proof (pk_rules s Hpk) as Hf. rewrite Forall_forall in Hf. split.
  - apply decode_encode_port_rule_v3; auto.
  - apply length_encode_port_rule_v3. by apply Hf in Hx as (_ & _ & _ & ? & _).
Qed.

Lemma enc_mask x : x ∈ app_hook_masks s →
  decode_app_hook_mask_v3 (encode_app_hook_mask_v3 x) = x ∧
  length (encode_app_hook_mask_v3 x) = sizeof_app_hook_mask_v3.
Proof.
  intros Hx. pose proof (pk_masks s Hpk) as Hf. rewrite Forall_forall in Hf. split.
  - apply decode_encode_app_hook_mask_v3; auto.
  - apply length_encode_app_hook_mask_v3. by apply Hf in Hx as (_ & _ & _ & _ & _ & ? & _).
Qed.

Lemma section_lengths :
  length (mjoin (put_u32 <$> kmod_uids s)) = (length (kmod_uids s) * 4)%nat ∧
  length (mjoin (put_u32 <$> lsposed_uids s)) = (length (lsposed_uids s) * 4)%nat ∧
  length (mjoin (encode_port_target_v3 <$> port_targets s)) = (length (port_targets s) * 16)%nat ∧
  length (mjoin (encode_port_rule_v3 <$> port_rules s)) = (length (port_rules s) * 8)%nat ∧
  length (mjoin (encode_app_hook_mask_v3 <$> app_hook_masks s)) = (length (app_hook_masks s) * 16)%nat.
Proof.
  split_and!; apply length_section; intros x Hx.
  - apply length_le_split.
  - apply length_le_split.
  - by apply enc_target.
  - by apply enc_rule.
  - by apply enc_mask.
Qed.

Lemma length_body : Z.of_nat (length (body s)) = body_size s.
Proof.
  destruct section_lengths as (H1 & H2 & H3 & H4 & H5). unfold body, body_size.
  rewrite !length_app, H1, H2, H3, H4, H5. lia.
Qed.

Lemma length_payload_of : Z.of_nat (length (payload_of s)) = 592 + body_size s.
Proof using Hpk.
  destruct (pk_ifaces s Hpk) as [_ Hps]. pose proof length_body as Hb.
  unfold payload_of. rewrite length_app, length_encode_payload_v4 by done. unfold sizeof_payload_v4. lia.
Qed.

Lemma header_words_fit :
  fits 32 (if_count (iface_prefixes s)) ∧ fits 32 (592 + body_size s) ∧ fits 32 (576 + body_size s).
Proof.
  destruct (pk_ifaces s Hpk) as [? _]. unfold fits, MAX_IFACE_PREFIXES, VPNHIDE_POLICY_MAX_BYTES in *.
  assert (0 <= body_size s) by (unfold body_size; lia). lia.
Qed.

Lemma body_sections_fit base : 0 <= base <= 592 → Forall section_fits (body_sections base s).
Proof.
  intros. unfold body_sections, body_size, VPNHIDE_POLICY_MAX_BYTES in *.
  repeat constructor; unfold fits; simpl; lia.
Qed.

Lemma header_v4_fits : payload_v4_fits (header_v4 s).
Proof.
  destruct header_words_fit as (? & ? & ?). destruct (pk_ifaces s Hpk) as [_ ?].
  pose proof (pk_words s Hpk) as Hw. rewrite !Forall_cons in Hw. destruct Hw as (? & ? & ? & ? & _).
  pose proof (pk_modes s Hpk) as Hm. rewrite !Forall_cons in Hm. destruct Hm as (? & ? & ? & _).
  split_and!; [|done|apply (body_sections_fit 592); lia].
  repeat (constructor; [by (done || (unfold fits; simpl; lia))|]). constructor.
Qed.

Lemma header_v3_fits : payload_v3_fits (header_v3 s).
Proof.
  destruct header_words_fit as (? & ? & ?). destruct (pk_ifaces s Hpk) as [_ ?].
  pose proof (pk_words s Hpk) as Hw. rewrite !Forall_cons in Hw. destruct Hw as (? & ? & ? & ? & _).
  split_and!; [|done|apply (body_sections_fit 576); lia].
  repeat (constructor; [by (done || (unfold fits; simpl; lia))|]). constructor.
Qed.

Lemma v3_of_v4_payload : v3_of_v4 (header_v4 s) (payload_of s) = encode_payload_v3 (header_v3 s) ++ body s.
Proof.
  destruct (pk_ifaces s Hpk) as [_ Hps]. unfold v3_of_v4, payload_of.
  rewrite drop_app_ge by (by rewrite length_encode_payload_v4).
  rewrite length_encode_payload_v4, Nat.sub_diag, drop_0 by done. f_equal. f_equal.
  pose proof length_body as Hb. assert (0 <= body_size s) by (unfold body_size; lia).
  rewrite length_app, length_encode_payload_v4 by done.
  unfold header_v3, header_v4, v4_section, body_sections, nth_section, u32;
    cbn [p4_flags p4_active_hooks_mask p4_java_hooks_mask p4_debug_enabled p4_iface_count
      p4_iface_prefixes p4_kmod_uids p4_lsposed_uids p4_port_targets p4_port_rules
      p4_app_hook_masks nth sec_offset sec_count].
  unfold body_size, VPNHIDE_POLICY_MAX_BYTES, sizeof_payload_v4, sizeof_payload_v3 in *.
  change (Z.of_nat (592 - 576)) with 16.
  f_equal; [lia|..]; (f_equal; rewrite wrap_small; unfold fits; lia).
Qed.

Lemma header_v3_layout : policy_v3_layout (header_v3 s) (576 + body_size s) = Ok ().
Proof.
  apply policy_v3_layout_Ok; [repeat constructor; simpl; lia|].
  destruct (pk_ifaces s Hpk) as [? _].
  unfold v3_layout_spec, header_v3, body_sections, nth_section; cbn.
  unfold body_size, VPNHIDE_POLICY_MAX_BYTES in *. lia.
Qed.

(** What the copy phase of the kernel makes of the payload. *)
Definition copied : vpnhide_policy_snapshot :=
  with_match_modes VPNHIDE_MATCH_INCLUDE VPNHIDE_MATCH_INCLUDE VPNHIDE_MATCH_INCLUDE
    {| active_hooks_mask := Z.lor (active_hooks_mask s) PORT_HOOK_BITS;
       java_hooks_mask := java_hooks_mask s;
       debug_enabled := bang_bang (debug_enabled s); flags := flags s;
       kmod_match_mode := 0; lsposed_match_mode := 0; port_match_mode := 0;
       iface_prefixes := iface_prefixes s; kmod_uids := kmod_uids s;
       lsposed_uids := lsposed_uids s; port_targets := port_targets s;
       port_rules := port_rules s; app_hook_masks := app_hook_masks s |}.

Lemma policy_v3_copy_payload :
  policy_v3_copy (header_v3 s) (encode_payload_v3 (header_v3 s) ++ body s) = copied.
Proof.
  destruct (pk_ifaces s Hpk) as [_ Hps].
  pose proof (length_encode_payload_v3 (header_v3 s) Hps) as Hh.
  destruct section_lengths as (H1 & H2 & H3 & H4 & _).
  unfold body. set (h := encode_payload_v3 _) in *. unfold sizeof_payload_v3 in Hh. clearbody h.
  set (a := mjoin (put_u32 <$> kmod_uids s)) in *. set (b := mjoin (put_u32 <$> lsposed_uids s)) in *.
  set (c := mjoin (encode_port_target_v3 <$> port_targets s)) in *.
  set (d := mjoin (encode_port_rule_v3 <$> port_rules s)) in *.
  unfold policy_v3_copy, copied, with_match_modes, header_v3.
  cbn [p3_active_hooks_mask p3_java_hooks_mask p3_debug_enabled p3_flags p3_iface_count
    p3_iface_prefixes p3_kmod_uids p3_lsposed_uids p3_port_targets p3_port_rules
    p3_app_hook_masks nth_section nth body_sections sec_offset sec_count
    active_hooks_mask java_hooks_mask debug_enabled flags iface_prefixes kmod_uids lsposed_uids
    port_targets port_rules app_hook_masks].
  rewrite !Nat2Z.id. f_equal.
  - by destruct (iface_prefixes s).
  - eapply (read_section _ put_u32 _ h); [|by rewrite Hh|reflexivity].
    intros x Hx. exact (enc_u32 x _ (pk_kmod s Hpk) Hx).
  - eapply (read_section _ put_u32 _ (h ++ a)); [| |by rewrite <- !app_assoc].
    + intros x Hx. exact (enc_u32 x _ (pk_lsposed s Hpk) Hx).
    + len.
  - eapply (read_section _ _ _ (h ++ a ++ b)); [apply enc_target| |by rewrite <- !app_assoc]. len.
  - eapply (read_section _ _ _ (h ++ a ++ b ++ c)); [apply enc_rule| |by rewrite <- !app_assoc]. len.
  - eapply (read_section _ _ _ (h ++ a ++ b ++ c ++ d) _ []);
      [apply enc_mask| |by rewrite app_nil_r, <- !app_assoc]. len.
Qed.

(** The kernel decodes the payload into the packed tables and validates them. *)
Lemma policy_snapshot_from_v4_payload {KS : KSort} :
  policy_snapshot_from_v4 true true (payload_of s) =
    (r ← policy_v3_finish copied;
     Ok (with_match_modes (kmod_match_mode s) (lsposed_match_mode s) (port_match_mode s) r)).
Proof.
  destruct (pk_ifaces s Hpk) as [_ Hps]. pose proof length_body as Hb.
  pose proof (pk_modes s Hpk) as Hm. rewrite !Forall_cons in Hm. destruct Hm as (? & ? & ? & _).
  assert (0 <= body_size s) by (unfold body_size; lia).
  assert (decode_payload_v4 (payload_of s) = header_v4 s) as Hdec
    by apply decode_encode_payload_v4, header_v4_fits.
  pose proof length_payload_of as Hlen.
  assert (Z.of_nat (length (encode_payload_v3 (header_v3 s) ++ body s)) = 576 + body_size s) as Hlen3.
  { rewrite length_app, length_encode_payload_v3 by done. unfold sizeof_payload_v3. lia. }
  unfold policy_snapshot_from_v4. rewrite Hdec, Hlen, v3_of_v4_payload. cbv zeta.
  unfold VPNHIDE_MATCH_EXCLUDE, sizeof_payload_v4.
  destruct (_ || _) eqn:E.
  { exfalso. unfold nonzero in E. simpl in E.
    rewrite !orb_true_iff, !negb_true_iff, !Z.ltb_lt, !Z.eqb_neq in E. lia. }
  clear E. destruct (_ || _) eqn:E.
  { exfalso. unfold header_v4, body_sections in E. simpl in E.
    rewrite !orb_true_iff, !Z.ltb_lt in E. lia. }
  clear E. cbn [negb]. unfold policy_snapshot_from_v3.
  rewrite decode_encode_payload_v3 by apply header_v3_fits. cbv zeta.
  rewrite Hlen3, header_v3_layout, policy_v3_copy_payload. done.
Qed.
End payload.

(** ** Validation succeeds on packed tables *)

Definition user_target_ok (t : vpnhide_port_target) : Prop :=
  0 < tg_uid t < 2 ^ 32 ∧ 0 <= tg_mode t <= VH_PORT_POLICY_DENY_ALL ∧
  Forall user_rule_ok (tg_rules t).

Lemma pack_port_rules_cons t ports :
  pack_port_rules (t :: ports) = (pack_port_rule <$> tg_rules t) ++ pack_port_rules ports.
Proof. done. Qed.

Lemma pack_port_rules_ok ports :
  Forall user_target_ok ports →
  Forall (λ r, port_rule_fits r ∧ port_rule_valid r = true) (pack_port_rules ports).
Proof.
  induction 1 as [|t ports (_ & _ & Ht) _ IH]; [done|]. rewrite pack_port_rules_cons.
  apply Forall_app. split; [|done]. apply Forall_fmap. eapply Forall_impl; [exact Ht|].
  intros r (? & ? & ?). unfold compose, port_rule_fits, fits, port_rule_valid, VH_PROTO_BOTH in *.
  cbn [pack_port_rule pr_start_port pr_end_port pr_protocol pr_reserved].
  split; [split_and!; try lia; try done; repeat constructor; lia|].
  destruct (Z.ltb_spec (end_port r) (start_port r)), (Z.ltb_spec 2 (protocol r)); (done || lia).
Qed.

(** A packed target is the image of a source target and owns its rules. *)
Definition packs (rules : list vpnhide_port_rule_v3) (t : vpnhide_port_target)
    (p : vpnhide_port_target_v3) : Prop :=
  pt_uid p = tg_uid t ∧ pt_mode p = tg_mode t ∧ pt_reserved p = [0; 0; 0] ∧
  fits 32 (pt_first_rule p) ∧ fits 32 (pt_rule_count p) ∧
  rule_slice rules p = pack_port_rule <$> tg_rules t.

Lemma pack_port_targets_packs ports pre :
  Z.of_nat (length (pre ++ pack_port_rules ports)) < 2 ^ 32 →
  Forall2 (packs (pre ++ pack_port_rules ports)) ports
    (pack_port_targets ports (Z.of_nat (length pre))).
Proof.
  revert pre. induction ports as [|t ports IH]; intros pre Hl; [constructor|].
  rewrite pack_port_rules_cons in *. cbn [pack_port_targets].
  assert (length pre + length (tg_rules t) <= length (pre ++ (pack_port_rule <$> tg_rules t) ++
    pack_port_rules ports))%nat by (rewrite !length_app, length_fmap; lia).
  unfold u32. rewrite !wrap_small by (unfold fits; lia). constructor.
  - unfold packs; simpl. split_and!; try done; try (unfold fits; lia).
    unfold rule_slice; simpl. rewrite !Nat2Z.id, drop_app_length.
    rewrite <- (length_fmap pack_port_rule (tg_rules t)). apply take_app_length.
  - rewrite app_assoc in *. specialize (IH (pre ++ (pack_port_rule <$> tg_rules t)) Hl).
    rewrite length_app, length_fmap in IH. by rewrite <- Nat2Z.inj_add.
Qed.

Section accept.
Context {KS : KSort} {HKS : KSortLaws KS}.

Lemma validate_packed ports rules j :
  Forall user_target_ok ports → 0 <= j →
  j + Z.of_nat (length (pack_port_rules ports)) <= Z.of_nat (length rules) →
  Z.of_nat (length rules) < 2 ^ 32 →
  ∃ rules', validate_port_targets (pack_port_targets ports j) rules (Z.of_nat (length rules)) j =
    Ok (rules', j + Z.of_nat (length (pack_port_rules ports))).
Proof.
  intros Hok. revert rules j. induction Hok as [|t ports (Hu & Hm & _) _ IH]; intros rules j Hj Hb Hl.
  { exists rules. simpl. by rewrite Z.add_0_r. }
  rewrite pack_port_rules_cons, length_app, length_fmap in *. cbn [pack_port_targets validate_port_targets].
  unfold u32. rewrite !wrap_small by (unfold fits; lia).
  set (t' := mk_port_target_v3 _ _ _ _ _).
  assert (port_target_valid t' j (Z.of_nat (length rules)) = true) as ->.
  { unfold port_target_valid, u32. rewrite wrap_small by (unfold fits; lia). cbn.
    unfold VH_PORT_POLICY_DENY_ALL in *.
    destruct (Z.eqb_spec (tg_uid t) 0), (Z.ltb_spec 2 (tg_mode t)), (Z.eqb_spec j j),
      (Z.ltb_spec (Z.of_nat (length rules) - j) (Z.of_nat (length (tg_rules t)))); (done || lia). }
  cbn [pt_rule_count t' pt_first_rule].
  set (rules1 := if _ <? _ then _ else rules).
  assert (length rules1 = length rules) as Hlen.
  { subst rules1. destruct (_ <? _); [apply length_sort_rule_range|done]. }
  rewrite <- Hlen. rewrite wrap_small by (unfold fits; lia).
  destruct (IH rules1 (j + Z.of_nat (length (tg_rules t)))) as [rules' ->]; [lia..|].
  exists rules'. do 2 f_equal. lia.
Qed.

(** Distinct keys stay distinct under sorting. *)
Lemma no_adjacent_duplicate {A} (key : A → Z) xs :
  NoDup (key <$> xs) → has_adjacent_duplicate key xs = false.
Proof.
  induction xs as [|x [|y ys] IH]; [done|done|]. rewrite fmap_cons. intros [Hx Hnd]%NoDup_cons.
  change (has_adjacent_duplicate key (x :: y :: ys))
    with ((key x =? key y) || has_adjacent_duplicate key (y :: ys)).
  rewrite IH by done. rewrite orb_false_r. apply Z.eqb_neq. intros Heq. apply Hx.
  rewrite Heq. left.
Qed.

Lemma ksort_no_duplicate {A} (key : A → Z) cmp xs :
  NoDup (key <$> xs) → has_adjacent_duplicate key (ksort cmp xs) = false.
Proof. intros. apply no_adjacent_duplicate. by rewrite (ksort_perm _ cmp xs). Qed.

Lemma head_not_zero uids : Forall (λ u, u ≠ 0) uids → head_is_zero uids = false.
Proof. destruct 1; [done|]. by apply Z.eqb_neq. Qed.

(** The tables the controller hands over. *)
Record tables_ok (s : vpnhide_policy_snapshot) (ports : list vpnhide_port_target) : Prop := {
  to_kmod : NoDup (kmod_uids s) ∧ Forall (λ u, u ≠ 0) (kmod_uids s);
  to_lsposed : NoDup (lsposed_uids s) ∧ Forall (λ u, u ≠ 0) (lsposed_uids s);
  to_ports : Forall user_target_ok ports ∧ NoDup (tg_uid <$> ports);
  to_targets : port_targets s = pack_port_targets ports 0;
  to_rules : port_rules s = pack_port_rules ports;
  to_rules_length : Z.of_nat (length (port_rules s)) < 2 ^ 32;
  to_masks : Forall (λ m, app_mask_valid m = true) (app_hook_masks s) ∧
             NoDup (am_uid <$> app_hook_masks s)
}.

Lemma pack_port_targets_uids ports j : pt_uid <$> pack_port_targets ports j = tg_uid <$> ports.
Proof. revert j. induction ports; intros; simpl; [done|]. f_equal. auto. Qed.

Lemma forallb_of_Forall {A} (f : A → bool) xs : Forall (λ x, f x = true) xs → forallb f xs = true.
Proof. induction 1 as [|x xs Hx _ IH]; [done|]. simpl. by rewrite Hx. Qed.

Lemma tables_packs s ports :
  tables_ok s ports →
  Forall2 (packs (port_rules s)) ports (port_targets s) ∧
  Forall port_target_range (port_targets s).
Proof.
  intros [_ _ [Hok _] Ht Hr Hrl _].
  assert (Forall2 (packs (port_rules s)) ports (port_targets s)) as Hpacks.
  { rewrite Hr, Ht. rewrite Hr in Hrl. by apply (pack_port_targets_packs ports []). }
  split; [done|]. apply Forall_forall. intros t [i Hi]%list_elem_of_lookup.
  destruct (Forall2_lookup_r _ _ _ _ _ Hpacks Hi) as (t0 & Ht0 & Hu & Hmd & _ & ? & ? & _).
  rewrite Forall_forall in Hok. destruct (Hok t0) as (Hu0 & Hm0 & _);
    [by eapply list_elem_of_lookup_2|].
  unfold port_target_range. rewrite Hu, Hmd. unfold fits, VH_PORT_POLICY_DENY_ALL in *.
  split_and!; lia.
Qed.

Lemma policy_v3_finish_accepts s ports :
  tables_ok s ports → ∃ r, policy_v3_finish s = Ok r.
Proof.
  intros Htab. destruct (tables_packs _ _ Htab) as [_ Hrange].
  destruct Htab as [[Hk Hk0] [Hl Hl0] [Hok Hnd] Ht Hr Hrl [Hm Hmnd]].
  destruct (validate_packed ports (port_rules s) 0) as [rules' Hv]; [done|done|by rewrite Hr|done|].
  assert (rules' ≡ₚ port_rules s) as Hp.
  { rewrite <- Ht in Hv. apply validate_port_targets_ok in Hv as [Hp _ _ _]; [done..|lia|done]. }
  unfold policy_v3_finish. rewrite Ht, Hv. cbn [mbind result_bind].
  rewrite Hr, Z.add_0_l, Z.eqb_refl. cbn [negb].
  rewrite (forallb_of_Forall _ rules').
  2:{ rewrite Hp, Hr. eapply Forall_impl; [by apply pack_port_rules_ok|]. by intros r []. }
  rewrite (forallb_of_Forall _ _ Hm). cbn [negb].
  rewrite !head_not_zero by by rewrite (ksort_perm _ policy_uid_cmp). cbn [orb].
  rewrite !ksort_no_duplicate; [by eexists|..]; rewrite ?list_fmap_id; try done.
  - rewrite <- list_fmap_compose. erewrite list_fmap_ext; [exact Hmnd|].
    intros. apply am_uid_force.
  - by rewrite pack_port_targets_uids.
Qed.

(** ** The accepted snapshot means what was packed *)

(** What a list of source targets blocks under a port match mode. *)
Definition ports_block (ports : list vpnhide_port_target) (mode uid port proto : Z) : Prop :=
  (∃ t, t ∈ ports ∧ tg_uid t = uid ∧ user_target_blocks t port proto) ∨
  ((∀ t, t ∈ ports → tg_uid t ≠ uid) ∧ mode = VPNHIDE_MATCH_EXCLUDE ∧ eligible uid).

Record refines_tables (s : vpnhide_policy_snapshot) (ports : list vpnhide_port_target)
    (r : vpnhide_policy_snapshot) : Prop := {
  rt_active : active_hooks_mask r = active_hooks_mask s;
  rt_kmod : ∀ u, u ∈ kmod_uids r ↔ u ∈ kmod_uids s;
  rt_lsposed : ∀ u, u ∈ lsposed_uids r ↔ u ∈ lsposed_uids s;
  rt_masks : ∀ m, m ∈ app_hook_masks r ↔
    ∃ m0, m0 ∈ app_hook_masks s ∧ m = app_mask_force_port_hooks m0;
  rt_target : ∀ p, p ∈ port_targets r → ∃ t, t ∈ ports ∧ tg_uid t = pt_uid p ∧
    ∀ port proto, target_blocks r p port proto ↔ user_target_blocks t port proto;
  rt_source : ∀ t, t ∈ ports → ∃ p, p ∈ port_targets r ∧ tg_uid t = pt_uid p
}.

Lemma pack_rules_cover rs port proto :
  (∃ r, r ∈ (pack_port_rule <$> rs) ∧ rule_covers_spec r port proto) ↔
  user_rules_cover rs port proto.
Proof.
  unfold user_rules_cover. setoid_rewrite list_elem_of_fmap. split.
  - intros (r & (x & -> & Hx) & Hc). exists x. by split.
  - intros (x & Hx & Hc). exists (pack_port_rule x). split; [eauto|done].
Qed.

Lemma policy_v3_finish_means s ports r :
  tables_ok s ports → policy_v3_finish s = Ok r → refines_tables s ports r.
Proof.
  intros Htab H. destruct (tables_packs _ _ Htab) as [Hpacks Hrange].
  destruct Htab as [_ _ _ Ht Hr Hrl _].
  unfold policy_v3_finish in H. case_result.
  match goal with H : (let '(_, _) := ?x in _) = _ |- _ => destruct x as [rules next_rule] end.
  match goal with H : validate_port_targets _ _ _ _ = _ |- _ =>
    apply validate_port_targets_ok in H as [Hp _ _ Hts]; [|done|lia..] end.
  case_result. subst r.
  split; cbn [active_hooks_mask kmod_uids lsposed_uids app_hook_masks port_targets port_rules];
    try done.
  1,2: intros u; by rewrite (ksort_perm _ policy_uid_cmp).
  - intros m. rewrite (ksort_perm _ policy_app_mask_cmp), list_elem_of_fmap. split; [intros (m0 & -> & ?)|intros (m0 & ? & ->)]; eauto.
  - intros p. rewrite (ksort_perm _ policy_port_target_cmp). intros Hin.
    rewrite Forall_forall in Hts. destruct (Hts p Hin) as (_ & _ & _ & _ & _ & Hsl & _).
    apply list_elem_of_lookup in Hin as [i Hi].
    destruct (Forall2_lookup_r _ _ _ _ _ Hpacks Hi) as (t & Hti & Hu & Hmd & _ & _ & _ & Hs).
    exists t. split_and!; [by eapply list_elem_of_lookup_2|done|]. intros port proto.
    unfold target_blocks, user_target_blocks; cbn [port_rules]. rewrite Hmd.
    setoid_rewrite Hsl. rewrite Hs. by rewrite pack_rules_cover.
  - intros t [i Hi]%list_elem_of_lookup.
    destruct (Forall2_lookup_l _ _ _ _ _ Hpacks Hi) as (p & Hpi & Hu & _).
    exists p. rewrite (ksort_perm _ policy_port_target_cmp). split; [|done].
    by eapply list_elem_of_lookup_2.
Qed.

Lemma refines_policy_blocks s ports r km lm pm uid port proto :
  refines_tables s ports r → NoDup (tg_uid <$> ports) →
  policy_blocks (with_match_modes km lm pm r) uid port proto ↔
  ports_block ports pm uid port proto.
Proof.
  intros Hrt Hnd. unfold policy_blocks, ports_block. cbn [with_match_modes port_targets port_match_mode].
  assert (∀ t t', t ∈ ports → t' ∈ ports → tg_uid t = tg_uid t' → t = t') as Hinj.
  { intros t t' [i Hi]%list_elem_of_lookup [j Hj]%list_elem_of_lookup Hu.
    assert (i = j) as ->; [|congruence]. eapply NoDup_lookup; [exact Hnd| |];
      rewrite list_lookup_fmap, ?Hi, ?Hj; simpl; [done|by rewrite Hu]. }
  split.
  - intros [(p & Hp & Hu & Hb)|(Hno & Hm & He)]; [left|right].
    + destruct (rt_target _ _ _ Hrt p Hp) as (t & Ht & Htu & Hiff).
      exists t. split_and!; [done|congruence|]. by apply Hiff.
    + split_and!; [|done..]. intros t Ht Hu.
      destruct (rt_source _ _ _ Hrt t Ht) as (p & Hp & Hpu). apply (Hno p Hp). congruence.
  - intros [(t & Ht & Hu & Hb)|(Hno & Hm & He)]; [left|right].
    + destruct (rt_source _ _ _ Hrt t Ht) as (p & Hp & Hpu).
      destruct (rt_target _ _ _ Hrt p Hp) as (t' & Ht' & Htu & Hiff).
      exists p. split_and!; [done|congruence|]. apply Hiff.
      by rewrite (Hinj t' t) by congruence.
    + split_and!; [|done..]. intros p Hp Hu.
      destruct (rt_target _ _ _ Hrt p Hp) as (t & Ht & Htu & _). apply (Hno t Ht). congruence.
Qed.
End accept.

(** ** From the resolved tables to the payload *)

Definition packed_tables (targets lsposed : list Z) (ports : list vpnhide_port_target)
    (masks : list vpnhide_app_hook_mask_v3) (ifaces : vpnhide_iface_ioctl_data)
    (active java debug mode : Z) : vpnhide_policy_snapshot := {|
  active_hooks_mask := active; java_hooks_mask := java;
  debug_enabled := bang_bang debug; flags := 0;
  kmod_match_mode := mode; lsposed_match_mode := mode; port_match_mode := mode;
  iface_prefixes := ifaces; kmod_uids := targets; lsposed_uids := lsposed;
  port_targets := pack_port_targets ports 0; port_rules := pack_port_rules ports;
  app_hook_masks := masks |}.

Lemma length_pack_port_targets ports j : length (pack_port_targets ports j) = length ports.
Proof. revert j. induction ports; intros; simpl; auto. Qed.

Lemma pack_policy_v4_payload targets lsposed ports masks ifaces active java debug mode mem bs mem' :
  0 <= if_count ifaces <= MAX_IFACE_PREFIXES →
  pack_policy_v4 targets lsposed ports masks ifaces active java debug mode mem = Ok (bs, mem') →
  let s := packed_tables targets lsposed ports masks ifaces active java debug mode in
  bs = payload_of s ∧ 592 + body_size s <= VPNHIDE_POLICY_MAX_BYTES.
Proof.
  intros Hif H. cbv zeta. unfold pack_policy_v4 in H.
  destruct (sum_rules ports 0) as [total_rules|] eqn:Hsum; [|done].
  apply sum_rules_Some in Hsum. rewrite Z.add_0_l in Hsum. subst total_rules. cbv zeta in H.
  run_alloc. destruct (payload_total _ _ _ _ _) as [total|] eqn:Htot; [|done].
  apply payload_total_Some in Htot as [Htot Hmax]; [|lia..].
  assert (total = 592 + body_size (packed_tables targets lsposed ports masks ifaces active java debug mode))
    as Hbody.
  { unfold body_size, packed_tables; simpl. rewrite length_pack_port_targets. lia. }
  run_alloc. subst bs. split; [|lia]. unfold payload_of. f_equal. f_equal.
  unfold header_v4, packed_tables, body_sections, nth_section, body_size, u32 in *;
    cbn [nth active_hooks_mask java_hooks_mask debug_enabled flags kmod_match_mode lsposed_match_mode
      port_match_mode iface_prefixes kmod_uids lsposed_uids port_targets port_rules app_hook_masks] in *.
  rewrite length_pack_port_targets in *.
  unfold sizeof_u32, sizeof_port_rule_v3, sizeof_port_target_v3, MAX_IFACE_PREFIXES, sizeof_payload_v4,
    VPNHIDE_POLICY_MAX_BYTES in *.
  rewrite !wrap_small by (unfold fits; lia). f_equal; (done || lia || (f_equal; lia)).
Qed.

(** ** Acceptance *)

Section accepted.
Context {KS : KSort} {HKS : KSortLaws KS}.

(** A payload of well-formed tables is accepted and refines them. *)
Lemma payload_accepted s ports :
  packable s → tables_ok s ports → 592 + body_size s <= VPNHIDE_POLICY_MAX_BYTES →
  ∃ r, policy_snapshot_from_v4 true true (payload_of s) =
         Ok (with_match_modes (kmod_match_mode s) (lsposed_match_mode s) (port_match_mode s) r) ∧
       refines_tables (copied s) ports r.
Proof.
  intros Hpk Htab Hsize. rewrite policy_snapshot_from_v4_payload by done.
  assert (tables_ok (copied s) ports) as Htab' by by destruct Htab.
  destruct (policy_v3_finish_accepts _ _ Htab') as [r Hr]. exists r. rewrite Hr.
  split; [done|]. by apply policy_v3_finish_means.
Qed.

Context (targets lsposed : list Z) (ports : list vpnhide_port_target)
        (masks : list vpnhide_app_hook_mask_v3) (ifaces : vpnhide_iface_ioctl_data)
        (active java debug mode : Z).

(** What the packer's callers guarantee. *)
Record pack_inputs_ok : Prop := {
  pi_targets : Forall (fits 32) targets ∧ NoDup targets ∧ Forall (λ u, u ≠ 0) targets;
  pi_lsposed : Forall (fits 32) lsposed ∧ NoDup lsposed ∧ Forall (λ u, u ≠ 0) lsposed;
  pi_ports : Forall user_target_ok ports ∧ NoDup (tg_uid <$> ports);
  pi_masks : Forall app_hook_mask_fits masks ∧
    Forall (λ m, app_mask_valid m = true) masks ∧ NoDup (am_uid <$> masks);
  pi_words : fits 32 active ∧ fits 32 java;
  pi_mode : 0 <= mode <= 1;
  pi_ifaces : 0 <= if_count ifaces <= MAX_IFACE_PREFIXES ∧ prefixes_fit (if_prefixes ifaces)
}.

Local Abbreviation tables :=
  (packed_tables targets lsposed ports masks ifaces active java debug mode).

Lemma pack_inputs_tables :
  pack_inputs_ok → 592 + body_size tables <= VPNHIDE_POLICY_MAX_BYTES →
  packable tables ∧ tables_ok tables ports.
Proof.
  intros [(?&?&?) (?&?&?) [Hpo ?] (?&?&?) [? ?] ? [? ?]] Hsize.
  assert (Z.of_nat (length (pack_port_rules ports)) < 2 ^ 32) as Hl.
  { unfold body_size, VPNHIDE_POLICY_MAX_BYTES in Hsize.
    cbn [packed_tables port_rules] in Hsize. lia. }
  pose proof (pack_port_rules_ok ports Hpo) as Hrules.
  assert (tables_ok tables ports) as Htab by by split.
  split; [|done]. destruct (tables_packs _ _ Htab) as [Hpacks Hrange].
  split; cbn [packed_tables kmod_uids lsposed_uids port_targets port_rules app_hook_masks
    active_hooks_mask java_hooks_mask debug_enabled flags kmod_match_mode lsposed_match_mode
    port_match_mode iface_prefixes] in *; try done.
  - apply Forall_forall. intros p Hin. rewrite Forall_forall in Hrange.
    destruct (Hrange p Hin) as (? & ? & ? & ?). apply list_elem_of_lookup in Hin as [i Hi].
    destruct (Forall2_lookup_r _ _ _ _ _ Hpacks Hi) as (t & _ & _ & _ & Hres & _).
    unfold port_target_fits. rewrite Hres. split_and!; try done. by repeat constructor.
  - eapply Forall_impl; [exact Hrules|]. by intros r [].
  - rewrite !Forall_cons. destruct (bang_bang_01 debug) as [-> | ->]; by split_and!.
  - rewrite !Forall_cons. split_and!; (done || lia).
Qed.

(** [pack_policy_v4] followed by [policy_snapshot_from_v4]. *)
Lemma pack_policy_v4_accepted mem payload mem' :
  pack_inputs_ok →
  pack_policy_v4 targets lsposed ports masks ifaces active java debug mode mem =
    Ok (payload, mem') →
  (∃ r, policy_snapshot_from_v4 true true payload = Ok (with_match_modes mode mode mode r) ∧
        refines_tables (copied tables) ports r) ∧
  592 <= Z.of_nat (length payload) <= VPNHIDE_POLICY_MAX_BYTES.
Proof.
  intros Hin H. apply pack_policy_v4_payload in H as [-> Hsize]; [|apply Hin].
  destruct (pack_inputs_tables Hin Hsize) as [Hpk Htab]. split; [by apply payload_accepted|].
  rewrite length_payload_of by done. unfold body_size in *. lia.
Qed.
End accepted.

(** ** The packer succeeds on tables that fit *)

Lemma policy_add_size_fits total count size :
  0 <= total <= 2 ^ 24 → 0 <= count → 0 < size → count * size <= 2 ^ 24 →
  policy_add_size total count size = Some (total + count * size).
Proof.
  intros Ht Hc Hs Hb. unfold policy_add_size, u64, SIZE_MAX. rewrite wrap_small by (unfold fits; nia).
  destruct (negb (count =? 0) && _) eqn:E.
  { exfalso. b2p. assert (size <= (2 ^ 64 - 1) / count) by (apply Z.div_le_lower_bound; nia). lia. }
  destruct (Z.ltb_spec (2 ^ 64 - 1 - count * size) total); [lia|done].
Qed.

Lemma sum_rules_fits ports total :
  0 <= total → total + Z.of_nat (length (pack_port_rules ports)) <= 2 ^ 32 →
  sum_rules ports total = Some (total + Z.of_nat (length (pack_port_rules ports))).
Proof.
  revert total; induction ports as [|t ports IH]; intros total Ht Hb; cbn [sum_rules].
  { f_equal. change (length (pack_port_rules [])) with O. lia. }
  rewrite pack_port_rules_cons, length_app, length_fmap in *.
  destruct (Z.ltb_spec (SIZE_MAX - Z.of_nat (length (tg_rules t))) total); [unfold SIZE_MAX in *; lia|].
  rewrite IH by lia. f_equal. lia.
Qed.

Lemma pack_policy_v4_total targets lsposed ports masks ifaces active java debug mode :
  592 + body_size (packed_tables targets lsposed ports masks ifaces active java debug mode)
    <= VPNHIDE_POLICY_MAX_BYTES →
  ∃ payload,
    pack_policy_v4 targets lsposed ports masks ifaces active java debug mode [] = Ok (payload, []).
Proof.
  unfold body_size, packed_tables, VPNHIDE_POLICY_MAX_BYTES; cbn [kmod_uids lsposed_uids port_targets
    port_rules app_hook_masks]. rewrite length_pack_port_targets. intros Hb.
  unfold pack_policy_v4. rewrite sum_rules_fits by lia. rewrite Z.add_0_l. unfold UINT32_MAX.
  destruct (_ || _) eqn:E. { exfalso. rewrite !orb_true_iff, !Z.ltb_lt in E. lia. }
  clear E. unfold payload_total, sizeof_payload_v4, sizeof_u32, sizeof_port_target_v3, sizeof_port_rule_v3,
    sizeof_app_hook_mask_v3. cbn [mbind option_bind].
  rewrite policy_add_size_fits by lia; cbn [mbind option_bind].
  rewrite policy_add_size_fits by lia; cbn [mbind option_bind].
  rewrite policy_add_size_fits by lia; cbn [mbind option_bind].
  rewrite policy_add_size_fits by lia; cbn [mbind option_bind].
  rewrite policy_add_size_fits by lia; cbn [mbind option_bind].
  destruct (_ || _) eqn:E2.
  { exfalso. rewrite !orb_true_iff, !Z.ltb_lt in E2. unfold UINT32_MAX, VPNHIDE_POLICY_MAX_BYTES in E2. lia. }
  by eexists.
Qed.

(** ** Properties *)

(** The snapshot the kernel builds from the example's payload. *)
Definition example_loaded : vpnhide_policy_snapshot :=
  match policy_snapshot_from_v4 (KS := merge_ksort) true true (payload_of example_snapshot) with
  | Ok s => s
  | Err _ => example_snapshot
  end.

Lemma example_payload_accepted :
  policy_snapshot_from_v4 (KS := merge_ksort) true true (payload_of example_snapshot) = Ok example_loaded.
Proof. vm_compute. reflexivity. Qed.

Lemma accepted_v4_payload_wf_witness : snapshot_wf example_loaded.
Proof.
  apply (accepted_v4_payload_wf (KS := merge_ksort) (HKS := merge_ksort_laws) true true
    (payload_of example_snapshot)).
  apply example_payload_accepted.
Defined.

Definition example_v3_payload : bytes := encode_payload_v3 (header_v3 example_snapshot) ++ body example_snapshot.

Definition example_loaded_v3 : vpnhide_policy_snapshot :=
  match policy_snapshot_from_v3 (KS := merge_ksort) true example_v3_payload with
  | Ok s => s
  | Err _ => example_snapshot
  end.

Lemma accepted_v3_payload_wf_witness : snapshot_wf example_loaded_v3.
Proof.
  apply (accepted_v3_payload_wf (KS := merge_ksort) (HKS := merge_ksort_laws) true example_v3_payload).
  vm_compute. reflexivity.
Defined.

(** C10: resolved tables that fit in 16 MiB are packed (with memory available),
    the kernel accepts the payload, and the snapshot has the same UID sets,
    masks and mode and blocks exactly the ports of the packed targets. *)
Theorem packed_policy_round_trip {KS : KSort} {HKS : KSortLaws KS} targets lsposed ports masks ifaces
    active java debug mode :
  pack_inputs_ok targets lsposed ports masks ifaces active java mode →
  592 + body_size (packed_tables targets lsposed ports masks ifaces active java debug mode)
    <= VPNHIDE_POLICY_MAX_BYTES →
  ∃ payload s,
    pack_policy_v4 targets lsposed ports masks ifaces active java debug mode [] = Ok (payload, []) ∧
    policy_snapshot_from_v4 true true payload = Ok s ∧
    kmod_match_mode s = mode ∧ lsposed_match_mode s = mode ∧
    (∀ u, u ∈ kmod_uids s ↔ u ∈ targets) ∧ (∀ u, u ∈ lsposed_uids s ↔ u ∈ lsposed) ∧
    (∀ m, m ∈ app_hook_masks s ↔ ∃ m0, m0 ∈ masks ∧ m = app_mask_force_port_hooks m0) ∧
    ∀ uid port proto, policy_blocks s uid port proto ↔ ports_block ports mode uid port proto.
Proof.
  intros Hin Hb. destruct (pack_policy_v4_total _ _ _ _ _ _ _ _ _ Hb) as [payload Hp].
  destruct (pack_policy_v4_accepted _ _ _ _ _ _ _ _ _ _ _ _ Hin Hp) as [(r & Hr & Hrt) _].
  exists payload. eexists. split; [exact Hp|]. split; [exact Hr|].
  cbn [with_match_modes kmod_match_mode lsposed_match_mode kmod_uids lsposed_uids app_hook_masks].
  split_and!; try done.
  - apply (rt_kmod _ _ _ Hrt).
  - apply (rt_lsposed _ _ _ Hrt).
  - apply (rt_masks _ _ _ Hrt).
  - intros. apply refines_policy_blocks with (1 := Hrt). apply Hin.
Qed.

Definition example_ports : list vpnhide_port_target :=
  [mk_port_target 10123 VH_PORT_POLICY_RULES [mk_port_rule 8080 8090 VH_PROTO_TCP] 16].

Lemma packed_policy_round_trip_witness :
  ∃ payload s,
    pack_policy_v4 [10123] [10200] example_ports [] (mk_iface_data 0 (replicate 32 (replicate 16 x00)))
      1 0 0 0 [] = Ok (payload, []) ∧
    policy_snapshot_from_v4 (KS := merge_ksort) true true payload = Ok s ∧
    kmod_match_mode s = 0 ∧ lsposed_match_mode s = 0 ∧
    (∀ u, u ∈ kmod_uids s ↔ u ∈ [10123]) ∧ (∀ u, u ∈ lsposed_uids s ↔ u ∈ [10200]) ∧
    (∀ m, m ∈ app_hook_masks s ↔ ∃ m0, m0 ∈ ([] : list vpnhide_app_hook_mask_v3) ∧
      m = app_mask_force_port_hooks m0) ∧
    ∀ uid port proto, policy_blocks s uid port proto ↔ ports_block example_ports 0 uid port proto.
Proof.
  apply (packed_policy_round_trip (KS := merge_ksort) (HKS := merge_ksort_laws) [10123] [10200]
    example_ports [] (mk_iface_data 0 (replicate 32 (replicate 16 x00))) 1 0 0 0).
  - split; cbn [if_count if_prefixes]; try done; split_and!; try done; try (by repeat constructor).
    all: try (apply NoDup_singleton).
  - vm_compute. done.
Defined.
