(* ===== verification/EndToEnd.v ===== *)
(** * From the JSON configuration to kernel decisions

    The whole path of a [load]: the controller resolves and packs the
    configuration, the kernel module validates it and answers the queries of
    its hooks.  The specification side reads the JSON tree only. *)
From S2P Require Import Prelude Abi Snapshot PolicyQuery Userspace PolicyResolve Ctl RoundTrip.
From Stdlib Require Import Strings.Byte QArith.

#[local] Open Scope Z_scope.

Section spec.
Context {FC : FloatConv}.

Definition config_apps (root : JSON_Object) : list JSON_Object :=
  array_objects (json_object_get_array root (lit "apps")).

(** Which UIDs the kernel hides VPN state from. *)
Definition config_hides (root : JSON_Object) (uid : Z) : Prop :=
  eligible uid ∧
  match read_mode root with
  | VPNHIDE_LIST_BLACKLIST => configured_uid (lit "kmod") (config_apps root) uid
  | VPNHIDE_LIST_ALLOWLIST => ¬ configured_uid (lit "kmod") (config_apps root) uid
  end.

(** Which ports are closed to a UID. *)
Definition config_blocks (root : JSON_Object) (uid port proto : Z) : Prop :=
  match port_app_for (config_apps root) uid with
  | Some app =>
      app_blocks (read_mode root)
        (app_rules (json_object_get_array root (lit "portRules"))
           (json_object_get_array root (lit "massPortRules")) app) port proto
  | None => read_mode root = VPNHIDE_LIST_ALLOWLIST ∧ eligible uid
  end.

(** The entry whose hook masks apply to a UID. *)
Definition has_mask (app : JSON_Object) : bool :=
  negb (app_uid app =? 0) &&
  (json_object_has_value app (lit "kernelHookMask") ||
   json_object_has_value app (lit "javaHookMask")).

Definition mask_app_for (apps : list JSON_Object) (uid : Z) : option JSON_Object :=
  List.find (λ app, has_mask app && (app_uid app =? uid)) apps.

Definition json_bit (o : JSON_Object) (h : vpnhide_hook_idx) : bool :=
  Z.testbit (to_uint (json_object_get_number o (lit "kernelHookMask"))) (hook_bit h).

(** Is hook [h] on in the global configuration?  All are without one. *)
Definition config_global_hook (root : JSON_Object) (h : vpnhide_hook_idx) : bool :=
  match json_object_get_object root (lit "globalConfig") with
  | Some global_config => json_bit global_config h
  | None => true
  end.

(** Is hook [h] on for [uid]?  The hooks that enforce ports always are; in
    allowlist mode an application's bits are exceptions. *)
Definition config_hook (root : JSON_Object) (uid : Z) (h : vpnhide_hook_idx) : bool :=
  bool_decide (h = HOOK_CONNECT) || bool_decide (h = HOOK_BIND) ||
  match mask_app_for (config_apps root) uid with
  | Some app =>
      if json_object_has_value app (lit "kernelHookMask") then
        match read_mode root with
        | VPNHIDE_LIST_BLACKLIST => json_bit app h
        | VPNHIDE_LIST_ALLOWLIST => config_global_hook root h && negb (json_bit app h)
        end
      else config_global_hook root h
  | None => config_global_hook root h
  end.
End spec.

(** ** Words *)

Lemma fits_land w x : 0 <= w → fits w x ↔ Z.land x (Z.ones w) = x.
Proof.
  intros Hw. rewrite Z.land_ones by done. unfold fits. split; [apply Z.mod_small|].
  intros <-. apply Z.mod_pos_bound, Z.pow_pos_nonneg; lia.
Qed.

Lemma fits_lor w a b : 0 <= w → fits w a → fits w b → fits w (Z.lor a b).
Proof.
  intros Hw. rewrite !fits_land by done. intros Ha Hb. by rewrite Z.land_lor_distr_l, Ha, Hb.
Qed.

Lemma fits_land_r w a b : 0 <= w → fits w b → fits w (Z.land a b).
Proof. intros Hw. rewrite !fits_land by done. intros Hb. by rewrite <- Z.land_assoc, Hb. Qed.

Lemma testbit_port_mask h :
  Z.testbit VPNHIDE_PORT_HOOK_MASK (hook_bit h) =
  bool_decide (h = HOOK_CONNECT) || bool_decide (h = HOOK_BIND).
Proof. by destruct h. Qed.

Lemma port_hook_masks_agree : VPNHIDE_PORT_HOOK_MASK = PORT_HOOK_BITS.
Proof. done. Qed.

Lemma testbit_all h : Z.testbit UINT32_MAX (hook_bit h) = true.
Proof. by destruct h. Qed.

Lemma testbit_u32_lnot x h :
  Z.testbit (u32 (Z.lnot x)) (hook_bit h) = negb (Z.testbit x (hook_bit h)).
Proof.
  pose proof (hook_bit_range h). unfold u32, wrap.
  rewrite Z.mod_pow2_bits_low by lia. apply Z.lnot_spec. lia.
Qed.

(** ** Masks *)

Section masks.
Context {FC : FloatConv} {HFC : FloatConvLaws FC}.

Lemma or_all_fits root mask :
  fits 32 mask → fits 32 (or_all (read_global root) mask).
Proof. intros. unfold or_all. by destruct (gs_have_global_config _). Qed.

Lemma global_masks_fit root :
  fits 32 (gs_kernel_mask (read_global root)) ∧ fits 32 (gs_java_mask (read_global root)).
Proof.
  unfold read_global. destruct (json_object_get_object _ _); cbn [gs_kernel_mask gs_java_mask].
  - split; [apply fits_lor; [lia|apply to_uint_fits|done]|apply to_uint_fits].
  - done.
Qed.

Lemma app_mask_bits_fits root base raw :
  fits 32 raw → fits 32 (app_mask_bits (read_global root) base raw).
Proof.
  intros. unfold app_mask_bits. destruct (gs_allowlist_mode _); [|done].
  apply fits_land_r; [lia|]. apply wrap_fits. lia.
Qed.

Lemma app_hook_mask_ok root app :
  app_uid app ≠ 0 →
  app_hook_mask_fits (app_hook_mask (read_global root) app) ∧
  app_mask_valid (app_hook_mask (read_global root) app) = true.
Proof.
  intros Hu. unfold app_hook_mask, app_hook_mask_fits, app_mask_valid;
    cbn [am_uid am_kernel_mask am_java_mask am_has_kernel_override am_has_java_override am_reserved].
  split.
  - split_and!; try done.
    + apply to_uint_fits.
    + apply fits_lor; [lia| |done]. apply app_mask_bits_fits. case_match; [apply to_uint_fits|done].
    + apply app_mask_bits_fits. case_match; [apply to_uint_fits|done].
    + by destruct (json_object_has_value _ _).
    + by destruct (json_object_has_value _ _).
    + by repeat constructor.
  - apply Z.eqb_neq in Hu. rewrite Hu.
    by destruct (json_object_has_value app (lit "kernelHookMask")),
      (json_object_has_value app (lit "javaHookMask")).
Qed.

Lemma append_app_hook_mask_spec v m mem v' mem' :
  append_app_hook_mask v m mem = Ok (v', mem') →
  mv_items v' = if bool_decide (am_uid m ∈ (am_uid <$> mv_items v)) then mv_items v
                else mv_items v ++ [m].
Proof.
  unfold append_app_hook_mask. intros H. case_bool_decide; run_alloc; by subst.
Qed.

Lemma collect_app_masks_spec g apps v mem v' mem' :
  collect_app_masks g apps v mem = Ok (v', mem') →
  NoDup (am_uid <$> mv_items v) →
  NoDup (am_uid <$> mv_items v') ∧
  (∀ m, m ∈ mv_items v → m ∈ mv_items v') ∧
  (∀ m, m ∈ mv_items v' → m ∈ mv_items v ∨
     ∃ app, app ∈ apps ∧ has_mask app = true ∧ m = app_hook_mask g app) ∧
  (∀ uid app, mask_app_for apps uid = Some app → uid ∉ (am_uid <$> mv_items v) →
     app_hook_mask g app ∈ mv_items v').
Proof.
  revert v mem. induction apps as [|app apps IH]; intros v mem H Hnd;
    cbn [collect_app_masks] in H; run_alloc.
  { subst. split_and!; auto. done. }
  unfold mask_app_for in *. cbn [List.find]. fold (has_mask app) in *.
  match goal with H : (if has_mask app then _ else _) _ = Ok (?x, _) |- _ =>
    rename x into v1; assert (
      ((has_mask app = true → app_uid app ∈ (am_uid <$> mv_items v)) ∧ mv_items v1 = mv_items v) ∨
      (has_mask app = true ∧ (app_uid app ∉ (am_uid <$> mv_items v)) ∧
       mv_items v1 = mv_items v ++ [app_hook_mask g app])) as Hstep end.
  { destruct (has_mask app) eqn:E; run_alloc; [|subst; left; split; done].
    match goal with H : append_app_hook_mask _ _ _ = _ |- _ =>
      apply append_app_hook_mask_spec in H end.
    case_bool_decide; [left|right]; split_and!; done. }
  match goal with H : collect_app_masks _ _ _ _ = _ |- _ =>
    apply IH in H as (Hnd' & Hsub & Hsound & Hcompl) end.
  2:{ destruct Hstep as [[_ ->]|(_ & Hno & ->)]; [done|].
      rewrite fmap_app, NoDup_app. split_and!; [done| |apply NoDup_singleton].
      intros y Hy. simpl. rewrite list_elem_of_singleton. by intros ->. }
  split_and!; [done| | |].
  - intros m Hm. apply Hsub. destruct Hstep as [[_ ->]|(_ & _ & ->)]; [done|].
    apply elem_of_app. by left.
  - intros m Hm. destruct (Hsound m Hm) as [Hin|(app' & Hin & ? & ->)].
    + destruct Hstep as [[_ Heq]|(Hhas & _ & Heq)]; rewrite Heq in Hin; [by left|].
      apply elem_of_app in Hin as [?| ->%list_elem_of_singleton]; [by left|right].
      exists app. split_and!; [left|done..].
    + right. exists app'. split_and!; [by right|done..].
  - intros uid a Ha Hno. destruct Hstep as [[Hin Heq]|(Hhas & Hno' & Heq)].
    + destruct (has_mask app) eqn:Hhas; cbn [andb] in Ha; [|eapply Hcompl; [done|by rewrite Heq]].
      destruct (Z.eqb_spec (app_uid app) uid) as [<-|]; [by destruct Hno; auto|].
      eapply Hcompl; [done|by rewrite Heq].
    + rewrite Hhas in Ha. cbn [andb] in Ha. destruct (Z.eqb_spec (app_uid app) uid) as [<-|].
      * simplify_eq. apply Hsub. rewrite Heq. apply elem_of_app. right.
        by apply list_elem_of_singleton.
      * eapply Hcompl; [done|]. rewrite Heq, fmap_app, not_elem_of_app. split; [done|].
        simpl. rewrite list_elem_of_singleton. congruence.
Qed.

Lemma mask_app_for_Some apps uid app :
  mask_app_for apps uid = Some app → has_mask app = true ∧ app_uid app = uid.
Proof. intros [_ H]%List.find_some. b2p. done. Qed.

Lemma mask_app_for_None apps app :
  app ∈ apps → has_mask app = true → mask_app_for apps (app_uid app) ≠ None.
Proof.
  intros Hin Hh Hnone. apply list_elem_of_In in Hin.
  pose proof (List.find_none _ _ Hnone app Hin) as Hf. simpl in Hf.
  by rewrite Hh, Z.eqb_refl in Hf.
Qed.

(** ** The global part *)

Lemma allowlist_read_mode root :
  gs_allowlist_mode (read_global root) =
  bool_decide (read_mode root = VPNHIDE_LIST_ALLOWLIST).
Proof.
  unfold read_global, read_mode.
  destruct (json_object_get_object root _) as [o|]; [|done]. cbn [gs_allowlist_mode].
  destruct (json_object_get_string o _) as [m|]; [|done]. by destruct (_ || _).
Qed.

Lemma testbit_global root h :
  Z.testbit (or_all (read_global root) (gs_kernel_mask (read_global root))) (hook_bit h) =
  bool_decide (h = HOOK_CONNECT) || bool_decide (h = HOOK_BIND) || config_global_hook root h.
Proof.
  unfold or_all, read_global, config_global_hook.
  destruct (json_object_get_object root _) as [o|]; cbn [gs_have_global_config gs_kernel_mask].
  - rewrite Z.lor_spec, testbit_port_mask. apply orb_comm.
  - by rewrite testbit_all, orb_true_r.
Qed.

Lemma testbit_app_mask root app h :
  json_object_has_value app (lit "kernelHookMask") = true →
  Z.testbit (am_kernel_mask (app_hook_mask (read_global root) app)) (hook_bit h) =
  bool_decide (h = HOOK_CONNECT) || bool_decide (h = HOOK_BIND) ||
    match read_mode root with
    | VPNHIDE_LIST_BLACKLIST => json_bit app h
    | VPNHIDE_LIST_ALLOWLIST => config_global_hook root h && negb (json_bit app h)
    end.
Proof.
  intros Hk. unfold app_hook_mask; cbn [am_kernel_mask]. rewrite Hk.
  rewrite Z.lor_spec, testbit_port_mask, orb_comm. unfold app_mask_bits.
  rewrite allowlist_read_mode. destruct (read_mode root); [done|].
  change (bool_decide (VPNHIDE_LIST_ALLOWLIST = VPNHIDE_LIST_ALLOWLIST)) with true. cbv iota.
  rewrite Z.land_spec, testbit_u32_lnot, testbit_global.
  unfold json_bit. by destruct (bool_decide _), (bool_decide _).
Qed.
End masks.

(** ** The whole path *)

Section load.
Context {KS : KSort} {HKS : KSortLaws KS} {FC : FloatConv} {HFC : FloatConvLaws FC}.

(** The numeric match mode of a configuration. *)
Definition match_mode_of (root : JSON_Object) : Z :=
  match read_mode root with
  | VPNHIDE_LIST_ALLOWLIST => VPNHIDE_MATCH_EXCLUDE
  | VPNHIDE_LIST_BLACKLIST => VPNHIDE_MATCH_INCLUDE
  end.

(** How the snapshot of a configuration reads it. *)
Record loaded (root : JSON_Object) (s : vpnhide_policy_snapshot) : Prop := {
  ld_wf : snapshot_wf s;
  ld_mode : kmod_match_mode s = match_mode_of root;
  ld_lsposed_mode : lsposed_match_mode s = match_mode_of root;
  ld_kmod : ∀ u, u ∈ kmod_uids s ↔ configured_uid (lit "kmod") (config_apps root) u;
  ld_lsposed : ∀ u, u ∈ lsposed_uids s ↔ configured_uid (lit "lsposed") (config_apps root) u;
  ld_blocks : ∀ uid port proto, real_port port proto →
    policy_blocks s uid port proto ↔ config_blocks root uid port proto;
  ld_active : active_hooks_mask s =
    Z.lor (or_all (read_global root) (gs_kernel_mask (read_global root))) PORT_HOOK_BITS;
  ld_masks : ∀ m, m ∈ app_hook_masks s → ∃ app, has_mask app = true ∧ app ∈ config_apps root ∧
    m = app_mask_force_port_hooks (app_hook_mask (read_global root) app);
  ld_masks_complete : ∀ uid app, mask_app_for (config_apps root) uid = Some app →
    app_mask_force_port_hooks (app_hook_mask (read_global root) app) ∈ app_hook_masks s
}.

Lemma configured_uid_fits flag apps u : configured_uid flag apps u → fits 32 u ∧ u ≠ 0.
Proof.
  intros (app & _ & <- & Hc & _). split; [apply to_uint_fits|].
  unfold is_core_uid in Hc. b2p. done.
Qed.

Lemma iface_prefix_length xs i : length (iface_prefix xs i) = 16%nat.
Proof.
  unfold iface_prefix. destruct (xs !! i) as [[]|]; try done.
  rewrite length_app, length_strncpy. done.
Qed.

Lemma read_iface_prefixes_ok root :
  0 <= if_count (read_iface_prefixes root) <= MAX_IFACE_PREFIXES ∧
  prefixes_fit (if_prefixes (read_iface_prefixes root)).
Proof.
  unfold read_iface_prefixes, prefixes_fit; cbn [if_count if_prefixes].
  split; [unfold MAX_IFACE_PREFIXES; lia|]. rewrite length_fmap, length_seq. split; [done|].
  apply Forall_fmap, Forall_true. intros i. apply iface_prefix_length.
Qed.

(** The port table of a configuration blocks what the configuration says. *)
Lemma resolve_port_rules_blocks root summary ports summary' mem mem' uid port proto :
  vpnhide_resolve_port_rules root summary mem = Ok (ports, summary', mem') →
  sm_mode summary = read_mode root → real_port port proto →
  ports_block (pp_targets ports) (match_mode_of root) uid port proto ↔
  config_blocks root uid port proto.
Proof.
  unfold vpnhide_resolve_port_rules. intros H Hmode Hreal. run_alloc. simplify_eq.
  match goal with H : resolve_port_apps _ _ _ _ _ _ = _ |- _ =>
    apply resolve_port_apps_spec in H as (new & Hnew & Hnd & Hsound & Hcompl); [|constructor] end.
  rewrite Hmode in Hsound. cbn [pp_targets app] in Hnew. rewrite Hnew in *.
  fold (config_apps root) in *. unfold ports_block, config_blocks.
  destruct (port_app_for (config_apps root) uid) as [app|] eqn:Hfor.
  - specialize (Hcompl uid app Hfor ltac:(apply not_elem_of_nil)).
    apply list_elem_of_fmap in Hcompl as (t & -> & Ht).
    assert (∀ t', t' ∈ new → tg_uid t' = tg_uid t →
      (user_target_blocks t' port proto ↔ app_blocks (read_mode root)
        (app_rules (json_object_get_array root (lit "portRules"))
           (json_object_get_array root (lit "massPortRules")) app) port proto)) as Hiff.
    { intros t' Ht' Hu. destruct (Hsound t' Ht') as (app' & Hfor' & [_ _ Hb]).
      rewrite Hu, Hfor in Hfor'. simplify_eq. by apply Hb. }
    split.
    + intros [(t' & Ht' & Hu & Hb)|(Hno & _)]; [by apply (Hiff t')|by destruct (Hno t Ht)].
    + intros Hb. left. exists t. split_and!; [done..|]. by apply Hiff.
  - split.
    + intros [(t & Ht & Hu & _)|(_ & Hm & He)].
      * destruct (Hsound t Ht) as (app & Hfor' & _). congruence.
      * split; [|done]. unfold match_mode_of in Hm. by destruct (read_mode root).
    + intros [Hm He]. right. unfold match_mode_of. rewrite Hm. split_and!; [|done..].
      intros t Ht Hu. destruct (Hsound t Ht) as (app & Hfor' & _). congruence.
Qed.

Lemma resolve_port_rules_targets root summary ports summary' mem mem' :
  vpnhide_resolve_port_rules root summary mem = Ok (ports, summary', mem') →
  Forall user_target_ok (pp_targets ports) ∧ NoDup (tg_uid <$> pp_targets ports).
Proof.
  unfold vpnhide_resolve_port_rules. intros H. run_alloc. simplify_eq.
  match goal with H : resolve_port_apps _ _ _ _ _ _ = _ |- _ =>
    apply resolve_port_apps_spec in H as (new & Hnew & Hnd & Hsound & _); [|constructor] end.
  split; [|done]. rewrite Hnew. apply Forall_forall. intros t Ht.
  destruct (Hsound t Ht) as (app & [_ Hfor]%List.find_some & [Hr Hm _]).
  unfold port_app in Hfor. b2p. unfold is_core_uid in *. b2p.
  pose proof (to_uint_fits (json_object_get_number app (lit "uid"))) as Hf.
  fold (app_uid app) in Hf. unfold fits in Hf.
  split_and!; [lia..|done].
Qed.

(** A resolved UID set, sorted, is a set the kernel takes. *)
Lemma sorted_uids_ok flag apps v :
  NoDup (uv_items v) → (∀ u, u ∈ uv_items v ↔ configured_uid flag apps u) →
  let uids := sort_uids (uv_items v) in
  Forall (fits 32) uids ∧ NoDup uids ∧ Forall (λ u, u ≠ 0) uids ∧
  (∀ u, u ∈ uids ↔ configured_uid flag apps u).
Proof.
  intros Hnd Hiff. cbv zeta. destruct (sort_uids_spec (uv_items v)) as [_ Hp]. rewrite Hp.
  split_and!; try done; [apply Forall_forall; intros u Hu; apply Hiff, configured_uid_fits in Hu; tauto..|].
  intros u. by rewrite Hp.
Qed.

Lemma resolve_targets_spec root mem k l summary mem' :
  vpnhide_resolve_targets root mem = Ok (k, l, summary, mem') →
  sm_mode summary = read_mode root ∧ NoDup (uv_items k) ∧ NoDup (uv_items l) ∧
  (∀ u, u ∈ uv_items k ↔ configured_uid (lit "kmod") (config_apps root) u) ∧
  (∀ u, u ∈ uv_items l ↔ configured_uid (lit "lsposed") (config_apps root) u).
Proof.
  unfold vpnhide_resolve_targets. intros H. run_alloc.
  match goal with x : _ * _ * _ |- _ => destruct x as [[k' l'] r'] end. run_alloc. simplify_eq.
  match goal with H : resolve_target_apps _ _ _ _ _ = _ |- _ =>
    apply resolve_target_apps_spec in H as (Hk & Hl & Hks & Hls); [|constructor..] end.
  split_and!; try done; intros u; rewrite ?Hks, ?Hls; simpl; split; auto;
    intros [Hu|]; auto; by apply not_elem_of_nil in Hu.
Qed.

Lemma app_masks_ok root masks mem mem' :
  collect_app_masks (read_global root) (config_apps root) (mk_mask_vector [] 0) mem =
    Ok (masks, mem') →
  Forall app_hook_mask_fits (mv_items masks) ∧
  Forall (λ m, app_mask_valid m = true) (mv_items masks) ∧
  NoDup (am_uid <$> mv_items masks) ∧
  (∀ m, m ∈ mv_items masks → ∃ app, has_mask app = true ∧ app ∈ config_apps root ∧
     m = app_hook_mask (read_global root) app) ∧
  (∀ uid app, mask_app_for (config_apps root) uid = Some app →
     app_hook_mask (read_global root) app ∈ mv_items masks).
Proof.
  intros H. apply collect_app_masks_spec in H as (Hnd & _ & Hs & Hc); [|constructor].
  assert (∀ m, m ∈ mv_items masks → ∃ app, has_mask app = true ∧ app ∈ config_apps root ∧
     m = app_hook_mask (read_global root) app) as Hex.
  { intros m Hm. destruct (Hs m Hm) as [Hn|(app & ? & ? & ->)]; [|by eauto].
    by apply not_elem_of_nil in Hn. }
  split_and!; try done.
  1,2: apply Forall_forall; intros m (app & Hh & _ & ->)%Hex; apply app_hook_mask_ok;
    unfold has_mask in Hh; b2p; done.
  intros uid app Hf. apply (Hc uid app Hf). apply not_elem_of_nil.
Qed.

Lemma load_policy_accepted root mem payload mem' :
  load_policy root mem = Ok (payload, mem') →
  (∃ s, policy_snapshot_from_v4 true true payload = Ok s ∧ loaded root s) ∧
  592 <= Z.of_nat (length payload) <= VPNHIDE_POLICY_MAX_BYTES.
Proof.
  unfold load_policy. intros H. run_alloc.
  match goal with H : collect_app_masks _ _ _ _ = Ok (?x, _) |- _ =>
    rename x into masks; apply app_masks_ok in H as (Hmf & Hmv & Hmnd & Hms & Hmc) end.
  match goal with H : vpnhide_resolve_targets _ _ = Ok (?x, _) |- _ =>
    destruct x as [[targets lsposed] summary];
    apply resolve_targets_spec in H as (Hmode & Hknd & Hlnd & Hk & Hl) end.
  run_alloc.
  match goal with H : vpnhide_resolve_port_rules _ _ _ = Ok (?x, _) |- _ =>
    destruct x as [ports summary'];
    pose proof (λ uid port proto, resolve_port_rules_blocks _ _ _ _ _ _ uid port proto H Hmode) as Hblocks;
    apply resolve_port_rules_targets in H as [Hpok Hpnd] end.
  destruct (sorted_uids_ok _ _ _ Hknd Hk) as (Hkf & Hknd' & Hk0 & Hk').
  destruct (sorted_uids_ok _ _ _ Hlnd Hl) as (Hlf & Hlnd' & Hl0 & Hl').
  destruct (read_iface_prefixes_ok root) as [Hifc Hifp].
  destruct (global_masks_fit root) as [Hgk Hgj].
  match goal with H : pack_policy_v4 _ _ _ _ _ _ _ _ ?m _ = _ |- _ =>
    assert (m = match_mode_of root) as Hmm
      by (rewrite allowlist_read_mode; unfold match_mode_of; by destruct (read_mode root));
    rewrite Hmm in H; clear Hmm; rename H into Hpack end.
  assert (0 <= match_mode_of root <= 1) as Hmmr
    by (unfold match_mode_of; destruct (read_mode root); done).
  apply pack_policy_v4_accepted in Hpack as [(r & Hacc & Hr) Hlen].
  2:{ split; try done. split; by apply or_all_fits. }
  split; [|exact Hlen]. eexists. split; [exact Hacc|].
  split; cbn [with_match_modes kmod_match_mode lsposed_match_mode kmod_uids lsposed_uids
    active_hooks_mask app_hook_masks]; try done.
  - by eapply policy_snapshot_from_v4_wf.
  - intros u. rewrite (rt_kmod _ _ _ Hr). apply Hk'.
  - intros u. rewrite (rt_lsposed _ _ _ Hr). apply Hl'.
  - intros uid port proto Hreal. rewrite (refines_policy_blocks _ _ _ _ _ _ _ _ _ Hr Hpnd). by apply Hblocks.
  - by rewrite (rt_active _ _ _ Hr).
  - intros m (m0 & Hm0 & ->)%(rt_masks _ _ _ Hr).
    destruct (Hms m0 Hm0) as (app & ? & ? & ->). eauto.
  - intros uid app Hfor. apply (rt_masks _ _ _ Hr). eexists. split; [|done]. by eapply Hmc.
Qed.

Lemma load_policy_loaded root mem payload mem' :
  load_policy root mem = Ok (payload, mem') →
  ∃ s, policy_snapshot_from_v4 true true payload = Ok s ∧ loaded root s.
Proof. intros H. by apply load_policy_accepted in H as [? _]. Qed.

Lemma loaded_hides root s uid :
  loaded root s → is_target_uid_val (Some s) uid = true ↔ config_hides root uid.
Proof.
  intros Hld. unfold is_target_uid_val, config_hides.
  rewrite uid_matches_mode_spec by apply Hld.
  unfold matches. pose proof (ld_mode _ _ Hld) as Hm. unfold match_mode_of in Hm.
  pose proof (ld_kmod _ _ Hld uid). case_decide as Hd; destruct (read_mode root);
    unfold VPNHIDE_MATCH_INCLUDE, VPNHIDE_MATCH_EXCLUDE in *; (lia || tauto).
Qed.

Lemma force_testbit m h :
  am_has_kernel_override m = 1 →
  Z.testbit (am_kernel_mask (app_mask_force_port_hooks m)) (hook_bit h) =
  bool_decide (h = HOOK_CONNECT) || bool_decide (h = HOOK_BIND) ||
    Z.testbit (am_kernel_mask m) (hook_bit h).
Proof.
  intros Ho. unfold app_mask_force_port_hooks. rewrite Ho. cbn [Z.eqb am_kernel_mask].
  rewrite <- port_hook_masks_agree, Z.lor_spec, testbit_port_mask. apply orb_comm.
Qed.

Lemma am_override_force m :
  am_has_kernel_override (app_mask_force_port_hooks m) = am_has_kernel_override m.
Proof. unfold app_mask_force_port_hooks. by destruct (_ =? _). Qed.

Lemma loaded_hooks root s uid h :
  loaded root s → is_hook_active (Some s) h uid = config_hook root uid h.
Proof.
  intros Hld. pose proof (ld_wf _ _ Hld) as Hwf. unfold config_hook.
  assert (Z.testbit (active_hooks_mask s) (hook_bit h) =
    bool_decide (h = HOOK_CONNECT) || bool_decide (h = HOOK_BIND) || config_global_hook root h) as Hact.
  { rewrite (ld_active _ _ Hld), Z.lor_spec, testbit_global, <- port_hook_masks_agree,
      testbit_port_mask. by destruct (bool_decide _), (bool_decide _), (config_global_hook root h). }
  destruct (mask_app_for (config_apps root) uid) as [app|] eqn:Hfor.
  - destruct (mask_app_for_Some _ _ _ Hfor) as [Hhas Hu].
    pose proof (ld_masks_complete _ _ Hld _ _ Hfor) as Hin.
    set (m := app_mask_force_port_hooks _) in Hin.
    assert (am_uid m = uid) as Hmu by (subst m; by rewrite am_uid_force).
    assert (am_has_kernel_override m = Z.b2z (json_object_has_value app (lit "kernelHookMask"))) as Hov
      by (subst m; by rewrite am_override_force).
    destruct (json_object_has_value app (lit "kernelHookMask")) eqn:Hk.
    + rewrite (is_hook_active_effective s Hwf h uid (am_kernel_mask m)) by (left; eauto).
      subst m. rewrite force_testbit by by rewrite am_override_force in Hov.
      rewrite (testbit_app_mask root app h Hk).
      by destruct (bool_decide _), (bool_decide _).
    + rewrite (is_hook_active_effective s Hwf h uid (active_hooks_mask s)); [done|].
      right. split; [|done]. intros m' Hm' Hu'.
      rewrite (strictly_sorted_inj am_uid _ m' m (wf_masks_sorted s Hwf)) by congruence.
      by rewrite Hov.
  - rewrite (is_hook_active_effective s Hwf h uid (active_hooks_mask s)); [done|].
    right. split; [|done]. intros m' Hm' Hu' _.
    destruct (ld_masks _ _ Hld m' Hm') as (app & Hhas & Hin & ->).
    rewrite am_uid_force in Hu'. change (app_uid app = uid) in Hu'. subst uid.
    by apply (mask_app_for_None _ _ Hin Hhas).
Qed.
End load.
