(* ===== verification/Load.v ===== *)
(** * The [load] command

    [load_policy] never fails for lack of anything but memory, payload space
    or a rule the format accepts, and what the kernel then decides is what the
    JSON configuration says: the main theorems about the policy path. *)
From S2P Require Import Prelude Abi Snapshot PolicyQuery Userspace PolicyResolve Ctl RoundTrip EndToEnd.
From Stdlib Require Import Strings.Byte QArith.

#[local] Open Scope Z_scope.

Section total.
Context {FC : FloatConv}.

(** Run one step that is known to succeed. *)
Lemma alloc_bind_run {A B} (m : Alloc A) (k : A → Alloc B) a : m [] = Ok (a, []) → (m ≫= k) [] = k a [].
Proof. intros H. unfold mbind, alloc_bind. by rewrite H. Qed.

Definition uids_ok (v : vpnhide_uid_vector) : Prop :=
  capacity_ok (Z.of_nat (length (uv_items v))) (uv_capacity v).

Lemma add_uid_distinct_total v uid :
  uids_ok v → Z.of_nat (length (uv_items v)) < 2 ^ 50 →
  ∃ v', add_uid_distinct v uid [] = Ok (v', []) ∧ uids_ok v' ∧
    (length (uv_items v') <= S (length (uv_items v)))%nat.
Proof.
  intros Hv Hn. unfold add_uid_distinct.
  destruct (uid =? 0). { exists v. split_and!; [done|done|lia]. }
  case_bool_decide. { exists v. split_and!; [done|done|lia]. }
  destruct (grow_array_succeeds (uv_capacity v) (Z.of_nat (length (uv_items v))) sizeof_uid_t)
    as (cap & Hg & Hc); [done|done|unfold sizeof_uid_t; lia|].
  rewrite (alloc_bind_run _ _ _ Hg). eexists. split; [done|].
  unfold uids_ok; cbn [uv_items uv_capacity]. rewrite length_app; cbn [length]. split; [|lia].
  by replace (Z.of_nat (length (uv_items v) + 1)) with (Z.of_nat (length (uv_items v)) + 1) by lia.
Qed.

(** The conditional insertion of the target loop. *)
Lemma maybe_add_uid_total (b : bool) v uid :
  uids_ok v → Z.of_nat (length (uv_items v)) < 2 ^ 50 →
  ∃ v', (if b then alloc_or ENOMEM (add_uid_distinct v uid) else mret v : Alloc _) [] = Ok (v', []) ∧
    uids_ok v' ∧ (length (uv_items v') <= S (length (uv_items v)))%nat.
Proof.
  intros Hv Hn. destruct b; [|by exists v; split_and!; [done|done|lia]].
  destruct (add_uid_distinct_total v uid Hv Hn) as (v' & H & ?). exists v'. split; [|done].
  unfold alloc_or. by rewrite H.
Qed.

Lemma resolve_target_apps_total apps k l r :
  uids_ok k → uids_ok l →
  Z.of_nat (length (uv_items k) + length apps) < 2 ^ 50 →
  Z.of_nat (length (uv_items l) + length apps) < 2 ^ 50 →
  ∃ res, resolve_target_apps apps k l r [] = Ok (res, []).
Proof.
  revert k l r; induction apps as [|app apps IH]; intros k l r Hk Hl Hnk Hnl; cbn [length] in *.
  { by eexists. }
  cbn [resolve_target_apps]. destruct (is_core_uid _); [apply IH; done || lia|].
  destruct (maybe_add_uid_total (json_object_get_boolean app (lit "kmod") =? 1) k (app_uid app))
    as (k' & E & Hk' & Hkl); [done|lia|]. rewrite (alloc_bind_run _ _ _ E).
  destruct (maybe_add_uid_total (json_object_get_boolean app (lit "lsposed") =? 1) l (app_uid app))
    as (l' & E2 & Hl' & Hll); [done|lia|]. rewrite (alloc_bind_run _ _ _ E2).
  apply IH; done || lia.
Qed.

Definition masks_ok (v : app_hook_mask_vector) : Prop :=
  capacity_ok (Z.of_nat (length (mv_items v))) (mv_capacity v).

Lemma append_app_hook_mask_total v m :
  masks_ok v → Z.of_nat (length (mv_items v)) < 2 ^ 50 →
  ∃ v', append_app_hook_mask v m [] = Ok (v', []) ∧ masks_ok v' ∧
    (length (mv_items v') <= S (length (mv_items v)))%nat.
Proof.
  intros Hv Hn. unfold append_app_hook_mask.
  case_bool_decide. { exists v. split_and!; [done|done|lia]. }
  unfold masks_ok, capacity_ok in *. set (n := Z.of_nat (length (mv_items v))) in *.
  destruct (Z.eqb_spec n (mv_capacity v)) as [He|Hne].
  - set (cap := if mv_capacity v =? 0 then 16 else u64 (mv_capacity v * 2)).
    assert (n < cap <= Z.max 16 (2 * n)) as Hcap.
    { unfold cap, u64. rewrite <- He. destruct (Z.eqb_spec n 0); [lia|].
      rewrite wrap_small by (unfold fits; lia). lia. }
    clearbody cap. destruct (_ || _) eqn:E.
    { exfalso. rewrite orb_true_iff, !Z.ltb_lt in E. unfold sizeof_app_hook_mask_v3 in E.
      assert (2 ^ 59 <= SIZE_MAX / Z.of_nat 16) by done. lia. }
    eexists. split; [reflexivity|]. cbn [mv_items mv_capacity]. rewrite length_app; cbn [length]. lia.
  - eexists. split; [reflexivity|]. cbn [mv_items mv_capacity]. rewrite length_app; cbn [length]. lia.
Qed.

Lemma collect_app_masks_total g apps v :
  masks_ok v → Z.of_nat (length (mv_items v) + length apps) < 2 ^ 50 →
  ∃ v', collect_app_masks g apps v [] = Ok (v', []).
Proof.
  revert v; induction apps as [|app apps IH]; intros v Hv Hn; cbn [length] in *; [by eexists|].
  cbn [collect_app_masks]. destruct (_ && _).
  - destruct (append_app_hook_mask_total v (app_hook_mask g app)) as (v' & E & Hv' & Hl); [done|lia|].
    rewrite (alloc_bind_run _ _ _ E). apply IH; [done|lia].
  - unfold mbind at 1, alloc_bind at 1, mret, alloc_ret. apply IH; [done|lia].
Qed.

Section ports.
Context (pr mr : option JSON_Array).
Context (Hpr : Forall rule_parses (array_objects pr)) (Hmr : Forall rule_parses (array_objects mr)).
Context (Hn : Z.of_nat (length (array_objects pr) + length (array_objects mr)) < 2 ^ 40).

Lemma resolve_named_total name user uid fallback :
  ∃ t, resolve_named_port_rules pr mr name user uid fallback zero_target [] = Ok (t, []).
Proof.
  unfold resolve_named_port_rules.
  assert (vector_ok zero_target) as H0 by (unfold vector_ok, capacity_ok; simpl; lia).
  destruct (add_matching_rules_total (port_rule_matches name user uid) (array_objects pr) zero_target Hpr H0)
    as (t1 & E1 & Hv1 & Hl1); [simpl; lia|]. simpl in Hl1.
  destruct (add_matching_rules_total (λ _, true) (array_objects mr) t1 Hmr Hv1) as (t2 & E2 & Hv2 & Hl2);
    [lia|]. rewrite <- add_port_rules_matching in E2.
  rewrite (alloc_bind_run _ _ _ E1), (alloc_bind_run _ _ _ E2).
  destruct (fallback && _) eqn:E; [|by eexists]. b2p.
  assert (Z.of_nat (length (tg_rules t2)) = 0) as Hz by (match goal with H : tg_rules t2 = [] |- _ => by rewrite H end).
  unfold set_full_range_port_rules. unfold vector_ok in Hv2. rewrite Hz in Hv2.
  destruct (grow_array_succeeds (tg_capacity t2) 0 sizeof_port_rule) as (cap & Hg & _);
    [done|lia|unfold sizeof_port_rule; lia|].
  rewrite (alloc_bind_run _ _ _ Hg). by eexists.
Qed.

Lemma resolve_app_target_total mode app uid :
  ∃ t, resolve_app_target mode pr mr app uid [] = Ok (t, []).
Proof.
  unfold resolve_app_target. destruct mode.
  - destruct (resolve_named_total (json_object_get_string app (lit "packageName"))
      (to_int (json_object_get_number app (lit "userId"))) uid true) as [t E].
    rewrite (alloc_bind_run _ _ (mk_port_target (tg_uid t) VH_PORT_POLICY_RULES (tg_rules t)
      (tg_capacity t))); [by eexists|]. by rewrite (alloc_bind_run _ _ _ E).
  - destruct (resolve_allowlist_total pr mr (json_object_get_string app (lit "packageName"))
      (to_int (json_object_get_number app (lit "userId"))) uid Hpr Hmr Hn) as [t E].
    rewrite (alloc_bind_run _ _ _ E). by eexists.
Qed.

Lemma resolve_port_apps_total mode apps res :
  capacity_ok (Z.of_nat (length (pp_targets res))) (pp_capacity res) →
  Z.of_nat (length (pp_targets res) + length apps) < 2 ^ 50 →
  ∃ res', resolve_port_apps mode pr mr apps res [] = Ok (res', []).
Proof.
  revert res; induction apps as [|app apps IH]; intros res Hc Hl; cbn [length] in *; [by eexists|].
  cbn [resolve_port_apps]. destruct (_ || _); [apply IH; [done|lia]|].
  destruct (grow_array_succeeds (pp_capacity res) (Z.of_nat (length (pp_targets res))) sizeof_port_target)
    as (cap & Hg & Hc'); [done|lia|unfold sizeof_port_target; lia|].
  rewrite (alloc_bind_run _ _ _ Hg).
  destruct (resolve_app_target_total mode app (app_uid app)) as [t E]. rewrite (alloc_bind_run _ _ _ E).
  apply IH; cbn [pp_targets pp_capacity]; rewrite length_app; cbn [length]; [|lia].
  by replace (Z.of_nat (length (pp_targets res) + 1)) with (Z.of_nat (length (pp_targets res)) + 1) by lia.
Qed.
End ports.
End total.

(** ** The whole command *)

Section load.
Context {KS : KSort} {HKS : KSortLaws KS} {FC : FloatConv} {HFC : FloatConvLaws FC}.

(** The tables [load_policy] packs. *)
Definition load_tables (root : JSON_Object) : Alloc vpnhide_policy_snapshot :=
  let g := read_global root in
  masks ← collect_app_masks g (config_apps root) (mk_mask_vector [] 0);
  '(targets, lsposed, summary) ← vpnhide_resolve_targets root;
  '(ports, summary) ← vpnhide_resolve_port_rules root summary;
  mret (packed_tables (sort_uids (uv_items targets)) (sort_uids (uv_items lsposed))
    (pp_targets ports) (mv_items masks) (read_iface_prefixes root)
    (or_all g (gs_kernel_mask g)) (or_all g (gs_java_mask g))
    (if gs_have_global_config g then bang_bang (gs_debug_logging g) else 0)
    (if gs_allowlist_mode g then VPNHIDE_MATCH_EXCLUDE else VPNHIDE_MATCH_INCLUDE)).

(** A configuration the format accepts and whose tables fit in a payload. *)
Record loadable (root : JSON_Object) : Prop := {
  lo_rules : Forall rule_parses (array_objects (json_object_get_array root (lit "portRules")));
  lo_mass : Forall rule_parses (array_objects (json_object_get_array root (lit "massPortRules")));
  lo_apps : Z.of_nat (length (config_apps root)) < 2 ^ 40;
  lo_count : Z.of_nat (length (array_objects (json_object_get_array root (lit "portRules"))) +
                       length (array_objects (json_object_get_array root (lit "massPortRules")))) < 2 ^ 40;
  lo_size : ∀ tables mem, load_tables root [] = Ok (tables, mem) →
    592 + body_size tables <= VPNHIDE_POLICY_MAX_BYTES
}.

(** Resolving succeeds, and then packing does when the tables fit. *)
Lemma load_total root : loadable root → ∃ payload, load_policy root [] = Ok (payload, []).
Proof.
  intros [Hr Hm Ha Hc Hsize].
  destruct (collect_app_masks_total (read_global root) (config_apps root) (mk_mask_vector [] 0))
    as [masks E1]; [unfold masks_ok, capacity_ok; simpl; lia|simpl; lia|].
  destruct (resolve_target_apps_total (config_apps root) empty_vector empty_vector 0)
    as [[[k l] rejected] E2]; [unfold uids_ok, capacity_ok; simpl; lia..|simpl; lia|simpl; lia|].
  assert (∃ summary, vpnhide_resolve_targets root [] = Ok (k, l, summary, [])) as [summary E2'].
  { unfold vpnhide_resolve_targets. cbv zeta. erewrite (alloc_bind_run _ _ _ E2). by eexists. }
  destruct (resolve_port_apps_total _ _ Hr Hm Hc (sm_mode summary) (config_apps root) (mk_port_policy [] 0))
    as [ports E3]; [unfold capacity_ok; simpl; lia|simpl; lia|].
  assert (∃ summary', vpnhide_resolve_port_rules root summary [] = Ok (ports, summary', [])) as [summary' E3'].
  { unfold vpnhide_resolve_port_rules. erewrite (alloc_bind_run _ _ _ E3). by eexists. }
  unfold load_policy, load_tables in *. cbv zeta in *.
  rewrite (alloc_bind_run _ _ _ E1) in *. setoid_rewrite (alloc_bind_run _ _ _ E1) in Hsize.
  rewrite (alloc_bind_run _ _ _ E2'), (alloc_bind_run _ _ _ E3').
  setoid_rewrite (alloc_bind_run _ _ _ E2') in Hsize. setoid_rewrite (alloc_bind_run _ _ _ E3') in Hsize.
  eapply pack_policy_v4_total, Hsize. reflexivity.
Qed.

Lemma load_loaded root : loadable root →
  ∃ payload s, load_policy root [] = Ok (payload, []) ∧
    policy_snapshot_from_v4 true true payload = Ok s ∧ loaded root s.
Proof.
  intros Hl. destruct (load_total root Hl) as [payload Hp].
  destruct (load_policy_loaded root [] payload [] Hp) as (s & Hs & Hld). eauto.
Qed.
End load.

(** ** Properties *)

(** C4: loading a configuration succeeds, the kernel accepts the payload, and
    from then on VPN state is hidden from exactly the UIDs the configuration
    names (all application UIDs but those, in allowlist mode). *)
Theorem load_hides_configured {KS : KSort} {HKS : KSortLaws KS} {FC : FloatConv} {HFC : FloatConvLaws FC} root :
  loadable root →
  ∃ payload s, load_policy root [] = Ok (payload, []) ∧
    policy_snapshot_from_v4 true true payload = Ok s ∧
    ∀ uid, is_target_uid_val (Some s) uid = true ↔ config_hides root uid.
Proof.
  intros Hl. destruct (load_loaded root Hl) as (payload & s & Hp & Hs & Hld).
  exists payload, s. split_and!; try done. intros uid. by apply loaded_hides.
Qed.

(** C5: after loading, the kernel's port decision for every UID, port and
    protocol is the one the JSON rules describe: the application's rules in
    blocklist mode, their complement in allowlist mode. *)
Theorem load_blocks_configured {KS : KSort} {HKS : KSortLaws KS} {FC : FloatConv} {HFC : FloatConvLaws FC} root :
  loadable root →
  ∃ payload s, load_policy root [] = Ok (payload, []) ∧
    policy_snapshot_from_v4 true true payload = Ok s ∧
    ∀ uid port proto, real_port port proto →
      ∃ b, port_blocked s uid port proto = Some b ∧ (b = true ↔ config_blocks root uid port proto).
Proof.
  intros Hl. destruct (load_loaded root Hl) as (payload & s & Hp & Hs & Hld).
  exists payload, s. split_and!; try done. intros uid port proto Hreal.
  destruct (port_blocked_spec s uid port proto (ld_wf _ _ Hld)) as (b & Hb & Hiff).
  exists b. split; [done|]. rewrite Hiff. by apply (ld_blocks _ _ Hld).
Qed.

(** After loading, a kernel hook is active for a UID exactly when the
    configuration enables it (per-application mask first, global mask
    otherwise; the connect and bind hooks always). *)
Theorem load_hooks_configured {KS : KSort} {HKS : KSortLaws KS} {FC : FloatConv} {HFC : FloatConvLaws FC} root :
  loadable root →
  ∃ payload s, load_policy root [] = Ok (payload, []) ∧
    policy_snapshot_from_v4 true true payload = Ok s ∧
    ∀ uid h, is_hook_active (Some s) h uid = config_hook root uid h.
Proof.
  intros Hl. destruct (load_loaded root Hl) as (payload & s & Hp & Hs & Hld).
  exists payload, s. split_and!; try done. intros. by apply loaded_hooks.
Qed.

(** A configuration with two applications, one of them with a port rule. *)
Definition example_root : JSON_Object :=
  [(lit "globalConfig", JObject [(lit "listMode", JString (lit "BLACKLIST"));
      (lit "kernelHookMask", JNumber (7 # 1)); (lit "javaHookMask", JNumber (15 # 1));
      (lit "debugLogging", JNumber (0 # 1))]);
   (lit "apps", JArray
      [JObject [(lit "uid", JNumber (10123 # 1)); (lit "packageName", JString (lit "org.example"));
                (lit "kmod", JBool true); (lit "lsposed", JBool true); (lit "portHiding", JBool true)];
       JObject [(lit "uid", JNumber (10200 # 1)); (lit "kmod", JBool true);
                (lit "kernelHookMask", JNumber (3 # 1))]]);
   (lit "portRules", JArray
      [JObject [(lit "packageName", JString (lit "org.example")); (lit "enabled", JBool true);
                (lit "startPort", JNumber (8080 # 1)); (lit "endPort", JNumber (8090 # 1));
                (lit "protocol", JString (lit "TCP"))]])].

Lemma example_root_loadable : loadable (FC := arm64_conv) example_root.
Proof.
  split.
  - constructor; [|constructor]. eexists. vm_compute. reflexivity.
  - constructor.
  - vm_compute. reflexivity.
  - vm_compute. reflexivity.
  - intros tables mem H. vm_compute in H. injection H as <- _. vm_compute. discriminate.
Qed.

Lemma load_hides_configured_witness :
  ∃ payload s, load_policy (FC := arm64_conv) example_root [] = Ok (payload, []) ∧
    policy_snapshot_from_v4 (KS := merge_ksort) true true payload = Ok s ∧
    ∀ uid, is_target_uid_val (Some s) uid = true ↔ config_hides (FC := arm64_conv) example_root uid.
Proof.
  apply (load_hides_configured (KS := merge_ksort) (HKS := merge_ksort_laws) (FC := arm64_conv)
    (HFC := arm64_conv_laws) example_root example_root_loadable).
Defined.

Lemma load_blocks_configured_witness :
  ∃ payload s, load_policy (FC := arm64_conv) example_root [] = Ok (payload, []) ∧
    policy_snapshot_from_v4 (KS := merge_ksort) true true payload = Ok s ∧
    ∀ uid port proto, real_port port proto →
      ∃ b, port_blocked s uid port proto = Some b ∧
        (b = true ↔ config_blocks (FC := arm64_conv) example_root uid port proto).
Proof.
  apply (load_blocks_configured (KS := merge_ksort) (HKS := merge_ksort_laws) (FC := arm64_conv)
    (HFC := arm64_conv_laws) example_root example_root_loadable).
Defined.

Lemma load_hooks_configured_witness :
  ∃ payload s, load_policy (FC := arm64_conv) example_root [] = Ok (payload, []) ∧
    policy_snapshot_from_v4 (KS := merge_ksort) true true payload = Ok s ∧
    ∀ uid h, is_hook_active (Some s) h uid = config_hook (FC := arm64_conv) example_root uid h.
Proof.
  apply (load_hooks_configured (KS := merge_ksort) (HKS := merge_ksort_laws) (FC := arm64_conv)
    (HFC := arm64_conv_laws) example_root example_root_loadable).
Defined.
