(* ===== verification/UserMem.v ===== *)
(** * User memory as the probes see it

    The address space of the process a probe runs in: a finite map from the
    addresses it can access to the bytes there.  [copy_in] and [copy_out] are
    the kernel's [copy_from_user] and [copy_to_user] with the address explicit:
    a copy in succeeds when every byte is accessible, a copy out writes the
    bytes before the first address that is not. *)
From Stdlib Require Import Strings.Byte ZArith Lia.
From stdpp Require Import base gmap numbers list.
From S2P Require Import Prelude.

Abbreviation umem := (gmap Z byte).

Fixpoint copy_in (m : umem) (a : Z) (n : nat) : option bytes :=
  match n with
  | O => Some []
  | S n => b ← m !! a; bs ← copy_in m (a + 1) n; Some (b :: bs)
  end.

(** The memory after the copy, and whether all of it went through. *)
Fixpoint copy_out (m : umem) (a : Z) (bs : bytes) : umem * bool :=
  match bs with
  | [] => (m, true)
  | b :: bs =>
      match m !! a with
      | None => (m, false)
      | Some _ => copy_out (<[a := b]> m) (a + 1) bs
      end
  end.

(** [get_user] of an [n]-byte integer. *)
Definition get_user (n : nat) (m : umem) (a : Z) : option Z := le_combine <$> copy_in m a n.

(** [put_user] of an [n]-byte integer. *)
Definition put_user (n : nat) (m : umem) (a x : Z) : umem * bool := copy_out m a (le_split n x).

(** ** Reading *)

Lemma copy_in_length m a n bs : copy_in m a n = Some bs → length bs = n.
Proof.
  revert a bs. induction n as [|n IH]; intros a bs H; simplify_option_eq; [done|].
  simpl. f_equal. eauto.
Qed.

Lemma copy_in_lookup m a n bs i :
  copy_in m a n = Some bs → (i < n)%nat → m !! (a + Z.of_nat i) = bs !! i.
Proof.
  revert a bs i. induction n as [|n IH]; intros a bs i H Hi; [lia|]. simplify_option_eq.
  destruct i as [|i]; [by rewrite Z.add_0_r|].
  replace (a + Z.of_nat (S i)) with ((a + 1) + Z.of_nat i) by lia. simpl. eapply IH; eauto. lia.
Qed.

Lemma copy_in_Some m a bs :
  (∀ i b, bs !! i = Some b → m !! (a + Z.of_nat i) = Some b) → copy_in m a (length bs) = Some bs.
Proof.
  revert a. induction bs as [|b bs IH]; intros a H; [done|]. simpl.
  pose proof (H O b eq_refl) as E. rewrite Z.add_0_r in E. rewrite E. simpl.
  rewrite IH; [done|]. intros i c Hc.
  replace ((a + 1) + Z.of_nat i) with (a + Z.of_nat (S i)) by lia. by apply H.
Qed.

(** Equal bytes in the range give equal reads. *)
Lemma copy_in_ext m m' a n :
  (∀ x, a <= x < a + Z.of_nat n → m !! x = m' !! x) → copy_in m a n = copy_in m' a n.
Proof.
  revert a. induction n as [|n IH]; intros a H; [done|]. simpl.
  rewrite (H a) by lia. by rewrite (IH (a + 1)) by (intros; apply H; lia).
Qed.

Lemma copy_in_app m a n k :
  copy_in m a (n + k) = (l ← copy_in m a n; r ← copy_in m (a + Z.of_nat n) k; Some (l ++ r)).
Proof.
  revert a. induction n as [|n IH]; intros a; simpl.
  - rewrite Z.add_0_r. by destruct (copy_in m a k).
  - destruct (m !! a); simpl; [|done]. rewrite IH.
    replace (a + 1 + Z.of_nat n) with (a + Z.of_nat (S n)) by lia.
    destruct (copy_in m (a + 1) n); simpl; [|done]. by destruct (copy_in _ _ k).
Qed.

(** ** Writing *)

Lemma copy_out_lookup_ne m a bs x :
  (x < a ∨ a + Z.of_nat (length bs) <= x) → (copy_out m a bs).1 !! x = m !! x.
Proof.
  revert m a. induction bs as [|b bs IH]; intros m a H; [done|]. simpl in *.
  destruct (m !! a); [|done]. rewrite IH by lia. apply lookup_insert_ne. lia.
Qed.

Lemma copy_out_dom m a bs x : is_Some ((copy_out m a bs).1 !! x) ↔ is_Some (m !! x).
Proof.
  revert m a. induction bs as [|b bs IH]; intros m a; [done|]. simpl.
  destruct (m !! a) as [c|] eqn:E; [|done]. rewrite IH.
  destruct (decide (x = a)) as [->|].
  - rewrite lookup_insert_eq, E. naive_solver.
  - by rewrite lookup_insert_ne.
Qed.

Lemma copy_out_ok m a bs :
  (copy_out m a bs).2 = true ↔ is_Some (copy_in m a (length bs)).
Proof.
  revert m a. induction bs as [|b bs IH]; intros m a; simpl; [naive_solver|].
  destruct (m !! a) as [c|] eqn:E; simpl; [|by split; [|intros []]].
  rewrite IH, (copy_in_ext (<[a := b]> m) m) by (intros; apply lookup_insert_ne; lia).
  destruct (copy_in m (a + 1) (length bs)); simpl; split; by intros [].
Qed.

(** What was written is what is read back. *)
Lemma copy_in_out m a bs :
  is_Some (copy_in m a (length bs)) → copy_in (copy_out m a bs).1 a (length bs) = Some bs.
Proof.
  revert m a. induction bs as [|b bs IH]; intros m a Hm; [done|]. simpl in *.
  destruct (m !! a) as [c|] eqn:E; simpl in *; [|by destruct Hm].
  rewrite copy_out_lookup_ne, lookup_insert_eq by lia. simpl.
  rewrite IH; [done|].
  rewrite (copy_in_ext (<[a := b]> m) m) by (intros; apply lookup_insert_ne; lia).
  destruct (copy_in m (a + 1) (length bs)); [done|by destruct Hm].
Qed.

(** A write outside a range leaves reads of it alone. *)
Lemma copy_in_out_ne m a bs x n :
  (x + Z.of_nat n <= a ∨ a + Z.of_nat (length bs) <= x) →
  copy_in (copy_out m a bs).1 x n = copy_in m x n.
Proof. intros H. apply copy_in_ext. intros y Hy. apply copy_out_lookup_ne. lia. Qed.

(** Writing back what is there changes nothing. *)
Lemma copy_out_same m a bs : copy_in m a (length bs) = Some bs → copy_out m a bs = (m, true).
Proof.
  revert m a. induction bs as [|b bs IH]; intros m a H; [done|]. simpl in *.
  destruct (m !! a) as [c|] eqn:E; [|done]. simplify_option_eq.
  rewrite insert_id by done. by apply IH.
Qed.

(** Overwriting and then restoring the old bytes restores the memory. *)
Lemma copy_out_restore m a old new :
  copy_in m a (length old) = Some old → length new = length old →
  copy_out (copy_out m a new).1 a old = (m, true).
Proof.
  intros Hold Hlen.
  assert (Hok : (copy_out (copy_out m a new).1 a old).2 = true).
  { apply copy_out_ok. rewrite <- Hlen, copy_in_out; [done|]. rewrite Hlen, Hold. done. }
  destruct (copy_out (copy_out m a new).1 a old) as [m' ok] eqn:E; simpl in Hok; subst ok.
  f_equal. apply map_eq. intros x.
  destruct (decide (a <= x < a + Z.of_nat (length old))) as [Hx|Hx].
  - assert (Hr : copy_in m' a (length old) = Some old).
    { replace m' with (copy_out (copy_out m a new).1 a old).1 by by rewrite E.
      apply copy_in_out. rewrite <- Hlen, copy_in_out; [done|]. by rewrite Hlen, Hold. }
    replace x with (a + Z.of_nat (Z.to_nat (x - a))) by lia.
    rewrite (copy_in_lookup _ _ _ _ (Z.to_nat (x - a)) Hr) by lia.
    symmetry. apply (copy_in_lookup _ _ _ _ _ Hold). lia.
  - replace m' with (copy_out (copy_out m a new).1 a old).1 by by rewrite E.
    rewrite !copy_out_lookup_ne by lia. done.
Qed.

Lemma get_put_user n m a x :
  is_Some (get_user n m a) → fits (8 * Z.of_nat n) x → get_user n (put_user n m a x).1 a = Some x.
Proof.
  unfold get_user, put_user. intros Hm Hx.
  assert (E : copy_in (copy_out m a (le_split n x)).1 a n = Some (le_split n x)).
  { pose proof (copy_in_out m a (le_split n x)) as H. rewrite length_le_split in H. apply H.
    by apply fmap_is_Some in Hm. }
  rewrite E. simpl. f_equal. by apply le_combine_split_small.
Qed.

Lemma get_user_fits n m a x : get_user n m a = Some x → fits (8 * Z.of_nat n) x.
Proof.
  unfold get_user. destruct (copy_in m a n) as [bs|] eqn:E; [|done]. simpl. intros [= <-].
  rewrite <- (copy_in_length _ _ _ _ E). apply le_combine_range.
Qed.

Lemma copy_in_mapped m a n :
  (∀ x, a <= x < a + Z.of_nat n → is_Some (m !! x)) → is_Some (copy_in m a n).
Proof.
  revert a. induction n as [|n IH]; intros a H; [done|]. simpl.
  destruct (H a ltac:(lia)) as [b ->]. destruct (IH (a + 1)) as [bs ->]; [|done].
  intros x Hx. apply H. lia.
Qed.

Lemma copy_in_mapped_inv m a n bs x :
  copy_in m a n = Some bs → a <= x < a + Z.of_nat n → is_Some (m !! x).
Proof.
  intros H Hx. replace x with (a + Z.of_nat (Z.to_nat (x - a))) by lia.
  rewrite (copy_in_lookup _ _ _ _ _ H) by lia. apply lookup_lt_is_Some_2.
  rewrite (copy_in_length _ _ _ _ H). lia.
Qed.

(** A buffer that holds a concatenation holds its parts. *)
Lemma copy_in_split m a l r :
  copy_in m a (length (l ++ r)) = Some (l ++ r) ↔
  copy_in m a (length l) = Some l ∧ copy_in m (a + Z.of_nat (length l)) (length r) = Some r.
Proof.
  rewrite length_app, copy_in_app. split.
  - destruct (copy_in m a (length l)) as [l'|] eqn:El; [|done].
    destruct (copy_in m _ (length r)) as [r'|] eqn:Er; [|done]. simpl. intros [= H].
    pose proof (copy_in_length _ _ _ _ El). apply app_inj_1 in H as [-> ->]; [done|done].
  - intros [-> ->]. done.
Qed.

(** Overwriting the middle part of a buffer. *)
Lemma copy_in_replace m a h i i' t :
  copy_in m a (length (h ++ i ++ t)) = Some (h ++ i ++ t) → length i' = length i →
  copy_in (copy_out m (a + Z.of_nat (length h)) i').1 a (length (h ++ i' ++ t)) = Some (h ++ i' ++ t).
Proof.
  rewrite !copy_in_split. intros (Hh & Hi & Ht) Hl. rewrite <- Hl in *. split_and!.
  - by rewrite copy_in_out_ne by lia.
  - apply copy_in_out. by rewrite Hi.
  - by rewrite copy_in_out_ne by lia.
Qed.
