(* ===== verification/OwnedPorts.v ===== *)
(** * Ownership of local ports

    The own-port cache of [kmod/main.c]: sockets an application bound itself
    stay reachable for it.  The daemon replaces an open-addressing snapshot
    ([replace_owned_ports]); binds in between are kept in a small
    set-associative cache of pending ports guarded by a sequence counter.
    The cache is read here between its updates; [PendingSeq] has the interleavings
    and the barriers.  [jiffies] is an argument and compared
    with the wrap-around of [time_before]. *)
From S2P Require Import Prelude Abi Snapshot PolicyQuery.

Definition AF_INET : Z := 2.
Definition AF_INET6 : Z := 10.
Definition SOCK_STREAM : Z := 1.
Definition SOCK_DGRAM : Z := 2.

Record vpnhide_owned_port := mk_owned_port {
  op_uid : Z;
  op_port : Z;
  op_protocol : Z;
  op_family : Z;
  op_address : list Z
}.

#[export] Instance owned_port_eq_dec : EqDecision vpnhide_owned_port.
Proof. solve_decision. Defined.

Definition zero_owned_port : vpnhide_owned_port := mk_owned_port 0 0 0 0 [0; 0; 0; 0].

(** ** Time *)

(** [time_before(a, b)] and [time_after_eq(a, b)] on 64-bit jiffies: the sign
    of the wrapped difference. *)
Definition s64 (x : Z) : Z := (x + 2 ^ 63) mod 2 ^ 64 - 2 ^ 63.
Definition time_before (a b : Z) : bool := s64 (a - b) <? 0.
Definition time_after_eq (a b : Z) : bool := 0 <=? s64 (a - b).

(** ** Keys *)

Definition rol32 (x r : Z) : Z := u32 (Z.lor (Z.shiftl x r) (Z.shiftr x (32 - r))).

Definition owned_port_hash (owner : vpnhide_owned_port) : Z :=
  let value := u32 (op_uid owner * 0x9e3779b1) in
  let value := Z.lxor value (u32 (op_port owner * 0x85ebca6b)) in
  let value := Z.lxor value (u32 (op_protocol owner * 0xc2b2ae35)) in
  let value := Z.lxor value (u32 (op_family owner * 0x27d4eb2f)) in
  let value := foldl (λ v a, rol32 (Z.lxor v (u32 (a * 0x165667b1))) 13) value (op_address owner) in
  Z.lxor value (Z.shiftr value 16).

Definition owned_port_equal (left right : vpnhide_owned_port) : bool :=
  (op_uid left =? op_uid right) && (op_port left =? op_port right) &&
  (op_protocol left =? op_protocol right) && (op_family left =? op_family right) &&
  bool_decide (op_address left = op_address right).

(** [ipv4_is_loopback]: the first byte in network order, the lowest byte of
    the little-endian word, is 127. *)
Definition ipv4_is_loopback (a : Z) : bool := Z.land a 0xff =? 127.

(** [ipv6_addr_any], [ipv6_addr_loopback], [ipv6_addr_v4mapped] on the four
    words of an address in memory order. *)
Definition ipv6_addr_any (a : list Z) : bool := bool_decide (a = [0; 0; 0; 0]).
Definition ipv6_addr_loopback (a : list Z) : bool := bool_decide (a = [0; 0; 0; Z.shiftl 1 24]).
Definition ipv6_addr_v4mapped (a : list Z) : bool :=
  bool_decide (take 3 a = [0; 0; 0xffff0000]).

Definition owned_port_is_local (owner : vpnhide_owned_port) : bool :=
  if op_family owner =? AF_INET then
    match op_address owner with
    | [a; b; c; d] =>
        (b =? 0) && (c =? 0) && (d =? 0) && ((a =? 0) || ipv4_is_loopback a)
    | _ => false
    end
  else if op_family owner =? AF_INET6 then
    ipv6_addr_any (op_address owner) || ipv6_addr_loopback (op_address owner)
  else false.

(** The fields of [struct sock] the module reads. *)
Record sock := mk_sock {
  sk_type : Z;
  sk_family : Z;
  inet_num : Z;
  inet_rcv_saddr : Z;
  sk_v6_rcv_saddr : list Z
}.

Definition owned_port_from_sock (uid : Z) (sk : option sock) : option vpnhide_owned_port :=
  sk ← sk;
  if negb (sk_type sk =? SOCK_STREAM) && negb (sk_type sk =? SOCK_DGRAM) then None
  else
    let protocol := if sk_type sk =? SOCK_STREAM then VH_PROTO_TCP else VH_PROTO_UDP in
    if inet_num sk =? 0 then None
    else
      owner ←
        (if sk_family sk =? AF_INET then
           Some (mk_owned_port uid (inet_num sk) protocol AF_INET [inet_rcv_saddr sk; 0; 0; 0])
         else if sk_family sk =? AF_INET6 then
           if ipv6_addr_v4mapped (sk_v6_rcv_saddr sk) then
             Some (mk_owned_port uid (inet_num sk) protocol AF_INET
                     [nth 3 (sk_v6_rcv_saddr sk) 0; 0; 0; 0])
           else Some (mk_owned_port uid (inet_num sk) protocol AF_INET6 (sk_v6_rcv_saddr sk))
         else None);
      if owned_port_is_local owner then Some owner else None.

(** ** The snapshot table *)

Record vpnhide_owned_ports_snapshot := mk_owned_snapshot {
  os_entry_count : Z;
  os_expires : Z;
  os_buckets : list vpnhide_owned_port
}.

Definition bucket_count (b : list vpnhide_owned_port) : Z := Z.of_nat (length b).

Fixpoint owned_probe (b : list vpnhide_owned_port) (wanted : vpnhide_owned_port)
    (probes : nat) (slot : Z) : bool :=
  match probes with
  | O => false
  | S probes =>
      match b !! Z.to_nat slot with
      | None => false
      | Some entry =>
          if op_uid entry =? 0 then false
          else if owned_port_equal entry wanted then true
          else owned_probe b wanted probes (Z.land (slot + 1) (bucket_count b - 1))
      end
  end.

Definition owned_snapshot_contains (b : list vpnhide_owned_port) (wanted : vpnhide_owned_port) : bool :=
  owned_probe b wanted (length b) (Z.land (owned_port_hash wanted) (bucket_count b - 1)).

(** One insertion of [replace_owned_ports]; the flag says whether
    [entry_count] grew. *)
Fixpoint owned_insert_probe (b : list vpnhide_owned_port) (e : vpnhide_owned_port)
    (probes : nat) (slot : Z) : list vpnhide_owned_port * bool :=
  match probes with
  | O => (b, false)
  | S probes =>
      match b !! Z.to_nat slot with
      | None => (b, false)
      | Some dst =>
          if op_uid dst =? 0 then (<[Z.to_nat slot := e]> b, true)
          else if owned_port_equal dst e then (b, false)
          else owned_insert_probe b e probes (Z.land (slot + 1) (bucket_count b - 1))
      end
  end.

Definition owned_insert (b : list vpnhide_owned_port) (e : vpnhide_owned_port)
    : list vpnhide_owned_port * bool :=
  owned_insert_probe b e (length b) (Z.land (owned_port_hash e) (bucket_count b - 1)).

Definition owned_entry_valid (e : vpnhide_owned_port) : bool :=
  negb ((op_uid e =? 0) || (op_port e =? 0) || (VH_PROTO_UDP <? op_protocol e) ||
        negb (owned_port_is_local e)).

Fixpoint owned_fill (entries : list vpnhide_owned_port) (b : list vpnhide_owned_port) (count : Z)
    : result (list vpnhide_owned_port * Z) :=
  match entries with
  | [] => Ok (b, count)
  | e :: entries =>
      if owned_entry_valid e then
        let '(b, grew) := owned_insert b e in
        owned_fill entries b (if grew : bool then count + 1 else count)
      else Err EINVAL
  end.

(** [while (buckets < max(8, count * 2)) buckets <<= 1] from 8; fourteen
    rounds reach any admissible count. *)
Fixpoint bucket_loop (fuel : nat) (buckets want : Z) : Z :=
  match fuel with
  | O => buckets
  | S fuel => if buckets <? want then bucket_loop fuel (Z.shiftl buckets 1) want else buckets
  end.

Definition VPNHIDE_OWNED_PORTS_MAX : Z := 65536.

Definition VPNHIDE_PENDING_PORT_SETS : Z := 256.

Record vpnhide_pending_port := mk_pending {
  pd_sequence : Z;
  pd_owner : vpnhide_owned_port;
  pd_expires : Z
}.

(** The table is a list of 256 sets of four ways. *)
Abbreviation pending_table := (list (list vpnhide_pending_port)).

(** The tick rate is a constant of the kernel build. *)
Section timed.
Context (HZ : Z).

(** [entries] is what [copy_from_user] delivers ([None]: a fault); the two
    flags are the outcomes of the allocations. *)
Definition replace_owned_ports (now count reserved entries_ptr : Z)
    (entries : option (list vpnhide_owned_port)) (alloc_entries alloc_snapshot : bool)
    : result vpnhide_owned_ports_snapshot :=
  if nonzero reserved || (VPNHIDE_OWNED_PORTS_MAX <? count) ||
     (nonzero count && (entries_ptr =? 0))
  then Err EINVAL
  else
    let buckets := bucket_loop 16 8 (Z.max 8 (u32 (count * 2))) in
    entries ← (if count =? 0 then Ok []
               else if negb alloc_entries then Err ENOMEM
               else match entries with Some es => Ok (take (Z.to_nat count) es) | None => Err EFAULT end);
    if negb alloc_snapshot then Err ENOMEM
    else
      '(b, n) ← owned_fill entries (replicate (Z.to_nat buckets) zero_owned_port) 0;
      Ok (mk_owned_snapshot n (u64 (now + 120 * HZ)) b).

(** ** Pending ports *)

Definition VPNHIDE_PENDING_PORT_TTL : Z := 2 * HZ.

Definition zero_pending : vpnhide_pending_port := mk_pending 0 zero_owned_port 0.
Definition empty_pending_table : pending_table := replicate 256 (replicate 4 zero_pending).

Definition pending_set (t : pending_table) (o : vpnhide_owned_port) : nat :=
  Z.to_nat (Z.land (owned_port_hash o) (VPNHIDE_PENDING_PORT_SETS - 1)).

(** One quiescent read: the sequence does not change during it. *)
Definition pending_hit (now : Z) (wanted : vpnhide_owned_port) (entry : vpnhide_pending_port) : bool :=
  negb (Z.odd (pd_sequence entry)) && owned_port_equal (pd_owner entry) wanted &&
  time_before now (pd_expires entry).

Definition pending_port_lookup_one (t : pending_table) (now : Z) (wanted : vpnhide_owned_port) : bool :=
  existsb (pending_hit now wanted) (default [] (t !! pending_set t wanted)).

(** The way the recorder overwrites: the first that is the owner's, free or
    expired, else the oldest. *)
Fixpoint select_way (now : Z) (owner : vpnhide_owned_port) (ways : list vpnhide_pending_port)
    (way selected : nat) (oldest : Z) : nat :=
  match ways with
  | [] => selected
  | entry :: ways =>
      if owned_port_equal (pd_owner entry) owner || (op_uid (pd_owner entry) =? 0) ||
         time_after_eq now (pd_expires entry)
      then way
      else if time_before (pd_expires entry) oldest
           then select_way now owner ways (S way) way (pd_expires entry)
           else select_way now owner ways (S way) selected oldest
  end.

(** The new table and whether the daemon is notified. *)
Definition pending_record (t : pending_table) (now : Z) (owner : vpnhide_owned_port)
    : pending_table * bool :=
  let set := pending_set t owner in
  let ways := default [] (t !! set) in
  let first := default zero_pending (ways !! O) in
  let way := select_way now owner ways 0 0 (pd_expires first) in
  let selected := default zero_pending (ways !! way) in
  let changed := negb (owned_port_equal (pd_owner selected) owner) ||
                 time_after_eq now (pd_expires selected) in
  let entry := mk_pending (u32 (u32 (pd_sequence selected + 1) + 1)) owner
                 (u64 (now + VPNHIDE_PENDING_PORT_TTL)) in
  (<[set := <[way := entry]> ways]> t, changed).

(** Is the eventfd signalled? *)
Definition vpnhide_notify_port_change (policy : option vpnhide_policy_snapshot) (uid : Z)
    (have_eventfd : bool) : bool :=
  match vpnhide_find_port_target policy uid with Some _ => have_eventfd | None => false end.

Definition vpnhide_record_bound_socket (policy : option vpnhide_policy_snapshot)
    (t : pending_table) (now uid : Z) (sk : option sock) (have_eventfd : bool)
    : pending_table * bool :=
  if uid =? 0 then (t, false)
  else match owned_port_from_sock uid sk with
       | None => (t, false)
       | Some owner =>
           match vpnhide_find_port_target policy uid with
           | None => (t, false)
           | Some _ =>
               let '(t', changed) := pending_record t now owner in
               (t', changed && vpnhide_notify_port_change policy uid have_eventfd)
           end
       end.

End timed.

Definition vpnhide_uid_owns_port (snapshot : option vpnhide_owned_ports_snapshot)
    (t : pending_table) (now uid port protocol family : Z) (address : list Z) : bool :=
  let wanted := mk_owned_port uid port protocol family address in
  if negb (owned_port_is_local wanted) then false
  else
    let wildcard := mk_owned_port uid port protocol family [0; 0; 0; 0] in
    let differs := negb (bool_decide (address = [0; 0; 0; 0])) in
    let found :=
      match snapshot with
      | None => false
      | Some s =>
          if (bucket_count (os_buckets s) =? 0) || time_after_eq now (os_expires s) then false
          else owned_snapshot_contains (os_buckets s) wanted ||
               (differs && owned_snapshot_contains (os_buckets s) wildcard)
      end in
    found || pending_port_lookup_one t now wanted ||
    (differs && pending_port_lookup_one t now wildcard).

(** ** Linear probing *)

Lemma owned_port_equal_spec a b : owned_port_equal a b = true ↔ a = b.
Proof.
  unfold owned_port_equal. rewrite !andb_true_iff, !Z.eqb_eq, bool_decide_eq_true.
  destruct a, b; simpl. split; [intros [[[[-> ->] ->] ->] ->]; done | by intros [= -> -> -> -> ->]].
Qed.

Section probing.
Context (k : Z) (Hk : 0 <= k).

Definition full (b : list vpnhide_owned_port) : Prop := bucket_count b = 2 ^ k.

(** The [d]-th slot probed for [e], and the entry there. *)
Definition probe_slot (e : vpnhide_owned_port) (d : Z) : Z := (owned_port_hash e + d) mod 2 ^ k.
Definition at_slot (b : list vpnhide_owned_port) (p : Z) : option vpnhide_owned_port := b !! Z.to_nat p.

(** Every occupied slot is reachable from the home slot of its entry. *)
Definition reachable_table (b : list vpnhide_owned_port) : Prop :=
  ∀ p e, at_slot b p = Some e → 0 <= p → op_uid e ≠ 0 →
    ∃ d, 0 <= d < 2 ^ k ∧ p = probe_slot e d ∧
      ∀ d', 0 <= d' < d → ∃ e', at_slot b (probe_slot e d') = Some e' ∧ op_uid e' ≠ 0.

Lemma probe_slot_range e d : 0 <= probe_slot e d < 2 ^ k.
Proof. apply Z.mod_pos_bound, Z.pow_pos_nonneg; lia. Qed.

Lemma at_slot_some b e d : full b → ∃ x, at_slot b (probe_slot e d) = Some x.
Proof.
  intros Hf. pose proof (probe_slot_range e d). unfold at_slot.
  apply lookup_lt_is_Some_2. unfold full, bucket_count in Hf. lia.
Qed.

Lemma next_slot b e d : full b →
  Z.land (probe_slot e d + 1) (bucket_count b - 1) = probe_slot e (d + 1).
Proof.
  intros ->. rewrite land_mod_pow2 by done. unfold probe_slot.
  rewrite Zplus_mod_idemp_l. f_equal. lia.
Qed.

Lemma first_slot b e : full b →
  Z.land (owned_port_hash e) (bucket_count b - 1) = probe_slot e 0.
Proof. intros ->. rewrite land_mod_pow2 by done. unfold probe_slot. by rewrite Z.add_0_r. Qed.

(** The loop finds [w] at distance [d] if nothing on the way is empty. *)
Lemma owned_probe_finds b w d i n :
  full b → 0 <= i <= d → d - i < Z.of_nat n → op_uid w ≠ 0 →
  at_slot b (probe_slot w d) = Some w →
  (∀ d', i <= d' < d → ∃ e', at_slot b (probe_slot w d') = Some e' ∧ op_uid e' ≠ 0) →
  owned_probe b w n (probe_slot w i) = true.
Proof.
  intros Hf Hi Hn Hw Hd Hocc. revert i Hi Hn Hocc.
  induction n as [|n IH]; intros i Hi Hn Hocc; [lia|].
  cbn [owned_probe]. destruct (Z.eq_dec i d) as [->|Hne].
  - unfold at_slot in Hd. rewrite Hd. destruct (Z.eqb_spec (op_uid w) 0); [done|].
    by rewrite (proj2 (owned_port_equal_spec w w)).
  - destruct (Hocc i) as (e' & He' & Hu); [lia|]. unfold at_slot in He'. rewrite He'.
    destruct (Z.eqb_spec (op_uid e') 0); [done|].
    destruct (owned_port_equal e' w); [done|]. rewrite next_slot by done.
    apply IH; [lia|lia|]. intros d' Hd'. apply Hocc. lia.
Qed.

Lemma owned_probe_sound b w n slot :
  owned_probe b w n slot = true → ∃ p, b !! p = Some w.
Proof.
  revert slot. induction n as [|n IH]; intros slot; cbn [owned_probe]; [done|].
  destruct (b !! Z.to_nat slot) as [e|] eqn:E; [|done]. destruct (_ =? 0); [done|].
  destruct (owned_port_equal e w) eqn:Eq; [|apply IH].
  apply owned_port_equal_spec in Eq as ->. eauto.
Qed.

Lemma contains_spec b w :
  full b → reachable_table b → op_uid w ≠ 0 →
  owned_snapshot_contains b w = true ↔ w ∈ b.
Proof.
  intros Hf Hr Hw. unfold owned_snapshot_contains. rewrite first_slot by done. split.
  - intros (p & Hp)%owned_probe_sound. by eapply list_elem_of_lookup_2.
  - intros [p Hp]%list_elem_of_lookup.
    destruct (Hr (Z.of_nat p) w) as (d & Hd & Hpd & Hocc); [unfold at_slot; by rewrite Nat2Z.id|lia|done|].
    apply (owned_probe_finds b w d); try done; try lia.
    + unfold full, bucket_count in Hf. lia.
    + unfold at_slot. rewrite <- Hpd. by rewrite Nat2Z.id.
Qed.

(** An insertion either finds the entry, fills a free slot all of whose
    predecessors are occupied, or finds the table full. *)
Lemma owned_insert_probe_cases b e n i :
  full b → 0 <= i →
  (∀ d', 0 <= d' < i → ∃ e', at_slot b (probe_slot e d') = Some e' ∧ op_uid e' ≠ 0) →
  (owned_insert_probe b e n (probe_slot e i) = (b, false) ∧ e ∈ b) ∨
  (∃ d, i <= d < i + Z.of_nat n ∧
     owned_insert_probe b e n (probe_slot e i) = (<[Z.to_nat (probe_slot e d) := e]> b, true) ∧
     (∃ e0, at_slot b (probe_slot e d) = Some e0 ∧ op_uid e0 = 0) ∧
     ∀ d', 0 <= d' < d → ∃ e', at_slot b (probe_slot e d') = Some e' ∧ op_uid e' ≠ 0) ∨
  (∀ d', 0 <= d' < i + Z.of_nat n →
     ∃ e', at_slot b (probe_slot e d') = Some e' ∧ op_uid e' ≠ 0).
Proof.
  intros Hf. revert i. induction n as [|n IH]; intros i Hi Hocc.
  { right. right. intros d' Hd'. apply Hocc. lia. }
  cbn [owned_insert_probe]. destruct (at_slot_some b e i Hf) as [x Hx].
  pose proof Hx as Hx'. unfold at_slot in Hx'. rewrite Hx'.
  destruct (Z.eqb_spec (op_uid x) 0) as [H0|H0].
  { right. left. exists i. split_and!; [lia..|done|eauto|done]. }
  destruct (owned_port_equal x e) eqn:Eq.
  { left. apply owned_port_equal_spec in Eq as ->. split; [done|]. by eapply list_elem_of_lookup_2. }
  rewrite next_slot by done.
  destruct (IH (i + 1)) as [H|[(d & Hd & H)|H]]; [lia| | | |].
  - intros d' Hd'. destruct (Z.eq_dec d' i) as [->|]; [eauto|apply Hocc; lia].
  - by left.
  - right. left. exists d. split; [lia|done].
  - right. right. intros d' Hd'. apply H. lia.
Qed.

Definition occupied (e : vpnhide_owned_port) : bool := negb (op_uid e =? 0).
Definition occupancy (b : list vpnhide_owned_port) : nat := length (List.filter occupied b).

Lemma occupied_spec e : occupied e = true ↔ op_uid e ≠ 0.
Proof. unfold occupied. by rewrite negb_true_iff, Z.eqb_neq. Qed.

Lemma occupancy_free b : (occupancy b < length b)%nat → ∃ p e, b !! p = Some e ∧ op_uid e = 0.
Proof.
  unfold occupancy. induction b as [|e b IH]; simpl; [lia|].
  destruct (occupied e) eqn:E; simpl; intros Hl.
  - destruct IH as (p & x & Hp & Hx); [lia|]. by exists (S p), x.
  - exists O, e. split; [done|]. unfold occupied in E. b2p. done.
Qed.

Lemma occupancy_insert b p e e0 :
  b !! p = Some e0 → op_uid e0 = 0 → op_uid e ≠ 0 →
  occupancy (<[p := e]> b) = S (occupancy b).
Proof.
  unfold occupancy. intros Hp H0 He. revert p Hp.
  induction b as [|x b IH]; intros [|p] Hp; simplify_eq/=.
  - unfold occupied. rewrite H0. apply Z.eqb_neq in He. by rewrite He.
  - destruct (occupied x); simpl; rewrite IH; done.
Qed.

(** Some slot of the probe sequence is free unless the table is full. *)
Lemma free_on_probe b e :
  full b → (occupancy b < length b)%nat →
  ∃ d x, 0 <= d < 2 ^ k ∧ at_slot b (probe_slot e d) = Some x ∧ op_uid x = 0.
Proof.
  intros Hf (p & x & Hp & Hx)%occupancy_free.
  pose proof (lookup_lt_Some _ _ _ Hp) as Hlt. unfold full, bucket_count in Hf.
  assert (0 < 2 ^ k) by (apply Z.pow_pos_nonneg; lia).
  exists ((Z.of_nat p - owned_port_hash e) mod 2 ^ k), x.
  split; [apply Z.mod_pos_bound; lia|]. split; [|done].
  unfold at_slot, probe_slot. rewrite Zplus_mod_idemp_r.
  replace (owned_port_hash e + (Z.of_nat p - owned_port_hash e)) with (Z.of_nat p) by lia.
  rewrite Z.mod_small by lia. by rewrite Nat2Z.id.
Qed.

Lemma at_slot_insert b p e q x :
  0 <= p → 0 <= q → at_slot b q = Some x → op_uid x ≠ 0 → op_uid e ≠ 0 →
  ∃ x', at_slot (<[Z.to_nat p := e]> b) q = Some x' ∧ op_uid x' ≠ 0.
Proof.
  intros Hp Hq Hx Hu He. unfold at_slot in *. destruct (decide (p = q)) as [->|Hne].
  - exists e. split; [|done]. apply list_lookup_insert_eq. exact (lookup_lt_Some _ _ _ Hx).
  - exists x. split; [|done]. rewrite list_lookup_insert_ne; [done|]. lia.
Qed.

(** What the table invariant is worth: an insertion into a table with room
    keeps it and adds exactly the entry. *)
Lemma owned_insert_spec b e :
  full b → reachable_table b → op_uid e ≠ 0 → (occupancy b < length b)%nat →
  let '(b', grew) := owned_insert b e in
  full b' ∧ reachable_table b' ∧ length b' = length b ∧
  occupancy b' = (occupancy b + (if grew : bool then 1 else 0))%nat ∧
  ∀ w, op_uid w ≠ 0 → w ∈ b' ↔ w ∈ b ∨ w = e.
Proof.
  intros Hf Hr He Hocc. unfold owned_insert. rewrite first_slot by done.
  destruct (owned_insert_probe_cases b e (length b) 0 Hf) as
    [[-> Hin]|[(d & Hd & -> & (e0 & He0 & H0) & Hbefore)|Hfull]]; [lia|lia|..].
  - split_and!; try done; try lia. intros w _. split; [by left|]. by intros [?| ->].
  - pose proof (probe_slot_range e d) as Hrange. unfold at_slot in He0.
    split_and!.
    + unfold full, bucket_count in *. by rewrite length_insert.
    + intros q x Hq Hq0 Hu. unfold at_slot in Hq.
      destruct (decide (Z.to_nat q = Z.to_nat (probe_slot e d))) as [Heq|Hne].
      * rewrite Heq, list_lookup_insert_eq in Hq by exact (lookup_lt_Some _ _ _ He0).
        injection Hq as <-. exists d. split_and!; [lia| |lia|].
        { unfold full, bucket_count in Hf. lia. }
        intros d' Hd'. destruct (Hbefore d' Hd') as (x & Hx & Hux).
        pose proof (probe_slot_range e d'). eapply at_slot_insert; [lia|lia|exact Hx|done|done].
      * rewrite list_lookup_insert_ne in Hq by done.
        destruct (Hr q x Hq Hq0 Hu) as (dx & Hdx & Hqd & Hb). exists dx. split_and!; [lia..|done|].
        intros d' Hd'. destruct (Hb d' Hd') as (y & Hy & Huy).
        pose proof (probe_slot_range x d'). eapply at_slot_insert; [lia|lia|exact Hy|done|done].
    + apply length_insert.
    + rewrite (occupancy_insert b _ e e0) by done. lia.
    + intros w Hw. rewrite !list_elem_of_lookup. split.
      * intros [i Hi]. destruct (decide (i = Z.to_nat (probe_slot e d))) as [->|Hne].
        { rewrite list_lookup_insert_eq in Hi by exact (lookup_lt_Some _ _ _ He0).
          right. congruence. }
        rewrite list_lookup_insert_ne in Hi by done. left. eauto.
      * intros [[i Hi]| ->].
        { exists i. rewrite list_lookup_insert_ne; [done|]. intros <-. congruence. }
        exists (Z.to_nat (probe_slot e d)). apply list_lookup_insert_eq. exact (lookup_lt_Some _ _ _ He0).
  - exfalso. destruct (free_on_probe b e Hf Hocc) as (d & x & Hd & Hx & Hx0).
    destruct (Hfull d) as (x' & Hx' & Hu'); [unfold full, bucket_count in Hf; lia|]. congruence.
Qed.

(** An entry that is there is not inserted again. *)
Lemma owned_insert_probe_present b e d i n :
  full b → 0 <= i <= d → d - i < Z.of_nat n → op_uid e ≠ 0 →
  at_slot b (probe_slot e d) = Some e →
  (∀ d', i <= d' < d → ∃ e', at_slot b (probe_slot e d') = Some e' ∧ op_uid e' ≠ 0) →
  owned_insert_probe b e n (probe_slot e i) = (b, false).
Proof.
  intros Hf Hi Hn He Hd Hocc. revert i Hi Hn Hocc.
  induction n as [|n IH]; intros i Hi Hn Hocc; [lia|].
  cbn [owned_insert_probe]. destruct (Z.eq_dec i d) as [->|Hne].
  - unfold at_slot in Hd. rewrite Hd. destruct (Z.eqb_spec (op_uid e) 0); [done|].
    by rewrite (proj2 (owned_port_equal_spec e e)).
  - destruct (Hocc i) as (e' & He' & Hu); [lia|]. unfold at_slot in He'. rewrite He'.
    destruct (Z.eqb_spec (op_uid e') 0); [done|].
    destruct (owned_port_equal e' e); [done|]. rewrite next_slot by done.
    apply IH; [lia|lia|]. intros d' Hd'. apply Hocc. lia.
Qed.

(** No entry occupies two slots. *)
Definition distinct_table (b : list vpnhide_owned_port) : Prop :=
  ∀ p q e, b !! p = Some e → b !! q = Some e → op_uid e ≠ 0 → p = q.

Lemma owned_insert_distinct b e :
  full b → reachable_table b → op_uid e ≠ 0 → distinct_table b → distinct_table (owned_insert b e).1.
Proof.
  intros Hf Hr He Hb. unfold owned_insert. rewrite first_slot by done.
  destruct (owned_insert_probe_cases b e (length b) 0 Hf) as
    [[-> _]|[(d & Hd & Hins & (e0 & He0 & H0) & Hbefore)|Hfull]]; [lia|lia|done|..].
  - assert (e ∉ b) as Hnot.
    { intros [p Hp]%list_elem_of_lookup.
      destruct (Hr (Z.of_nat p) e) as (dx & Hdx & Hpd & Hocc); [unfold at_slot; by rewrite Nat2Z.id|lia|done|].
      rewrite (owned_insert_probe_present b e dx 0) in Hins; try done; try lia.
      - unfold full, bucket_count in Hf. lia.
      - unfold at_slot. rewrite <- Hpd. by rewrite Nat2Z.id. }
    rewrite Hins. cbn [fst]. set (slot := Z.to_nat (probe_slot e d)).
    assert (∀ p x, <[slot := e]> b !! p = Some x → p = slot ∧ x = e ∨ b !! p = Some x) as Hcase.
    { intros p x Hp. destruct (decide (p = slot)) as [->|]; [|right; by rewrite list_lookup_insert_ne in Hp].
      left. split; [done|]. rewrite list_lookup_insert_eq in Hp; [congruence|].
      unfold at_slot in He0. exact (lookup_lt_Some _ _ _ He0). }
    intros p q x [[-> ->]|Hp]%Hcase [[-> Hx]|Hq]%Hcase Hx0; try done.
    + destruct Hnot. by eapply list_elem_of_lookup_2.
    + subst x. destruct Hnot. by eapply list_elem_of_lookup_2.
    + by eapply Hb.
  - assert (∀ n i, (∀ d', i <= d' < i + Z.of_nat n →
      ∃ e', at_slot b (probe_slot e d') = Some e' ∧ op_uid e' ≠ 0) →
      (owned_insert_probe b e n (probe_slot e i)).1 = b) as Hsame; [|rewrite Hsame; [done|]; intros; apply Hfull; lia].
    clear Hfull. induction n as [|n IH]; intros i Hocc; [done|]. cbn [owned_insert_probe].
    destruct (Hocc i) as (e' & He' & Hu); [lia|]. unfold at_slot in He'. rewrite He'.
    destruct (Z.eqb_spec (op_uid e') 0); [done|]. destruct (owned_port_equal e' e); [done|].
    rewrite next_slot by done. apply IH. intros. apply Hocc. lia.
Qed.

Lemma owned_fill_spec entries b n b' n' :
  full b → reachable_table b → (occupancy b + length entries < length b)%nat →
  n = Z.of_nat (occupancy b) →
  owned_fill entries b n = Ok (b', n') →
  full b' ∧ reachable_table b' ∧ n' = Z.of_nat (occupancy b') ∧
  (occupancy b' <= occupancy b + length entries)%nat ∧
  Forall (λ e, owned_entry_valid e = true) entries ∧
  (distinct_table b → distinct_table b') ∧
  ∀ w, op_uid w ≠ 0 → w ∈ b' ↔ w ∈ b ∨ w ∈ entries.
Proof.
  revert b n. induction entries as [|e entries IH]; intros b n Hf Hr Hocc Hn H; simpl in H.
  { simplify_eq. split_and!; try done; [lia|]. intros w _. split; [auto|]. intros [?|Hw]; [done|].
    by apply not_elem_of_nil in Hw. }
  destruct (owned_entry_valid e) eqn:Hv; [|done].
  assert (op_uid e ≠ 0) as He by (unfold owned_entry_valid in Hv; b2p; done).
  simpl in Hocc. pose proof (owned_insert_spec b e Hf Hr He ltac:(lia)) as Hins.
  pose proof (owned_insert_distinct b e Hf Hr He) as Hdist.
  destruct (owned_insert b e) as [b1 grew]. destruct Hins as (Hf1 & Hr1 & Hl1 & Ho1 & Hin1).
  apply IH in H as (Hf' & Hr' & Hn' & Hle & Hall & Hd & Hin); [|done|done| |].
  - split_and!; try done; [simpl; destruct grew; lia|by constructor|by auto|]. intros w Hw.
    rewrite Hin, Hin1, elem_of_cons by done. tauto.
  - rewrite Ho1, Hl1. destruct grew; lia.
  - rewrite Ho1. destruct grew; lia.
Qed.

(** Valid entries are never refused. *)
Lemma owned_fill_total entries b n :
  Forall (λ e, owned_entry_valid e = true) entries → ∃ r, owned_fill entries b n = Ok r.
Proof.
  intros Hv. revert b n. induction Hv as [|e entries He _ IH]; intros b n; simpl; [eauto|].
  rewrite He. destruct (owned_insert b e). apply IH.
Qed.

Lemma reachable_empty m : reachable_table (replicate m zero_owned_port).
Proof.
  intros p e Hp _ Hu. unfold at_slot in Hp. apply lookup_replicate in Hp as [-> _]. done.
Qed.

Lemma occupancy_empty m : occupancy (replicate m zero_owned_port) = O.
Proof. unfold occupancy. by induction m. Qed.
End probing.

(** ** The table size *)

Lemma bucket_loop_pow2 fuel a want :
  0 <= a → want <= 2 ^ (a + Z.of_nat fuel) →
  ∃ k, a <= k <= a + Z.of_nat fuel ∧ bucket_loop fuel (2 ^ a) want = 2 ^ k ∧ want <= 2 ^ k.
Proof.
  revert a. induction fuel as [|fuel IH]; intros a Ha Hw; simpl.
  { exists a. rewrite Z.add_0_r in Hw. split_and!; [lia..|done|done]. }
  destruct (Z.ltb_spec (2 ^ a) want) as [|Hge]; [|exists a; split_and!; [lia..|done|done]].
  rewrite Z.shiftl_mul_pow2, <- Z.pow_add_r by lia.
  destruct (IH (a + 1)) as (k & Hk & -> & Hwk); [lia|by replace (a + 1 + Z.of_nat fuel) with (a + Z.of_nat (S fuel)) by lia|].
  exists k. split_and!; [lia..|done|done].
Qed.

Lemma bucket_loop_owned count :
  0 <= count <= VPNHIDE_OWNED_PORTS_MAX →
  ∃ k, 3 <= k <= 19 ∧ bucket_loop 16 8 (Z.max 8 (u32 (count * 2))) = 2 ^ k ∧ count * 2 <= 2 ^ k.
Proof.
  unfold VPNHIDE_OWNED_PORTS_MAX. intros Hc. unfold u32. rewrite wrap_small by (unfold fits; lia).
  destruct (bucket_loop_pow2 16 3 (Z.max 8 (count * 2))) as (k & Hk & Hb & Hw); [lia..|].
  exists k. split_and!; [lia..|exact Hb|lia].
Qed.

(** ** The whole replacement *)

Lemma replace_owned_ports_spec HZ now count ptr entries b :
  0 <= count <= VPNHIDE_OWNED_PORTS_MAX → Z.of_nat (length entries) = count → (count ≠ 0 → ptr ≠ 0) →
  replace_owned_ports HZ now count 0 ptr (Some entries) true true = Ok b →
  os_expires b = u64 (now + 120 * HZ) ∧
  os_entry_count b = Z.of_nat (occupancy (os_buckets b)) ∧
  0 < bucket_count (os_buckets b) ∧
  ∀ w, op_uid w ≠ 0 → owned_snapshot_contains (os_buckets b) w = true ↔ w ∈ entries.
Proof.
  intros Hc Hlen Hptr H. destruct (bucket_loop_owned count Hc) as (k & Hk & Hb & Hcap).
  assert (8 <= 2 ^ k) as H8 by (change 8 with (2 ^ 3); apply Z.pow_le_mono_r; lia).
  unfold replace_owned_ports in H. rewrite Hb in H. case_result.
  match goal with H : (if count =? 0 then _ else _) = Ok ?es |- _ =>
    assert (es = entries) as Hes end.
  { destruct (Z.eqb_spec count 0) as [->|]; case_result; simplify_eq.
    - by destruct entries.
    - apply take_ge. lia. }
  match goal with H : (let '(_, _) := ?x in _) = _ |- _ => destruct x as [tbl n] end.
  case_result. subst.
  assert (full k (replicate (Z.to_nat (2 ^ k)) zero_owned_port)) as Hf.
  { unfold full, bucket_count. rewrite length_replicate. lia. }
  match goal with H : owned_fill _ _ _ = _ |- _ =>
    apply (owned_fill_spec k) in H as (Hf' & Hr' & Hn & _ & _ & _ & Hin) end;
    [|lia|done|apply reachable_empty| |by rewrite occupancy_empty].
  2:{ rewrite occupancy_empty, length_replicate. lia. }
  cbn [os_buckets os_expires os_entry_count]. split_and!; [done..|rewrite Hf'; lia|].
  intros w Hw. rewrite (contains_spec k) by (done || lia). rewrite Hin by done.
  split; [|by right]. intros [[i Hi]%list_elem_of_lookup|]; [|done].
  apply lookup_replicate in Hi as [-> _]. done.
Qed.

(** ** The invariant of the table *)

(** The snapshot the module holds: a power of two of slots, at most half of them
    occupied, by valid entries that are all different and all found by their
    probe sequence; the entry count is their number. *)
Record owned_wf (s : vpnhide_owned_ports_snapshot) : Prop := {
  ow_layout : ∃ k, 3 <= k <= 19 ∧ full k (os_buckets s) ∧ reachable_table k (os_buckets s);
  ow_half : (2 * occupancy (os_buckets s) <= length (os_buckets s))%nat;
  ow_count : os_entry_count s = Z.of_nat (occupancy (os_buckets s));
  ow_valid : ∀ e, e ∈ os_buckets s → op_uid e ≠ 0 → owned_entry_valid e = true;
  ow_distinct : distinct_table (os_buckets s);
  ow_expires : fits 64 (os_expires s)
}.

(** The doubling always ends at a power of two; what was asked for fits when it
    can. *)
Lemma bucket_loop_any fuel a want :
  0 <= a → ∃ k, a <= k <= a + Z.of_nat fuel ∧ bucket_loop fuel (2 ^ a) want = 2 ^ k.
Proof.
  revert a. induction fuel as [|fuel IH]; intros a Ha; simpl; [exists a; split; [lia|done]|].
  destruct (2 ^ a <? want); [|exists a; split; [lia|done]].
  rewrite Z.shiftl_mul_pow2, <- Z.pow_add_r by lia.
  destruct (IH (a + 1)) as (k & Hk & ->); [lia|]. exists k. split; [lia|done].
Qed.

Lemma empty_distinct m : distinct_table (replicate m zero_owned_port).
Proof. intros p q e [-> _]%lookup_replicate _ H. done. Qed.

(** What a call installs satisfies the invariant, whatever it was given. *)
Lemma replace_owned_ports_wf HZ now count reserved ptr entries a1 a2 s :
  replace_owned_ports HZ now count reserved ptr entries a1 a2 = Ok s → owned_wf s.
Proof.
  unfold replace_owned_ports. intros H. case_result.
  match goal with H : (if count =? 0 then _ else _) = Ok ?es |- _ =>
    assert (length es <= Z.to_nat count)%nat as Hes end.
  { destruct (count =? 0), entries; case_result; simplify_eq; rewrite ?length_take; cbn [length]; lia. }
  match goal with H : (let '(_, _) := ?x in _) = _ |- _ => destruct x as [tbl n] end.
  assert (∃ k, 3 <= k <= 19 ∧ bucket_loop 16 8 (Z.max 8 (u32 (count * 2))) = 2 ^ k ∧
    (2 * Z.to_nat count <= Z.to_nat (2 ^ k))%nat) as (k & Hk & Hb & Hcap).
  { destruct (Z.le_gt_cases 0 count).
    - destruct (bucket_loop_owned count) as (k & Hk & Hb & Hw); [b2p; lia|]. exists k. split_and!; [lia..|done|].
      lia.
    - destruct (bucket_loop_any 16 3 (Z.max 8 (u32 (count * 2)))) as (k & Hk & Hb); [lia|].
      exists k. split_and!; [lia..|exact Hb|]. lia. }
  rewrite Hb in *. assert (8 <= 2 ^ k) as H8 by (change 8 with (2 ^ 3); apply Z.pow_le_mono_r; lia).
  case_result. subst.
  assert (full k (replicate (Z.to_nat (2 ^ k)) zero_owned_port)) as Hf.
  { unfold full, bucket_count. rewrite length_replicate. lia. }
  match goal with H : owned_fill _ _ _ = _ |- _ =>
    apply (owned_fill_spec k) in H as (Hf' & Hr' & Hn & Hle & Hv & Hd & Hin) end;
    [|lia|done|apply reachable_empty| |by rewrite occupancy_empty].
  2:{ rewrite occupancy_empty, length_replicate. lia. }
  rewrite occupancy_empty in Hle. assert (length tbl = Z.to_nat (2 ^ k)) as Hl.
  { unfold full, bucket_count in Hf'. lia. }
  split; cbn [os_buckets os_expires os_entry_count].
  - by exists k.
  - rewrite Hl. lia.
  - done.
  - intros e He Hu. apply Hin in He as [[i Hi]%list_elem_of_lookup|He]; [|by eapply Forall_forall in Hv|done].
    apply lookup_replicate in Hi as [-> _]. done.
  - apply Hd, empty_distinct.
  - by apply wrap_fits.
Qed.

(** ** Time *)

Lemma s64_u64 a b : s64 (u64 a - u64 b) = s64 (a - b).
Proof.
  unfold s64, u64, wrap. f_equal. rewrite <- Zplus_mod_idemp_l, <- Zminus_mod, Zplus_mod_idemp_l.
  done.
Qed.

(** A deadline [ttl] ticks ahead is in the future for the next [ttl] ticks,
    also across a wrap of [jiffies]. *)
Lemma time_before_elapsed now elapsed ttl :
  0 <= elapsed < ttl → ttl < 2 ^ 63 →
  time_before (u64 (now + elapsed)) (u64 (now + ttl)) = true ∧
  time_after_eq (u64 (now + elapsed)) (u64 (now + ttl)) = false.
Proof.
  intros He Ht. unfold time_before, time_after_eq. rewrite s64_u64.
  replace (now + elapsed - (now + ttl)) with (elapsed - ttl) by lia.
  unfold s64. rewrite Z.mod_small by lia. split; [apply Z.ltb_lt|apply Z.leb_gt]; lia.
Qed.

(** ** Pending ports *)

Definition pending_entry_ok (e : vpnhide_pending_port) : Prop :=
  fits 32 (pd_sequence e) ∧ Z.odd (pd_sequence e) = false.

Definition pending_wf (t : pending_table) : Prop :=
  length t = 256%nat ∧ Forall (λ ways, length ways = 4%nat ∧ Forall pending_entry_ok ways) t.

Lemma empty_pending_wf : pending_wf empty_pending_table.
Proof. split; [done|]. apply Forall_replicate. split; [done|]. by apply Forall_replicate. Qed.

Lemma select_way_bound now owner ways way selected oldest :
  (selected < way + length ways)%nat → (select_way now owner ways way selected oldest < way + length ways)%nat.
Proof.
  revert way selected oldest. induction ways as [|e ways IH]; intros way selected oldest Hs; simpl in *; [lia|].
  destruct (_ || _); [lia|].
  destruct (time_before _ _); rewrite Nat.add_succ_r in *; apply (IH (S way)); simpl; lia.
Qed.

Lemma pending_set_bound t o : length t = 256%nat → (pending_set t o < length t)%nat.
Proof.
  intros ->. unfold pending_set, VPNHIDE_PENDING_PORT_SETS. rewrite (land_mod_pow2 _ 8) by lia.
  pose proof (Z.mod_pos_bound (owned_port_hash o) (2 ^ 8)). lia.
Qed.

(** Two increments leave the sequence even, also when it wraps. *)
Lemma sequence_step s : fits 32 s → Z.odd s = false →
  fits 32 (u32 (u32 (s + 1) + 1)) ∧ Z.odd (u32 (u32 (s + 1) + 1)) = false.
Proof.
  intros Hf Ho. split; [by apply wrap_fits|]. unfold u32, wrap. rewrite Zplus_mod_idemp_l.
  rewrite <- Z.bit0_odd, Z.mod_pow2_bits_low by lia. rewrite Z.bit0_odd.
  replace (s + 1 + 1) with (s + 2 * 1) by lia. by rewrite Z.odd_add_mul_2.
Qed.

Section pending.
Context (HZ : Z) (t : pending_table) (Hwf : pending_wf t).

(** The set, the way and the entry a recording replaces. *)
Lemma pending_record_shape now owner :
  ∃ ways way old,
    t !! pending_set t owner = Some ways ∧ length ways = 4%nat ∧ Forall pending_entry_ok ways ∧
    ways !! way = Some old ∧
    (pending_record HZ t now owner).1 =
      <[pending_set t owner := <[way := mk_pending (u32 (u32 (pd_sequence old + 1) + 1)) owner
         (u64 (now + VPNHIDE_PENDING_PORT_TTL HZ))]> ways]> t.
Proof.
  destruct Hwf as [Hl Hall]. pose proof (pending_set_bound t owner Hl) as Hs.
  destruct (lookup_lt_is_Some_2 t _ Hs) as [ways Hways]. rewrite Forall_forall in Hall.
  destruct (Hall ways) as [Hl4 Hok]; [by eapply list_elem_of_lookup_2|].
  set (first := default zero_pending (ways !! 0%nat)).
  set (way := select_way now owner ways 0 0 (pd_expires first)).
  assert (way < length ways)%nat as Hway
    by (pose proof (select_way_bound now owner ways 0 0 (pd_expires first)); lia).
  destruct (lookup_lt_is_Some_2 ways way Hway) as [old Hold].
  exists ways, way, old. split_and!; try done.
  unfold pending_record. rewrite Hways. change (default [] (Some ways)) with ways. cbv zeta.
  fold first. fold way. by rewrite Hold.
Qed.

Lemma pending_record_wf now owner : pending_wf (pending_record HZ t now owner).1.
Proof.
  destruct (pending_record_shape now owner) as (ways & way & old & Hs & H4 & Hok & Ho & ->).
  destruct Hwf as [Hl Hall]. split; [by rewrite length_insert|].
  apply Forall_insert; [done|]. split; [by rewrite length_insert|].
  apply Forall_insert; [done|]. rewrite Forall_forall in Hok.
  destruct (Hok old) as [? ?]; [by eapply list_elem_of_lookup_2|]. by apply sequence_step.
Qed.

(** A recorded port is found until its time to live has passed. *)
Lemma pending_record_found now elapsed owner :
  0 <= elapsed < VPNHIDE_PENDING_PORT_TTL HZ → VPNHIDE_PENDING_PORT_TTL HZ < 2 ^ 63 →
  pending_port_lookup_one (pending_record HZ t now owner).1 (u64 (now + elapsed)) owner = true.
Proof.
  intros He Httl.
  destruct (pending_record_shape now owner) as (ways & way & old & Hs & H4 & Hok & Ho & ->).
  unfold pending_port_lookup_one.
  change (pending_set (<[_ := _]> t) owner) with (pending_set t owner).
  rewrite list_lookup_insert_eq by (by eapply lookup_lt_Some, Hs). cbn [default].
  apply List.existsb_exists. eexists. split.
  { apply list_elem_of_In. eapply list_elem_of_lookup_2, list_lookup_insert_eq.
    exact (lookup_lt_Some _ _ _ Ho). }
  unfold pending_hit. cbn [pd_sequence pd_owner pd_expires].
  rewrite Forall_forall in Hok. destruct (Hok old) as [Hf Hodd]; [by eapply list_elem_of_lookup_2|].
  rewrite (proj2 (sequence_step _ Hf Hodd)), (proj2 (owned_port_equal_spec owner owner)) by done.
  by rewrite (proj1 (time_before_elapsed now elapsed _ He Httl)).
Qed.
End pending.

(** ** Ownership *)

Lemma owned_port_from_sock_local uid sk owner :
  owned_port_from_sock uid sk = Some owner → owned_port_is_local owner = true ∧ op_uid owner = uid.
Proof.
  unfold owned_port_from_sock. destruct sk as [sk|]; [|done]. cbn [mbind option_bind].
  destruct (_ && _); [done|]. destruct (_ =? 0); [done|].
  destruct (sk_family sk =? AF_INET); [|destruct (sk_family sk =? AF_INET6); [|done];
    destruct (ipv6_addr_v4mapped _)]; cbn [mbind option_bind];
    (destruct (owned_port_is_local _) eqn:El; [|done]); intros [= <-]; done.
Qed.

Lemma uid_owns_pending snapshot t now owner address :
  pending_port_lookup_one t now owner = true →
  owned_port_is_local (mk_owned_port (op_uid owner) (op_port owner) (op_protocol owner)
    (op_family owner) address) = true →
  address = op_address owner ∨ op_address owner = [0; 0; 0; 0] →
  vpnhide_uid_owns_port snapshot t now (op_uid owner) (op_port owner) (op_protocol owner)
    (op_family owner) address = true.
Proof.
  intros Hp Hloc Haddr. unfold vpnhide_uid_owns_port. rewrite Hloc. cbn [negb].
  destruct owner as [u p pr f a]; cbn [op_uid op_port op_protocol op_family op_address] in *.
  destruct Haddr as [-> | ->].
  - by rewrite Hp, orb_true_r.
  - case_bool_decide as Hd.
    + subst. by rewrite Hp, orb_true_r.
    + by rewrite Hp, !orb_true_r.
Qed.

(** ** Properties *)

Lemma replace_owned_ports_total HZ now count ptr entries :
  0 <= count <= VPNHIDE_OWNED_PORTS_MAX → (count ≠ 0 → ptr ≠ 0) →
  Forall (λ e, owned_entry_valid e = true) entries →
  ∃ b, replace_owned_ports HZ now count 0 ptr (Some entries) true true = Ok b.
Proof.
  intros Hc Hp Hv. unfold replace_owned_ports. cbn [nonzero negb Z.eqb orb].
  destruct (Z.ltb_spec VPNHIDE_OWNED_PORTS_MAX count); [lia|].
  assert (nonzero count && (ptr =? 0) = false) as ->.
  { unfold nonzero. destruct (Z.eqb_spec count 0), (Z.eqb_spec ptr 0); try done. by destruct (Hp n). }
  cbn [orb negb].
  set (buckets := bucket_loop _ _ _). clearbody buckets.
  assert (∃ es, (if count =? 0 then Ok [] else Ok (take (Z.to_nat count) entries)) = Ok es ∧
    Forall (λ e, owned_entry_valid e = true) es) as (es & -> & Hes).
  { destruct (count =? 0); eexists; (split; [done|]); [constructor|by apply Forall_take]. }
  cbn [mbind result_bind].
  destruct (owned_fill_total es (replicate (Z.to_nat buckets) zero_owned_port) 0 Hes) as [[b n0] ->].
  by eexists.
Qed.

(** C32: replacing the owned-port snapshot with up to 65536 valid entries
    succeeds, and the open-addressing table then contains exactly those
    entries: no insertion is lost to probing and no lookup finds another one. *)
Theorem replaced_ports_exact HZ now count ptr entries :
  0 <= count <= VPNHIDE_OWNED_PORTS_MAX → Z.of_nat (length entries) = count → ptr ≠ 0 →
  Forall (λ e, owned_entry_valid e = true) entries →
  ∃ b, replace_owned_ports HZ now count 0 ptr (Some entries) true true = Ok b ∧
    os_expires b = u64 (now + 120 * HZ) ∧
    ∀ w, op_uid w ≠ 0 → owned_snapshot_contains (os_buckets b) w = true ↔ w ∈ entries.
Proof.
  intros Hc Hl Hp Hv. destruct (replace_owned_ports_total HZ now count ptr entries Hc (λ _, Hp) Hv) as [b Hb].
  destruct (replace_owned_ports_spec HZ now count ptr entries b Hc Hl (λ _, Hp) Hb) as (? & _ & _ & ?). eauto.
Qed.

Definition example_owner : vpnhide_owned_port := mk_owned_port 10123 8080 VH_PROTO_TCP AF_INET [127; 0; 0; 0].

Lemma replaced_ports_exact_witness :
  ∃ b, replace_owned_ports 250 1000 1 0 4096 (Some [example_owner]) true true = Ok b ∧
    os_expires b = u64 (1000 + 120 * 250) ∧
    ∀ w, op_uid w ≠ 0 → owned_snapshot_contains (os_buckets b) w = true ↔ w ∈ [example_owner].
Proof.
  apply (replaced_ports_exact 250 1000 1 4096 [example_owner]).
  - vm_compute. split; discriminate.
  - reflexivity.
  - discriminate.
  - constructor; [vm_compute; reflexivity|constructor].
Defined.

Lemma recorded_socket_owned HZ policy t now elapsed uid sk have_eventfd owner snapshot :
  pending_wf t → uid ≠ 0 → owned_port_from_sock uid (Some sk) = Some owner →
  is_Some (vpnhide_find_port_target policy uid) →
  0 <= elapsed < VPNHIDE_PENDING_PORT_TTL HZ → VPNHIDE_PENDING_PORT_TTL HZ < 2 ^ 63 →
  vpnhide_uid_owns_port snapshot
    (vpnhide_record_bound_socket HZ policy t now uid (Some sk) have_eventfd).1
    (u64 (now + elapsed)) uid (op_port owner) (op_protocol owner) (op_family owner)
    (op_address owner) = true.
Proof.
  intros Hwf Hu Ho [target Ht] He Httl. unfold vpnhide_record_bound_socket.
  destruct (Z.eqb_spec uid 0); [done|]. rewrite Ho, Ht.
  pose proof (pending_record_found HZ t Hwf now elapsed owner He Httl) as Hf.
  destruct (pending_record HZ t now owner) as [t' changed]. cbn [fst] in *.
  destruct (owned_port_from_sock_local uid (Some sk) owner Ho) as [Hloc <-].
  apply uid_owns_pending; [done| |by left]. by destruct owner.
Qed.

(** Once a bound socket of a targeted application is recorded, its UID owns
    that port until the record's two seconds have passed, whatever else the
    table and the daemon's snapshot hold. *)
Theorem bound_port_owned_until_expiry HZ policy t now elapsed uid sk have_eventfd owner snapshot :
  pending_wf t → uid ≠ 0 → owned_port_from_sock uid (Some sk) = Some owner →
  is_Some (vpnhide_find_port_target policy uid) →
  0 <= elapsed < VPNHIDE_PENDING_PORT_TTL HZ → VPNHIDE_PENDING_PORT_TTL HZ < 2 ^ 63 →
  vpnhide_uid_owns_port snapshot
    (vpnhide_record_bound_socket HZ policy t now uid (Some sk) have_eventfd).1
    (u64 (now + elapsed)) uid (op_port owner) (op_protocol owner) (op_family owner)
    (op_address owner) = true.
Proof. apply recorded_socket_owned. Qed.

Definition example_sock : sock := mk_sock SOCK_STREAM AF_INET 8080 127 [0; 0; 0; 0].

Lemma bound_port_owned_until_expiry_witness :
  vpnhide_uid_owns_port None
    (vpnhide_record_bound_socket 250 (Some example_snapshot) empty_pending_table 1000 10123
       (Some example_sock) true).1 (u64 (1000 + 499)) 10123 8080 VH_PROTO_TCP AF_INET [127; 0; 0; 0] = true.
Proof.
  apply (bound_port_owned_until_expiry 250 (Some example_snapshot) empty_pending_table 1000 499 10123
    example_sock true example_owner None).
  - apply empty_pending_wf.
  - discriminate.
  - vm_compute. reflexivity.
  - eexists. vm_compute. reflexivity.
  - vm_compute. split; [discriminate|reflexivity].
  - vm_compute. reflexivity.
Defined.
