(* ===== verification/PendingSeq.v ===== *)
(** * The pending-port cache under concurrency

    One set of [pending_ports] of [kmod/main.c] with its three users as
    interleaved steps: a recorder ([vpnhide_record_bound_socket]) and the
    [memset] of a policy publication exclude each other by
    [pending_ports_lock], while [pending_port_lookup_one] takes no lock and
    relies on the sequence counters.  An interleaving is a list of events and
    [exec] executes it.

    The barriers leave freedom, and so do the events: the nine words of an entry
    are stored in any order between the two increments of its counter
    ([smp_wmb]), loaded in any order between the two loads of it ([smp_rmb]), and
    a plain store may leave any value in its word before it is complete
    ([ETear]).  Entries of other sets share nothing with this one. *)
From S2P Require Import Prelude Abi Snapshot PolicyQuery OwnedPorts.

(** ** State *)

(** An entry as memory: the counter and the words uid, port, protocol, family,
    the four words of the address, and the expiry. *)
Record cell := mk_cell { c_sequence : Z; c_words : list Z }.

Definition PENDING_WORDS : nat := 9.
Definition VPNHIDE_PENDING_PORT_WAYS : nat := 4.

Definition owner_of (ws : list Z) : vpnhide_owned_port :=
  mk_owned_port (nth 0 ws 0) (nth 1 ws 0) (nth 2 ws 0) (nth 3 ws 0) (take 4 (drop 4 ws)).
Definition expires_of (ws : list Z) : Z := nth 8 ws 0.

Definition entry_of (c : cell) : vpnhide_pending_port :=
  mk_pending (c_sequence c) (owner_of (c_words c)) (expires_of (c_words c)).

Definition words_of (owner : vpnhide_owned_port) (expires : Z) : list Z :=
  [op_uid owner; op_port owner; op_protocol owner; op_family owner] ++ op_address owner ++ [expires].

(** The holder of [pending_ports_lock], and the stores it still has to make. *)
Inductive writer :=
  | Free
  | Storing (way : nat) (ws : list Z) (todo : list nat)
  | Clearing (todo : list (nat * nat)).

(** The lookup: about to load the counter of a way; loading words after an even
    counter; finished, with the clock of its decision. *)
Inductive lookup_state :=
  | LSeq (way : nat)
  | LWords (way : nat) (before : Z) (got : list (option Z))
  | LDone (found : bool) (now : Z).

Record cache := mk_cache {
  ca_ways : list cell;
  ca_writer : writer;
  ca_lookup : lookup_state;
  ca_clock : Z
}.

Inductive event :=
  | ERecord (now : Z) (owner : vpnhide_owned_port)
  | ETear (f : nat) (v : Z)
  | EStore (f : nat)
  | ERecorded
  | EClear
  | EZero (way loc : nat)
  | ECleared
  | ELoadSeq
  | ELoad (f : nat)
  | EDecide
  | ETick.

Definition set_ways (s : cache) (ways : list cell) (w : writer) : cache :=
  mk_cache ways w (ca_lookup s) (ca_clock s).
Definition set_lookup (s : cache) (l : lookup_state) : cache :=
  mk_cache (ca_ways s) (ca_writer s) l (ca_clock s).

Section cache.
Context (HZ : Z) (set : nat) (wanted : vpnhide_owned_port).

(** ** Steps *)

Definition store (c : cell) (f : nat) (v : Z) : cell := mk_cell (c_sequence c) (<[f := v]> (c_words c)).
Definition advance (c : cell) : cell := mk_cell (u32 (c_sequence c + 1)) (c_words c).
Definition zero_loc (c : cell) (loc : nat) : cell :=
  if decide (loc = PENDING_WORDS) then mk_cell 0 (c_words c) else store c loc 0.

Definition all_locs : list (nat * nat) :=
  List.list_prod (List.seq 0 VPNHIDE_PENDING_PORT_WAYS) (List.seq 0 (S PENDING_WORDS)).

Definition chosen_way (ways : list cell) (now : Z) (owner : vpnhide_owned_port) : nat :=
  let entries := entry_of <$> ways in
  select_way now owner entries 0 0 (pd_expires (default zero_pending (entries !! O))).

(** The locked section of [vpnhide_record_bound_socket]. *)
Definition record_step (s : cache) (ev : event) : option cache :=
  match ev, ca_writer s with
  | ERecord now owner, Free =>
      if decide (pending_set [] owner = set ∧ length (op_address owner) = 4%nat) then
        let way := chosen_way (ca_ways s) now owner in
        c ← ca_ways s !! way;
        Some (set_ways s (<[way := advance c]> (ca_ways s))
                (Storing way (words_of owner (u64 (now + VPNHIDE_PENDING_PORT_TTL HZ)))
                   (List.seq 0 PENDING_WORDS)))
      else None
  | ETear f v, Storing way ws todo =>
      if decide (f ∈ todo) then
        c ← ca_ways s !! way;
        Some (set_ways s (<[way := store c f v]> (ca_ways s)) (Storing way ws todo))
      else None
  | EStore f, Storing way ws todo =>
      if decide (f ∈ todo) then
        c ← ca_ways s !! way;
        v ← ws !! f;
        Some (set_ways s (<[way := store c f v]> (ca_ways s)) (Storing way ws (remove Nat.eq_dec f todo)))
      else None
  | ERecorded, Storing way ws [] =>
      c ← ca_ways s !! way;
      Some (set_ways s (<[way := advance c]> (ca_ways s)) Free)
  | _, _ => None
  end.

(** [memset(pending_ports, 0, sizeof(pending_ports))] under the lock. *)
Definition clear_step (s : cache) (ev : event) : option cache :=
  match ev, ca_writer s with
  | EClear, Free => Some (set_ways s (ca_ways s) (Clearing all_locs))
  | EZero way loc, Clearing todo =>
      if decide ((way, loc) ∈ todo) then
        c ← ca_ways s !! way;
        Some (set_ways s (<[way := zero_loc c loc]> (ca_ways s))
                (Clearing (filter (λ l, l ≠ (way, loc)) todo)))
      else None
  | ECleared, Clearing [] => Some (set_ways s (ca_ways s) Free)
  | _, _ => None
  end.

Definition next_way (now : Z) (way : nat) : lookup_state :=
  if decide (S way < VPNHIDE_PENDING_PORT_WAYS)%nat then LSeq (S way) else LDone false now.

(** The loop of [pending_port_lookup_one]. *)
Definition lookup_step (s : cache) (ev : event) : option cache :=
  match ev, ca_lookup s with
  | ELoadSeq, LSeq way =>
      c ← ca_ways s !! way;
      Some (set_lookup s (if Z.odd (c_sequence c) then next_way (ca_clock s) way
                          else LWords way (c_sequence c) (replicate PENDING_WORDS None)))
  | ELoad f, LWords way before got =>
      if decide (got !! f = Some None) then
        c ← ca_ways s !! way;
        v ← c_words c !! f;
        Some (set_lookup s (LWords way before (<[f := Some v]> got)))
      else None
  | EDecide, LWords way before got =>
      ws ← mapM id got;
      c ← ca_ways s !! way;
      let after := c_sequence c in
      Some (set_lookup s
        (if (before =? after) && negb (Z.odd after) && owned_port_equal (owner_of ws) wanted &&
            time_before (ca_clock s) (expires_of ws)
         then LDone true (ca_clock s) else next_way (ca_clock s) way))
  | _, _ => None
  end.

Definition step (s : cache) (ev : event) : option cache :=
  match ev with
  | ERecord _ _ | ETear _ _ | EStore _ | ERecorded => record_step s ev
  | EClear | EZero _ _ | ECleared => clear_step s ev
  | ELoadSeq | ELoad _ | EDecide => lookup_step s ev
  | ETick => Some (mk_cache (ca_ways s) (ca_writer s) (ca_lookup s) (u64 (ca_clock s + 1)))
  end.

Fixpoint exec (s : cache) (evs : list event) : option cache :=
  match evs with
  | [] => Some s
  | ev :: evs => s ← step s ev; exec s evs
  end.

(** The entries a lookup without concurrency reads. *)
Definition entries (s : cache) : list vpnhide_pending_port := entry_of <$> ca_ways s.

Definition initial_cache (clock : Z) : cache :=
  mk_cache (replicate VPNHIDE_PENDING_PORT_WAYS (mk_cell 0 (replicate PENDING_WORDS 0))) Free (LSeq 0) clock.

Definition is_record (ev : event) : bool := match ev with ERecord _ _ => true | _ => false end.
Definition is_clear (ev : event) : bool := match ev with EClear => true | _ => false end.
Definition is_lookup (ev : event) : bool :=
  match ev with ELoadSeq | ELoad _ | EDecide => true | _ => false end.

(** ** Runs *)

Lemma exec_app s evs1 evs2 : exec s (evs1 ++ evs2) = s1 ← exec s evs1; exec s1 evs2.
Proof.
  revert s. induction evs1 as [|ev evs1 IH]; intros s; [done|]. cbn [exec app].
  destruct (step s ev); [apply IH|done].
Qed.

Lemma exec_snoc s evs ev s' :
  exec s (evs ++ [ev]) = Some s' → ∃ s1, exec s evs = Some s1 ∧ step s1 ev = Some s'.
Proof.
  rewrite exec_app. destruct (exec s evs) as [s1|]; [|done]. cbn [mbind option_bind exec].
  destruct (step s1 ev) eqn:E; [|done]. cbn. intros [= <-]. eauto.
Qed.

(** ** Well-formed caches *)

Definition storing_way (w : writer) : option nat :=
  match w with Storing way _ _ => Some way | _ => None end.

(** The counter of an entry is odd exactly while the entry is being stored. *)
Definition cell_ok (w : writer) (i : nat) (c : cell) : Prop :=
  fits 32 (c_sequence c) ∧ length (c_words c) = PENDING_WORDS ∧
  Z.odd (c_sequence c) = bool_decide (storing_way w = Some i).

Definition writer_ok (w : writer) : Prop :=
  match w with
  | Storing way ws todo => length ws = PENDING_WORDS ∧ ∀ f, f ∈ todo → (f < PENDING_WORDS)%nat
  | Clearing todo => ∀ l, l ∈ todo → (l.2 <= PENDING_WORDS)%nat
  | Free => True
  end.

Definition cache_wf (s : cache) : Prop :=
  length (ca_ways s) = VPNHIDE_PENDING_PORT_WAYS ∧
  (∀ i c, ca_ways s !! i = Some c → cell_ok (ca_writer s) i c) ∧ writer_ok (ca_writer s).

Lemma initial_cache_wf clock : cache_wf (initial_cache clock).
Proof.
  split_and!; [done| |done]. intros i c [-> _]%lookup_replicate_1. by split_and!.
Qed.

Lemma u32_succ_odd x : Z.odd (u32 (x + 1)) = negb (Z.odd x).
Proof.
  unfold u32, wrap. rewrite <- Z.bit0_odd, Z.mod_pow2_bits_low, Z.bit0_odd by lia.
  by rewrite Z.odd_add, xorb_true_r.
Qed.

(** Replacing one entry keeps the cache well-formed when the others keep their
    parity and the new one has the parity of the new writer. *)
Lemma set_ways_wf s way c w :
  cache_wf s → writer_ok w → cell_ok w way c →
  (∀ i, i ≠ way → storing_way w = Some i ↔ storing_way (ca_writer s) = Some i) →
  cache_wf (set_ways s (<[way := c]> (ca_ways s)) w).
Proof.
  intros (Hl & Hc & _) Hw Hok Hsame. split_and!; cbn; [by rewrite length_insert| |done].
  intros i d [(-> & -> & _)|[Hne Hd]]%list_lookup_insert_Some; [done|].
  destruct (Hc i d Hd) as (? & ? & Ho). split_and!; try done. rewrite Ho.
  apply bool_decide_ext. rewrite Hsame; naive_solver.
Qed.

Lemma cell_store w i c f v : cell_ok w i c → cell_ok w i (store c f v).
Proof. intros (? & ? & ?). split_and!; try done. cbn. by rewrite length_insert. Qed.

Lemma cell_advance w w' i c :
  cell_ok w i c → bool_decide (storing_way w' = Some i) = negb (bool_decide (storing_way w = Some i)) →
  cell_ok w' i (advance c).
Proof.
  intros (? & ? & Ho) He. split_and!; cbn; [by apply wrap_fits|done|]. by rewrite u32_succ_odd, Ho, He.
Qed.

Lemma words_of_length owner e : length (op_address owner) = 4%nat → length (words_of owner e) = PENDING_WORDS.
Proof. intros H. unfold words_of. rewrite !length_app, H. done. Qed.

Lemma record_step_wf s ev s' : cache_wf s → record_step s ev = Some s' → cache_wf s'.
Proof.
  intros Hwf Hs. pose proof Hwf as (Hl & Hc & Hw). unfold record_step in Hs.
  destruct ev as [now owner|f v|f| | |w0 l0| | |f0| |]; destruct (ca_writer s) as [|way ws todo|todo] eqn:Ew; try done.
  - destruct (decide _) as [[_ Ha]|]; [|done].
    destruct (ca_ways s !! chosen_way _ _ _) as [c|] eqn:E; [|done]. injection Hs as <-.
    apply set_ways_wf; [done| | |].
    + split; [by apply words_of_length|]. intros f Hf%list_elem_of_In. apply (List.in_seq 9 0) in Hf. unfold PENDING_WORDS. lia.
    + eapply cell_advance; [by eapply Hc|]. cbn. by rewrite bool_decide_true.
    + rewrite Ew. cbn. naive_solver.
  - destruct (decide _) as [Hf|]; [|done]. destruct (ca_ways s !! way) as [c|] eqn:E; [|done].
    injection Hs as <-. apply set_ways_wf; [done|done| |by rewrite Ew].
    by eapply cell_store, Hc.
  - destruct (decide _) as [Hf|]; [|done]. destruct (ca_ways s !! way) as [c|] eqn:E; [|done].
    cbn in Hs. destruct (ws !! f) as [v|]; [|done]. injection Hs as <-.
    apply set_ways_wf; [done| | |by rewrite Ew].
    + destruct Hw as [? Ht]. split; [done|]. intros g [Hg _]%list_elem_of_In%List.in_remove.
      by apply Ht, list_elem_of_In.
    + by eapply (cell_store (Storing way ws todo)), Hc.
  - destruct todo; [|done]. destruct (ca_ways s !! way) as [c|] eqn:E; [|done]. injection Hs as <-.
    apply set_ways_wf; [done|done| |].
    + eapply cell_advance; [by eapply Hc|]. cbn. by rewrite (bool_decide_true (Some way = _)).
    + rewrite Ew. cbn. naive_solver.
Qed.

Lemma cell_zero todo todo' i c loc :
  cell_ok (Clearing todo) i c → cell_ok (Clearing todo') i (zero_loc c loc).
Proof.
  intros (? & ? & Ho). unfold zero_loc. destruct (decide _); split_and!; try done.
  cbn. by rewrite length_insert.
Qed.

Lemma clear_step_wf s ev s' : cache_wf s → clear_step s ev = Some s' → cache_wf s'.
Proof.
  intros Hwf Hs. pose proof Hwf as (Hl & Hc & Hw). unfold clear_step in Hs.
  destruct ev as [n0 o0|f0 v0|f1| | |way loc| | |f2| |]; destruct (ca_writer s) as [|w0 ws0 t0|todo] eqn:Ew; try done.
  - injection Hs as <-. split_and!; [done|done|]. intros [i loc] H.
    unfold all_locs in H. apply list_elem_of_In, List.in_prod_iff in H as [_ [_ H]%List.in_seq]. cbn in *. lia.
  - destruct (decide _) as [Hin|]; [|done]. destruct (ca_ways s !! way) as [c|] eqn:E; [|done].
    injection Hs as <-. apply set_ways_wf; [done| | |by rewrite Ew].
    + intros l [_ H]%list_elem_of_filter. by apply Hw.
    + by eapply cell_zero, Hc.
  - destruct todo; [|done]. injection Hs as <-. by split_and!.
Qed.

Lemma lookup_step_frame s ev s' :
  lookup_step s ev = Some s' → ca_ways s' = ca_ways s ∧ ca_writer s' = ca_writer s ∧ ca_clock s' = ca_clock s.
Proof.
  unfold lookup_step. destruct ev, (ca_lookup s); intros H; try done;
    repeat (case_decide || (destruct (mapM _ _)) || destruct (ca_ways s !! _) || destruct (c_words _ !! _));
    simplify_option_eq; done.
Qed.

(** Who takes a step. *)
Lemma step_cases s ev s' :
  step s ev = Some s' →
  record_step s ev = Some s' ∨ clear_step s ev = Some s' ∨ lookup_step s ev = Some s' ∨
  (ev = ETick ∧ s' = mk_cache (ca_ways s) (ca_writer s) (ca_lookup s) (u64 (ca_clock s + 1))).
Proof. destruct ev; unfold step; try tauto. intros [= <-]. tauto. Qed.

Lemma step_wf s ev s' : cache_wf s → step s ev = Some s' → cache_wf s'.
Proof.
  intros Hwf [Hs|[Hs|[Hs|[_ ->]]]]%step_cases;
    [by eapply record_step_wf|by eapply clear_step_wf| |done].
  apply lookup_step_frame in Hs as (Hw & Hwr & _). unfold cache_wf. by rewrite Hw, Hwr.
Qed.

Lemma exec_wf s evs s' : cache_wf s → exec s evs = Some s' → cache_wf s'.
Proof.
  revert s. induction evs as [|ev evs IH]; intros s Hwf; cbn; [by intros [= <-]|].
  destruct (step s ev) as [s1|] eqn:E; [|done]. cbn. eauto using step_wf.
Qed.

(** ** What a step does to one entry *)

Definition clearing (w : writer) : bool := match w with Clearing _ => true | _ => false end.

Definition storing (s : cache) (i : nat) : bool := bool_decide (storing_way (ca_writer s) = Some i).

(** A recorder changes one entry: it stores into it, or advances its counter at
    the beginning or the end. *)
Lemma record_step_shape s ev s' :
  record_step s ev = Some s' →
  ∃ way d d', ca_ways s !! way = Some d ∧ ca_ways s' = <[way := d']> (ca_ways s) ∧
    clearing (ca_writer s') = false ∧ ca_lookup s' = ca_lookup s ∧
    ((storing_way (ca_writer s) = Some way ∧ storing_way (ca_writer s') = Some way ∧
      c_sequence d' = c_sequence d) ∨
     (storing_way (ca_writer s) = (if is_record ev then None else Some way) ∧
      storing_way (ca_writer s') = (if is_record ev then Some way else None) ∧
      c_sequence d' = u32 (c_sequence d + 1))).
Proof.
  intros Hs. unfold record_step in Hs.
  destruct ev as [now owner|f v|f| | |w0 l0| | |f0| |];
    destruct (ca_writer s) as [|way ws todo|todo] eqn:Ew; try done.
  - destruct (decide _); [|done]. destruct (ca_ways s !! chosen_way _ _ _) as [d|] eqn:E; [|done].
    injection Hs as <-. do 3 eexists. split; [exact E|]. split_and!; try done. by right.
  - destruct (decide _); [|done]. destruct (ca_ways s !! way) as [d|] eqn:E; [|done].
    injection Hs as <-. do 3 eexists. split; [exact E|]. split_and!; try done. by left.
  - destruct (decide _); [|done]. destruct (ca_ways s !! way) as [d|] eqn:E; [|done].
    cbn in Hs. destruct (ws !! f); [|done].
    injection Hs as <-. do 3 eexists. split; [exact E|]. split_and!; try done. by left.
  - destruct todo; [|done]. destruct (ca_ways s !! way) as [d|] eqn:E; [|done].
    injection Hs as <-. do 3 eexists. split; [exact E|]. split_and!; try done. by right.
Qed.

(** Without a publication, a step leaves the counter of an entry alone, and its
    words too unless the entry is being stored, or it advances the counter by
    one at the beginning or the end of a recording. *)
Lemma step_entry s ev s' i c :
  clearing (ca_writer s) = false → is_clear ev = false → step s ev = Some s' →
  ca_ways s !! i = Some c →
  clearing (ca_writer s') = false ∧
  ∃ c', ca_ways s' !! i = Some c' ∧
    ((c_sequence c' = c_sequence c ∧ (storing s i = false → c' = c) ∧ storing s' i = storing s i) ∨
     (c_sequence c' = u32 (c_sequence c + 1) ∧ storing s i = negb (is_record ev) ∧
      storing s' i = is_record ev)).
Proof.
  intros Hncl Hev [Hs|[Hs|[Hs|[_ ->]]]]%step_cases Hi.
  - destruct (record_step_shape _ _ _ Hs) as (way & d & d' & Hd & -> & Hcl & _ & Hcase). split; [done|].
    unfold storing. destruct (decide (way = i)) as [->|He].
    + rewrite list_lookup_insert_eq by eauto using lookup_lt_Some. simplify_eq.
      exists d'. split; [done|].
      destruct Hcase as [(-> & -> & ?)|(-> & -> & ?)]; [left|right].
      * by rewrite bool_decide_true.
      * destruct (is_record ev); (split_and!; try done); by apply bool_decide_eq_true_2.
    + rewrite list_lookup_insert_ne by done. exists c. split; [done|]. left. split_and!; try done.
      apply bool_decide_ext.
      destruct Hcase as [(-> & -> & _)|(-> & -> & _)]; [done|]. destruct (is_record ev); naive_solver.
  - unfold clear_step in Hs. by destruct ev, (ca_writer s).
  - apply lookup_step_frame in Hs as (Hw & Hwr & _). unfold storing. rewrite Hw, Hwr.
    split; [done|]. exists c. split; [done|]. by left.
  - split; [done|]. exists c. split; [done|]. by left.
Qed.

(** ** An accepted read is a read at one moment *)

Definition records (evs : list event) : Z := Z.of_nat (length (List.filter is_record evs)).

Lemma records_app evs1 evs2 : records (evs1 ++ evs2) = records evs1 + records evs2.
Proof. unfold records. rewrite List.filter_app, length_app. lia. Qed.

Lemma records_cons ev evs : records (ev :: evs) = (if is_record ev then 1 else 0) + records evs.
Proof. unfold records. cbn. destruct (is_record ev); cbn; lia. Qed.

Lemma records_nonneg evs : 0 <= records evs.
Proof. unfold records. lia. Qed.

Definition b2z (b : bool) : Z := if b then 1 else 0.

(** The entry [c] now, against [c0] when its counter was loaded: [n] advances
    later, each recording accounting for two. *)
Definition since_load (c0 c : cell) (got : list (option Z)) (busy : bool) (recorded : Z) : Prop :=
  ∃ n, c_sequence c = u32 (c_sequence c0 + n) ∧ 0 <= n ∧ n + b2z busy <= 2 * recorded ∧
    (n = 0 → c = c0 ∧ ∀ f v, got !! f = Some (Some v) → c_words c0 !! f = Some v).

(** What is known of the lookup [evs] after the start [s0]. *)
Definition lookup_inv (s0 : cache) (evs : list event) (s : cache) : Prop :=
  match ca_lookup s with
  | LSeq _ | LDone false _ => True
  | LWords way before got =>
      length got = PENDING_WORDS ∧
      ∃ evs1 evs2 s1 c0 c, evs = evs1 ++ evs2 ∧ exec s0 evs1 = Some s1 ∧
        ca_ways s1 !! way = Some c0 ∧ c_sequence c0 = before ∧ Z.odd before = false ∧ fits 32 before ∧
        ca_ways s !! way = Some c ∧ since_load c0 c got (storing s way) (records evs2)
  | LDone true now =>
      ∃ evs1 evs2 s1, evs = evs1 ++ evs2 ∧ exec s0 evs1 = Some s1 ∧
        existsb (pending_hit now wanted) (entries s1) = true
  end.

Lemma since_load_step s ev s' i c0 c got recorded :
  cache_wf s → clearing (ca_writer s) = false → is_clear ev = false → step s ev = Some s' →
  fits 32 (c_sequence c0) → Z.odd (c_sequence c0) = false →
  ca_ways s !! i = Some c → since_load c0 c got (storing s i) recorded →
  ∃ c', ca_ways s' !! i = Some c' ∧
    since_load c0 c' got (storing s' i) (recorded + b2z (is_record ev)).
Proof.
  intros Hwf Hncl Hev Hs Hf Hev0 Hi (n & Hseq & Hn & Hle & H0).
  destruct (step_entry s ev s' i c Hncl Hev Hs Hi) as (_ & c' & Hi' & Hcase). exists c'. split; [done|].
  destruct Hwf as (_ & Hc & _). destruct (Hc i c Hi) as (_ & _ & Hpar).
  destruct Hcase as [(Hq & Hsame & Hst)|(Hq & Hst & Hst')].
  - exists n. rewrite Hq, Hst. split_and!; try done.
    + unfold b2z in *. destruct (is_record ev); lia.
    + intros Hz. destruct (H0 Hz) as [-> Hg]. split; [|done]. apply Hsame.
      unfold storing. by rewrite <- Hpar.
  - exists (n + 1). split_and!; [| lia | |lia].
    + rewrite Hq, Hseq. unfold u32, wrap. rewrite Zplus_mod_idemp_l. f_equal. lia.
    + rewrite Hst'. rewrite Hst in Hle. unfold b2z in *. destruct (is_record ev); cbn in *; lia.
Qed.

Lemma got_words got ws (c0 : cell) :
  mapM id got = Some ws → length got = PENDING_WORDS → length (c_words c0) = PENDING_WORDS →
  (∀ f v, got !! f = Some (Some v) → c_words c0 !! f = Some v) → ws = c_words c0.
Proof.
  intros Hm Hl Hl0 Hg. apply mapM_Some in Hm.
  assert (length ws = PENDING_WORDS) as Hlw by (by rewrite <- (Forall2_length _ _ _ Hm)).
  apply list_eq_same_length with PENDING_WORDS; [done|done|]. intros f x y _ Hx Hy.
  destruct (Forall2_lookup_r _ _ _ _ _ Hm Hx) as (o & Ho & Hoe). cbn in Hoe. subst o.
  rewrite (Hg f x Ho) in Hy. congruence.
Qed.

Lemma unchanged_counter b n : fits 32 b → 0 <= n < 2 ^ 32 → b = u32 (b + n) → n = 0.
Proof.
  unfold fits, u32, wrap. intros Hb Hn He.
  destruct (Z.lt_ge_cases (b + n) (2 ^ 32)).
  - rewrite Z.mod_small in He; lia.
  - rewrite (Z.mod_eq (b + n) (2 ^ 32)) in He by lia.
    assert ((b + n) / 2 ^ 32 = 1) as Hd by (symmetry; apply Z.div_unique with (b + n - 2 ^ 32); lia).
    rewrite Hd in He. lia.
Qed.

Lemma entry_hit s1 way c0 now ws :
  ca_ways s1 !! way = Some c0 → Z.odd (c_sequence c0) = false → ws = c_words c0 →
  owned_port_equal (owner_of ws) wanted = true → time_before now (expires_of ws) = true →
  existsb (pending_hit now wanted) (entries s1) = true.
Proof.
  intros Hc Ho -> He Ht. apply List.existsb_exists. exists (entry_of c0). split.
  - apply list_elem_of_In, list_elem_of_fmap. exists c0. split; [done|by eapply list_elem_of_lookup_2].
  - unfold pending_hit. cbn. by rewrite Ho, He, Ht.
Qed.

Lemma next_way_not_found now now' way : next_way now way ≠ LDone true now'.
Proof. unfold next_way. by case_decide. Qed.

Lemma lookup_inv_next s0 evs s way now :
  lookup_inv s0 evs (set_lookup s (next_way now way)).
Proof. unfold lookup_inv, next_way. cbn. by case_decide. Qed.

Lemma lookup_inv_step s0 evs s ev s' :
  cache_wf s → clearing (ca_writer s) = false → exec s0 evs = Some s →
  records (evs ++ [ev]) < 2 ^ 31 →
  lookup_inv s0 evs s → lookup_step s ev = Some s' → lookup_inv s0 (evs ++ [ev]) s'.
Proof.
  intros (_ & Hc & _) Hncl Hrun Hrec Hinv Hs. unfold lookup_step in Hs. unfold lookup_inv in Hinv.
  destruct ev as [n0 o0|f0 v0|f1| | |w0 l0| | |f| |], (ca_lookup s) as [way|way before got|b t] eqn:El; try done.
  - destruct (ca_ways s !! way) as [c|] eqn:E; [|done]. injection Hs as <-.
    destruct (Z.odd (c_sequence c)) eqn:Eo; [apply lookup_inv_next|]. split; [done|].
    destruct (Hc way c E) as (Hf & _ & Hpar).
    exists evs, [ELoadSeq], s, c, c. split_and!; try done. exists 0. split_and!; try done.
    + unfold u32. by rewrite Z.add_0_r, wrap_small.
    + unfold storing. cbn [set_lookup ca_writer]. rewrite <- Hpar, Eo. done.
    + intros _. split; [done|]. intros g v Hx. by apply (lookup_replicate_1 9 None) in Hx as [? _].
  - destruct (decide _) as [Hg|]; [|done]. destruct (ca_ways s !! way) as [c|] eqn:E; [|done].
    cbn in Hs. destruct (c_words c !! f) as [v|] eqn:Ev; [|done]. injection Hs as <-.
    destruct Hinv as (Hl & evs1 & evs2 & s1 & c0 & c' & -> & Hr1 & H1 & Hb & Hev & Hfit & E' & n & Hq & Hn & Hle & H0).
    simplify_eq. split; [by rewrite length_insert|].
    exists evs1, (evs2 ++ [ELoad f]), s1, c0, c'. rewrite <- app_assoc. split_and!; try done. exists n.
    rewrite records_app. split_and!; try done.
    + change (records [ELoad f]) with 0. change (storing (set_lookup _ _) way) with (storing s way). lia.
    + intros Hz. destruct (H0 Hz) as [-> Hgot]. split; [done|].
      intros g x [(-> & [= ->] & _)|[_ Hx]]%list_lookup_insert_Some; eauto.
  - destruct (mapM id got) as [ws|] eqn:Em; [|done]. cbn in Hs.
    destruct (ca_ways s !! way) as [c|] eqn:E; [|done]. injection Hs as <-.
    destruct (_ && _) eqn:Et; [|apply lookup_inv_next].
    rewrite !andb_true_iff, Z.eqb_eq in Et. destruct Et as (((Heq & _) & Ho) & Ht).
    destruct Hinv as (Hl & evs1 & evs2 & s1 & c0 & c' & -> & Hr1 & H1 & Hb & Hev & Hfit & E' & n & Hq & Hn & Hle & H0).
    simplify_eq. rewrite !records_app in Hrec. pose proof (records_nonneg evs1).
    change (records [EDecide]) with 0 in Hrec. rewrite Heq in Hq.
    assert (n = 0) as Hz.
    { apply (unchanged_counter (c_sequence c0)); [done| |congruence]. destruct (storing s way); cbn in Hle; lia. }
    destruct (H0 Hz) as [-> Hgot]. exists evs1, (evs2 ++ [EDecide]), s1. rewrite <- app_assoc.
    split_and!; try done. eapply entry_hit; [done|done| |done|done].
    destruct (Hc way c0 E) as (_ & Hw & _). by eapply got_words.
Qed.

(** A step of the recorder or the clock. *)
Lemma lookup_inv_other s0 evs s ev s' :
  cache_wf s → clearing (ca_writer s) = false → is_clear ev = false → step s ev = Some s' →
  ca_lookup s' = ca_lookup s → lookup_inv s0 evs s → lookup_inv s0 (evs ++ [ev]) s'.
Proof.
  intros Hwf Hncl Hev Hs El Hinv. unfold lookup_inv in *. rewrite El.
  destruct (ca_lookup s) as [way|way before got|[] t]; [done| | |done].
  - destruct Hinv as (Hl & evs1 & evs2 & s1 & c0 & c & -> & Hr1 & H1 & <- & Ho & Hf & E & Hsince).
    split; [done|].
    destruct (since_load_step s ev s' way c0 c got _ Hwf Hncl Hev Hs Hf Ho E Hsince) as (c' & E' & Hsince').
    exists evs1, (evs2 ++ [ev]), s1, c0, c'. rewrite <- app_assoc, records_app. split_and!; try done.
    change (records [ev]) with (records (ev :: [])). rewrite records_cons.
    change (records []) with 0. by rewrite Z.add_0_r.
  - destruct Hinv as (evs1 & evs2 & s1 & -> & H1 & Hex).
    exists evs1, (evs2 ++ [ev]), s1. by rewrite <- app_assoc.
Qed.

Lemma exec_lookup_inv s0 evs s :
  cache_wf s0 → (∃ way, ca_lookup s0 = LSeq way) → clearing (ca_writer s0) = false →
  existsb is_clear evs = false → records evs < 2 ^ 31 → exec s0 evs = Some s →
  clearing (ca_writer s) = false ∧ lookup_inv s0 evs s.
Proof.
  intros Hwf0 [way0 Hl0] Hncl0. revert s. induction evs as [|ev evs IH] using rev_ind; intros s Hncl Hrec Hrun.
  { injection Hrun as <-. split; [done|]. unfold lookup_inv. by rewrite Hl0. }
  destruct (exec_snoc _ _ _ _ Hrun) as (s1 & Hr1 & Hs). rewrite existsb_app in Hncl.
  apply orb_false_iff in Hncl as [Hncl1 Hev]. cbn in Hev. rewrite orb_false_r in Hev.
  pose proof Hrec as Hrec'. rewrite records_app in Hrec'. pose proof (records_nonneg [ev]).
  destruct (IH s1) as [Hcl1 Hinv1]; [done|lia|done|]. pose proof (exec_wf _ _ _ Hwf0 Hr1) as Hwf1.
  pose proof (step_cases _ _ _ Hs) as [Hw|[Hw|[Hw|[-> ->]]]].
  - destruct (record_step_shape _ _ _ Hw) as (way & d & d' & _ & _ & Hcl & El & _).
    eauto using lookup_inv_other.
  - unfold clear_step in Hw. by destruct ev, (ca_writer s1).
  - pose proof (lookup_step_frame _ _ _ Hw) as (_ & -> & _). eauto using lookup_inv_step.
  - eauto using lookup_inv_other.
Qed.

(** ** The lookup ends *)

Fixpoint todo_count (got : list (option Z)) : nat :=
  match got with
  | [] => 0
  | None :: got => S (todo_count got)
  | Some _ :: got => todo_count got
  end.

(** Events the lookup still takes at most: per way the two loads of the counter
    and nine words. *)
Definition lookup_left (l : lookup_state) : nat :=
  match l with
  | LSeq way => 11 * (VPNHIDE_PENDING_PORT_WAYS - way)
  | LWords way _ got => 1 + todo_count got + 11 * (VPNHIDE_PENDING_PORT_WAYS - S way)
  | LDone _ _ => 0
  end.

Definition lookup_wf (l : lookup_state) : Prop :=
  match l with
  | LSeq way => (way < VPNHIDE_PENDING_PORT_WAYS)%nat
  | LWords way _ got => (way < VPNHIDE_PENDING_PORT_WAYS)%nat ∧ length got = PENDING_WORDS
  | LDone _ _ => True
  end.

Lemma todo_count_insert got f v :
  got !! f = Some None → (todo_count (<[f := Some v]> got) < todo_count got)%nat.
Proof.
  revert f. induction got as [|[x|] got IH]; intros [|f] H; cbn in *; try done; [by apply IH|lia|].
  apply -> Nat.succ_lt_mono. by apply IH.
Qed.

Lemma next_way_left now way :
  (way < VPNHIDE_PENDING_PORT_WAYS)%nat →
  lookup_wf (next_way now way) ∧
  (lookup_left (next_way now way) <= 11 * (VPNHIDE_PENDING_PORT_WAYS - S way))%nat.
Proof. intros H. unfold next_way. case_decide; cbn [lookup_wf lookup_left]; split; lia || done. Qed.

Lemma lookup_step_left s ev s' :
  lookup_wf (ca_lookup s) → lookup_step s ev = Some s' →
  lookup_wf (ca_lookup s') ∧ (lookup_left (ca_lookup s') < lookup_left (ca_lookup s))%nat.
Proof.
  intros Hwf Hs. unfold lookup_step in Hs.
  destruct ev as [n0 o0|f0 v0|f1| | |w0 l0| | |f| |], (ca_lookup s) as [way|way before got|b t] eqn:El; try done;
    cbn [lookup_wf] in Hwf; cbn [lookup_left].
  - destruct (ca_ways s !! way) as [c|]; [|done]. injection Hs as <-. cbn [ca_lookup set_lookup].
    destruct (Z.odd _); [destruct (next_way_left (ca_clock s) way Hwf); split; [done|lia]|].
    split; [done|]. cbn [lookup_left]. change (todo_count _) with 9%nat. lia.
  - destruct Hwf as [Hway Hl]. destruct (decide _) as [Hg|]; [|done].
    destruct (ca_ways s !! way) as [c|]; [|done].
    cbn in Hs. destruct (c_words c !! f) as [v|]; [|done]. injection Hs as <-. cbn [ca_lookup set_lookup].
    split; [split; [done|by rewrite length_insert]|]. pose proof (todo_count_insert got f v Hg).
    cbn [lookup_left]. lia.
  - destruct Hwf as [Hway Hl]. destruct (mapM id got) as [ws|]; [|done]. cbn in Hs.
    destruct (ca_ways s !! way) as [c|]; [|done]. injection Hs as <-. cbn [ca_lookup set_lookup].
    destruct (_ && _); [split; [done|cbn; lia]|].
    destruct (next_way_left (ca_clock s) way Hway). split; [done|lia].
Qed.

Lemma other_step_lookup s ev s' :
  step s ev = Some s' → is_lookup ev = false → ca_lookup s' = ca_lookup s.
Proof.
  intros [Hs|[Hs|[Hs|[_ ->]]]]%step_cases He; [| | |done].
  - by destruct (record_step_shape _ _ _ Hs) as (? & ? & ? & _ & _ & _ & -> & _).
  - unfold clear_step in Hs.
    destruct ev, (ca_writer s) as [|w0 ws0 t0|todo]; try done; [by injection Hs as <-| |by destruct todo; simplify_eq].
    destruct (decide _); [|done]. destruct (ca_ways s !! _); [|done]. by injection Hs as <-.
  - unfold lookup_step in Hs. by destruct ev.
Qed.

Lemma lookup_event_step s ev s' :
  step s ev = Some s' → is_lookup ev = true → lookup_step s ev = Some s'.
Proof. by destruct ev. Qed.

Lemma exec_left s evs s' :
  lookup_wf (ca_lookup s) → exec s evs = Some s' →
  lookup_wf (ca_lookup s') ∧
  (length (List.filter is_lookup evs) + lookup_left (ca_lookup s') <= lookup_left (ca_lookup s))%nat.
Proof.
  revert s. induction evs as [|ev evs IH]; intros s Hwf Hrun; cbn in Hrun.
  { injection Hrun as <-. cbn. auto. }
  destruct (step s ev) as [s1|] eqn:E; [|done]. cbn in Hrun. cbn [List.filter].
  destruct (is_lookup ev) eqn:Ei.
  - destruct (lookup_step_left s ev s1 Hwf (lookup_event_step _ _ _ E Ei)) as [Hwf1 Hlt].
    destruct (IH s1 Hwf1 Hrun) as [? ?]. split; [done|]. cbn [length]. lia.
  - pose proof (other_step_lookup _ _ _ E Ei) as El. rewrite <- El in Hwf |- *. by apply IH.
Qed.

(** Whatever the writers have done, a lookup that has not ended can go on. *)
Lemma lookup_enabled s :
  cache_wf s → lookup_wf (ca_lookup s) → (∀ b now, ca_lookup s ≠ LDone b now) →
  ∃ ev s', is_lookup ev = true ∧ step s ev = Some s'.
Proof.
  intros (Hl & Hc & _) Hwf Hnd. destruct (ca_lookup s) as [way|way before got|b t] eqn:El; [| |by edestruct Hnd].
  - destruct (lookup_lt_is_Some_2 (ca_ways s) way) as [c E]; [by rewrite Hl|].
    exists ELoadSeq. eexists. split; [done|]. cbn. rewrite El, E. done.
  - destruct Hwf as [Hway Hlg]. destruct (lookup_lt_is_Some_2 (ca_ways s) way) as [c E]; [by rewrite Hl|].
    destruct (mapM id got) as [ws|] eqn:Em.
    + exists EDecide. eexists. split; [done|]. cbn. rewrite El, Em. cbn. rewrite E. done.
    + apply mapM_None, Exists_exists in Em as (o & Hin & Ho). cbn in Ho. subst o.
      apply list_elem_of_lookup in Hin as [f Hf]. destruct (Hc way c E) as (_ & Hw & _).
      destruct (lookup_lt_is_Some_2 (c_words c) f) as [v Ev].
      { rewrite Hw, <- Hlg. by eapply lookup_lt_Some. }
      exists (ELoad f). eexists. split; [done|]. cbn. rewrite El, decide_True by done. rewrite E. cbn. by rewrite Ev.
Qed.

(** ** An entry that stays is found *)

(** At every moment of the run entry [i] is [c] and is a live record of
    [wanted]. *)
Definition stays (s0 : cache) (evs : list event) (i : nat) (c : cell) : Prop :=
  ∀ evs1 evs2 s1, evs = evs1 ++ evs2 → exec s0 evs1 = Some s1 →
    ca_ways s1 !! i = Some c ∧ pending_hit (ca_clock s1) wanted (entry_of c) = true.

Definition before_entry (i : nat) (c : cell) (l : lookup_state) : Prop :=
  match l with
  | LSeq way => (way <= i)%nat
  | LWords way before got =>
      (way <= i)%nat ∧ length got = PENDING_WORDS ∧
      (way = i → before = c_sequence c ∧ ∀ f v, got !! f = Some (Some v) → c_words c !! f = Some v)
  | LDone b _ => b = true
  end.

Lemma before_entry_next i c now way :
  (i < VPNHIDE_PENDING_PORT_WAYS)%nat → (way < i)%nat → before_entry i c (next_way now way).
Proof. intros Hi Hw. unfold next_way. case_decide; cbn; lia. Qed.

Lemma before_entry_step s ev s' i c :
  cache_wf s → ca_ways s !! i = Some c → pending_hit (ca_clock s) wanted (entry_of c) = true →
  before_entry i c (ca_lookup s) → lookup_step s ev = Some s' → before_entry i c (ca_lookup s').
Proof.
  intros (Hl & Hc & _) Hi Hhit Hb Hs.
  assert (i < VPNHIDE_PENDING_PORT_WAYS)%nat as Hlt by (rewrite <- Hl; by eapply lookup_lt_Some).
  unfold pending_hit in Hhit. rewrite !andb_true_iff, negb_true_iff in Hhit. cbn in Hhit.
  destruct Hhit as [[Ho He] Ht]. unfold lookup_step in Hs.
  destruct ev as [n0 o0|f0 v0|f1| | |w0 l0| | |f| |], (ca_lookup s) as [way|way before got|b t] eqn:El; try done;
    cbn [before_entry] in Hb.
  - destruct (ca_ways s !! way) as [d|] eqn:E; [|done]. injection Hs as <-. cbn [ca_lookup set_lookup].
    destruct (decide (way = i)) as [->|Hne].
    + simplify_eq. rewrite Ho. cbn [before_entry]. split_and!; [done|done|]. intros _. split; [done|].
      intros g v Hx. by apply (lookup_replicate_1 9 None) in Hx as [? _].
    + destruct (Z.odd (c_sequence d)); [apply before_entry_next; [done|lia]|]. by split_and!.
  - destruct Hb as (Hle & Hlg & Hg). destruct (decide _) as [Hn|]; [|done].
    destruct (ca_ways s !! way) as [d|] eqn:E; [|done].
    cbn in Hs. destruct (c_words d !! f) as [v|] eqn:Ev; [|done]. injection Hs as <-. cbn [ca_lookup set_lookup].
    split_and!; [done|by rewrite length_insert|]. intros ->. simplify_eq. destruct (Hg eq_refl) as [-> Hgot].
    split; [done|]. intros g x [(-> & [= ->] & _)|[_ Hx]]%list_lookup_insert_Some; eauto.
  - destruct Hb as (Hle & Hlg & Hg). destruct (mapM id got) as [ws|] eqn:Em; [|done]. cbn in Hs.
    destruct (ca_ways s !! way) as [d|] eqn:E; [|done]. injection Hs as <-. cbn [ca_lookup set_lookup].
    destruct (decide (way = i)) as [->|Hne].
    + simplify_eq. destruct (Hg eq_refl) as [-> Hgot]. destruct (Hc i c Hi) as (_ & Hw & _).
      rewrite (got_words got ws c Em Hlg Hw Hgot), Z.eqb_refl, Ho, He, Ht. done.
    + destruct (_ && _); [done|]. apply before_entry_next; [done|lia].
Qed.

Lemma exec_before_entry s0 evs s i c :
  cache_wf s0 → ca_lookup s0 = LSeq 0 → stays s0 evs i c → exec s0 evs = Some s →
  before_entry i c (ca_lookup s).
Proof.
  intros Hwf0 Hl0. revert s. induction evs as [|ev evs IH] using rev_ind; intros s Hst Hrun.
  { injection Hrun as <-. rewrite Hl0. cbn. lia. }
  destruct (exec_snoc _ _ _ _ Hrun) as (s1 & Hr1 & Hs).
  destruct (Hst evs [ev] s1 eq_refl Hr1) as [Hi Hhit].
  assert (before_entry i c (ca_lookup s1)) as Hb.
  { apply IH; [|done]. intros evs1 evs2 s2 ->. apply (Hst evs1 (evs2 ++ [ev])). by rewrite app_assoc. }
  pose proof (exec_wf _ _ _ Hwf0 Hr1) as Hwf1.
  destruct (is_lookup ev) eqn:Ei.
  - eauto using before_entry_step, lookup_event_step.
  - by rewrite (other_step_lookup _ _ _ Hs Ei).
Qed.

(** ** The locked section of the recorder is one step *)

Lemma exec_stores σ s way ws todo c :
  ca_writer s = Storing way ws todo → ca_ways s !! way = Some c →
  length ws = PENDING_WORDS → length (c_words c) = PENDING_WORDS →
  NoDup σ → (∀ f, f ∈ todo ↔ f ∈ σ) → (∀ f, f ∈ σ → (f < PENDING_WORDS)%nat) →
  ∃ c', exec s (EStore <$> σ) = Some (set_ways s (<[way := c']> (ca_ways s)) (Storing way ws [])) ∧
    c_sequence c' = c_sequence c ∧ length (c_words c') = PENDING_WORDS ∧
    (∀ f, f ∈ σ → c_words c' !! f = ws !! f) ∧ (∀ f, f ∉ σ → c_words c' !! f = c_words c !! f).
Proof.
  revert s todo c. induction σ as [|f σ IH]; intros s todo c Hw Hc Hlw Hlc Hnd Htodo Hσ.
  - exists c. assert (todo = []) as ->.
    { destruct todo as [|g todo]; [done|]. by assert (g ∈ []) as []%not_elem_of_nil by (apply Htodo; left). }
    cbn. split_and!; try done; [|by intros f ?%not_elem_of_nil]. rewrite list_insert_id by done.
    destruct s as [ways w l t]. cbn in *. by subst w.
  - apply NoDup_cons in Hnd as [Hnf Hnd]. destruct (lookup_lt_is_Some_2 ws f) as [v Hv].
    { rewrite Hlw. apply Hσ. left. }
    set (s1 := set_ways s (<[way := store c f v]> (ca_ways s)) (Storing way ws (remove Nat.eq_dec f todo))).
    destruct (IH s1 (remove Nat.eq_dec f todo) (store c f v)) as (c' & Hr & Hq & Hl' & Hin & Hout).
    + done.
    + apply list_lookup_insert_eq. by eapply lookup_lt_Some.
    + done.
    + cbn. by rewrite length_insert.
    + done.
    + intros g. rewrite list_elem_of_In. split.
      * intros [Hg Hne]%List.in_remove. apply list_elem_of_In, Htodo, elem_of_cons in Hg as [->|]; done.
      * intros Hg. apply List.in_in_remove; [by intros ->|]. apply list_elem_of_In, Htodo. by right.
    + intros g Hg. apply Hσ. by right.
    + exists c'. split_and!.
      * cbn [exec fmap list_fmap]. cbn [step record_step]. rewrite Hw, decide_True by (apply Htodo; left).
        rewrite Hc. cbn [mbind option_bind]. rewrite Hv. cbn [mbind option_bind].
        fold s1. etrans; [exact Hr|].
        unfold s1, set_ways. cbn. by rewrite list_insert_insert_eq.
      * done.
      * done.
      * intros g [->|Hg]%elem_of_cons; [|by apply Hin]. rewrite Hout by done. cbn.
        rewrite list_lookup_insert_eq; [done|]. rewrite Hlc. apply Hσ. left.
      * intros g [Hne Hg]%not_elem_of_cons. rewrite Hout by done. cbn. by apply list_lookup_insert_ne.
Qed.

Lemma owner_of_words owner e :
  length (op_address owner) = 4%nat → owner_of (words_of owner e) = owner ∧ expires_of (words_of owner e) = e.
Proof.
  destruct owner as [u p pr f [|a0 [|a1 [|a2 [|a3 [|]]]]]]; try done.
Qed.

End cache.

Section properties.
Context (HZ : Z) (set : nat) (wanted : vpnhide_owned_port).

(** The section a recorder runs under the lock, with its stores in any order, is
    the one step [pending_record] of the sequential model. *)
Theorem recording_is_atomic t s now owner σ :
  cache_wf s → ca_writer s = Free → pending_set t owner = set → length (op_address owner) = 4%nat →
  σ ≡ₚ List.seq 0 PENDING_WORDS → t !! set = Some (entries s) →
  ∃ s', exec HZ set wanted s (ERecord now owner :: (EStore <$> σ) ++ [ERecorded]) = Some s' ∧
    ca_writer s' = Free ∧ ca_lookup s' = ca_lookup s ∧
    (pending_record HZ t now owner).1 !! set = Some (entries s').
Proof.
  intros Hwf Hfree Hset Ha Hσ Ht. pose proof Hwf as (Hl & Hc & _).
  set (e := u64 (now + VPNHIDE_PENDING_PORT_TTL HZ)).
  set (way := chosen_way (ca_ways s) now owner).
  assert (way < length (ca_ways s))%nat as Hway.
  { pose proof (select_way_bound now owner (entry_of <$> ca_ways s) 0 0
      (pd_expires (default zero_pending ((entry_of <$> ca_ways s) !! 0%nat)))) as Hb.
    rewrite length_fmap in Hb. unfold way, chosen_way. rewrite Hl in *. unfold VPNHIDE_PENDING_PORT_WAYS in *. lia. }
  destruct (lookup_lt_is_Some_2 _ _ Hway) as [c Ec]. destruct (Hc way c Ec) as (_ & Hlc & _).
  set (s1 := set_ways s (<[way := advance c]> (ca_ways s)) (Storing way (words_of owner e) (List.seq 0 PENDING_WORDS))).
  destruct (exec_stores HZ set wanted σ s1 way (words_of owner e) (List.seq 0 PENDING_WORDS) (advance c))
    as (c' & Hr & Hq & Hl' & Hin & _).
  - done.
  - by apply list_lookup_insert_eq.
  - by apply words_of_length.
  - done.
  - rewrite Hσ. apply NoDup_ListNoDup, List.seq_NoDup.
  - intros f. by rewrite Hσ.
  - intros f. rewrite Hσ, list_elem_of_In. intros Hf%List.in_seq. lia.
  - assert (c_words c' = words_of owner e) as Hws.
    { apply list_eq. intros f. destruct (decide (f < PENDING_WORDS)%nat) as [Hf|Hf].
      - apply Hin. rewrite Hσ, list_elem_of_In. apply List.in_seq. lia.
      - rewrite !lookup_ge_None_2; [done|rewrite words_of_length; [lia|done]|lia]. }
    eexists. split_and!.
    + cbn [exec step record_step]. rewrite Hfree, decide_True by done. fold way. rewrite Ec.
      cbn [mbind option_bind]. fold e. fold s1. rewrite exec_app, Hr. cbn [mbind option_bind exec step record_step set_ways ca_writer ca_ways].
      rewrite list_lookup_insert_eq by (unfold s1; cbn; by rewrite length_insert).
      cbn [mbind option_bind]. reflexivity.
    + done.
    + done.
    + unfold pending_record. rewrite Hset, Ht. cbn [default fst].
      rewrite list_lookup_insert_eq by eauto using lookup_lt_Some. f_equal.
      unfold entries, s1. cbn [set_ways ca_ways]. rewrite !list_insert_insert_eq, list_fmap_insert.
      change (select_way now owner _ 0 0 _) with way. f_equal.
      change (id (entry_of <$> ca_ways s)) with (entry_of <$> ca_ways s). rewrite list_lookup_fmap, Ec. cbn [fmap option_fmap option_map default].
      unfold entry_of. cbn [c_words c_sequence advance]. rewrite Hws, Hq. cbn [c_sequence advance].
      by destruct (owner_of_words owner e Ha) as [-> ->].
Qed.

(** C11: a lookup of the pending-port cache takes no lock, yet a positive answer
    is never put together from different recordings: however the stores of
    recorders are interleaved and reordered with its loads, there is a moment
    during the lookup at which a lookup of the whole set in one step would have
    answered the same.  The counter distinguishes fewer than [2^31] recordings
    within one lookup, and no policy may be published meanwhile. *)
Theorem pending_lookup_atomic s0 evs s now :
  cache_wf s0 → ca_lookup s0 = LSeq 0 → clearing (ca_writer s0) = false →
  exec HZ set wanted s0 evs = Some s → existsb is_clear evs = false → records evs < 2 ^ 31 →
  ca_lookup s = LDone true now →
  ∃ evs1 evs2 s1, evs = evs1 ++ evs2 ∧ exec HZ set wanted s0 evs1 = Some s1 ∧
    existsb (pending_hit now wanted) (entries s1) = true.
Proof.
  intros Hwf Hl Hcl Hrun Hnc Hrec Hd.
  destruct (exec_lookup_inv HZ set wanted s0 evs s) as [_ Hinv]; eauto.
  unfold lookup_inv in Hinv. by rewrite Hd in Hinv.
Qed.

(** The lookup is wait-free: it takes at most 44 steps of its own whatever
    the recorders and publications do in between, and none of them can block
    it before it has answered. *)
Theorem pending_lookup_wait_free s0 evs s :
  cache_wf s0 → ca_lookup s0 = LSeq 0 → exec HZ set wanted s0 evs = Some s →
  (length (List.filter is_lookup evs) <= 44)%nat ∧
  ((∃ b now, ca_lookup s = LDone b now) ∨
   ∃ ev s', is_lookup ev = true ∧ step HZ set wanted s ev = Some s').
Proof.
  intros Hwf Hl Hrun. destruct (exec_left HZ set wanted s0 evs s) as [Hlw Hle]; [rewrite Hl; apply Nat.lt_0_succ|done|].
  split; [rewrite Hl in Hle; cbn in Hle; lia|].
  destruct (ca_lookup s) as [way|way before got|b now] eqn:E; [right|right|left; eauto];
    (apply lookup_enabled; [by eapply exec_wf|by rewrite E|by rewrite E]).
Qed.

(** A record that is live and not rewritten while a lookup runs is found. *)
Theorem pending_lookup_finds s0 evs s i c b now :
  cache_wf s0 → ca_lookup s0 = LSeq 0 → stays HZ set wanted s0 evs i c →
  exec HZ set wanted s0 evs = Some s → ca_lookup s = LDone b now → b = true.
Proof.
  intros Hwf Hl Hst Hrun Hd. pose proof (exec_before_entry HZ set wanted s0 evs s i c Hwf Hl Hst Hrun) as Hb.
  by rewrite Hd in Hb.
Qed.

End properties.

(** ** Executions *)

(** Two applications, two ports of the same set, and the endpoint of the first
    application at the port of the second. *)
Definition loopback : list Z := [0x0100007f; 0; 0; 0].
Definition recorded_x : vpnhide_owned_port := mk_owned_port 10101 5034 VH_PROTO_TCP AF_INET loopback.
Definition recorded_y : vpnhide_owned_port := mk_owned_port 10294 8080 VH_PROTO_TCP AF_INET loopback.
Definition never_recorded : vpnhide_owned_port := mk_owned_port 10101 8080 VH_PROTO_TCP AF_INET loopback.

Definition recording (now : Z) (owner : vpnhide_owned_port) : list event :=
  ERecord now owner :: (EStore <$> [8; 7; 6; 5; 4; 3; 2; 1; 0]%nat) ++ [ERecorded].
Definition lookup_way : list event := ELoadSeq :: (ELoad <$> List.seq 0 PENDING_WORDS) ++ [EDecide].

(** The first application's port is recorded and a lookup of it is interrupted
    by a second recording. *)
Definition interrupted_lookup : list event :=
  [ELoadSeq; ELoad 0] ++ recording 1001 recorded_y ++ [ELoad 3; ELoad 1; ELoad 2] ++
  (ELoad <$> [8; 7; 6; 5; 4]%nat) ++ [EDecide].

Lemma pending_lookup_atomic_witness :
  ∃ s0 s, exec 250 4 recorded_x (initial_cache 1000) (recording 1000 recorded_x) = Some s0 ∧
    exec 250 4 recorded_x s0 interrupted_lookup = Some s ∧ ca_lookup s = LDone true 1000 ∧
    ∃ evs1 evs2 s1, interrupted_lookup = evs1 ++ evs2 ∧ exec 250 4 recorded_x s0 evs1 = Some s1 ∧
      existsb (pending_hit 1000 recorded_x) (entries s1) = true.
Proof.
  do 2 eexists. split; [vm_compute; reflexivity|]. split; [vm_compute; reflexivity|]. split; [reflexivity|].
  eapply (pending_lookup_atomic 250 4 recorded_x).
  - apply (exec_wf 250 4 recorded_x (initial_cache 1000) (recording 1000 recorded_x));
      [apply initial_cache_wf|vm_compute; reflexivity].
  - reflexivity.
  - reflexivity.
  - vm_compute. reflexivity.
  - vm_compute. reflexivity.
  - vm_compute. reflexivity.
  - reflexivity.
Defined.

Lemma pending_lookup_wait_free_witness :
  ∃ s, exec 250 4 recorded_x (initial_cache 1000) (EClear :: EZero 0 9 :: lookup_way) = Some s ∧
    (length (List.filter is_lookup (EClear :: EZero 0 9 :: lookup_way)) <= 44)%nat ∧
    ((∃ b now, ca_lookup s = LDone b now) ∨
     ∃ ev s', is_lookup ev = true ∧ step 250 4 recorded_x s ev = Some s').
Proof.
  eexists. split; [vm_compute; reflexivity|].
  apply (pending_lookup_wait_free 250 4 recorded_x (initial_cache 1000) (EClear :: EZero 0 9 :: lookup_way)).
  - apply initial_cache_wf.
  - reflexivity.
  - vm_compute. reflexivity.
Defined.

(** A publication during the lookup: it resets the counter, which a second
    recording then brings back to the value the lookup has loaded. *)
Definition torn_lookup : list event :=
  recording 1000 recorded_x ++ [ELoadSeq; ELoad 0] ++
  [EClear] ++ ((λ l, EZero l.1 l.2) <$> all_locs) ++ [ECleared] ++
  recording 1000 recorded_y ++ (ELoad <$> List.seq 1 8) ++ [EDecide].

(** Some prefix of [evs] leads to a state with a record that answers. *)
Definition hit_in_run (HZ : Z) (set : nat) (wanted : vpnhide_owned_port) (now : Z) (s0 : cache)
    (evs : list event) : bool :=
  existsb (λ n, match exec HZ set wanted s0 (take n evs) with
                | Some s1 => existsb (pending_hit now wanted) (entries s1)
                | None => false
                end) (List.seq 0 (S (length evs))).

(** C40: publishing a policy zeroes the table, the counters included and without
    making them odd first, so a lookup that spans a publication can accept a
    mixture: the application 10101 is found to own the port 8080 of another
    application although at no moment any entry recorded that. *)
Theorem publication_tears_lookup :
  ∃ evs s, exec 250 4 never_recorded (initial_cache 1000) evs = Some s ∧
    ca_lookup s = LDone true 1000 ∧
    ∀ evs1 evs2 s1, evs = evs1 ++ evs2 → exec 250 4 never_recorded (initial_cache 1000) evs1 = Some s1 →
      existsb (pending_hit 1000 never_recorded) (entries s1) = false.
Proof.
  exists torn_lookup. eexists. split; [vm_compute; reflexivity|]. split; [reflexivity|].
  assert (hit_in_run 250 4 never_recorded 1000 (initial_cache 1000) torn_lookup = false) as Hnone
    by (vm_compute; reflexivity).
  intros evs1 evs2 s1 Heq Hrun. destruct (existsb (pending_hit _ _) _) eqn:E; [|done].
  enough (hit_in_run 250 4 never_recorded 1000 (initial_cache 1000) torn_lookup = true) by congruence.
  apply List.existsb_exists. exists (length evs1). rewrite Heq. split.
  - apply List.in_seq. rewrite length_app. lia.
  - rewrite take_app_length, Hrun. done.
Qed.
