(* ===== verification/Stats.v ===== *)
(** * Intercept statistics of the kernel module

    The per-UID counters of [kmod/main.c] (a table sorted by UID that
    [kmod_stats_reconcile] rebuilds for every policy) and the read and clear
    ioctls on it.  A table and its element count are a list; the lock of each
    critical section makes it one step, and an ioctl that takes the lock twice
    is given the state it sees each time. *)
From S2P Require Import Prelude Abi Snapshot PolicyQuery Userspace.
From Stdlib Require Import Strings.Byte.

#[local] Open Scope Z_scope.

(** ** Data *)

(** The counters of [struct kmod_uid_stats_total], in the order of its fields. *)
Inductive stats_counter :=
  | ioctl_count | netlink_count | proc_count | sockopt_count | connect_count
  | getname_count | port_count | java_pm_count | java_um_count | java_nc_count
  | java_ni_count | java_net_count | java_lp_count | java_cs_count.

Definition counter_index (c : stats_counter) : nat :=
  match c with
  | ioctl_count => 0 | netlink_count => 1 | proc_count => 2 | sockopt_count => 3
  | connect_count => 4 | getname_count => 5 | port_count => 6 | java_pm_count => 7
  | java_um_count => 8 | java_nc_count => 9 | java_ni_count => 10 | java_net_count => 11
  | java_lp_count => 12 | java_cs_count => 13
  end.

Record kmod_uid_stats_total := mk_uid_stats {
  st_uid : Z;
  st_counters : list Z
}.

Definition zero_stats (uid : Z) : kmod_uid_stats_total := mk_uid_stats uid (replicate 14 0).

Definition counter (c : stats_counter) (e : kmod_uid_stats_total) : Z :=
  default 0 (st_counters e !! counter_index c).

(** [entry->counter += n] *)
Definition bump (c : option stats_counter) (n : Z) (e : kmod_uid_stats_total) : kmod_uid_stats_total :=
  match c with
  | None => e
  | Some c => mk_uid_stats (st_uid e) (alter (λ x, u64 (x + n)) (counter_index c) (st_counters e))
  end.

Record stats_state := mk_stats {
  kmod_stats : list kmod_uid_stats_total;
  kmod_stats_capacity : Z;
  kmod_stats_sequence : Z
}.

Definition VPNHIDE_UID_STATS_CAPACITY : Z := 4096.

(** ** Recording *)

(** The [type] argument of [record_kmod_intercept]. *)
Definition intercept_counter (type : Z) : option stats_counter :=
  match type with
  | 0 => Some ioctl_count | 1 => Some netlink_count | 2 => Some proc_count
  | 3 => Some sockopt_count | 4 => Some connect_count | 5 => Some getname_count
  | 6 => Some port_count | _ => None
  end.

(** [memmove] one place up from [lo], then the zeroed entry of [uid]. *)
Definition insert_at (lo : Z) (e : kmod_uid_stats_total) (t : list kmod_uid_stats_total)
    : list kmod_uid_stats_total :=
  take (Z.to_nat lo) t ++ e :: drop (Z.to_nat lo) t.

(** Find [uid] or insert it where the search ended, then add [n] to [c]. *)
Definition stats_add (st : stats_state) (may_insert : bool) (uid : Z) (c : option stats_counter)
    (n : Z) : stats_state :=
  match bsearch st_uid (kmod_stats st) uid with
  | BsFound i =>
      mk_stats (alter (bump c n) (Z.to_nat i) (kmod_stats st)) (kmod_stats_capacity st)
        (kmod_stats_sequence st)
  | BsMissing lo =>
      if negb may_insert || (kmod_stats_capacity st <=? Z.of_nat (length (kmod_stats st))) then st
      else mk_stats (insert_at lo (bump c n (zero_stats uid)) (kmod_stats st))
             (kmod_stats_capacity st) (kmod_stats_sequence st)
  | BsFault => st
  end.

Definition core_uid (uid : Z) : bool :=
  (uid =? 0) || (uid =? 1000) || (uid mod 100000 <? 10000).

Definition record_kmod_intercept (st : stats_state) (uid type : Z) : stats_state :=
  if core_uid uid then st else stats_add st true uid (intercept_counter type) 1.

Definition java_counter (hook : bytes) : option stats_counter :=
  if strcmp_eq hook (lit "PackageManager") then Some java_pm_count
  else if strcmp_eq hook (lit "UserManager") then Some java_um_count
  else if strcmp_eq hook (lit "NetworkCapabilities") then Some java_nc_count
  else if strcmp_eq hook (lit "NetworkInfo") then Some java_ni_count
  else if strcmp_eq hook (lit "Network") then Some java_net_count
  else if strcmp_eq hook (lit "LinkProperties") then Some java_lp_count
  else if strcmp_eq hook (lit "ConnectivityService") then Some java_cs_count
  else None.

Definition vpnhide_kmod_record_java_stat (st : stats_state) (uid : Z) (hook : bytes) (count : Z)
    : stats_state :=
  stats_add st (negb (core_uid uid)) uid (java_counter hook) count.

(** ** Reconciling with a policy *)

Definition policy_has_inverted_stats_layer (s : vpnhide_policy_snapshot) : bool :=
  (kmod_match_mode s =? VPNHIDE_MATCH_EXCLUDE) || (lsposed_match_mode s =? VPNHIDE_MATCH_EXCLUDE) ||
  (port_match_mode s =? VPNHIDE_MATCH_EXCLUDE).

Definition policy_uid_has_stats (s : vpnhide_policy_snapshot) (uid : Z) : bool :=
  if vpnhide_uid_matches_mode (kmod_uids s) (kmod_match_mode s) uid ||
     vpnhide_uid_matches_mode (lsposed_uids s) (lsposed_match_mode s) uid
  then true
  else match bs_find pt_uid (port_targets s) uid with
       | Some t => negb (pt_mode t =? VH_PORT_POLICY_UNRESTRICTED)
       | None => (port_match_mode s =? VPNHIDE_MATCH_EXCLUDE) &&
                 vpnhide_uid_matches_mode [] VPNHIDE_MATCH_EXCLUDE uid
       end.

Fixpoint skip_while {A} (f : A → bool) (xs : list A) : list A :=
  match xs with
  | x :: rest => if f x then skip_while f rest else xs
  | [] => []
  end.

Definition unrestricted (t : vpnhide_port_target_v3) : bool := pt_mode t =? VH_PORT_POLICY_UNRESTRICTED.

(** The smaller of the candidate so far and the head of the next list. *)
Definition pick_next (have : option Z) (head : option Z) : option Z :=
  match have, head with
  | Some next, Some u => if u <? next then Some u else Some next
  | None, Some u => Some u
  | _, None => have
  end.

(** The three-way merge of the policy's UIDs, at most [capacity] of them; the
    lists are what remains past the indices [ki], [li] and [pi]. *)
Fixpoint merge_policy_uids (capacity : nat) (kmod lsposed : list Z)
    (ports : list vpnhide_port_target_v3) : list Z :=
  match capacity with
  | O => []
  | S capacity =>
      let ports := skip_while unrestricted ports in
      match pick_next (pick_next (head kmod) (head lsposed)) (pt_uid <$> head ports) with
      | None => []
      | Some next =>
          next :: merge_policy_uids capacity (skip_while (λ u, u =? next) kmod)
                    (skip_while (λ u, u =? next) lsposed)
                    (skip_while (λ t, pt_uid t =? next) ports)
      end
  end.

(** Carry over the counters of the UIDs that stay. *)
Fixpoint carry_stats (uids : list Z) (old : list kmod_uid_stats_total) : list kmod_uid_stats_total :=
  match uids with
  | [] => []
  | u :: uids =>
      let old := skip_while (λ e, st_uid e <? u) old in
      match old with
      | e :: rest => if st_uid e =? u then e :: carry_stats uids rest
                     else zero_stats u :: carry_stats uids old
      | [] => zero_stats u :: carry_stats uids []
      end
  end.

Definition stats_capacity_for (s : vpnhide_policy_snapshot) : Z :=
  let requested := Z.of_nat (length (kmod_uids s)) + Z.of_nat (length (lsposed_uids s)) +
                   Z.of_nat (length (port_targets s)) in
  if policy_has_inverted_stats_layer s || (VPNHIDE_UID_STATS_CAPACITY <? requested)
  then VPNHIDE_UID_STATS_CAPACITY else requested.

Definition kmod_stats_reconcile (alloc : bool) (s : vpnhide_policy_snapshot) (st : stats_state)
    : result stats_state :=
  let capacity := stats_capacity_for s in
  if nonzero capacity && negb alloc then Err ENOMEM
  else
    let replacement :=
      if policy_has_inverted_stats_layer s
      then take (Z.to_nat capacity)
             (List.filter (λ e, policy_uid_has_stats s (st_uid e)) (kmod_stats st))
      else carry_stats (merge_policy_uids (Z.to_nat capacity) (kmod_uids s) (lsposed_uids s)
                          (port_targets s)) (kmod_stats st) in
    Ok (mk_stats replacement capacity (kmod_stats_sequence st)).

(** ** Reading and clearing *)

(** What an ioctl copies to the entries array: values, or the contents of an
    allocation that was never written. *)
Inductive copied_entries :=
  | Values (entries : list kmod_uid_stats_total)
  | Uninitialised (allocated copied : Z).

Record stats_reply := mk_reply {
  rp_error : option errno;
  rp_sequence : Z;
  rp_count : Z;
  rp_entries : copied_entries
}.

(** [VH_GET_STATS]: [first] is the table at the first lock, [st] at the
    second. *)
Definition vh_get_stats (request_capacity entries_ptr : Z) (alloc : bool)
    (first : list kmod_uid_stats_total) (st : stats_state) : result (stats_reply * stats_state) :=
  if nonzero request_capacity && (entries_ptr =? 0) then Err EINVAL
  else
    let allocated := Z.min request_capacity (Z.of_nat (length first)) in
    if nonzero allocated && negb alloc then Err ENOMEM
    else
      let count := Z.of_nat (length (kmod_stats st)) in
      let sequence := u64 (kmod_stats_sequence st + 1) in
      let st' := mk_stats (kmod_stats st) (kmod_stats_capacity st) sequence in
      let out := if allocated =? 0 then Values []
                 else if (count <=? request_capacity) && (count <=? allocated)
                      then Values (kmod_stats st) else Uninitialised allocated count in
      Ok (if request_capacity <? count
          then mk_reply (Some ENOSPC) sequence count (Values [])
          else mk_reply None sequence count out, st').

(** The UID part of [VH_GET_STATS_V2]. *)
Definition vh_get_stats_v2 (uid_capacity uid_entries_ptr : Z) (alloc : bool)
    (first : list kmod_uid_stats_total) (st : stats_state) : result (stats_reply * stats_state) :=
  if nonzero uid_capacity && (uid_entries_ptr =? 0) then Err EINVAL
  else
    let count0 := Z.of_nat (length first) in
    let want := (count0 <=? uid_capacity) && nonzero count0 in
    if want && negb alloc then Err ENOMEM
    else
      let allocated := if want then count0 else 0 in
      let count := Z.of_nat (length (kmod_stats st)) in
      let sequence := u64 (kmod_stats_sequence st + 1) in
      let st' := mk_stats (kmod_stats st) (kmod_stats_capacity st) sequence in
      let out := if negb want then Values []
                 else if (count <=? uid_capacity) && (count <=? allocated)
                      then Values (kmod_stats st) else Uninitialised allocated count in
      Ok (if (uid_capacity <? count) || (allocated <? count)
          then mk_reply (Some ENOSPC) sequence count (Values [])
          else mk_reply None sequence count out, st').

(** [VH_CLEAR_STATS] on the UID table. *)
Definition vh_clear_stats (alloc : bool) (st : stats_state) : result stats_state :=
  if negb alloc then Err ENOMEM
  else Ok (mk_stats ((λ e, zero_stats (st_uid e)) <$> kmod_stats st) (kmod_stats_capacity st) 0).

(** ** The invariant *)

Definition stats_entry_ok (e : kmod_uid_stats_total) : Prop :=
  fits 32 (st_uid e) ∧ length (st_counters e) = 14%nat ∧ Forall (fits 64) (st_counters e).

Record stats_wf (st : stats_state) : Prop := {
  sw_sorted : strictly_sorted st_uid (kmod_stats st);
  sw_entries : Forall stats_entry_ok (kmod_stats st);
  sw_length : Z.of_nat (length (kmod_stats st)) <= kmod_stats_capacity st;
  sw_capacity : kmod_stats_capacity st <= VPNHIDE_UID_STATS_CAPACITY
}.

Lemma st_uid_bump c n e : st_uid (bump c n e) = st_uid e.
Proof. by destruct c. Qed.

Lemma bump_ok c n e : stats_entry_ok e → stats_entry_ok (bump c n e).
Proof.
  intros (Hu & Hl & Hf). destruct c as [c|]; [|done].
  unfold stats_entry_ok, bump; cbn [st_uid st_counters]. split_and!; [done|by rewrite length_alter|].
  apply Forall_alter; [done|]. intros x _ _. by apply wrap_fits.
Qed.

Lemma zero_stats_ok uid : fits 32 uid → stats_entry_ok (zero_stats uid).
Proof. intros. split_and!; [done..|]. by apply Forall_replicate. Qed.

Lemma strictly_sorted_alter (f : kmod_uid_stats_total → kmod_uid_stats_total) i t :
  (∀ e, st_uid (f e) = st_uid e) → strictly_sorted st_uid t → strictly_sorted st_uid (alter f i t).
Proof.
  intros Hf Hs. revert i. induction Hs as [|e t Hs IH Hall]; intros [|i]; [constructor..| |].
  - constructor; [done|]. eapply Forall_impl; [exact Hall|]. intros x ?. by rewrite Hf.
  - constructor; [by apply IH|]. simpl. apply Forall_alter; [done|]. intros x Hx ?.
    by rewrite Hf.
Qed.

Lemma strictly_sorted_app_iff {A} (key : A → Z) xs ys :
  strictly_sorted key (xs ++ ys) ↔
  strictly_sorted key xs ∧ strictly_sorted key ys ∧ (∀ x y, x ∈ xs → y ∈ ys → key x < key y).
Proof.
  unfold strictly_sorted. rewrite StronglySorted_app. tauto.
Qed.

(** Inserting where the search ended keeps the order. *)
Lemma strictly_sorted_insert_at lo e t :
  strictly_sorted st_uid t → bs_spec st_uid t (st_uid e) (BsMissing lo) →
  strictly_sorted st_uid (insert_at lo e t).
Proof.
  intros Hs (Hlo & Hlt & Hgt). unfold insert_at.
  rewrite <- (take_drop (Z.to_nat lo) t) in Hs. apply strictly_sorted_app_iff in Hs as (H1 & H2 & H12).
  assert (∀ x, x ∈ take (Z.to_nat lo) t → st_uid x < st_uid e) as Hbefore.
  { intros x [i Hi]%list_elem_of_lookup. apply lookup_take_Some in Hi as [Hi Hlt'].
    apply (Hlt i x Hi). lia. }
  assert (∀ x, x ∈ drop (Z.to_nat lo) t → st_uid e < st_uid x) as Hafter.
  { intros x [i Hi]%list_elem_of_lookup. rewrite lookup_drop in Hi.
    apply (Hgt _ x Hi). lia. }
  apply strictly_sorted_app_iff. split_and!; [done| |].
  - constructor; [done|]. apply Forall_forall. auto.
  - intros x y Hx [->|Hy]%elem_of_cons; auto.
Qed.

Lemma elem_of_insert_at lo e t x : x ∈ insert_at lo e t ↔ x = e ∨ x ∈ t.
Proof.
  unfold insert_at. rewrite elem_of_app, elem_of_cons.
  rewrite <- (take_drop (Z.to_nat lo) t) at 3. rewrite elem_of_app. tauto.
Qed.

(** ** Effect of an addition *)

(** The entry of a UID. *)
Definition stats_of (st : stats_state) (uid : Z) : option kmod_uid_stats_total :=
  bs_find st_uid (kmod_stats st) uid.

Section add.
Context (st : stats_state) (Hwf : stats_wf st).

Lemma stats_length_small : Z.of_nat (length (kmod_stats st)) < 2 ^ 31.
Proof.
  pose proof (sw_length st Hwf). pose proof (sw_capacity st Hwf).
  unfold VPNHIDE_UID_STATS_CAPACITY in *. lia.
Qed.

(** The search of the table, as cases. *)
Lemma stats_search uid :
  (∃ i e, bsearch st_uid (kmod_stats st) uid = BsFound i ∧ 0 <= i ∧
     kmod_stats st !! Z.to_nat i = Some e ∧ st_uid e = uid) ∨
  (∃ lo, bsearch st_uid (kmod_stats st) uid = BsMissing lo ∧
     bs_spec st_uid (kmod_stats st) uid (BsMissing lo) ∧
     ∀ e, e ∈ kmod_stats st → st_uid e ≠ uid).
Proof.
  pose proof stats_length_small as Hl.
  pose proof (bsearch_spec st_uid (kmod_stats st) uid (sw_sorted st Hwf) Hl) as Hs.
  pose proof (bsearch_no_fault st_uid (kmod_stats st) uid Hl) as Hn.
  destruct (bsearch st_uid (kmod_stats st) uid) as [i|lo|]; [left|right|done].
  - destruct Hs as (Hi & e & He & Hu). eauto 10.
  - exists lo. split_and!; try done. intros e [j Hj]%list_elem_of_lookup Hu.
    destruct Hs as (_ & Hlt & Hgt).
    destruct (Z.lt_ge_cases (Z.of_nat j) lo) as [Hc|Hc];
      [pose proof (Hlt _ _ Hj Hc)|pose proof (Hgt _ _ Hj Hc)]; lia.
Qed.

Lemma stats_add_wf may uid c n : fits 32 uid → stats_wf (stats_add st may uid c n).
Proof.
  intros Hu. destruct Hwf as [Hs He Hl Hc]. unfold stats_add.
  destruct (stats_search uid) as [(i & e & -> & Hi & Hlk & Heu)|(lo & -> & Hspec & _)].
  - split; cbn [kmod_stats kmod_stats_capacity]; try done; [| |by rewrite length_alter].
    + apply strictly_sorted_alter; [apply st_uid_bump|done].
    + apply Forall_alter; [done|]. intros x Hx _. apply bump_ok.
      by rewrite Forall_forall in He; apply He; eapply list_elem_of_lookup_2.
  - destruct (_ || _) eqn:E; [by split|]. b2p.
    split; cbn [kmod_stats kmod_stats_capacity]; try done.
    + apply strictly_sorted_insert_at; [done|]. by rewrite st_uid_bump.
    + apply Forall_forall. intros x [->|Hx]%elem_of_insert_at.
      * by apply bump_ok, zero_stats_ok.
      * rewrite Forall_forall in He. auto.
    + unfold insert_at. rewrite length_app, length_cons, length_take, length_drop. lia.
Qed.

(** Other entries are untouched. *)
Lemma stats_add_other may uid c n e :
  st_uid e ≠ uid → e ∈ kmod_stats (stats_add st may uid c n) ↔ e ∈ kmod_stats st.
Proof.
  intros Hne. unfold stats_add.
  destruct (stats_search uid) as [(i & x & -> & Hi & Hlk & Hxu)|(lo & -> & _ & _)];
    cbn [kmod_stats].
  - rewrite !list_elem_of_lookup. split; intros [j Hj].
    + destruct (decide (j = Z.to_nat i)) as [->|Hji].
      * rewrite list_lookup_alter_eq, Hlk in Hj.
        change (Some (bump c n x) = Some e) in Hj. injection Hj as <-. by rewrite st_uid_bump in Hne.
      * rewrite list_lookup_alter_ne in Hj by done. eauto.
    + exists j. rewrite list_lookup_alter_ne; [done|]. intros <-. congruence.
  - destruct (_ || _); [done|]. cbn [kmod_stats]. rewrite elem_of_insert_at. split; [|auto].
    intros [->|?]; [|done]. by rewrite st_uid_bump in Hne.
Qed.

Lemma stats_of_Some uid e : stats_of st uid = Some e ↔ e ∈ kmod_stats st ∧ st_uid e = uid.
Proof. apply bs_find_Some; [apply Hwf|apply stats_length_small]. Qed.

(** The entry itself after an addition. *)
Lemma stats_add_self may uid c n :
  fits 32 uid →
  stats_of (stats_add st may uid c n) uid =
    match stats_of st uid with
    | Some e => Some (bump c n e)
    | None => if may && (Z.of_nat (length (kmod_stats st)) <? kmod_stats_capacity st)
              then Some (bump c n (zero_stats uid)) else None
    end.
Proof.
  intros Hu. pose proof (stats_add_wf may uid c n Hu) as Hwf'.
  destruct (stats_search uid) as [(i & x & Hb & Hi & Hlk & Hxu)|(lo & Hb & Hspec & Hno)].
  - rewrite (proj2 (stats_of_Some uid x)) by (split; [by eapply list_elem_of_lookup_2|done]).
    assert (length (kmod_stats (stats_add st may uid c n)) = length (kmod_stats st)) as Hlen.
    { unfold stats_add. rewrite Hb. apply length_alter. }
    unfold stats_of. apply bs_find_Some; [apply Hwf'|rewrite Hlen; apply stats_length_small|].
    rewrite st_uid_bump. split; [|done]. unfold stats_add. rewrite Hb. cbn [kmod_stats].
    eapply list_elem_of_lookup_2 with (i := Z.to_nat i). by rewrite list_lookup_alter_eq, Hlk.
  - assert (stats_of st uid = None) as ->.
    { apply bs_find_None; [apply Hwf|apply stats_length_small|done]. }
    unfold stats_add in *. rewrite Hb in *.
    assert (negb may || (kmod_stats_capacity st <=? Z.of_nat (length (kmod_stats st))) =
      negb (may && (Z.of_nat (length (kmod_stats st)) <? kmod_stats_capacity st))) as Heq.
    { rewrite negb_andb. f_equal. by rewrite Z.leb_antisym. }
    rewrite Heq in *. destruct (may && _); cbn [negb] in *.
    + unfold stats_of. apply bs_find_Some; [apply Hwf'| |].
      * pose proof (sw_length _ Hwf'). pose proof (sw_capacity _ Hwf').
        unfold VPNHIDE_UID_STATS_CAPACITY in *. lia.
      * cbn [kmod_stats]. rewrite elem_of_insert_at, st_uid_bump. auto.
    + apply bs_find_None; [apply Hwf|apply stats_length_small|done].
Qed.
End add.

(** ** The merge *)

Section skip.
Context {A : Type} (key : A → Z).

Lemma skip_while_suffix (f : A → bool) xs :
  ∃ pre, xs = pre ++ skip_while f xs ∧ Forall (λ x, f x = true) pre.
Proof.
  induction xs as [|x xs (pre & Heq & Hpre)]; [by exists []|]. simpl.
  destruct (f x) eqn:E; [|by exists []]. exists (x :: pre). split; [|by constructor].
  simpl. by rewrite <- Heq.
Qed.

Lemma skip_while_head (f : A → bool) xs x rest : skip_while f xs = x :: rest → f x = false.
Proof.
  induction xs as [|y xs IH]; simpl; [done|]. destruct (f y) eqn:E; [apply IH|].
  by intros [= <- <-].
Qed.

Lemma skip_while_sorted (f : A → bool) xs :
  strictly_sorted key xs → strictly_sorted key (skip_while f xs).
Proof.
  destruct (skip_while_suffix f xs) as (pre & Heq & _). intros Hs. rewrite Heq in Hs.
  by apply strictly_sorted_app_iff in Hs as (_ & ? & _).
Qed.

Lemma skip_while_length (f : A → bool) xs : (length (skip_while f xs) <= length xs)%nat.
Proof. destruct (skip_while_suffix f xs) as (pre & Heq & _). rewrite Heq at 2. rewrite length_app. lia. Qed.

(** In a sorted list bounded below by [next], skipping the entries equal to
    it removes exactly those. *)
Lemma skip_eq_spec next xs :
  strictly_sorted key xs → (∀ x, x ∈ xs → next <= key x) →
  ∀ x, x ∈ skip_while (λ y, key y =? next) xs ↔ x ∈ xs ∧ key x ≠ next.
Proof.
  intros Hs Hge x. destruct (skip_while_suffix (λ y, key y =? next) xs) as (pre & Heq & Hpre).
  rewrite Forall_forall in Hpre. split.
  - intros Hx. assert (x ∈ xs) as Hin by (rewrite Heq; apply elem_of_app; by right).
    split; [done|]. intros Hk. destruct (skip_while _ xs) as [|y rest] eqn:E;
      [by apply not_elem_of_nil in Hx|].
    pose proof (skip_while_head _ _ _ _ E) as Hy. simpl in Hy. b2p.
    assert (y ∈ xs) as Hyin by (rewrite Heq; apply elem_of_app; right; left).
    pose proof (Hge y Hyin). apply elem_of_cons in Hx as [->|Hx]; [done|].
    assert (strictly_sorted key (y :: rest)) as Hs' by (rewrite <- E; by apply skip_while_sorted).
    inversion Hs' as [|?? _ Hall]; subst. rewrite Forall_forall in Hall.
    specialize (Hall x Hx). lia.
  - intros [Hx Hk]. rewrite Heq in Hx. apply elem_of_app in Hx as [Hx|]; [|done].
    specialize (Hpre x Hx). simpl in Hpre. b2p. done.
Qed.

Lemma strictly_sorted_head x xs y : strictly_sorted key (x :: xs) → y ∈ x :: xs → key x <= key y.
Proof.
  intros Hs [->|Hy]%elem_of_cons; [lia|]. inversion Hs as [|?? _ Hall]; subst.
  rewrite Forall_forall in Hall. specialize (Hall y Hy). lia.
Qed.

Lemma skip_eq_shorter x xs :
  Z.of_nat (length (skip_while (λ y, key y =? key x) (x :: xs))) < Z.of_nat (length (x :: xs)).
Proof. simpl. rewrite Z.eqb_refl. pose proof (skip_while_length (λ y, key y =? key x) xs). lia. Qed.
End skip.

Definition restricted_uid (ports : list vpnhide_port_target_v3) (u : Z) : Prop :=
  ∃ t, t ∈ ports ∧ unrestricted t = false ∧ pt_uid t = u.

(** The UIDs a policy keeps statistics for. *)
Definition policy_uid (kmod lsposed : list Z) (ports : list vpnhide_port_target_v3) (u : Z) : Prop :=
  u ∈ kmod ∨ u ∈ lsposed ∨ restricted_uid ports u.

Lemma restricted_skip ports u :
  restricted_uid (skip_while unrestricted ports) u ↔ restricted_uid ports u.
Proof.
  destruct (skip_while_suffix unrestricted ports) as (pre & Heq & Hpre).
  unfold restricted_uid. split; intros (t & Ht & Hr & Hu); exists t; (split; [|done]).
  - rewrite Heq. apply elem_of_app. by right.
  - rewrite Heq in Ht. apply elem_of_app in Ht as [Ht|]; [|done].
    rewrite Forall_forall in Hpre. by rewrite Hpre in Hr.
Qed.

Lemma pick_next_cases a b :
  match pick_next a b with
  | None => a = None ∧ b = None
  | Some n => (a = Some n ∨ b = Some n) ∧ (∀ x, a = Some x → n <= x) ∧ (∀ x, b = Some x → n <= x)
  end.
Proof.
  destruct a as [x|], b as [y|]; simpl; try done.
  - destruct (Z.ltb_spec y x); (split; [auto|]); split; intros ? [= <-]; lia.
  - split; [auto|]. split; [intros ? [= <-]; lia|done].
  - split; [auto|]. split; [done|intros ? [= <-]; lia].
Qed.

Lemma head_lower {A} (key : A → Z) xs n :
  strictly_sorted key xs → (∀ x, key <$> head xs = Some x → n <= x) → ∀ x, x ∈ xs → n <= key x.
Proof.
  destruct xs as [|y ys]; intros Hs Hn x Hx; [by apply not_elem_of_nil in Hx|].
  pose proof (strictly_sorted_head key y ys x Hs Hx). specialize (Hn (key y) eq_refl). lia.
Qed.

(** The next UID of the merge is a head and a lower bound of all three lists. *)
Lemma pick_next_spec kmod lsposed ports :
  strictly_sorted id kmod → strictly_sorted id lsposed → strictly_sorted pt_uid ports →
  match pick_next (pick_next (head kmod) (head lsposed)) (pt_uid <$> head ports) with
  | None => kmod = [] ∧ lsposed = [] ∧ ports = []
  | Some next =>
      (head kmod = Some next ∨ head lsposed = Some next ∨ pt_uid <$> head ports = Some next) ∧
      (∀ u, u ∈ kmod → next <= id u) ∧ (∀ u, u ∈ lsposed → next <= id u) ∧
      (∀ t, t ∈ ports → next <= pt_uid t)
  end.
Proof.
  intros Hk Hl Hp. pose proof (pick_next_cases (head kmod) (head lsposed)) as H1.
  pose proof (pick_next_cases (pick_next (head kmod) (head lsposed)) (pt_uid <$> head ports)) as H2.
  destruct (pick_next (pick_next _ _) _) as [n|].
  - destruct H2 as (Hin & Hle & Hlep).
    destruct (pick_next (head kmod) (head lsposed)) as [m|].
    + destruct H1 as (Hm & Hmk & Hml). specialize (Hle m eq_refl). split.
      { destruct Hin as [[= ->]|?]; tauto. }
      split_and!; apply head_lower; try done; intros x Hx; rewrite option_fmap_id in Hx;
        [specialize (Hmk x Hx)|specialize (Hml x Hx)]; lia.
    + destruct H1 as [H1k H1l]. split; [destruct Hin as [?|?]; [done|tauto]|].
      split_and!; apply head_lower; try done; intros x Hx; rewrite option_fmap_id in Hx; congruence.
  - destruct H2 as [H2 H3]. rewrite H2 in H1. destruct H1 as [H1k H1l].
    split_and!; [by destruct kmod|by destruct lsposed|by destruct ports].
Qed.

Lemma policy_uid_nil u : ¬ policy_uid [] [] [] u.
Proof.
  intros [Hu|[Hu|(t & Ht & _)]]; by apply not_elem_of_nil in Hu || by apply not_elem_of_nil in Ht.
Qed.

Lemma policy_uid_skip kmod lsposed ports u :
  policy_uid kmod lsposed (skip_while unrestricted ports) u ↔ policy_uid kmod lsposed ports u.
Proof. unfold policy_uid. by rewrite restricted_skip. Qed.

(** One round of the merge: [next] is the least UID, and what remains past the
    three indices is the rest. *)
Section round.
Context (kmod lsposed : list Z) (ports : list vpnhide_port_target_v3) (next : Z).
Context (Hk : strictly_sorted id kmod) (Hl : strictly_sorted id lsposed)
  (Hp : strictly_sorted pt_uid ports).
Context (Hgk : ∀ u, u ∈ kmod → next <= id u) (Hgl : ∀ u, u ∈ lsposed → next <= id u)
  (Hgp : ∀ t, t ∈ ports → next <= pt_uid t).

Lemma round_lower u : policy_uid kmod lsposed ports u → next <= u.
Proof. intros [Hu|[Hu|(t & Ht & _ & <-)]]; [by apply Hgk|by apply Hgl|by apply Hgp]. Qed.

Lemma round_rest u :
  policy_uid (skip_while (λ u, u =? next) kmod) (skip_while (λ u, u =? next) lsposed)
    (skip_while (λ t, pt_uid t =? next) ports) u ↔ policy_uid kmod lsposed ports u ∧ u ≠ next.
Proof.
  pose proof (skip_eq_spec id next kmod Hk Hgk u) as Hk'.
  pose proof (skip_eq_spec id next lsposed Hl Hgl u) as Hl'.
  pose proof (skip_eq_spec pt_uid next ports Hp Hgp) as Hp'.
  unfold policy_uid. rewrite Hk', Hl'.
  assert (restricted_uid (skip_while (λ t, pt_uid t =? next) ports) u ↔ restricted_uid ports u ∧ u ≠ next) as ->.
  { unfold restricted_uid. split.
    - intros (t & [Ht Hne]%Hp' & Hr & <-). eauto.
    - intros [(t & Ht & Hr & <-) Hne]. exists t. rewrite Hp'. done. }
  unfold id. tauto.
Qed.

Context (Hhead : head kmod = Some next ∨ head lsposed = Some next ∨ pt_uid <$> head ports = Some next).

Lemma round_head : (∀ t ts, ports = t :: ts → unrestricted t = false) → policy_uid kmod lsposed ports next.
Proof.
  intros Hr. destruct Hhead as [Hh|[Hh|Hh]].
  - left. destruct kmod; [done|]. injection Hh as ->. left.
  - right. left. destruct lsposed; [done|]. injection Hh as ->. left.
  - right. right. destruct ports as [|t ts]; [done|]. injection Hh as <-. exists t.
    split_and!; [left|by eapply Hr|done].
Qed.

Lemma round_shorter :
  (length (skip_while (λ u, u =? next)%Z kmod) + length (skip_while (λ u, u =? next)%Z lsposed) +
   length (skip_while (λ t, pt_uid t =? next)%Z ports) <
   length kmod + length lsposed + length ports)%nat.
Proof.
  pose proof (skip_while_length (λ u, u =? next) kmod).
  pose proof (skip_while_length (λ u, u =? next) lsposed).
  pose proof (skip_while_length (λ t, pt_uid t =? next) ports).
  destruct Hhead as [Hh|[Hh|Hh]].
  - destruct kmod as [|a ks]; [done|]. injection Hh as ->. pose proof (skip_eq_shorter id next ks) as Hsh.
    unfold id in Hsh. lia.
  - destruct lsposed as [|a ks]; [done|]. injection Hh as ->. pose proof (skip_eq_shorter id next ks) as Hsh.
    unfold id in Hsh. lia.
  - destruct ports as [|t ts]; [done|]. injection Hh as <-. pose proof (skip_eq_shorter pt_uid t ts). lia.
Qed.
End round.

Lemma merge_policy_uids_spec cap kmod lsposed ports :
  strictly_sorted id kmod → strictly_sorted id lsposed → strictly_sorted pt_uid ports →
  strictly_sorted id (merge_policy_uids cap kmod lsposed ports) ∧
  (∀ u, u ∈ merge_policy_uids cap kmod lsposed ports → policy_uid kmod lsposed ports u) ∧
  (length kmod + length lsposed + length ports <= cap →
     ∀ u, policy_uid kmod lsposed ports u → u ∈ merge_policy_uids cap kmod lsposed ports)%nat.
Proof.
  revert kmod lsposed ports. induction cap as [|cap IH]; intros kmod lsposed ports Hk Hl Hp.
  { split_and!; [constructor|intros u Hu; by apply not_elem_of_nil in Hu|].
    intros Hlen u. destruct kmod, lsposed, ports; simpl in Hlen; try lia. by intros ?%policy_uid_nil. }
  cbn [merge_policy_uids]. set (ps := skip_while unrestricted ports).
  assert (strictly_sorted pt_uid ps) as Hps by by apply skip_while_sorted.
  assert (length ps <= length ports)%nat as Hpl by apply skip_while_length.
  pose proof (λ u, policy_uid_skip kmod lsposed ports u) as Hpol. fold ps in Hpol.
  pose proof (pick_next_spec kmod lsposed ps Hk Hl Hps) as Hnext.
  destruct (pick_next _ _) as [next|].
  2:{ destruct Hnext as (-> & -> & Hnil). split_and!; [constructor|intros u Hu; by apply not_elem_of_nil in Hu|].
      intros _ u. rewrite <- Hpol, Hnil. by intros ?%policy_uid_nil. }
  destruct Hnext as (Hhead & Hgk & Hgl & Hgp).
  destruct (IH (skip_while (λ u, u =? next) kmod) (skip_while (λ u, u =? next) lsposed)
    (skip_while (λ t, pt_uid t =? next) ps)) as (IHs & IHi & IHc);
    [by apply (skip_while_sorted id)..|by apply skip_while_sorted|].
  pose proof (round_rest _ _ _ _ Hk Hl Hps Hgk Hgl Hgp) as Hrest. split_and!.
  - constructor; [done|]. apply Forall_forall. intros u [Hu Hne]%IHi%Hrest.
    pose proof (round_lower _ _ _ _ Hgk Hgl Hgp u Hu). unfold id. lia.
  - intros u. rewrite <- Hpol. intros [->|Hu]%elem_of_cons; [|by apply IHi, Hrest in Hu as [? _]].
    apply (round_head _ _ _ _ Hk Hl Hps Hgk Hgl Hgp Hhead). intros t ts. apply skip_while_head.
  - intros Hlen u. rewrite <- Hpol. intros Hu. apply elem_of_cons.
    destruct (decide (u = next)) as [->|Hne]; [by left|right]. apply IHc; [|by apply Hrest].
    pose proof (round_shorter _ _ _ _ Hk Hl Hps Hgk Hgl Hgp Hhead). lia.
Qed.

(** The entry a UID keeps: its old counters, or zeros. *)
Definition carried (old : list kmod_uid_stats_total) (u : Z) : kmod_uid_stats_total :=
  default (zero_stats u) (List.find (λ e, st_uid e =? u) old).

Lemma carried_skip u u' old :
  u <= u' → carried (skip_while (λ e, st_uid e <? u) old) u' = carried old u'.
Proof.
  intros Hu. unfold carried. f_equal. induction old as [|e old IH]; [done|]. simpl.
  destruct (Z.ltb_spec (st_uid e) u); [|done].
  destruct (Z.eqb_spec (st_uid e) u'); [lia|done].
Qed.

Lemma carried_absent u old : (∀ e, e ∈ old → st_uid e ≠ u) → carried old u = zero_stats u.
Proof.
  intros Hno. unfold carried. destruct (List.find _ old) as [e|] eqn:E; [|done].
  apply List.find_some in E as [He Hu]. b2p. apply list_elem_of_In in He. by destruct (Hno e He).
Qed.

Lemma carried_cons_ne e old u : st_uid e ≠ u → carried (e :: old) u = carried old u.
Proof. intros Hne. unfold carried. simpl. by destruct (Z.eqb_spec (st_uid e) u). Qed.

Lemma carry_stats_carried uids old :
  strictly_sorted id uids → strictly_sorted st_uid old → carry_stats uids old = carried old <$> uids.
Proof.
  intros Hu. revert old. induction Hu as [|u uids Hu IH Hgt]; intros old Ho; [done|].
  rewrite Forall_forall in Hgt. unfold id in Hgt. cbn [carry_stats fmap list_fmap].
  pose proof (skip_while_sorted st_uid (λ e, st_uid e <? u) old Ho) as Hso.
  assert (∀ old', (∀ u', u < u' → carried old' u' = carried (skip_while (λ e, st_uid e <? u) old) u') →
    (carried old' <$> uids) = (carried old <$> uids)) as Htail.
  { intros old' Heq. apply list_fmap_ext. intros i u' Hi.
    assert (u < u') by (apply Hgt; by eapply list_elem_of_lookup_2).
    rewrite Heq by done. apply carried_skip. lia. }
  pose proof (carried_skip u u old ltac:(lia)) as Hself.
  destruct (skip_while _ old) as [|x xs] eqn:E; [|destruct (Z.eqb_spec (st_uid x) u) as [Hxu|Hxu]].
  - rewrite IH by constructor. f_equal; [by rewrite <- Hself|by apply Htail].
  - inversion Hso; subst. rewrite IH by done. f_equal.
    + rewrite <- Hself. unfold carried. simpl. by rewrite Z.eqb_refl.
    + apply Htail. intros u' Hu'. symmetry. apply carried_cons_ne. lia.
  - rewrite IH by done. f_equal; [|by apply Htail]. rewrite <- Hself. symmetry. apply carried_absent.
    pose proof (skip_while_head _ _ _ _ E) as Hx. simpl in Hx. b2p.
    intros e He. pose proof (strictly_sorted_head st_uid x xs e Hso He). lia.
Qed.

Lemma st_uid_carried old u : st_uid (carried old u) = u.
Proof.
  unfold carried. destruct (List.find _ old) as [e|] eqn:E; [|done].
  apply List.find_some in E as [_ Hu]. b2p. done.
Qed.

Lemma carried_ok old u : Forall stats_entry_ok old → fits 32 u → stats_entry_ok (carried old u).
Proof.
  intros Ho Hu. unfold carried. destruct (List.find _ old) as [e|] eqn:E; [|by apply zero_stats_ok].
  apply List.find_some in E as [He _]. apply list_elem_of_In in He.
  rewrite Forall_forall in Ho. by apply Ho.
Qed.

(** ** Reconciling *)

Section reconcile.
Context (s : vpnhide_policy_snapshot) (Hs : snapshot_wf s) (st : stats_state) (Hst : stats_wf st).

Definition merged_uids : list Z :=
  merge_policy_uids (Z.to_nat (stats_capacity_for s)) (kmod_uids s) (lsposed_uids s) (port_targets s).

Lemma merged_uids_spec :
  strictly_sorted id merged_uids ∧
  (∀ u, u ∈ merged_uids → policy_uid (kmod_uids s) (lsposed_uids s) (port_targets s) u).
Proof.
  destruct (wf_kmod s Hs) as (Hk & _). destruct (wf_lsposed s Hs) as (Hl & _).
  destruct (merge_policy_uids_spec (Z.to_nat (stats_capacity_for s)) (kmod_uids s) (lsposed_uids s)
    (port_targets s) Hk Hl (wf_targets_sorted s Hs)) as (? & ? & _). done.
Qed.

Lemma policy_uid_fits u : policy_uid (kmod_uids s) (lsposed_uids s) (port_targets s) u → fits 32 u.
Proof.
  intros [Hu|[Hu|(t & Ht & _ & <-)]].
  - destruct (wf_kmod s Hs) as (_ & Hf & _). rewrite Forall_forall in Hf.
    specialize (Hf u Hu). unfold fits; lia.
  - destruct (wf_lsposed s Hs) as (_ & Hf & _). rewrite Forall_forall in Hf.
    specialize (Hf u Hu). unfold fits; lia.
  - pose proof (wf_targets s Hs) as Hf. rewrite Forall_forall in Hf.
    destruct (Hf t Ht) as (? & _). unfold fits; lia.
Qed.

Lemma merge_length cap k l p : (length (merge_policy_uids cap k l p) <= cap)%nat.
Proof.
  revert k l p. induction cap as [|cap IH]; intros; simpl; [lia|].
  destruct (pick_next _ _); simpl; [|lia]. apply le_n_S, IH.
Qed.

Lemma stats_capacity_range : 0 <= stats_capacity_for s <= VPNHIDE_UID_STATS_CAPACITY.
Proof.
  unfold stats_capacity_for, VPNHIDE_UID_STATS_CAPACITY.
  destruct (_ || _) eqn:E; [lia|]. b2p. lia.
Qed.

Lemma reconcile_include :
  policy_has_inverted_stats_layer s = false →
  kmod_stats_reconcile true s st =
    Ok (mk_stats (carried (kmod_stats st) <$> merged_uids) (stats_capacity_for s)
          (kmod_stats_sequence st)).
Proof.
  intros Hinv. unfold kmod_stats_reconcile. rewrite Hinv, andb_false_r.
  rewrite carry_stats_carried; [done|apply merged_uids_spec|apply Hst].
Qed.

Lemma strictly_sorted_filter (f : kmod_uid_stats_total → bool) t :
  strictly_sorted st_uid t → strictly_sorted st_uid (List.filter f t).
Proof.
  induction 1 as [|e t Ht IH Hall]; simpl; [constructor|]. destruct (f e); [|done].
  constructor; [done|]. rewrite Forall_forall in *. intros x Hx.
  apply Hall. apply list_elem_of_In in Hx. apply List.filter_In in Hx as [Hx _].
  by apply list_elem_of_In.
Qed.

Lemma strictly_sorted_take {A} (key : A → Z) n (t : list A) :
  strictly_sorted key t → strictly_sorted key (take n t).
Proof. intros Ht. rewrite <- (take_drop n t) in Ht. by apply strictly_sorted_app_iff in Ht as (? & _). Qed.

Lemma strictly_sorted_carried old uids :
  strictly_sorted id uids → strictly_sorted st_uid (carried old <$> uids).
Proof.
  induction 1 as [|u uids Hu IH Hall]; [constructor|]. constructor; [done|].
  apply Forall_fmap. eapply Forall_impl; [exact Hall|]. intros v. unfold compose.
  by rewrite !st_uid_carried.
Qed.

Lemma reconcile_wf alloc st' : kmod_stats_reconcile alloc s st = Ok st' → stats_wf st'.
Proof.
  intros H. pose proof stats_capacity_range as Hcap. destruct Hst as [Hso Hen Hle Hca].
  unfold kmod_stats_reconcile in H. case_result. subst st'.
  destruct (policy_has_inverted_stats_layer s); cbn [kmod_stats kmod_stats_capacity].
  - split; cbn [kmod_stats kmod_stats_capacity]; [| | |lia].
    + by apply strictly_sorted_take, strictly_sorted_filter.
    + apply Forall_take, Forall_forall. intros e He.
      apply list_elem_of_In, List.filter_In in He as [He _].
      rewrite Forall_forall in Hen. by apply Hen, list_elem_of_In.
    + rewrite length_take. lia.
  - destruct merged_uids_spec as [Hms Hmi]. rewrite carry_stats_carried by done.
    split; cbn [kmod_stats kmod_stats_capacity]; [| | |lia].
    + by apply strictly_sorted_carried.
    + apply Forall_fmap, Forall_forall. intros u Hu. apply carried_ok; [done|].
      by apply policy_uid_fits, Hmi.
    + rewrite length_fmap. unfold merged_uids.
      pose proof (merge_length (Z.to_nat (stats_capacity_for s)) (kmod_uids s) (lsposed_uids s)
        (port_targets s)). lia.
Qed.
End reconcile.

Lemma vh_clear_stats_wf alloc st st' : stats_wf st → vh_clear_stats alloc st = Ok st' → stats_wf st'.
Proof.
  intros [Hso Hen Hle Hca] H. unfold vh_clear_stats in H. case_result. subst st'.
  split; cbn [kmod_stats kmod_stats_capacity]; [| |by rewrite length_fmap|done].
  - clear -Hso. induction Hso as [|e t Ht IH Hall]; [constructor|]. constructor; [done|].
    by apply Forall_fmap.
  - apply Forall_fmap. eapply Forall_impl; [exact Hen|]. intros e [Hu _]. by apply zero_stats_ok.
Qed.

(** ** Properties *)

(** An intercept of an application UID adds one to that counter of that UID
    (a fresh entry when there is room), leaves every other entry as it was, and
    keeps the table sorted and within its capacity. *)
Theorem intercept_counted st uid type :
  stats_wf st → fits 32 uid → core_uid uid = false →
  stats_wf (record_kmod_intercept st uid type) ∧
  stats_of (record_kmod_intercept st uid type) uid =
    match stats_of st uid with
    | Some e => Some (bump (intercept_counter type) 1 e)
    | None => if Z.of_nat (length (kmod_stats st)) <? kmod_stats_capacity st
              then Some (bump (intercept_counter type) 1 (zero_stats uid)) else None
    end ∧
  ∀ e, st_uid e ≠ uid → e ∈ kmod_stats (record_kmod_intercept st uid type) ↔ e ∈ kmod_stats st.
Proof.
  intros Hwf Hu Hc. unfold record_kmod_intercept. rewrite Hc. split_and!.
  - by apply stats_add_wf.
  - by rewrite (stats_add_self st Hwf true uid _ 1 Hu).
  - intros e He. by apply stats_add_other.
Qed.

Definition example_stats : stats_state := mk_stats [zero_stats 10123; zero_stats 10200] 4 0.

Lemma example_stats_wf : stats_wf example_stats.
Proof.
  split; cbn [example_stats kmod_stats kmod_stats_capacity]; try done.
  - repeat constructor; simpl; lia.
  - repeat constructor; simpl; try lia; done.
Qed.

Lemma intercept_counted_witness :
  stats_wf (record_kmod_intercept example_stats 10123 4) ∧
  stats_of (record_kmod_intercept example_stats 10123 4) 10123 =
    Some (bump (Some connect_count) 1 (zero_stats 10123)) ∧
  ∀ e, st_uid e ≠ 10123 →
    e ∈ kmod_stats (record_kmod_intercept example_stats 10123 4) ↔ e ∈ kmod_stats example_stats.
Proof.
  apply (intercept_counted example_stats 10123 4 example_stats_wf).
  - vm_compute. split; [discriminate|reflexivity].
  - vm_compute. reflexivity.
Defined.

(** Publishing an include-mode policy rebuilds the table for exactly the
    UIDs of that policy (when at most 4096 are listed): each keeps the counters
    it had, new ones start at zero, and the result is again well-formed. *)
Theorem reconcile_keeps_counters s st :
  snapshot_wf s → stats_wf st → policy_has_inverted_stats_layer s = false →
  Z.of_nat (length (kmod_uids s)) + Z.of_nat (length (lsposed_uids s)) +
    Z.of_nat (length (port_targets s)) <= VPNHIDE_UID_STATS_CAPACITY →
  ∃ st', kmod_stats_reconcile true s st = Ok st' ∧ stats_wf st' ∧
    ∀ e, e ∈ kmod_stats st' ↔
      ∃ u, policy_uid (kmod_uids s) (lsposed_uids s) (port_targets s) u ∧ e = carried (kmod_stats st) u.
Proof.
  intros Hs Hst Hinv Hlen. pose proof (reconcile_include s Hs st Hst Hinv) as Heq.
  eexists. split; [exact Heq|]. split; [by eapply reconcile_wf|].
  destruct (wf_kmod s Hs) as (Hk & _). destruct (wf_lsposed s Hs) as (Hl & _).
  destruct (merge_policy_uids_spec (Z.to_nat (stats_capacity_for s)) (kmod_uids s) (lsposed_uids s)
    (port_targets s) Hk Hl (wf_targets_sorted s Hs)) as (_ & Hsub & Hall).
  assert (stats_capacity_for s = Z.of_nat (length (kmod_uids s)) + Z.of_nat (length (lsposed_uids s)) +
    Z.of_nat (length (port_targets s))) as Hcap.
  { unfold stats_capacity_for. rewrite Hinv. cbn [orb].
    by destruct (Z.ltb_spec VPNHIDE_UID_STATS_CAPACITY (Z.of_nat (length (kmod_uids s)) +
      Z.of_nat (length (lsposed_uids s)) + Z.of_nat (length (port_targets s)))); [lia|]. }
  intros e. cbn [kmod_stats]. rewrite list_elem_of_fmap. unfold merged_uids. split.
  - intros (u & -> & Hu). eauto.
  - intros (u & Hu & ->). exists u. split; [done|]. apply Hall; [rewrite Hcap; lia|done].
Qed.

Lemma reconcile_keeps_counters_witness :
  ∃ st', kmod_stats_reconcile true example_snapshot example_stats = Ok st' ∧ stats_wf st' ∧
    ∀ e, e ∈ kmod_stats st' ↔
      ∃ u, policy_uid (kmod_uids example_snapshot) (lsposed_uids example_snapshot)
             (port_targets example_snapshot) u ∧ e = carried (kmod_stats example_stats) u.
Proof.
  apply (reconcile_keeps_counters example_snapshot example_stats example_snapshot_wf example_stats_wf).
  - vm_compute. reflexivity.
  - vm_compute. discriminate.
Defined.

(** C39: the version 1 read takes the table's lock twice; when the table grows in
    between to at most the caller's capacity, it reports success although the
    buffer was sized for the smaller table and never filled, and copies more
    elements than were allocated. *)
Theorem get_stats_race_overreads first st capacity ptr :
  first ≠ [] → ptr ≠ 0 →
  Z.of_nat (length first) < Z.of_nat (length (kmod_stats st)) <= capacity →
  ∃ r st', vh_get_stats capacity ptr true first st = Ok (r, st') ∧ rp_error r = None ∧
    rp_entries r = Uninitialised (Z.of_nat (length first)) (Z.of_nat (length (kmod_stats st))).
Proof.
  intros Hne Hp Hl. unfold vh_get_stats.
  destruct (Z.eqb_spec ptr 0); [done|]. rewrite andb_false_r.
  assert (0 < length first)%nat by (destruct first; [done|simpl; lia]).
  rewrite (Z.min_r capacity) by lia. cbn [negb]. rewrite andb_false_r.
  eexists _, _. split; [reflexivity|].
  destruct (Z.ltb_spec capacity (Z.of_nat (length (kmod_stats st)))); [lia|]. cbn [rp_error rp_entries].
  split; [done|]. destruct (Z.eqb_spec (Z.of_nat (length first)) 0); [lia|].
  destruct (Z.leb_spec (Z.of_nat (length (kmod_stats st))) (Z.of_nat (length first))); [lia|].
  by rewrite andb_false_r.
Qed.

Lemma get_stats_race_overreads_witness :
  ∃ r st', vh_get_stats 8 4096 true [zero_stats 10123] example_stats = Ok (r, st') ∧
    rp_error r = None ∧ rp_entries r = Uninitialised 1 2.
Proof.
  apply (get_stats_race_overreads [zero_stats 10123] example_stats 8 4096);
    [discriminate|discriminate|split; [reflexivity|discriminate]].
Defined.

(** The version 2 read has the same two critical sections but is safe:
    whatever happened in between, a successful reply carries the whole table of
    the second one. *)
Theorem get_stats_v2_consistent first st capacity ptr alloc r st' :
  vh_get_stats_v2 capacity ptr alloc first st = Ok (r, st') → rp_error r = None →
  rp_entries r = Values (kmod_stats st) ∧ rp_count r = Z.of_nat (length (kmod_stats st)).
Proof.
  unfold vh_get_stats_v2. intros H He. destruct (_ && _); [done|]. destruct (_ && negb alloc); [done|].
  set (want := _ && _) in H. injection H as <- _.
  destruct (_ || _) eqn:E; [done|]. cbn [rp_entries rp_count]. apply orb_false_iff in E as [E1 E2].
  split; [|done]. destruct want; cbn [negb].
  - b2p. rewrite (proj2 (Z.leb_le _ _) E1), (proj2 (Z.leb_le _ _) E2). done.
  - b2p. assert (length (kmod_stats st) = O) as Hz by lia. by destruct (kmod_stats st).
Qed.

Lemma get_stats_v2_consistent_witness :
  ∃ r st', vh_get_stats_v2 8 4096 true (kmod_stats example_stats) example_stats = Ok (r, st') ∧
    rp_entries r = Values (kmod_stats example_stats) ∧ rp_count r = 2.
Proof.
  eexists _, _. split; [reflexivity|].
  eapply (get_stats_v2_consistent (kmod_stats example_stats) example_stats 8 4096 true); reflexivity.
Defined.
