(* ===== verification/PortStats.v ===== *)
(** * Per-port intercept statistics

    The open-addressing table of [kmod/main.c] with tombstones and expiry:
    [record_port_intercept], [count_live_port_stats_locked] and the part of
    [VH_GET_STATS_V2] and [VH_CLEAR_STATS] that reads and replaces it. *)
From S2P Require Import Prelude Abi Snapshot OwnedPorts Stats.

Definition VPNHIDE_PORT_STATS_CAPACITY : Z := 65536.
Definition VPNHIDE_PORT_STATS_MASK : Z := VPNHIDE_PORT_STATS_CAPACITY - 1.

(** [VPNHIDE_PORT_STAT_EMPTY], [_USED], [_TOMBSTONE] *)
Inductive port_stat_state := STAT_EMPTY | STAT_USED | STAT_TOMBSTONE.

#[export] Instance port_stat_state_eq_dec : EqDecision port_stat_state.
Proof. solve_decision. Defined.

Record kmod_port_stats_total := mk_port_stat {
  ps_uid : Z;
  ps_port : Z;
  ps_protocol : Z;
  ps_state : port_stat_state;
  ps_count : Z;
  ps_last_seen : Z
}.

Definition zero_port_stat : kmod_port_stats_total := mk_port_stat 0 0 0 STAT_EMPTY 0 0.

(** [kmod_port_stats] ([None]: not allocated) and the drop counter. *)
Record port_stats_state := mk_port_stats {
  pst_table : option (list kmod_port_stats_total);
  pst_dropped : Z
}.

Definition port_stats_hash (uid port protocol : Z) : Z :=
  let value := u32 (uid * 0x9e3779b1) in
  let value := Z.lxor value (u32 (port * 0x85ebca6b)) in
  let value := Z.lxor value (u32 (protocol * 0xc2b2ae35)) in
  Z.lxor value (Z.shiftr value 16).

Definition used (e : kmod_port_stats_total) : bool := bool_decide (ps_state e = STAT_USED).

Definition same_key (e : kmod_port_stats_total) (uid port protocol : Z) : bool :=
  (ps_uid e =? uid) && (ps_port e =? port) && (ps_protocol e =? protocol).

(** Where the probe loop stops: at the entry of the key, at a slot to fill, or
    nowhere. *)
Inductive probe_end :=
  | ProbeHit (index : Z)
  | ProbeFill (index : Z)
  | ProbeFull.

Fixpoint port_probe (table : list kmod_port_stats_total) (uid port protocol hash : Z)
    (n : nat) (probe first_tombstone : Z) : probe_end :=
  match n with
  | O => if first_tombstone =? VPNHIDE_PORT_STATS_CAPACITY then ProbeFull
         else ProbeFill first_tombstone
  | S n =>
      let index := Z.land (u32 (hash + probe)) VPNHIDE_PORT_STATS_MASK in
      match table !! Z.to_nat index with
      | None => ProbeFull
      | Some entry =>
          if used entry && same_key entry uid port protocol then ProbeHit index
          else
            let first_tombstone :=
              if bool_decide (ps_state entry = STAT_TOMBSTONE) &&
                 (first_tombstone =? VPNHIDE_PORT_STATS_CAPACITY)
              then index else first_tombstone in
            if bool_decide (ps_state entry = STAT_EMPTY)
            then ProbeFill (if first_tombstone =? VPNHIDE_PORT_STATS_CAPACITY then index
                            else first_tombstone)
            else port_probe table uid port protocol hash n (probe + 1) first_tombstone
      end
  end.

(** The table part of [record_port_intercept]. *)
Definition record_port (now uid port protocol : Z) (st : port_stats_state) : port_stats_state :=
  match pst_table st with
  | None => st
  | Some table =>
      if (port =? 0) || (VH_PROTO_UDP <? protocol) then st
      else
        match port_probe table uid port protocol (port_stats_hash uid port protocol)
                (Z.to_nat VPNHIDE_PORT_STATS_CAPACITY) 0 VPNHIDE_PORT_STATS_CAPACITY with
        | ProbeHit i =>
            mk_port_stats (Some (alter (λ e, mk_port_stat (ps_uid e) (ps_port e) (ps_protocol e)
              (ps_state e) (u64 (ps_count e + 1)) now) (Z.to_nat i) table)) (pst_dropped st)
        | ProbeFill i =>
            mk_port_stats (Some (<[Z.to_nat i := mk_port_stat uid port protocol STAT_USED 1 now]> table))
              (pst_dropped st)
        | ProbeFull => mk_port_stats (Some table) (u64 (pst_dropped st + 1))
        end
  end.

(** [record_port_intercept] also counts the intercept of the UID. *)
Definition record_port_intercept (now uid port protocol : Z) (st : stats_state * port_stats_state)
    : stats_state * port_stats_state :=
  (record_kmod_intercept st.1 uid 6, record_port now uid port protocol st.2).

Section ttl.
Context (HZ : Z).

Definition VPNHIDE_PORT_STATS_TTL : Z := 6 * 60 * 60 * HZ.

(** [time_after(a, b)] *)
Definition time_after (a b : Z) : bool := time_before b a.

Definition expire (now : Z) (e : kmod_port_stats_total) : kmod_port_stats_total :=
  if used e then
    if time_after now (u64 (ps_last_seen e + VPNHIDE_PORT_STATS_TTL))
    then mk_port_stat (ps_uid e) (ps_port e) (ps_protocol e) STAT_TOMBSTONE (ps_count e) (ps_last_seen e)
    else e
  else e.

Definition count_live_port_stats_locked (now : Z) (st : port_stats_state) : Z * port_stats_state :=
  match pst_table st with
  | None => (0, st)
  | Some table =>
      let table' := expire now <$> table in
      (Z.of_nat (length (List.filter used table')), mk_port_stats (Some table') (pst_dropped st))
  end.

(** The port part of [VH_GET_STATS_V2]: [first] is the state at the first
    lock, [st] at the second. *)
Record port_reply := mk_port_reply {
  pr_error : option errno;
  pr_count : Z;
  pr_dropped : Z;
  pr_entries : list (Z * Z * Z * Z)
}.

Definition port_row (e : kmod_port_stats_total) : Z * Z * Z * Z :=
  (ps_uid e, ps_port e, ps_protocol e, ps_count e).

Definition vh_get_port_stats (now port_capacity port_entries_ptr : Z) (alloc : bool)
    (first st : port_stats_state) : result (port_reply * port_stats_state) :=
  if nonzero port_capacity && (port_entries_ptr =? 0) then Err EINVAL
  else
    let '(count0, _) := count_live_port_stats_locked now first in
    let want := (count0 <=? port_capacity) && nonzero count0 in
    if want && negb alloc then Err ENOMEM
    else
      let allocated := if want then count0 else 0 in
      let '(count, st') := count_live_port_stats_locked now st in
      Ok (if (port_capacity <? count) || (allocated <? count)
          then mk_port_reply (Some ENOSPC) count (pst_dropped st) []
          else mk_port_reply None count (pst_dropped st)
                 (match pst_table st' with
                  | Some table => port_row <$> List.filter used table
                  | None => []
                  end), st').
End ttl.

(** [VH_CLEAR_STATS] on the port table. *)
Definition empty_port_table : list kmod_port_stats_total :=
  replicate (Z.to_nat VPNHIDE_PORT_STATS_CAPACITY) zero_port_stat.

Definition vh_clear_port_stats (alloc : bool) (st : port_stats_state) : result port_stats_state :=
  if negb alloc then Err ENOMEM else Ok (mk_port_stats (Some empty_port_table) 0).

(** ** The invariant *)

Definition key_slot (uid port protocol d : Z) : Z := (port_stats_hash uid port protocol + d) mod 65536.

Definition entry_slot (e : kmod_port_stats_total) (d : Z) : Z :=
  key_slot (ps_uid e) (ps_port e) (ps_protocol e) d.

Definition slot_at (table : list kmod_port_stats_total) (i : Z) : option kmod_port_stats_total :=
  table !! Z.to_nat i.

(** [i] is reached from the home slot of the key over slots that were used. *)
Definition reached (table : list kmod_port_stats_total) (slot : Z → Z) (i : Z) : Prop :=
  ∃ d, 0 <= d < 65536 ∧ i = slot d ∧
    ∀ d', 0 <= d' < d → ∃ e, slot_at table (slot d') = Some e ∧ ps_state e ≠ STAT_EMPTY.

Record port_table_wf (table : list kmod_port_stats_total) : Prop := {
  ptw_length : Z.of_nat (length table) = 65536;
  ptw_reach : ∀ i e, slot_at table i = Some e → 0 <= i → ps_state e = STAT_USED →
    reached table (entry_slot e) i;
  ptw_unique : ∀ i j e f, slot_at table i = Some e → slot_at table j = Some f → 0 <= i → 0 <= j →
    ps_state e = STAT_USED → ps_state f = STAT_USED →
    ps_uid e = ps_uid f → ps_port e = ps_port f → ps_protocol e = ps_protocol f → i = j
}.

(** The table holds [c] intercepts for a key. *)
Definition port_counts (table : list kmod_port_stats_total) (uid port protocol c : Z) : Prop :=
  ∃ i e, 0 <= i ∧ slot_at table i = Some e ∧ ps_state e = STAT_USED ∧
    same_key e uid port protocol = true ∧ ps_count e = c.

(** ** The probe loop *)

Lemma index_mod x : Z.land (u32 x) VPNHIDE_PORT_STATS_MASK = x mod 65536.
Proof.
  unfold VPNHIDE_PORT_STATS_MASK, VPNHIDE_PORT_STATS_CAPACITY, u32, wrap.
  rewrite (land_mod_pow2 _ 16) by lia. change 65536 with (2 ^ 16).
  apply Z.mod_mod_divide. exists (2 ^ 16). lia.
Qed.

Lemma key_slot_range u p pr d : 0 <= key_slot u p pr d < 65536.
Proof. apply Z.mod_pos_bound. lia. Qed.

Lemma used_spec e : used e = true ↔ ps_state e = STAT_USED.
Proof. unfold used. apply bool_decide_eq_true. Qed.

Lemma same_key_spec e u p pr :
  same_key e u p pr = true ↔ ps_uid e = u ∧ ps_port e = p ∧ ps_protocol e = pr.
Proof. unfold same_key. rewrite !andb_true_iff, !Z.eqb_eq. tauto. Qed.

Section probe.
Context (table : list kmod_port_stats_total) (Hwf : port_table_wf table).
Context (uid port protocol : Z).
Local Abbreviation slot := (key_slot uid port protocol).

Definition key_absent : Prop :=
  ∀ i e, slot_at table i = Some e → 0 <= i → used e && same_key e uid port protocol = false.

Lemma slot_some d : ∃ e, slot_at table (slot d) = Some e.
Proof.
  pose proof (key_slot_range uid port protocol d). pose proof (ptw_length _ Hwf).
  apply lookup_lt_is_Some_2. lia.
Qed.

(** Nothing of the key among the first [d] slots, none of which is empty. *)
Definition scanned (d : Z) : Prop :=
  ∀ d', 0 <= d' < d → ∃ e, slot_at table (slot d') = Some e ∧ ps_state e ≠ STAT_EMPTY ∧
    used e && same_key e uid port protocol = false.

(** The tombstone remembered so far. *)
Definition tombstone_ok (d ft : Z) : Prop :=
  (ft = VPNHIDE_PORT_STATS_CAPACITY ∧
    ∀ d', 0 <= d' < d → ∃ e, slot_at table (slot d') = Some e ∧ ps_state e ≠ STAT_TOMBSTONE) ∨
  ∃ d0, 0 <= d0 < d ∧ ft = slot d0 ∧ ∃ e, slot_at table ft = Some e ∧ ps_state e = STAT_TOMBSTONE.

Lemma scanned_absent d :
  scanned d → 0 <= d <= 65536 →
  (d = 65536 ∨ ∃ e, slot_at table (slot d) = Some e ∧ ps_state e = STAT_EMPTY) → key_absent.
Proof.
  intros Hsc Hd Hend i e Hi H0. destruct (used e && same_key e uid port protocol) eqn:E; [|done].
  exfalso. apply andb_true_iff in E as [Hu Hk]. pose proof Hu as Hu'. pose proof Hk as Hk'.
  apply used_spec in Hu. apply same_key_spec in Hk as (Hu1 & Hp1 & Hpr1).
  destruct (ptw_reach _ Hwf i e Hi H0 Hu) as (dx & Hdx & -> & Hbefore).
  unfold entry_slot in *. rewrite Hu1, Hp1, Hpr1 in *.
  destruct (Z.lt_ge_cases dx d) as [Hlt|Hge].
  - destruct (Hsc dx) as (e' & He' & _ & Hno); [lia|].
    assert (e' = e) as -> by congruence. by rewrite Hu', Hk' in Hno.
  - destruct Hend as [->|(e0 & He0 & Hemp)]; [lia|].
    destruct (Z.eq_dec dx d) as [->|]; [assert (e0 = e) as -> by congruence; congruence|].
    destruct (Hbefore d) as (e' & He' & Hne); [lia|]. congruence.
Qed.

Lemma scanned_reached d : scanned d → 0 <= d < 65536 → reached table slot (slot d).
Proof.
  intros Hsc Hd. exists d. split_and!; [lia..|done|]. intros d' Hd'.
  destruct (Hsc d' Hd') as (e & He & Hne & _). eauto.
Qed.

Lemma scanned_le d d0 : scanned d → d0 <= d → scanned d0.
Proof. intros Hsc Hle d' Hd'. apply Hsc. lia. Qed.

(** A slot the loop may fill. *)
Definition fillable (i : Z) : Prop :=
  0 <= i ∧ reached table slot i ∧ ∃ e, slot_at table i = Some e ∧ ps_state e ≠ STAT_USED.

Lemma tombstone_fillable d ft :
  scanned d → d <= 65536 → tombstone_ok d ft → ft ≠ VPNHIDE_PORT_STATS_CAPACITY → fillable ft.
Proof.
  intros Hsc Hd [[? _]|(d0 & Hd0 & -> & e & He & Ht)] Hne; [done|].
  split_and!; [apply key_slot_range| |].
  - apply scanned_reached; [by apply (scanned_le d); [|lia]|lia].
  - exists e. split; [done|]. congruence.
Qed.

(** The whole table has been scanned and every slot is in use. *)
Definition all_used : Prop :=
  ∀ d, 0 <= d < 65536 → ∃ e, slot_at table (slot d) = Some e ∧ ps_state e = STAT_USED.

Lemma tombstone_step d e ft :
  slot_at table (slot d) = Some e → 0 <= d → tombstone_ok d ft →
  tombstone_ok (d + 1)
    (if bool_decide (ps_state e = STAT_TOMBSTONE) && (ft =? VPNHIDE_PORT_STATS_CAPACITY)
     then slot d else ft).
Proof.
  intros He Hd Hft.
  destruct (bool_decide (ps_state e = STAT_TOMBSTONE) && (ft =? VPNHIDE_PORT_STATS_CAPACITY)) eqn:E.
  { b2p. right. exists d. split_and!; [lia..|done|eauto]. }
  destruct Hft as [[-> Hno]|(d0 & ? & ?)]; [left|right; exists d0; split; [lia|done]].
  split; [done|]. intros d' Hd'. destruct (Z.eq_dec d' d) as [->|]; [|apply Hno; lia].
  exists e. split; [done|]. rewrite Z.eqb_refl, andb_true_r in E. by b2p.
Qed.

Lemma port_probe_spec n d ft :
  scanned d → d + Z.of_nat n = 65536 → 0 <= d → tombstone_ok d ft →
  match port_probe table uid port protocol (port_stats_hash uid port protocol) n d ft with
  | ProbeHit i => 0 <= i ∧ ∃ e, slot_at table i = Some e ∧
      used e && same_key e uid port protocol = true
  | ProbeFill i => fillable i ∧ key_absent
  | ProbeFull => key_absent ∧ all_used
  end.
Proof.
  revert d ft. induction n as [|n IH]; intros d ft Hsc Hd Hd0 Hft; cbn [port_probe].
  { assert (d = 65536) as -> by lia.
    assert (key_absent) by (apply (scanned_absent 65536); auto; lia).
    destruct (Z.eqb_spec ft VPNHIDE_PORT_STATS_CAPACITY) as [Hcap|Hcap]; (split; [try done|]); try done.
    - intros d Hd'. destruct Hft as [[_ Hno]|(d0 & _ & Hd0' & _)].
      + destruct (Hsc d Hd') as (e & He & Hne & _). destruct (Hno d Hd') as (e' & He' & Hnt).
        exists e. split; [done|]. assert (e' = e) as -> by congruence. by destruct (ps_state e).
      + pose proof (key_slot_range uid port protocol d0).
        unfold VPNHIDE_PORT_STATS_CAPACITY in *. lia.
    - by eapply tombstone_fillable. }
  rewrite index_mod. fold (slot d). destruct (slot_some d) as [e He].
  pose proof He as He'. unfold slot_at in He'. rewrite He'.
  destruct (used e && same_key e uid port protocol) eqn:Hhit.
  { split; [apply key_slot_range|eauto]. }
  pose proof (tombstone_step d e ft He Hd0 Hft) as Hft'.
  set (ft' := if bool_decide (ps_state e = STAT_TOMBSTONE) && _ then _ else ft) in *.
  case_bool_decide as Hemp.
  - assert (key_absent) by (apply (scanned_absent d); [done|lia|right; eauto]).
    split; [|done]. destruct (Z.eqb_spec ft' VPNHIDE_PORT_STATS_CAPACITY) as [_|Hne].
    + split_and!; [apply key_slot_range|by apply scanned_reached; [|lia]|].
      exists e. split; [done|]. congruence.
    + assert (ft' = ft) as Heq.
      { subst ft'. rewrite (bool_decide_eq_false_2 (ps_state e = STAT_TOMBSTONE)) by congruence. done. }
      rewrite Heq in *. apply (tombstone_fillable d); [done|lia|done|done].
  - apply IH; [|lia|lia|done]. intros d' Hd'. destruct (Z.eq_dec d' d) as [->|]; [eauto|].
    apply Hsc. lia.
Qed.
End probe.

(** ** Preservation *)

(** An entry that keeps its key, is used only if it was, and is not emptied. *)
Definition refines_entry (e e' : kmod_port_stats_total) : Prop :=
  ps_uid e' = ps_uid e ∧ ps_port e' = ps_port e ∧ ps_protocol e' = ps_protocol e ∧
  (ps_state e' = STAT_USED → ps_state e = STAT_USED) ∧
  (ps_state e ≠ STAT_EMPTY → ps_state e' ≠ STAT_EMPTY).

Lemma port_table_wf_refine table table' :
  port_table_wf table → Forall2 refines_entry table table' → port_table_wf table'.
Proof.
  intros [Hl Hr Hu] H2.
  assert (∀ i e', slot_at table' i = Some e' → ∃ e, slot_at table i = Some e ∧ refines_entry e e') as Hback.
  { intros i e' He'. destruct (Forall2_lookup_r _ _ _ _ _ H2 He') as (e & He & ?). eauto. }
  split.
  - by rewrite <- (Forall2_length _ _ _ H2).
  - intros i e' He' Hi Hus. destruct (Hback i e' He') as (e & He & Hku & Hkp & Hkr & Hst & _).
    destruct (Hr i e He Hi (Hst Hus)) as (d & Hd & -> & Hb). exists d.
    unfold entry_slot in *. rewrite Hku, Hkp, Hkr. split_and!; [lia..|done|].
    intros d' Hd'. destruct (Hb d' Hd') as (x & Hx & Hne). unfold slot_at in *.
    destruct (Forall2_lookup_l _ _ _ _ _ H2 Hx) as (x' & Hx' & _ & _ & _ & _ & Hk). eauto.
  - intros i j e' f' He' Hf' Hi Hj Hse Hsf H1 H3 H4.
    destruct (Hback i e' He') as (e & He & Heu & Hep & Her & Hes & _).
    destruct (Hback j f' Hf') as (f & Hf & Hfu & Hfp & Hfr & Hfs & _).
    eapply (Hu i j e f); auto; congruence.
Qed.

Lemma refines_entry_refl e : refines_entry e e.
Proof. by split_and!. Qed.

Lemma Forall2_refine_alter f i table :
  (∀ e, refines_entry e (f e)) → Forall2 refines_entry table (alter f i table).
Proof.
  intros Hf. revert i. induction table as [|e table IH]; intros [|i]; [constructor..| |]; simpl.
  - constructor; [done|]. clear. induction table; constructor; auto using refines_entry_refl.
  - constructor; [apply refines_entry_refl|apply IH].
Qed.

Lemma expire_refines HZ now e : refines_entry e (expire HZ now e).
Proof.
  unfold expire. destruct (used e) eqn:E; simpl; [|apply refines_entry_refl].
  destruct (time_after _ _); [|apply refines_entry_refl]. apply used_spec in E. by split_and!.
Qed.

Lemma expire_table_wf HZ now table : port_table_wf table → port_table_wf (expire HZ now <$> table).
Proof.
  intros Hwf. eapply port_table_wf_refine; [exact Hwf|].
  apply Forall2_fmap_r, Forall_Forall2_diag, Forall_true, expire_refines.
Qed.

Section fill.
Context (table : list kmod_port_stats_total) (Hwf : port_table_wf table).
Context (uid port protocol now i : Z).
Hypothesis Hfill : fillable table uid port protocol i.
Hypothesis Habs : key_absent table uid port protocol.

Definition fresh : kmod_port_stats_total := mk_port_stat uid port protocol STAT_USED 1 now.
Definition filled : list kmod_port_stats_total := <[Z.to_nat i := fresh]> table.

Lemma slot_at_filled j :
  0 <= j → slot_at filled j = if decide (j = i) then Some fresh else slot_at table j.
Proof.
  intros Hj. destruct Hfill as (Hi & _ & e & He & _). unfold slot_at, filled.
  case_decide as Hd.
  - subst. apply list_lookup_insert_eq. exact (lookup_lt_Some _ _ _ He).
  - apply list_lookup_insert_ne. lia.
Qed.

Lemma reached_filled slot j :
  (∀ d, 0 <= slot d) → reached table slot j → reached filled slot j.
Proof.
  intros Hs (d & Hd & -> & Hb). exists d. split_and!; [lia..|done|]. intros d' Hd'.
  rewrite slot_at_filled by done. case_decide; [by exists fresh|]. by apply Hb.
Qed.

Lemma filled_wf : port_table_wf filled.
Proof.
  destruct Hfill as (Hi & Hreach & e0 & He0 & Hne).
  assert (∀ j e, slot_at table j = Some e → 0 <= j → ps_state e = STAT_USED →
    ¬ (ps_uid e = uid ∧ ps_port e = port ∧ ps_protocol e = protocol)) as Hno.
  { intros j e He Hj Hu Hk. pose proof (Habs j e He Hj) as Hf.
    rewrite (proj2 (used_spec e) Hu), (proj2 (same_key_spec e uid port protocol) Hk) in Hf. done. }
  split.
  - unfold filled. rewrite length_insert. apply Hwf.
  - intros j e He Hj Hu. rewrite slot_at_filled in He by done. case_decide as Hd.
    + injection He as <-. subst j. apply reached_filled; [intros; apply key_slot_range|done].
    + apply reached_filled; [intros; apply key_slot_range|]. by apply (ptw_reach _ Hwf).
  - intros j k e f He Hf Hj Hk Hse Hsf Hu Hp Hr.
    rewrite slot_at_filled in He, Hf by done.
    destruct (decide (j = i)), (decide (k = i)); [congruence| | |by eapply (ptw_unique _ Hwf)].
    + injection He as <-. exfalso. apply (Hno k f Hf Hk Hsf). done.
    + injection Hf as <-. exfalso. apply (Hno j e He Hj Hse). done.
Qed.
End fill.

Definition port_stats_wf (st : port_stats_state) : Prop :=
  ∀ table, pst_table st = Some table → port_table_wf table.

Lemma empty_port_table_wf : port_table_wf empty_port_table.
Proof.
  unfold empty_port_table. set (n := Z.to_nat VPNHIDE_PORT_STATS_CAPACITY).
  assert (Z.of_nat n = 65536) as Hn by done. clearbody n. split.
  - by rewrite length_replicate.
  - intros i e He. unfold slot_at in He. apply lookup_replicate in He as [-> _]. done.
  - intros i j e f He. unfold slot_at in He. apply lookup_replicate in He as [-> _]. done.
Qed.

Lemma initial_scan table uid port protocol :
  port_table_wf table →
  match port_probe table uid port protocol (port_stats_hash uid port protocol)
          (Z.to_nat VPNHIDE_PORT_STATS_CAPACITY) 0 VPNHIDE_PORT_STATS_CAPACITY with
  | ProbeHit i => 0 <= i ∧ ∃ e, slot_at table i = Some e ∧
      used e && same_key e uid port protocol = true
  | ProbeFill i => fillable table uid port protocol i ∧ key_absent table uid port protocol
  | ProbeFull => key_absent table uid port protocol ∧ all_used table uid port protocol
  end.
Proof.
  intros Hwf. apply port_probe_spec; [done|intros d'; lia|done|lia|]. left. split; [done|lia].
Qed.

Lemma record_port_wf now uid port protocol st :
  port_stats_wf st → port_stats_wf (record_port now uid port protocol st).
Proof.
  intros Hwf table' Ht'. unfold record_port in Ht'.
  destruct (pst_table st) as [table|] eqn:Ht; [|congruence].
  specialize (Hwf table Ht). destruct (_ || _); [congruence|].
  pose proof (initial_scan table uid port protocol Hwf) as Hscan.
  destruct (port_probe _ _ _ _ _ _ _ _) as [i|i|]; injection Ht' as <-; [| |done].
  - eapply port_table_wf_refine; [exact Hwf|]. apply Forall2_refine_alter. intros e. by split_and!.
  - destruct Hscan. by apply filled_wf.
Qed.

(** ** Effect of a recording *)

Lemma port_counts_unique table u p pr c c' :
  port_table_wf table → port_counts table u p pr c → port_counts table u p pr c' → c = c'.
Proof.
  intros Hwf (i & e & Hi & He & Hs & (? & ? & ?)%same_key_spec & <-)
    (j & f & Hj & Hf & Hs' & (? & ? & ?)%same_key_spec & <-).
  assert (i = j) as -> by (eapply (ptw_unique _ Hwf i j e f); congruence || done). congruence.
Qed.

Section effect.
Context (table : list kmod_port_stats_total) (Hwf : port_table_wf table).
Context (now uid port protocol dropped : Z).
Hypothesis Hport : port ≠ 0.
Hypothesis Hproto : protocol <= VH_PROTO_UDP.

Local Abbreviation after := (record_port now uid port protocol (mk_port_stats (Some table) dropped)).

Lemma record_port_steps :
  (∃ i e, 0 <= i ∧ slot_at table i = Some e ∧ ps_state e = STAT_USED ∧
     same_key e uid port protocol = true ∧
     after = mk_port_stats (Some (<[Z.to_nat i := mk_port_stat uid port protocol STAT_USED
                                      (u64 (ps_count e + 1)) now]> table)) dropped) ∨
  (∃ i, fillable table uid port protocol i ∧ key_absent table uid port protocol ∧
     after = mk_port_stats (Some (filled table uid port protocol now i)) dropped) ∨
  (key_absent table uid port protocol ∧ all_used table uid port protocol ∧
     after = mk_port_stats (Some table) (u64 (dropped + 1))).
Proof.
  unfold record_port. cbn [pst_table pst_dropped].
  destruct (Z.eqb_spec port 0); [done|]. destruct (Z.ltb_spec VH_PROTO_UDP protocol); [lia|].
  cbn [orb]. pose proof (initial_scan table uid port protocol Hwf) as Hscan.
  destruct (port_probe _ _ _ _ _ _ _ _) as [i|i|].
  - left. destruct Hscan as (Hi & e & He & [Hu Hk]%andb_true_iff). exists i, e.
    apply used_spec in Hu. split_and!; try done. do 2 f_equal.
    apply same_key_spec in Hk as (<- & <- & <-). rewrite <- Hu.
    by rewrite (list_alter_as_insert _ _ _ e).
  - right. left. destruct Hscan. eauto.
  - right. right. destruct Hscan. done.
Qed.

(** Replacing the entry of slot [i] by a used one of the key. *)
Lemma port_counts_insert i e0 e u p pr c :
  0 <= i → slot_at table i = Some e0 →
  port_counts (<[Z.to_nat i := e]> table) u p pr c ↔
    (ps_state e = STAT_USED ∧ same_key e u p pr = true ∧ ps_count e = c) ∨
    (∃ j f, j ≠ i ∧ 0 <= j ∧ slot_at table j = Some f ∧ ps_state f = STAT_USED ∧
       same_key f u p pr = true ∧ ps_count f = c).
Proof.
  intros Hi He0. unfold port_counts, slot_at in *. split.
  - intros (j & f & Hj & Hf & Hs & Hk & Hc). destruct (decide (j = i)) as [->|Hne].
    + rewrite list_lookup_insert_eq in Hf by exact (lookup_lt_Some _ _ _ He0).
      injection Hf as <-. by left.
    + rewrite list_lookup_insert_ne in Hf by lia. right. by exists j, f.
  - intros [(Hs & Hk & Hc)|(j & f & Hne & Hj & Hf & Hs & Hk & Hc)].
    + exists i, e. rewrite list_lookup_insert_eq by exact (lookup_lt_Some _ _ _ He0). done.
    + exists j, f. rewrite list_lookup_insert_ne by lia. done.
Qed.

(** Other keys keep their counts. *)
Lemma record_port_other u p pr c table' :
  pst_table after = Some table' → ¬ (u = uid ∧ p = port ∧ pr = protocol) →
  port_counts table' u p pr c ↔ port_counts table u p pr c.
Proof.
  intros Ht' Hne.
  assert (∀ i e0 n, 0 <= i → slot_at table i = Some e0 →
    (ps_state e0 = STAT_USED → same_key e0 uid port protocol = true) →
    port_counts (<[Z.to_nat i := mk_port_stat uid port protocol STAT_USED n now]> table) u p pr c ↔
    port_counts table u p pr c) as Hins.
  { intros i e0 n Hi He0 Hk0. rewrite (port_counts_insert i e0) by done. split.
    - intros [(_ & Hk & _)|(j & f & _ & Hj & Hf & Hs & Hk & Hc)]; [|by exists j, f].
      apply same_key_spec in Hk. simpl in Hk. destruct Hne. naive_solver.
    - intros (j & f & Hj & Hf & Hs & Hk & Hc). right. exists j, f. split_and!; try done.
      intros ->. assert (f = e0) as -> by congruence. specialize (Hk0 Hs).
      apply same_key_spec in Hk, Hk0. naive_solver. }
  destruct record_port_steps as [(i & e & Hi & He & Hs & Hk & Heq)|[(i & Hf & Ha & Heq)|(_ & _ & Heq)]];
    rewrite Heq in Ht'; injection Ht' as <-; [by apply (Hins i e)| |done].
  destruct Hf as (Hi & _ & e & He & Hns). by apply (Hins i e).
Qed.

(** The key itself is counted once more, or dropped by a full table. *)
Lemma record_port_self :
  (∃ c table', port_counts table uid port protocol c ∧ pst_table after = Some table' ∧
     port_counts table' uid port protocol (u64 (c + 1)) ∧ pst_dropped after = dropped) ∨
  ((∀ c, ¬ port_counts table uid port protocol c) ∧
   ((∃ table', pst_table after = Some table' ∧ port_counts table' uid port protocol 1 ∧
       pst_dropped after = dropped) ∨
    (all_used table uid port protocol ∧ pst_table after = Some table ∧
     pst_dropped after = u64 (dropped + 1)))).
Proof.
  assert (key_absent table uid port protocol → ∀ c, ¬ port_counts table uid port protocol c) as Hno.
  { intros Ha c (i & e & Hi & He & Hs & Hk & _). pose proof (Ha i e He Hi) as Hf.
    by rewrite (proj2 (used_spec e) Hs), Hk in Hf. }
  assert (∀ n, same_key (mk_port_stat uid port protocol STAT_USED n now) uid port protocol = true) as Hself.
  { intros n. by apply same_key_spec. }
  destruct record_port_steps as [(i & e & Hi & He & Hs & Hk & ->)|[(i & Hf & Ha & ->)|(Ha & Hall & ->)]].
  - left. exists (ps_count e). eexists. split_and!; [by exists i, e|done| |done].
    rewrite (port_counts_insert i e) by done. left. split_and!; [done|apply Hself|done].
  - right. split; [auto|]. left. eexists. split_and!; [done| |done].
    destruct Hf as (Hi & _ & e & He & _). unfold filled. rewrite (port_counts_insert i e) by done.
    left. split_and!; [done|apply Hself|done].
  - right. split; [auto|]. by right.
Qed.
End effect.

(** ** Properties *)

(** A blocked connection to a port is counted once for its (UID, port,
    protocol) key: the key's count grows by one, or starts at one, or, only
    when every slot of the table is in use by another key, the drop counter
    grows; the counts of all other keys and the shape of the table are kept. *)
Theorem port_intercept_counted table now uid port protocol dropped table' :
  port_table_wf table → port ≠ 0 → protocol <= VH_PROTO_UDP →
  pst_table (record_port now uid port protocol (mk_port_stats (Some table) dropped)) = Some table' →
  port_table_wf table' ∧
  (∀ u p pr c, ¬ (u = uid ∧ p = port ∧ pr = protocol) →
     port_counts table' u p pr c ↔ port_counts table u p pr c) ∧
  ((∃ c, port_counts table uid port protocol c ∧ port_counts table' uid port protocol (u64 (c + 1))) ∨
   ((∀ c, ¬ port_counts table uid port protocol c) ∧
    (port_counts table' uid port protocol 1 ∨
     (all_used table uid port protocol ∧ table' = table ∧
      pst_dropped (record_port now uid port protocol (mk_port_stats (Some table) dropped)) =
        u64 (dropped + 1))))).
Proof.
  intros Hwf Hp Hpr Ht'. split_and!.
  - eapply (record_port_wf now uid port protocol (mk_port_stats (Some table) dropped)); [|exact Ht'].
    by intros t [= <-].
  - intros u p pr c Hne. by eapply record_port_other.
  - destruct (record_port_self table Hwf now uid port protocol dropped Hp Hpr)
      as [(c & t & Hc & Ht & Hc' & _)|(Hno & [(t & Ht & Hc & _)|(Hall & Ht & Hd)])].
    + left. exists c. assert (t = table') as <- by congruence. done.
    + right. split; [done|]. left. assert (t = table') as <- by congruence. done.
    + right. split; [done|]. right. split_and!; [done|congruence|done].
Qed.

Lemma port_intercept_counted_witness :
  ∃ table',
    pst_table (record_port 1000 10123 8080 VH_PROTO_TCP (mk_port_stats (Some empty_port_table) 0)) =
      Some table' ∧ port_table_wf table'.
Proof.
  destruct (pst_table (record_port 1000 10123 8080 VH_PROTO_TCP (mk_port_stats (Some empty_port_table) 0)))
    as [table'|] eqn:E; [|unfold record_port in E; cbn [pst_table] in E;
      destruct (_ || _); [discriminate E|]; destruct (port_probe _ _ _ _ _ _ _ _); discriminate E].
  exists table'. split; [reflexivity|].
  apply (port_intercept_counted empty_port_table 1000 10123 8080 VH_PROTO_TCP 0 table'
    empty_port_table_wf); [discriminate|discriminate|exact E].
Defined.
