(* ===== verification/UdpRate.v ===== *)
(** * The UDP rate limiter

    The token bucket per UID of [kmod/hooks_fs.c] that emulates a full device
    queue for sends through a hidden VPN.  The kernel hash table keyed by UID
    is a finite map; the clock [now] is an argument. *)
From S2P Require Import Prelude Abi Snapshot PolicyQuery OwnedPorts.
From stdpp Require Import gmap.

#[local] Open Scope Z_scope.

Definition BUCKET_CAPACITY : Z := 250.
Definition TOKEN_REGEN_NS : Z := 2000000.

(** Tokens are counted in thousandths. *)
Record udp_uid_rate := mk_rate {
  rt_last_time_ns : Z;
  rt_tokens : Z
}.

Abbreviation udp_rates := (gmap Z udp_uid_rate).

(** The regeneration step, at the widths of the source: the product is 64-bit,
    the addition to [tokens] 32-bit. *)
Definition refill (now : Z) (rate : udp_uid_rate) : udp_uid_rate :=
  if rt_last_time_ns rate <? now then
    let elapsed := now - rt_last_time_ns rate in
    let reg_tokens := u64 (elapsed * 1000) / TOKEN_REGEN_NS in
    if 0 <? reg_tokens then
      let tokens := u32 (rt_tokens rate + u32 reg_tokens) in
      if BUCKET_CAPACITY * 1000 <=? tokens then mk_rate now (BUCKET_CAPACITY * 1000)
      else mk_rate (u64 (rt_last_time_ns rate + u64 (reg_tokens * TOKEN_REGEN_NS) / 1000)) tokens
    else rate
  else rate.

(** [true]: the send is refused. *)
Definition take_token (rate : udp_uid_rate) : bool * udp_uid_rate :=
  if 1000 <=? rt_tokens rate then (false, mk_rate (rt_last_time_ns rate) (rt_tokens rate - 1000))
  else (true, rate).

Definition udp_rate_limit_exceeded (alloc : bool) (now uid : Z) (rates : udp_rates)
    : bool * udp_rates :=
  match rates !! uid with
  | Some rate =>
      let '(exceeded, rate') := take_token (refill now rate) in (exceeded, <[uid := rate']> rates)
  | None =>
      if alloc then (false, <[uid := mk_rate now ((BUCKET_CAPACITY - 1) * 1000)]> rates)
      else (false, rates)
  end.

Definition keep_rate (snapshot : option vpnhide_policy_snapshot) (uid : Z) : bool :=
  match snapshot with
  | Some s => vpnhide_uid_matches_mode (kmod_uids s) (kmod_match_mode s) uid
  | None => false
  end.

Definition vpnhide_udp_rates_prune (snapshot : option vpnhide_policy_snapshot) (rates : udp_rates)
    : udp_rates :=
  filter (λ p, keep_rate snapshot p.1 = true) rates.

Definition vpnhide_udp_rates_destroy (rates : udp_rates) : udp_rates :=
  vpnhide_udp_rates_prune None rates.

(** ** The send hook *)

Definition MSG_DONTWAIT : Z := 0x40.

(** What [udp_sendmsg_entry] looks at: the socket, whether the message names a
    destination, and the interface of the cached route. *)
Record udp_send := mk_udp_send {
  us_family : Z;
  us_v6_daddr : list Z;
  us_daddr : Z;
  us_dst : option (option Z);
  us_sndbuf : Z;
  us_msg_flags : Z;
  us_msg_name : bool
}.

Definition vpnhide_udp_dst_is_vpn_bound (is_vpn : Z → bool) (s : udp_send) : bool :=
  if us_msg_name s then false
  else if (if us_family s =? AF_INET6 then ipv6_addr_loopback (us_v6_daddr s)
           else ipv4_is_loopback (us_daddr s)) then false
  else match us_dst s with
       | None => false
       | Some None => false
       | Some (Some ifindex) => is_vpn ifindex
       end.

(** The instance data of the probe. *)
Record udp_sendmsg_data := mk_udp_data {
  ud_orig_sndbuf : Z;
  ud_spoofed : bool
}.

(** What is kept for the return handler ([None]: it is skipped) with the new
    [sk_sndbuf].  [s] is [None] when the socket or the message is NULL. *)
Definition udp_sendmsg_entry (policy : option vpnhide_policy_snapshot) (is_vpn : Z → bool)
    (alloc : bool) (now uid : Z) (s : option udp_send) (rates : udp_rates)
    : option (udp_sendmsg_data * Z) * udp_rates :=
  if negb (is_hook_active policy HOOK_UDP_SENDMSG uid) then (None, rates)
  else if negb (is_target_uid_val policy uid) then (None, rates)
  else match s with
       | None => (None, rates)
       | Some s =>
           let passed := Some (mk_udp_data (us_sndbuf s) false, us_sndbuf s) in
           if nonzero (Z.land (us_msg_flags s) MSG_DONTWAIT) && vpnhide_udp_dst_is_vpn_bound is_vpn s
           then
             let '(exceeded, rates') := udp_rate_limit_exceeded alloc now uid rates in
             (if exceeded : bool then Some (mk_udp_data (us_sndbuf s) true, 0) else passed, rates')
           else (passed, rates)
       end.

(** The [sk_sndbuf] after the call. *)
Definition udp_sendmsg_ret (data : udp_sendmsg_data) (sndbuf : Z) : Z :=
  if ud_spoofed data then ud_orig_sndbuf data else sndbuf.

(** Whatever the entry handler did to the buffer limit, the return handler
    undoes it. *)
Lemma udp_sendmsg_restores policy is_vpn alloc now uid s rates data sndbuf rates' :
  udp_sendmsg_entry policy is_vpn alloc now uid (Some s) rates = (Some (data, sndbuf), rates') →
  udp_sendmsg_ret data sndbuf = us_sndbuf s.
Proof.
  unfold udp_sendmsg_entry. repeat (case_match; try done); intros; simplify_eq; done.
Qed.

(** ** Conformance *)

(** A stored bucket: at least one token below the capacity, since a send has
    always been charged. *)
Definition bucket_ok (r : udp_uid_rate) : Prop :=
  0 <= rt_tokens r <= (BUCKET_CAPACITY - 1) * 1000 ∧ fits 64 (rt_last_time_ns r).

Definition rates_wf (rates : udp_rates) : Prop := map_Forall (λ _, bucket_ok) rates.

(** No bucket is ahead of the clock. *)
Definition rates_ok (now : Z) (rates : udp_rates) : Prop :=
  map_Forall (λ _ r, bucket_ok r ∧ rt_last_time_ns r <= now) rates.

(** What the bucket can still pay for at [now], in thousandths of a
    nanosecond: a thousandth of a token is worth [TOKEN_REGEN_NS] of them. *)
Definition potential (now : Z) (r : udp_uid_rate) : Z :=
  rt_tokens r * TOKEN_REGEN_NS + u64 ((now - rt_last_time_ns r) * 1000).

(** The price of one send, and of a full bucket. *)
Definition send_price : Z := 1000 * TOKEN_REGEN_NS.
Definition full_price : Z := BUCKET_CAPACITY * send_price.

Definition credit (now uid : Z) (rates : udp_rates) : Z :=
  match rates !! uid with
  | Some r => Z.min (potential now r) full_price
  | None => full_price
  end.

Lemma wrap_le w x : 0 <= w → 0 <= x → 0 <= wrap w x <= x.
Proof.
  intros Hw Hx. split; [apply wrap_fits; lia|]. apply Z.mod_le; [done|].
  apply Z.pow_pos_nonneg; lia.
Qed.

(** The arithmetic of one regeneration: the residue stays in the bucket. *)
Lemma regen_residue x :
  0 <= x →
  let reg := u64 x / TOKEN_REGEN_NS in
  0 <= reg ∧ u64 x = reg * TOKEN_REGEN_NS + u64 (x - reg * TOKEN_REGEN_NS) ∧
  0 <= u64 (x - reg * TOKEN_REGEN_NS) < TOKEN_REGEN_NS ∧ reg * TOKEN_REGEN_NS <= x ∧ fits 64 (reg * TOKEN_REGEN_NS).
Proof.
  intros Hx reg. pose proof (wrap_fits 64 x ltac:(lia)) as Hf. pose proof (wrap_le 64 x ltac:(lia) Hx) as Hle.
  assert (reg = wrap 64 x / TOKEN_REGEN_NS) as Hreg by done.
  pose proof (Z.div_mod (wrap 64 x) TOKEN_REGEN_NS ltac:(done)) as Hdm.
  pose proof (Z.mod_pos_bound (wrap 64 x) TOKEN_REGEN_NS ltac:(done)) as Hm.
  rewrite <- Hreg in Hdm. clearbody reg.
  assert (u64 (x - reg * TOKEN_REGEN_NS) = wrap 64 x mod TOKEN_REGEN_NS) as ->.
  { unfold u64, wrap. rewrite Zminus_mod. fold (wrap 64 x).
    rewrite <- (Zminus_mod_idemp_r (wrap 64 x)), Z.mod_mod, <- Zminus_mod_idemp_r, Z.mod_mod by done.
    rewrite Zminus_mod_idemp_r.
    replace (wrap 64 x - reg * TOKEN_REGEN_NS) with (wrap 64 x mod TOKEN_REGEN_NS) by lia.
    apply Z.mod_small. assert (TOKEN_REGEN_NS < 2 ^ 64) by done. lia. }
  unfold u64, fits, TOKEN_REGEN_NS in *. lia.
Qed.

Lemma refill_spec now r :
  bucket_ok r → rt_last_time_ns r <= now → fits 64 now →
  0 <= rt_tokens (refill now r) <= BUCKET_CAPACITY * 1000 ∧ fits 64 (rt_last_time_ns (refill now r)) ∧
  rt_last_time_ns (refill now r) <= now ∧
  potential now (refill now r) <= Z.min (potential now r) full_price.
Proof.
  intros [Ht Hl] Hle Hnow. unfold refill.
  destruct (regen_residue ((now - rt_last_time_ns r) * 1000) ltac:(lia)) as (Hreg & Hx & Hres & Hrx & Hfr).
  set (reg := u64 ((now - rt_last_time_ns r) * 1000) / TOKEN_REGEN_NS) in *.
  unfold potential, full_price, send_price, BUCKET_CAPACITY in *. unfold fits in *.
  destruct (Z.ltb_spec (rt_last_time_ns r) now).
  2: { replace (now - rt_last_time_ns r) with 0 by lia. change (u64 (0 * 1000)) with 0.
    unfold TOKEN_REGEN_NS. lia. }
  destruct (Z.ltb_spec 0 reg). 2: { unfold TOKEN_REGEN_NS in *. lia. }
  assert (0 <= u32 reg <= reg) as Hr32 by (apply wrap_le; lia).
  assert (0 <= u32 (rt_tokens r + u32 reg) <= rt_tokens r + u32 reg) as Ht32 by (apply wrap_le; lia).
  assert (u64 (reg * TOKEN_REGEN_NS) / 1000 = reg * 2000) as Hd.
  { unfold u64. rewrite wrap_small by (unfold fits; lia).
    replace (reg * TOKEN_REGEN_NS) with (reg * 2000 * 1000) by (unfold TOKEN_REGEN_NS; lia).
    by apply Z.div_mul. }
  destruct (Z.leb_spec (250 * 1000) (u32 (rt_tokens r + u32 reg))) as [Hc|Hc];
    cbn [rt_tokens rt_last_time_ns].
  - rewrite Z.sub_diag. change (u64 (0 * 1000)) with 0. unfold TOKEN_REGEN_NS in *. split_and!; lia.
  - rewrite Hd. unfold TOKEN_REGEN_NS in *.
    assert (u64 (rt_last_time_ns r + reg * 2000) = rt_last_time_ns r + reg * 2000) as ->
      by (apply wrap_small; unfold fits; lia).
    replace ((now - (rt_last_time_ns r + reg * 2000)) * 1000)
      with ((now - rt_last_time_ns r) * 1000 - reg * 2000000) by lia. split_and!; lia.
Qed.

(** Whatever the clock does, the token count stays in range. *)
Lemma refill_wf now r :
  bucket_ok r → fits 64 now →
  0 <= rt_tokens (refill now r) <= BUCKET_CAPACITY * 1000 ∧ fits 64 (rt_last_time_ns (refill now r)).
Proof.
  intros [Ht Hl] Hnow. unfold refill, BUCKET_CAPACITY in *.
  pose proof (wrap_fits 32 (rt_tokens r + u32 (u64 ((now - rt_last_time_ns r) * 1000) / TOKEN_REGEN_NS))
    ltac:(lia)) as Hf. unfold fits, u32 in *.
  repeat case_match; b2p; cbn [rt_tokens rt_last_time_ns]; split; try lia; apply wrap_fits; lia.
Qed.

Lemma take_token_wf r :
  0 <= rt_tokens r <= BUCKET_CAPACITY * 1000 → fits 64 (rt_last_time_ns r) → bucket_ok (take_token r).2.
Proof.
  unfold take_token, bucket_ok, BUCKET_CAPACITY. intros.
  destruct (Z.leb_spec 1000 (rt_tokens r)); cbn [snd rt_tokens rt_last_time_ns]; split; lia || done.
Qed.

Lemma take_token_price now r :
  potential now (take_token r).2 = potential now r - (if (take_token r).1 then 0 else send_price).
Proof.
  unfold take_token, potential, send_price.
  destruct (1000 <=? rt_tokens r); cbn [fst snd rt_tokens rt_last_time_ns]; lia.
Qed.

Lemma take_token_last r : rt_last_time_ns (take_token r).2 = rt_last_time_ns r.
Proof. unfold take_token. by destruct (1000 <=? rt_tokens r). Qed.

Lemma udp_rates_wf alloc now uid rates :
  fits 64 now → rates_wf rates → rates_wf (udp_rate_limit_exceeded alloc now uid rates).2.
Proof.
  intros Hnow Hr. unfold udp_rate_limit_exceeded.
  destruct (rates !! uid) as [r|] eqn:E.
  - destruct (refill_wf now r (Hr _ _ E) Hnow) as [Ht Hl]. pose proof (take_token_wf _ Ht Hl) as Hw.
    destruct (take_token _). by apply map_Forall_insert_2.
  - destruct alloc; [|done]. apply map_Forall_insert_2; [|done].
    split; [unfold BUCKET_CAPACITY; cbn [rt_tokens]; lia|done].
Qed.

Lemma prune_wf snapshot rates : rates_wf rates → rates_wf (vpnhide_udp_rates_prune snapshot rates).
Proof. intros Hr uid r [H _]%map_lookup_filter_Some. by eapply Hr. Qed.

(** ** Runs of the limiter *)

(** A send of an application, with the outcome of the allocation should it need
    a bucket, or the publication of a policy. *)
Inductive rate_event :=
  | RSend (alloc : bool) (now uid : Z)
  | RPrune (now : Z) (snapshot : option vpnhide_policy_snapshot).

Definition re_time (e : rate_event) : Z :=
  match e with RSend _ now _ => now | RPrune now _ => now end.

Definition rate_step (e : rate_event) (rates : udp_rates) : udp_rates :=
  match e with
  | RSend alloc now uid => (udp_rate_limit_exceeded alloc now uid rates).2
  | RPrune _ snapshot => vpnhide_udp_rates_prune snapshot rates
  end.

Definition rate_run (evs : list rate_event) (rates : udp_rates) : udp_rates :=
  foldl (λ rates e, rate_step e rates) rates evs.

(** Does the event let a packet of [uid] pass?  Does it do so without a bucket,
    because none could be allocated? *)
Definition passes (uid : Z) (e : rate_event) (rates : udp_rates) : bool :=
  match e with
  | RSend alloc now uid' =>
      (uid' =? uid) && negb (udp_rate_limit_exceeded alloc now uid' rates).1
  | RPrune _ _ => false
  end.

Definition unmetered (uid : Z) (e : rate_event) (rates : udp_rates) : bool :=
  match e with
  | RSend alloc _ uid' =>
      (uid' =? uid) && negb alloc && match rates !! uid with Some _ => false | None => true end
  | RPrune _ _ => false
  end.

Fixpoint count_events (what : rate_event → udp_rates → bool) (evs : list rate_event)
    (rates : udp_rates) : Z :=
  match evs with
  | [] => 0
  | e :: evs => Z.b2z (what e rates) + count_events what evs (rate_step e rates)
  end.

(** The event does not take the bucket of [uid] away. *)
Definition keeps (uid : Z) (e : rate_event) : Prop :=
  match e with RSend _ _ _ => True | RPrune _ snapshot => keep_rate snapshot uid = true end.

Lemma rate_step_ok now e rates :
  re_time e = now → fits 64 now → rates_ok now rates → rates_ok now (rate_step e rates).
Proof.
  intros He Hnow Hr. destruct e as [alloc t uid|t snapshot]; cbn [re_time rate_step] in *.
  2: { intros uid r [H _]%map_lookup_filter_Some. by eapply Hr. }
  subst t. unfold udp_rate_limit_exceeded. destruct (rates !! uid) as [r|] eqn:E.
  - destruct (Hr _ _ E) as [Hb Hl]. destruct (refill_spec now r Hb Hl Hnow) as (Ht & Hf & Hl' & _).
    pose proof (take_token_wf _ Ht Hf) as Hw. pose proof (take_token_last (refill now r)) as Hlast.
    destruct (take_token _) as [? r']. cbn [snd] in *. apply map_Forall_insert_2; [|done].
    split; [done|]. by rewrite Hlast.
  - destruct alloc; [|done]. apply map_Forall_insert_2; [|done].
    split; [|done]. split; [unfold BUCKET_CAPACITY; cbn [rt_tokens]; lia|done].
Qed.

Lemma rates_ok_later now now' rates : now <= now' → rates_ok now rates → rates_ok now' rates.
Proof. intros Hle Hr uid r H. destruct (Hr uid r H). split; [done|lia]. Qed.

Lemma rate_run_ok t evs rates :
  rates_ok t rates → StronglySorted Z.le (t :: (re_time <$> evs)) → 0 <= t →
  Forall (λ e, re_time e < 2 ^ 64) evs →
  ∀ t', Forall (λ e, re_time e <= t') evs → t <= t' → rates_ok t' (rate_run evs rates).
Proof.
  revert t rates. induction evs as [|e evs IH]; intros t rates Hr Hs H0 Hfit t' Hle Htt'; simpl.
  { by eapply rates_ok_later. }
  inversion Hs as [|?? Hs' Hmin]; subst. cbn [fmap list_fmap] in *.
  apply Forall_cons in Hfit as [Hf Hfit]. apply Forall_cons in Hle as [Hl Hle].
  apply Forall_cons in Hmin as [Hm _].
  eapply (IH (re_time e)); eauto; [|lia]. apply rate_step_ok; [done|unfold fits; lia|].
  by eapply rates_ok_later.
Qed.

Lemma credit_later now now' uid rates :
  rates_ok now rates → now <= now' → credit now' uid rates <= credit now uid rates + (now' - now) * 1000.
Proof.
  intros Hr Hle. unfold credit. destruct (rates !! uid) as [r|] eqn:E; [|lia]. destruct (Hr _ _ E) as [_ Hl].
  assert (potential now' r <= potential now r + (now' - now) * 1000); [|lia]. unfold potential, u64.
  replace ((now' - rt_last_time_ns r) * 1000)
    with ((now - rt_last_time_ns r) * 1000 + (now' - now) * 1000) by lia.
  unfold wrap. rewrite <- Zplus_mod_idemp_l.
  pose proof (Z.mod_pos_bound ((now - rt_last_time_ns r) * 1000) (2 ^ 64) ltac:(done)).
  pose proof (Z.mod_le ((now - rt_last_time_ns r) * 1000 mod 2 ^ 64 + (now' - now) * 1000) (2 ^ 64)
    ltac:(lia) ltac:(done)). lia.
Qed.

(** What a send costs is paid from the credit. *)
Lemma rate_step_credit e uid rates :
  rates_ok (re_time e) rates → fits 64 (re_time e) → keeps uid e →
  credit (re_time e) uid (rate_step e rates) + Z.b2z (passes uid e rates) * send_price <=
  credit (re_time e) uid rates + Z.b2z (unmetered uid e rates) * send_price.
Proof.
  intros Hr Hnow Hk. destruct e as [alloc now uid'|now snapshot]; cbn [re_time rate_step passes unmetered] in *.
  2: { unfold credit, vpnhide_udp_rates_prune. cbn [keeps] in Hk.
    destruct (rates !! uid) as [r|] eqn:E.
    - assert (filter (λ p : Z * udp_uid_rate, keep_rate snapshot p.1 = true) rates !! uid = Some r) as ->
        by (by apply map_lookup_filter_Some). lia.
    - assert (filter (λ p : Z * udp_uid_rate, keep_rate snapshot p.1 = true) rates !! uid = None) as ->
        by (apply map_lookup_filter_None; by left). lia. }
  destruct (Z.eqb_spec uid' uid) as [->|Hne].
  - unfold udp_rate_limit_exceeded, credit. destruct (rates !! uid) as [r|] eqn:E.
    + destruct (Hr _ _ E) as [Hb Hl]. destruct (refill_spec now r Hb Hl Hnow) as (_ & _ & _ & Hp).
      pose proof (take_token_price now (refill now r)) as Hc.
      destruct (take_token _) as [exceeded r']. cbn [fst snd] in *.
      rewrite lookup_insert_eq, andb_false_r. unfold send_price, full_price in *.
      destruct exceeded; cbn [negb andb Z.b2z]; lia.
    + destruct alloc; cbn [fst snd negb andb Z.b2z].
      * rewrite lookup_insert_eq. unfold potential. cbn [rt_tokens rt_last_time_ns]. rewrite Z.sub_diag.
        change (u64 (0 * 1000)) with 0. unfold full_price, send_price, BUCKET_CAPACITY. lia.
      * rewrite E. lia.
  - cbn [andb Z.b2z]. unfold udp_rate_limit_exceeded, credit. destruct (rates !! uid') as [r'|].
    + destruct (take_token _). cbn [snd]. rewrite lookup_insert_ne by done. lia.
    + destruct alloc; cbn [snd]; [rewrite lookup_insert_ne by done|]; lia.
Qed.

Lemma run_credit uid evs rates now0 t_end :
  rates_ok now0 rates → StronglySorted Z.le (now0 :: (re_time <$> evs)) → 0 <= now0 <= t_end →
  Forall (λ e, re_time e <= t_end) evs → t_end < 2 ^ 64 → Forall (keeps uid) evs →
  count_events (passes uid) evs rates * send_price <=
  credit now0 uid rates + (t_end - now0) * 1000 + count_events (unmetered uid) evs rates * send_price.
Proof.
  revert rates now0. induction evs as [|e evs IH]; intros rates now0 Hr Hs H0 Hle Hend Hk.
  { cbn [count_events]. assert (0 <= credit now0 uid rates); [|lia]. unfold credit.
    destruct (rates !! uid) as [r|] eqn:E; [|done]. destruct (Hr _ _ E) as [[Ht _] _].
    pose proof (wrap_fits 64 ((now0 - rt_last_time_ns r) * 1000) ltac:(lia)) as [? _].
    unfold potential, u64, full_price, send_price, BUCKET_CAPACITY, TOKEN_REGEN_NS in *. lia. }
  inversion Hs as [|?? Hs' Hmin]; subst. cbn [fmap list_fmap] in *.
  apply Forall_cons in Hk as [Hke Hk]. apply Forall_cons in Hle as [Hl Hle].
  apply Forall_cons in Hmin as [Hm _].
  pose proof (rates_ok_later _ _ _ Hm Hr) as Hr'.
  assert (fits 64 (re_time e)) as Hf by (unfold fits; lia).
  pose proof (rate_step_credit e uid rates Hr' Hf Hke) as Hc.
  pose proof (credit_later _ _ uid rates Hr Hm) as Hcl.
  specialize (IH (rate_step e rates) (re_time e) (rate_step_ok _ e rates eq_refl Hf Hr') Hs' ltac:(lia) Hle Hend Hk).
  cbn [count_events]. lia.
Qed.

(** A bucket that has not been idle for hours regains a token in two
    milliseconds. *)
Lemma paced_refill now r :
  bucket_ok r → TOKEN_REGEN_NS <= now - rt_last_time_ns r < 8 * 10 ^ 12 →
  1000 <= rt_tokens (refill now r).
Proof.
  intros [Ht Hl] He. unfold refill, BUCKET_CAPACITY, TOKEN_REGEN_NS in *.
  destruct (Z.ltb_spec (rt_last_time_ns r) now); [|lia].
  unfold u64 at 1. rewrite wrap_small by (unfold fits; lia).
  assert (∃ elapsed, elapsed = now - rt_last_time_ns r) as [elapsed Hel] by eauto.
  unfold u64. rewrite wrap_small by (unfold fits; lia). rewrite <- Hel.
  set (reg := elapsed * 1000 / 2000000).
  assert (1000 <= reg) by (apply Z.div_le_lower_bound; lia).
  assert (reg <= 4 * 10 ^ 9) by (apply Z.div_le_upper_bound; lia). clearbody reg.
  destruct (Z.ltb_spec 0 reg); [|lia]. unfold u32. rewrite !wrap_small by (unfold fits; try rewrite wrap_small; unfold fits; lia).
  destruct (Z.leb_spec (250 * 1000) (rt_tokens r + reg)); cbn [rt_tokens]; lia.
Qed.

(** ** Properties *)

(** C36: over any interval of any history of sends and policy publications the
    limiter lets at most 250 packets of a UID pass plus one per two milliseconds
    elapsed, as long as no publication in the interval drops the UID's bucket;
    sends that find no bucket and cannot allocate one come on top, since the code
    lets them pass.  What was saved up before the interval does not count. *)
Theorem udp_rate_bounded uid pre mid t0 t1 :
  StronglySorted Z.le (re_time <$> pre ++ mid) → Forall (λ e, 0 <= re_time e) (pre ++ mid) →
  Forall (λ e, re_time e <= t0) pre → Forall (λ e, t0 <= re_time e <= t1) mid → 0 <= t0 <= t1 → t1 < 2 ^ 64 →
  Forall (keeps uid) mid →
  let rates := rate_run pre ∅ in
  count_events (passes uid) mid rates <=
    BUCKET_CAPACITY + (t1 - t0) / TOKEN_REGEN_NS + count_events (unmetered uid) mid rates.
Proof.
  intros Hs Hpos Hpre Hmid Ht Ht1 Hk rates. rewrite fmap_app in Hs.
  apply Forall_app in Hpos as [Hpos1 _]. apply StronglySorted_app in Hs as (_ & Hs1 & Hs2).
  assert (rates_ok t0 rates) as Hr.
  { eapply (rate_run_ok 0 pre); [apply map_Forall_empty| |lia| |done|lia].
    - constructor; [done|]. by apply Forall_fmap.
    - eapply Forall_impl; [exact Hpre|]. cbn. lia. }
  pose proof (run_credit uid mid rates t0 t1 Hr) as Hc.
  assert (credit t0 uid rates <= full_price).
  { unfold credit. destruct (rates !! uid); lia. }
  assert (count_events (passes uid) mid rates - count_events (unmetered uid) mid rates - BUCKET_CAPACITY
    <= (t1 - t0) / TOKEN_REGEN_NS); [|lia].
  apply Z.div_le_lower_bound; [done|].
  assert (count_events (passes uid) mid rates * send_price <= credit t0 uid rates + (t1 - t0) * 1000 +
    count_events (unmetered uid) mid rates * send_price); [|unfold full_price, send_price, TOKEN_REGEN_NS, BUCKET_CAPACITY in *; lia].
  apply Hc; try done; try lia.
  - constructor; [done|]. apply Forall_fmap. eapply Forall_impl; [exact Hmid|]. cbn. lia.
  - eapply Forall_impl; [exact Hmid|]. cbn. lia.
Qed.

(** Ten seconds of silence after one send, then three hundred sends at once. *)
Lemma udp_rate_bounded_witness :
  let rates := rate_run [RSend true 0 10123] ∅ in
  let burst := replicate 300 (RSend true 10000000000 10123) in
  count_events (passes 10123) burst rates = 250 ∧
  count_events (passes 10123) burst rates <=
    BUCKET_CAPACITY + (10000000000 - 10000000000) / TOKEN_REGEN_NS +
    count_events (unmetered 10123) burst rates.
Proof.
  split; [vm_compute; reflexivity|].
  apply (udp_rate_bounded 10123 [RSend true 0 10123] (replicate 300 (RSend true 10000000000 10123))
    10000000000 10000000000).
  - apply (bool_decide_unpack _). vm_compute. exact I.
  - apply (bool_decide_unpack _). vm_compute. exact I.
  - apply (bool_decide_unpack _). vm_compute. exact I.
  - apply (bool_decide_unpack _). vm_compute. exact I.
  - lia.
  - lia.
  - apply Forall_replicate. exact I.
Defined.

(** A sender that waits two milliseconds is never refused, as long as its
    bucket has not been idle for more than two hours. *)
Theorem udp_paced_send_passes alloc now uid rates r :
  rates !! uid = Some r → bucket_ok r →
  TOKEN_REGEN_NS <= now - rt_last_time_ns r < 8 * 10 ^ 12 →
  (udp_rate_limit_exceeded alloc now uid rates).1 = false.
Proof.
  intros Hr Hok He. unfold udp_rate_limit_exceeded. rewrite Hr.
  pose proof (paced_refill now r Hok He) as Ht. unfold take_token.
  by destruct (Z.leb_spec 1000 (rt_tokens (refill now r))); [|lia].
Qed.

Lemma udp_paced_send_passes_witness :
  (udp_rate_limit_exceeded true 2000000 10123 {[10123 := mk_rate 0 0]}).1 = false.
Proof.
  apply (udp_paced_send_passes true 2000000 10123 {[10123 := mk_rate 0 0]} (mk_rate 0 0)).
  - reflexivity.
  - vm_compute. repeat split; discriminate.
  - vm_compute. split; [discriminate|reflexivity].
Defined.

(** Beyond that the 32-bit conversion of the regenerated tokens shows: an
    empty bucket idle for 2^32 thousandths of a token (about 2.4 hours) gets
    none of them back and still refuses the next send. *)
Theorem udp_idle_refill_truncated :
  ∃ now r, bucket_ok r ∧ now - rt_last_time_ns r = 2 ^ 32 * 2000 ∧
    (udp_rate_limit_exceeded true now 10123 {[10123 := r]}).1 = true.
Proof.
  exists (2 ^ 32 * 2000), (mk_rate 0 0). split_and!; [|done|done].
  vm_compute. repeat split; discriminate.
Qed.
