(* ===== verification/Device.v ===== *)
(** * The control device

    The state behind [/dev/vpnhide_ctrl] and the operations that change it
    ([kmod/main.c]): publishing a policy, cover addresses, active VPN
    interfaces, the ioctl dispatcher and the text commands of [write].  RCU
    pointers are options; each locked section is one step.  What a handler
    copies from userspace is an argument, [None] for a fault. *)
From S2P Require Import Prelude Abi Snapshot PolicyQuery Userspace OwnedPorts Stats PortStats UdpRate.
From Stdlib Require Import Strings.Byte.

#[local] Open Scope Z_scope.

(** ** Cover addresses *)

Record vpnhide_spoof_ip := mk_spoof_ip {
  sip_ipv4_addr : Z;
  sip_ipv6_addr : bytes;
  sip_ipv6_linklocal_addr : bytes;
  sip_has_ipv4 : Z;
  sip_has_ipv6 : Z;
  sip_has_ipv6_linklocal : Z;
  sip_reserved : Z;
  sip_ipv4_mtu : Z;
  sip_ipv6_mtu : Z
}.

Definition zero_spoof_ip : vpnhide_spoof_ip :=
  mk_spoof_ip 0 (replicate 16 x00) (replicate 16 x00) 0 0 0 0 0 0.

Section spoof.
(** [ipv6_addr_type(addr) & IPV6_ADDR_LINKLOCAL] of the kernel. *)
Context (ipv6_is_linklocal : bytes → bool).

(** The sanitised copy [update_spoof_ip] publishes. *)
Definition sanitize_spoof_ip (sip : vpnhide_spoof_ip) : vpnhide_spoof_ip :=
  let has4 := bang_bang (sip_has_ipv4 sip) in
  let has6 := bang_bang (sip_has_ipv6 sip) in
  let hasll := bang_bang (sip_has_ipv6_linklocal sip) in
  let mtu4 := if (has4 =? 0) || (sip_ipv4_mtu sip <? 68) || (65535 <? sip_ipv4_mtu sip)
              then 0 else sip_ipv4_mtu sip in
  let mtu6 := if (has6 =? 0) || (sip_ipv6_mtu sip <? 1280) || (65535 <? sip_ipv6_mtu sip)
              then 0 else sip_ipv6_mtu sip in
  let drop_ll := (hasll =? 0) || negb (ipv6_is_linklocal (sip_ipv6_linklocal_addr sip)) in
  {| sip_ipv4_addr := sip_ipv4_addr sip;
     sip_ipv6_addr := sip_ipv6_addr sip;
     sip_ipv6_linklocal_addr :=
       if drop_ll then replicate 16 x00 else sip_ipv6_linklocal_addr sip;
     sip_has_ipv4 := has4;
     sip_has_ipv6 := has6;
     sip_has_ipv6_linklocal := if drop_ll then 0 else hasll;
     sip_reserved := 0;
     sip_ipv4_mtu := mtu4;
     sip_ipv6_mtu := mtu6 |}.
End spoof.

Definition get_spoof_ip (p : option vpnhide_spoof_ip) : vpnhide_spoof_ip := default zero_spoof_ip p.

(** ** Active VPN interfaces *)

Record vpnhide_active_vpn := mk_active_vpn {
  av_ifindex : Z;
  av_name : bytes
}.

(** [count] and the full array of [MAX_ACTIVE_VPNS] entries. *)
Record vpnhide_vpn_ifindexes := mk_vpn_ifindexes {
  vi_count : Z;
  vi_vpns : list vpnhide_active_vpn
}.

Record vh_vpn_name_cache := mk_name_cache {
  nc_hashes : list Z;
  nc_names : list bytes
}.

(** [for (i = 0; i < maxlen && s[i] != '\0'; i++)] *)
Fixpoint fnv1a_loop (s : bytes) (maxlen : nat) (hash : Z) : Z :=
  match maxlen, s with
  | S maxlen, c :: s =>
      if bool_decide (c = x00) then hash
      else fnv1a_loop s maxlen (u32 (Z.lxor hash (byte_to_Z c) * 16777619))
  | _, _ => hash
  end.

Definition fnv1a_name (s : bytes) (maxlen : nat) : Z := fnv1a_loop s maxlen 2166136261.

Definition cached_name (v : vpnhide_active_vpn) : bytes := strncpy 15 (av_name v) ++ [x00].

(** The cache [vh_rebuild_name_cache] publishes; without memory the old one
    stays. *)
Definition vh_rebuild_name_cache (alloc : bool) (idata : vpnhide_vpn_ifindexes)
    (old : option vh_vpn_name_cache) : option vh_vpn_name_cache :=
  if negb alloc then old
  else
    let count := if vi_count idata <? MAX_ACTIVE_VPNS then vi_count idata else MAX_ACTIVE_VPNS in
    let names := cached_name <$> take (Z.to_nat count) (vi_vpns idata) in
    Some (mk_name_cache ((λ n, fnv1a_name n 16) <$> names) names).

Definition vh_is_vpn_name_cached (c : option vh_vpn_name_cache) (name : bytes) (len : nat) : bool :=
  if (len =? 0)%nat then false
  else
    let h := fnv1a_name name len in
    match c with
    | None => false
    | Some c =>
        existsb (λ '(h', n), (h' =? h) && strncmp_eq 16 n name) (zip (nc_hashes c) (nc_names c))
    end.

Definition is_active_vpn_ifindex (vpns : option vpnhide_vpn_ifindexes) (ifindex : Z) : bool :=
  match vpns with
  | None => false
  | Some v => existsb (λ e, av_ifindex e =? ifindex) (take (Z.to_nat (vi_count v)) (vi_vpns v))
  end.

Definition is_active_vpn_ifname (vpns : option vpnhide_vpn_ifindexes) (name : bytes) : bool :=
  if bool_decide (cstr name = []) then false
  else match vpns with
       | None => false
       | Some v => existsb (λ e, strncmp_eq 16 (av_name e) name)
                     (take (Z.to_nat (vi_count v)) (vi_vpns v))
       end.

(** ** Device state *)

Record device := mk_device {
  dv_policy : option vpnhide_policy_snapshot;
  dv_generation : Z;
  dv_owned : option vpnhide_owned_ports_snapshot;
  dv_pending : pending_table;
  dv_stats : stats_state;
  dv_port_stats : port_stats_state;
  dv_spoof : option vpnhide_spoof_ip;
  dv_vpns : option vpnhide_vpn_ifindexes;
  dv_names : option vh_vpn_name_cache;
  dv_cover_ifindex : Z;
  dv_cover_ifname : bytes;
  dv_java_stats : bytes;
  dv_java_status : bytes;
  dv_java_clear_generation : Z;
  dv_eventfd : option Z;
  dv_udp_rates : udp_rates
}.

(** The module after [vpnhide_init] with its port table allocated. *)
Definition initial_device : device :=
  mk_device None 1 None empty_pending_table (mk_stats [] 0 0)
    (mk_port_stats (Some empty_port_table) 0) None None None 0 (replicate 16 x00)
    (replicate 4096 x00) (replicate 256 x00) 1 None ∅.

Section setters.
Context (d : device).
Definition set_policy p := mk_device p (dv_generation d) (dv_owned d) (dv_pending d) (dv_stats d)
  (dv_port_stats d) (dv_spoof d) (dv_vpns d) (dv_names d) (dv_cover_ifindex d) (dv_cover_ifname d)
  (dv_java_stats d) (dv_java_status d) (dv_java_clear_generation d) (dv_eventfd d) (dv_udp_rates d).
Definition set_generation g := mk_device (dv_policy d) g (dv_owned d) (dv_pending d) (dv_stats d)
  (dv_port_stats d) (dv_spoof d) (dv_vpns d) (dv_names d) (dv_cover_ifindex d) (dv_cover_ifname d)
  (dv_java_stats d) (dv_java_status d) (dv_java_clear_generation d) (dv_eventfd d) (dv_udp_rates d).
Definition set_ports o p := mk_device (dv_policy d) (dv_generation d) o p (dv_stats d)
  (dv_port_stats d) (dv_spoof d) (dv_vpns d) (dv_names d) (dv_cover_ifindex d) (dv_cover_ifname d)
  (dv_java_stats d) (dv_java_status d) (dv_java_clear_generation d) (dv_eventfd d) (dv_udp_rates d).
Definition set_stats s p := mk_device (dv_policy d) (dv_generation d) (dv_owned d) (dv_pending d) s
  p (dv_spoof d) (dv_vpns d) (dv_names d) (dv_cover_ifindex d) (dv_cover_ifname d)
  (dv_java_stats d) (dv_java_status d) (dv_java_clear_generation d) (dv_eventfd d) (dv_udp_rates d).
Definition set_spoof s := mk_device (dv_policy d) (dv_generation d) (dv_owned d) (dv_pending d)
  (dv_stats d) (dv_port_stats d) s (dv_vpns d) (dv_names d) (dv_cover_ifindex d) (dv_cover_ifname d)
  (dv_java_stats d) (dv_java_status d) (dv_java_clear_generation d) (dv_eventfd d) (dv_udp_rates d).
Definition set_vpns v n := mk_device (dv_policy d) (dv_generation d) (dv_owned d) (dv_pending d)
  (dv_stats d) (dv_port_stats d) (dv_spoof d) v n (dv_cover_ifindex d) (dv_cover_ifname d)
  (dv_java_stats d) (dv_java_status d) (dv_java_clear_generation d) (dv_eventfd d) (dv_udp_rates d).
Definition set_cover i n := mk_device (dv_policy d) (dv_generation d) (dv_owned d) (dv_pending d)
  (dv_stats d) (dv_port_stats d) (dv_spoof d) (dv_vpns d) (dv_names d) i n
  (dv_java_stats d) (dv_java_status d) (dv_java_clear_generation d) (dv_eventfd d) (dv_udp_rates d).
Definition set_java s t g := mk_device (dv_policy d) (dv_generation d) (dv_owned d) (dv_pending d)
  (dv_stats d) (dv_port_stats d) (dv_spoof d) (dv_vpns d) (dv_names d) (dv_cover_ifindex d)
  (dv_cover_ifname d) s t g (dv_eventfd d) (dv_udp_rates d).
Definition set_eventfd e := mk_device (dv_policy d) (dv_generation d) (dv_owned d) (dv_pending d)
  (dv_stats d) (dv_port_stats d) (dv_spoof d) (dv_vpns d) (dv_names d) (dv_cover_ifindex d)
  (dv_cover_ifname d) (dv_java_stats d) (dv_java_status d) (dv_java_clear_generation d) e (dv_udp_rates d).
Definition set_udp u := mk_device (dv_policy d) (dv_generation d) (dv_owned d) (dv_pending d)
  (dv_stats d) (dv_port_stats d) (dv_spoof d) (dv_vpns d) (dv_names d) (dv_cover_ifindex d)
  (dv_cover_ifname d) (dv_java_stats d) (dv_java_status d) (dv_java_clear_generation d)
  (dv_eventfd d) u.
End setters.

(** [atomic_inc] on an [atomic_t] *)
Definition atomic_inc (x : Z) : Z := s32 (x + 1).

Definition bump_generation (d : device) : device := set_generation d (atomic_inc (dv_generation d)).

(** ** Publishing a policy *)

(** The section under [policy_apply_lock]; [(u64)atomic_read] sign-extends. *)
Definition publish_locked (alloc : bool) (snapshot : vpnhide_policy_snapshot)
    (expected_generation : Z) (d : device) : result device :=
  if nonzero expected_generation && negb (expected_generation =? u64 (dv_generation d))
  then Err EAGAIN
  else
    st ← kmod_stats_reconcile alloc snapshot (dv_stats d);
    let d := set_policy d (Some snapshot) in
    let d := set_ports d None empty_pending_table in
    let d := set_stats d st (dv_port_stats d) in
    Ok (set_udp d (vpnhide_udp_rates_prune (Some snapshot) (dv_udp_rates d))).

Definition publish_policy_snapshot (alloc : bool) (snapshot : vpnhide_policy_snapshot)
    (expected_generation : Z) (d : device) : result device :=
  d ← publish_locked alloc snapshot expected_generation d;
  Ok (bump_generation d).

Section apply.
Context {KS : KSort}.

Definition vpnhide_apply_policy_v3 (alloc_snapshot alloc_stats : bool) (payload : bytes)
    (expected_generation : Z) (d : device) : result device :=
  s ← policy_snapshot_from_v3 alloc_snapshot payload;
  publish_policy_snapshot alloc_stats s expected_generation d.

Definition vpnhide_apply_policy_v4 (alloc_v3 alloc_snapshot alloc_stats : bool) (payload : bytes)
    (expected_generation : Z) (d : device) : result device :=
  s ← policy_snapshot_from_v4 alloc_v3 alloc_snapshot payload;
  publish_policy_snapshot alloc_stats s expected_generation d.
End apply.

(** ** The fixed-size version 2 payload *)

Record legacy_port_rule := mk_legacy_rule { lr_start : Z; lr_end : Z; lr_protocol : Z }.

Record vpnhide_uid_port_rules := mk_uid_port_rules {
  ur_uid : Z;
  ur_rule_count : Z;
  ur_mode : Z;
  ur_rules : list legacy_port_rule
}.

(** [struct vpnhide_policy_payload]: counts are [int], arrays have their full
    length. *)
Record vpnhide_policy_payload := mk_payload_v2 {
  p2_kmod_count : Z;
  p2_kmod_uids : list Z;
  p2_lsposed_count : Z;
  p2_lsposed_uids : list Z;
  p2_port_count : Z;
  p2_ports : list vpnhide_uid_port_rules;
  p2_ifaces : vpnhide_iface_ioctl_data;
  p2_mask_count : Z;
  p2_masks : list vpnhide_app_hook_mask_v3;
  p2_active_hooks_mask : Z;
  p2_java_hooks_mask : Z;
  p2_debug_enabled : Z;
  p2_flags : Z
}.

(** ** Layout of the version 2 payload

    [rules] of a target starts at byte 10 (its elements are 2-aligned) and the
    target is padded to 108 bytes. *)
Definition decode_legacy_rule (bs : bytes) : legacy_port_rule :=
  mk_legacy_rule (le_at 2 bs 0) (le_at 2 bs 2) (le_at 1 bs 4).

Definition decode_uid_port_rules (bs : bytes) : vpnhide_uid_port_rules :=
  mk_uid_port_rules (get_u32 bs 0) (s32 (get_u32 bs 4)) (le_at 1 bs 8)
    (read_array decode_legacy_rule 6 bs 10 16).

(** [sizeof(struct vpnhide_policy_payload)] *)
Definition sizeof_payload_v2 : Z := 68132.

Definition decode_payload_v2 (bs : bytes) : vpnhide_policy_payload := {|
  p2_kmod_count := s32 (get_u32 bs 0);
  p2_kmod_uids := read_array decode_u32 4 bs 4 512;
  p2_lsposed_count := s32 (get_u32 bs 2052);
  p2_lsposed_uids := read_array decode_u32 4 bs 2056 512;
  p2_port_count := s32 (get_u32 bs 4104);
  p2_ports := read_array decode_uid_port_rules 108 bs 4108 512;
  p2_ifaces := mk_iface_data (s32 (get_u32 bs (Z.to_nat 59404))) (decode_prefixes bs (Z.to_nat 59408));
  p2_mask_count := s32 (get_u32 bs (Z.to_nat 59920));
  p2_masks := read_array decode_app_hook_mask_v3 16 bs (Z.to_nat 59924) 512;
  p2_active_hooks_mask := get_u32 bs (Z.to_nat 68116);
  p2_java_hooks_mask := get_u32 bs (Z.to_nat 68120);
  p2_debug_enabled := get_u32 bs (Z.to_nat 68124);
  p2_flags := get_u32 bs (Z.to_nat 68128)
|}.

Definition count_bad (count limit : Z) : bool := (count <? 0) || (limit <? count).

Definition legacy_rule_bad (r : legacy_port_rule) : bool :=
  (lr_end r <? lr_start r) || (VH_PROTO_BOTH <? lr_protocol r).

Definition legacy_target_bad (t : vpnhide_uid_port_rules) : bool :=
  count_bad (ur_rule_count t) VPNHIDE_LEGACY_PORT_RULES_PER_UID ||
  existsb legacy_rule_bad (take (Z.to_nat (ur_rule_count t)) (ur_rules t)).

(** The targets with the index of their first rule, and the rules. *)
Fixpoint legacy_targets (ts : list vpnhide_uid_port_rules) (rule_index : Z)
    : list vpnhide_port_target_v3 :=
  match ts with
  | [] => []
  | t :: ts => mk_port_target_v3 (ur_uid t) rule_index (ur_rule_count t) (ur_mode t) [0; 0; 0] ::
               legacy_targets ts (rule_index + ur_rule_count t)
  end.

Definition legacy_rules (ts : list vpnhide_uid_port_rules) : list vpnhide_port_rule_v3 :=
  mjoin ((λ t, (λ r, mk_port_rule_v3 (lr_start r) (lr_end r) (lr_protocol r) [0; 0; 0]) <$>
              take (Z.to_nat (ur_rule_count t)) (ur_rules t)) <$> ts).

(** The masks are copied field by field into zeroed memory. *)
Definition legacy_mask (m : vpnhide_app_hook_mask_v3) : vpnhide_app_hook_mask_v3 :=
  mk_app_hook_mask_v3 (am_uid m) (am_kernel_mask m) (am_java_mask m) (am_has_kernel_override m)
    (am_has_java_override m) [0; 0].

(** The version 3 payload [vpnhide_apply_policy] builds. *)
Definition legacy_payload_v3 (p : vpnhide_policy_payload) : bytes :=
  let kmod := take (Z.to_nat (p2_kmod_count p)) (p2_kmod_uids p) in
  let lsposed := take (Z.to_nat (p2_lsposed_count p)) (p2_lsposed_uids p) in
  let ports := take (Z.to_nat (p2_port_count p)) (p2_ports p) in
  let rules := legacy_rules ports in
  let masks := legacy_mask <$> take (Z.to_nat (p2_mask_count p)) (p2_masks p) in
  let c1 := Z.of_nat sizeof_payload_v3 in
  let c2 := c1 + p2_kmod_count p * 4 in
  let c3 := c2 + p2_lsposed_count p * 4 in
  let c4 := c3 + p2_port_count p * 16 in
  let c5 := c4 + Z.of_nat (length rules) * 8 in
  let size := c5 + p2_mask_count p * 16 in
  encode_payload_v3 {|
    p3_total_size := u32 size; p3_flags := p2_flags p;
    p3_active_hooks_mask := p2_active_hooks_mask p; p3_java_hooks_mask := p2_java_hooks_mask p;
    p3_debug_enabled := p2_debug_enabled p; p3_iface_count := if_count (p2_ifaces p);
    p3_iface_prefixes := if_prefixes (p2_ifaces p);
    p3_kmod_uids := mk_section c1 (p2_kmod_count p);
    p3_lsposed_uids := mk_section c2 (p2_lsposed_count p);
    p3_port_targets := mk_section c3 (p2_port_count p);
    p3_port_rules := mk_section c4 (Z.of_nat (length rules));
    p3_app_hook_masks := mk_section c5 (p2_mask_count p) |} ++
  mjoin (put_u32 <$> kmod) ++ mjoin (put_u32 <$> lsposed) ++
  mjoin (encode_port_target_v3 <$> legacy_targets ports 0) ++
  mjoin (encode_port_rule_v3 <$> rules) ++ mjoin (encode_app_hook_mask_v3 <$> masks).

Definition vpnhide_apply_policy {KS : KSort} (alloc_v3 alloc_snapshot alloc_stats : bool)
    (p : vpnhide_policy_payload) (expected_generation : Z) (d : device) : result device :=
  if count_bad (p2_kmod_count p) VPNHIDE_LEGACY_TARGET_UIDS ||
     count_bad (p2_lsposed_count p) VPNHIDE_LEGACY_TARGET_UIDS ||
     count_bad (p2_port_count p) VPNHIDE_LEGACY_TARGET_UIDS ||
     count_bad (if_count (p2_ifaces p)) MAX_IFACE_PREFIXES ||
     count_bad (p2_mask_count p) VPNHIDE_LEGACY_TARGET_UIDS
  then Err EINVAL
  else if existsb legacy_target_bad (take (Z.to_nat (p2_port_count p)) (p2_ports p))
  then Err EINVAL
  else if negb alloc_v3 then Err ENOMEM
  else vpnhide_apply_policy_v3 alloc_snapshot alloc_stats (legacy_payload_v3 p)
         expected_generation d.

(** ** ioctls *)

Inductive ioctl_out :=
  | OutNone
  | OutWord (w : Z)
  | OutUids (uids : list Z)
  | OutIfaces (data : option vpnhide_iface_ioctl_data)
  | OutMasks (masks : list vpnhide_app_hook_mask_v3)
  | OutStats (r : stats_reply)
  | OutStatsV2 (r : stats_reply) (p : port_reply)
  | OutCounts (uid_count port_count : Z)
  | OutText (text : bytes).

(** The result code of the handler, what it writes back, and the device. *)
Record ioctl_end := mk_end {
  ie_error : option errno;
  ie_out : ioctl_out;
  ie_device : device
}.

Definition fail (e : errno) (d : device) : ioctl_end := mk_end (Some e) OutNone d.
Definition done_ (out : ioctl_out) (d : device) : ioctl_end := mk_end None out d.

(** The device changes only on success. *)
Definition commit (r : result device) (d : device) : ioctl_end :=
  match r with Ok d' => done_ OutNone d' | Err e => fail e d end.

Record vpnhide_policy_ioctl := mk_policy_ioctl {
  rq_abi_version : Z;
  rq_payload_size : Z;
  rq_payload_ptr : Z;
  rq_expected_generation : Z
}.

(** [copy_from_user(dst, ptr, size)]: [mem] is the readable memory at [ptr]. *)
Definition copy_from_user (mem : bytes) (size : Z) : option bytes :=
  if Z.of_nat (length mem) <? size then None else Some (take (Z.to_nat size) mem).

Record allocs := mk_allocs { al_payload : bool; al_v3 : bool; al_snapshot : bool; al_stats : bool }.

Section ioctl.
Context {KS : KSort} (HZ : Z) (ipv6_is_linklocal : bytes → bool).

Definition size_bad (size min : Z) : bool := (size <? min) || (VPNHIDE_POLICY_MAX_BYTES <? size).

(** [VH_SET_POLICY] *)
Definition ioctl_set_policy (al : allocs) (request : option vpnhide_policy_ioctl)
    (mem : bytes) (d : device) : ioctl_end :=
  match request with
  | None => fail EFAULT d
  | Some rq =>
      if rq_payload_ptr rq =? 0 then fail EINVAL d
      else
        let v2 := rq_abi_version rq =? VPNHIDE_POLICY_ABI_VERSION_V2 in
        let v3 := rq_abi_version rq =? VPNHIDE_POLICY_ABI_VERSION_V3 in
        let v4 := rq_abi_version rq =? VPNHIDE_POLICY_ABI_VERSION_V4 in
        if negb (v2 || v3 || v4) then fail EPROTONOSUPPORT d
        else if (v2 && negb (rq_payload_size rq =? sizeof_payload_v2)) ||
                (v3 && size_bad (rq_payload_size rq) (Z.of_nat sizeof_payload_v3)) ||
                (v4 && size_bad (rq_payload_size rq) (Z.of_nat sizeof_payload_v4))
        then fail EINVAL d
        else if negb (al_payload al) then fail ENOMEM d
        else
          match copy_from_user mem (rq_payload_size rq) with
          | None => fail EFAULT d
          | Some b =>
              let expected := rq_expected_generation rq in
              if v4 then commit (vpnhide_apply_policy_v4 (al_v3 al) (al_snapshot al) (al_stats al) b
                                   expected d) d
              else if v3 then commit (vpnhide_apply_policy_v3 (al_snapshot al) (al_stats al) b
                                        expected d) d
              else commit (vpnhide_apply_policy (al_v3 al) (al_snapshot al) (al_stats al)
                             (decode_payload_v2 b) expected d) d
          end
  end.

(** [VH_GET_TARGETS] and [VH_GET_LSPOSED_TARGETS]: the fixed-size reply. *)
Definition ioctl_get_targets (alloc copy_out lsposed : bool) (d : device) : ioctl_end :=
  if negb alloc then fail ENOMEM d
  else
    let uids := match dv_policy d with
                | None => []
                | Some s => if lsposed then lsposed_uids s else kmod_uids s
                end in
    if VPNHIDE_LEGACY_TARGET_UIDS <? Z.of_nat (length uids) then fail ENOSPC d
    else if negb copy_out then fail EFAULT d else done_ (OutUids uids) d.

(** [VH_SET_SPOOF_IP] *)
Definition ioctl_set_spoof_ip (alloc : bool) (sip : option vpnhide_spoof_ip) (d : device) : ioctl_end :=
  match sip with
  | None => fail EFAULT d
  | Some sip =>
      if negb alloc then fail ENOMEM d
      else done_ OutNone (set_spoof d (Some (sanitize_spoof_ip ipv6_is_linklocal sip)))
  end.

(** [VH_SET_COVER_IFACE] *)
Definition ioctl_set_cover_iface (ifindex : option Z) (d : device) : ioctl_end :=
  match ifindex with
  | None => fail EFAULT d
  | Some i => done_ OutNone (set_cover d (s32 i) (dv_cover_ifname d))
  end.

(** [VH_GET_IFACE_PREFIXES] *)
Definition ioctl_get_iface_prefixes (alloc copy_out : bool) (d : device) : ioctl_end :=
  if negb alloc then fail ENOMEM d
  else if negb copy_out then fail EFAULT d
  else done_ (OutIfaces (iface_prefixes <$> dv_policy d)) d.

(** [VH_SET_VPN_IFINDEXES] *)
Definition ioctl_set_vpn_ifindexes (alloc_data alloc_vpns alloc_cache : bool)
    (idata : option vpnhide_vpn_ifindexes) (d : device) : ioctl_end :=
  if negb alloc_data then fail ENOMEM d
  else match idata with
       | None => fail EFAULT d
       | Some idata =>
           if (vi_count idata <? 0) || (MAX_ACTIVE_VPNS <? vi_count idata) then fail EINVAL d
           else if negb alloc_vpns then fail ENOMEM d
           else
             let d := set_vpns d (Some idata)
                        (vh_rebuild_name_cache alloc_cache idata (dv_names d)) in
             done_ OutNone (bump_generation d)
       end.

(** [VH_GET_APP_HOOK_MASKS] *)
Definition ioctl_get_app_hook_masks (alloc copy_out : bool) (d : device) : ioctl_end :=
  if negb alloc then fail ENOMEM d
  else
    let masks := match dv_policy d with None => [] | Some s => app_hook_masks s end in
    if VPNHIDE_LEGACY_TARGET_UIDS <? Z.of_nat (length masks) then fail ENOSPC d
    else if negb copy_out then fail EFAULT d else done_ (OutMasks masks) d.

(** A read of one word: [put_user] or [copy_to_user]. *)
Definition ioctl_get_word (copy_out : bool) (w : Z) (d : device) : ioctl_end :=
  if copy_out then done_ (OutWord w) d else fail EFAULT d.

(** [VH_GET_STATS].  The call takes the lock twice and the table may change in
    between: [first] is the table its first locked section found, [d] the device
    at the second; the copy to the caller may fault. *)
Definition ioctl_get_stats (alloc copy_out : bool) (first : list kmod_uid_stats_total)
    (request : option (Z * Z)) (d : device) : ioctl_end :=
  match request with
  | None => fail EFAULT d
  | Some (capacity, ptr) =>
      match vh_get_stats capacity ptr alloc first (dv_stats d) with
      | Err e => fail e d
      | Ok (r, st) =>
          let d := set_stats d st (dv_port_stats d) in
          if negb copy_out then fail EFAULT d else mk_end (rp_error r) (OutStats r) d
      end
  end.

(** [VH_GET_STATS_V2], likewise; capacity and pointer for UIDs and for ports,
    [first_uids] and [first_ports] the tables its first sections found. *)
Definition ioctl_get_stats_v2 (alloc_uid alloc_port copy_out : bool) (now : Z)
    (first_uids : list kmod_uid_stats_total) (first_ports : port_stats_state)
    (request : option (Z * Z * Z * Z)) (d : device) : ioctl_end :=
  match request with
  | None => fail EFAULT d
  | Some (uid_capacity, uid_ptr, port_capacity, port_ptr) =>
      if (nonzero uid_capacity && (uid_ptr =? 0)) || (nonzero port_capacity && (port_ptr =? 0))
      then fail EINVAL d
      else
        let '(_, ports0) := count_live_port_stats_locked HZ now (dv_port_stats d) in
        let d0 := set_stats d (dv_stats d) ports0 in
        match vh_get_stats_v2 uid_capacity uid_ptr alloc_uid first_uids (dv_stats d),
              vh_get_port_stats HZ now port_capacity port_ptr alloc_port first_ports ports0 with
        | Err e, _ => fail e d0
        | _, Err e => fail e d0
        | Ok (r, st), Ok (p, ports) =>
            let d := set_stats d st ports in
            if negb copy_out then fail EFAULT d
            else match rp_error r, pr_error p with
                 | None, None => done_ (OutStatsV2 r p) d
                 | _, _ => mk_end (Some ENOSPC) (OutCounts (rp_count r) (pr_count p)) d
                 end
        end
  end.

(** [VH_CLEAR_STATS] *)
Definition ioctl_clear_stats (alloc : bool) (d : device) : ioctl_end :=
  match vh_clear_stats alloc (dv_stats d), vh_clear_port_stats alloc (dv_port_stats d) with
  | Ok st, Ok ps => done_ OutNone (set_stats d st ps)
  | Err e, _ | _, Err e => fail e d
  end.

(** [VH_GET_JAVA_STATS] and [VH_GET_HOOK_STATUS] *)
Definition ioctl_get_text (copy_out : bool) (text : bytes) (d : device) : ioctl_end :=
  if copy_out then done_ (OutText text) d else fail EFAULT d.

(** [VH_SET_PORT_EVENTFD]; the lookup of the descriptor may fail. *)
Definition ioctl_set_port_eventfd (event_fd : option (result Z)) (d : device) : ioctl_end :=
  match event_fd with
  | None => fail EFAULT d
  | Some (Err e) => fail e d
  | Some (Ok ctx) => done_ OutNone (set_eventfd d (Some ctx))
  end.

(** [VH_SET_OWNED_PORTS] *)
Definition ioctl_set_owned_ports (alloc_entries alloc_snapshot : bool) (now : Z)
    (update : option (Z * Z * Z)) (entries : option (list vpnhide_owned_port)) (d : device)
    : ioctl_end :=
  match update with
  | None => fail EFAULT d
  | Some (count, reserved, ptr) =>
      match replace_owned_ports HZ now count reserved ptr entries alloc_entries alloc_snapshot with
      | Err e => fail e d
      | Ok s => done_ OutNone (set_ports d (Some s) (dv_pending d))
      end
  end.

Inductive vh_ioctl :=
  | VH_SET_POLICY (al : allocs) (request : option vpnhide_policy_ioctl) (mem : bytes)
  | VH_GET_TARGETS (alloc : bool)
  | VH_GET_LSPOSED_TARGETS (alloc : bool)
  | VH_GET_JAVA_HOOK_MASK
  | VH_SET_SPOOF_IP (alloc : bool) (sip : option vpnhide_spoof_ip)
  | VH_SET_COVER_IFACE (ifindex : option Z)
  | VH_GET_IFACE_PREFIXES (alloc : bool)
  | VH_SET_VPN_IFINDEXES (alloc_data alloc_vpns alloc_cache : bool)
      (idata : option vpnhide_vpn_ifindexes)
  | VH_GET_ACTIVE_HOOKS
  | VH_GET_APP_HOOK_MASKS (alloc : bool)
  | VH_GET_STATS (alloc : bool) (first : list kmod_uid_stats_total) (request : option (Z * Z))
  | VH_GET_STATS_V2 (alloc_uid alloc_port : bool) (first_uids : list kmod_uid_stats_total)
      (first_ports : port_stats_state) (request : option (Z * Z * Z * Z))
  | VH_GET_STATS_SESSION (session : Z)
  | VH_CLEAR_STATS (alloc : bool)
  | VH_GET_JAVA_STATS
  | VH_GET_HOOK_STATUS
  | VH_GET_VERSION
  | VH_SET_PORT_EVENTFD (event_fd : option (result Z))
  | VH_SET_OWNED_PORTS (alloc_entries alloc_snapshot : bool) (update : option (Z * Z * Z))
      (entries : option (list vpnhide_owned_port))
  | VH_UNKNOWN.

Definition handle_vpnhide_ioctl (capable copy_out : bool) (now : Z) (cmd : vh_ioctl) (d : device)
    : ioctl_end :=
  if negb capable then fail EPERM d
  else
    match cmd with
    | VH_SET_POLICY al request mem => ioctl_set_policy al request mem d
    | VH_GET_TARGETS alloc => ioctl_get_targets alloc copy_out false d
    | VH_GET_LSPOSED_TARGETS alloc => ioctl_get_targets alloc copy_out true d
    | VH_GET_JAVA_HOOK_MASK => ioctl_get_word copy_out (vpnhide_java_hooks_mask (dv_policy d)) d
    | VH_SET_SPOOF_IP alloc sip => ioctl_set_spoof_ip alloc sip d
    | VH_SET_COVER_IFACE i => ioctl_set_cover_iface i d
    | VH_GET_IFACE_PREFIXES alloc => ioctl_get_iface_prefixes alloc copy_out d
    | VH_SET_VPN_IFINDEXES a b c idata => ioctl_set_vpn_ifindexes a b c idata d
    | VH_GET_ACTIVE_HOOKS => ioctl_get_word copy_out (vpnhide_active_hooks_mask (dv_policy d)) d
    | VH_GET_APP_HOOK_MASKS alloc => ioctl_get_app_hook_masks alloc copy_out d
    | VH_GET_STATS alloc first request => ioctl_get_stats alloc copy_out first request d
    | VH_GET_STATS_V2 a b uids ports request => ioctl_get_stats_v2 a b copy_out now uids ports request d
    | VH_GET_STATS_SESSION session => ioctl_get_word copy_out session d
    | VH_CLEAR_STATS alloc => ioctl_clear_stats alloc d
    | VH_GET_JAVA_STATS => ioctl_get_text copy_out (dv_java_stats d) d
    | VH_GET_HOOK_STATUS => ioctl_get_text copy_out (dv_java_status d) d
    | VH_GET_VERSION => ioctl_get_word copy_out VPNHIDE_VERSION_CODE d
    | VH_SET_PORT_EVENTFD fd => ioctl_set_port_eventfd fd d
    | VH_SET_OWNED_PORTS a b update entries => ioctl_set_owned_ports a b now update entries d
    | VH_UNKNOWN => fail ENOIOCTLCMD d
    end.
End ioctl.

(** ** The name cache *)

Lemma fnv1a_loop_cstr s n h : fnv1a_loop s n h = fnv1a_loop (take n (cstr s)) n h.
Proof.
  revert s h; induction n as [|n IH]; intros [|c s] h; try done. simpl.
  case_bool_decide; [done|]. simpl. rewrite bool_decide_eq_false_2 by done. apply IH.
Qed.

Lemma fnv1a_loop_more s n m h :
  (length (cstr s) <= n)%nat → (length (cstr s) <= m)%nat → fnv1a_loop s n h = fnv1a_loop s m h.
Proof.
  revert s m h; induction n as [|n IH]; intros [|c s] m h; simpl; try (by destruct m).
  - case_bool_decide as Hc; [|simpl; lia]. intros _ _. subst. by destruct m.
  - case_bool_decide as Hc; simpl; intros Hn Hm.
    + subst. by destruct m.
    + destruct m; [lia|]. apply IH; lia.
Qed.

(** The hash depends on the string only, once the bound covers it. *)
Lemma fnv1a_name_cstr s s' n m :
  cstr s = cstr s' → (length (cstr s) <= n)%nat → (length (cstr s) <= m)%nat →
  fnv1a_name s n = fnv1a_name s' m.
Proof.
  intros E Hn Hm. unfold fnv1a_name. rewrite (fnv1a_loop_more s n m) by done.
  rewrite fnv1a_loop_cstr, (fnv1a_loop_cstr s'). by rewrite E.
Qed.

Lemma cstr_cached_name v : cstr (cached_name v) = take 15 (cstr (av_name v)).
Proof.
  unfold cached_name, strncpy. rewrite <- app_assoc.
  set (s := take 15 (cstr (av_name v))).
  assert (Forall (λ b, b ≠ x00) s) as Hs by apply Forall_take, cstr_no_nul.
  destruct (15 - length s)%nat as [|k]; by apply cstr_app_nul.
Qed.

(** ** Properties *)

(** Looking a name up in the hashed cache gives the same answer as comparing
    it with the (at most sixteen, fifteen-character) names the daemon last
    reported: the hash filter never hides a match. *)
Theorem name_cache_exact idata old name len :
  len ≠ O → (length (cstr name) <= len)%nat →
  vh_is_vpn_name_cached (vh_rebuild_name_cache true idata old) name len =
  existsb (λ v, bool_decide (take 15 (cstr (av_name v)) = take 16 (cstr name)))
    (take (Z.to_nat (Z.min (vi_count idata) MAX_ACTIVE_VPNS)) (vi_vpns idata)).
Proof.
  intros Hl Hlen. unfold vh_is_vpn_name_cached, vh_rebuild_name_cache. cbn [negb].
  destruct (Nat.eqb_spec len 0); [done|].
  replace (if vi_count idata <? MAX_ACTIVE_VPNS then vi_count idata else MAX_ACTIVE_VPNS)
    with (Z.min (vi_count idata) MAX_ACTIVE_VPNS)
    by (destruct (Z.ltb_spec (vi_count idata) MAX_ACTIVE_VPNS); lia).
  cbn [nc_hashes nc_names]. induction (take _ (vi_vpns idata)) as [|v vs IH]; [done|].
  cbn [fmap list_fmap zip zip_with existsb]. f_equal; [|exact IH].
  assert (strncmp_eq 16 (cached_name v) name =
    bool_decide (take 15 (cstr (av_name v)) = take 16 (cstr name))) as Hcmp.
  { apply Bool.eq_iff_eq_true. rewrite strncmp_eq_spec, bool_decide_eq_true, cstr_cached_name.
    rewrite (take_ge (take 15 _)); [done|]. rewrite length_take. lia. }
  rewrite Hcmp. case_bool_decide as E; [|by rewrite andb_false_r]. rewrite andb_true_r.
  assert (length (cstr name) <= 15)%nat as Hn.
  { apply (f_equal length) in E. rewrite !length_take in E. lia. }
  apply Z.eqb_eq, fnv1a_name_cstr; rewrite cstr_cached_name, E, take_ge by lia; [done|lia|done].
Qed.

Lemma name_cache_exact_witness :
  let idata := mk_vpn_ifindexes 1 [mk_active_vpn 7 [x74; x75; x6e; x30; x00]] in
  vh_is_vpn_name_cached (vh_rebuild_name_cache true idata None) [x74; x75; x6e; x30; x00] 4 =
  existsb (λ v, bool_decide (take 15 (cstr (av_name v)) = take 16 (cstr [x74; x75; x6e; x30; x00])))
    (take (Z.to_nat (Z.min (vi_count idata) MAX_ACTIVE_VPNS)) (vi_vpns idata)).
Proof.
  apply (name_cache_exact (mk_vpn_ifindexes 1 [mk_active_vpn 7 [x74; x75; x6e; x30; x00]]) None
    [x74; x75; x6e; x30; x00] 4); [discriminate|]. apply Nat.leb_le. reflexivity.
Defined.

(** The generation check of a publication is made under the lock but the
    increment comes after it, so once one writer has passed its locked section
    and not yet incremented, a second writer with the same expected generation
    is admitted too instead of being refused. *)
Theorem stale_writer_admitted alloc snapshot1 snapshot2 expected d d1 :
  publish_locked alloc snapshot1 expected d = Ok d1 →
  ∃ d2, publish_locked true snapshot2 expected d1 = Ok d2 ∧ dv_policy d2 = Some snapshot2.
Proof.
  unfold publish_locked at 1. intros H. destruct (nonzero expected && _) eqn:E; [done|]. case_result.
  unfold publish_locked. subst d1. cbn [dv_generation set_udp set_stats set_ports set_policy].
  rewrite E. unfold kmod_stats_reconcile at 1. cbn [negb]. rewrite andb_false_r.
  eexists. by split.
Qed.

Lemma stale_writer_admitted_witness :
  ∃ d1 d2, publish_locked true example_snapshot 1 initial_device = Ok d1 ∧
    publish_locked true (with_match_modes 1 1 1 example_snapshot) 1 d1 = Ok d2 ∧
    dv_policy d2 = Some (with_match_modes 1 1 1 example_snapshot).
Proof.
  destruct (publish_locked true example_snapshot 1 initial_device) as [d1|e] eqn:E.
  - exists d1. destruct (stale_writer_admitted true example_snapshot
      (with_match_modes 1 1 1 example_snapshot) 1 initial_device d1 E) as (d2 & H & Hp).
    exists d2. split; [reflexivity|]. split; assumption.
  - unfold publish_locked in E. cbn in E. discriminate E.
Defined.
