(* ===== verification/CharDev.v ===== *)
(** * Reading and writing the control device

    [vpnhide_dev_write] and [vpnhide_dev_read] of [kmod/main.c]: the text
    commands of the Java side and the text it polls for the configuration. *)
From S2P Require Import Prelude Abi Snapshot PolicyQuery Userspace OwnedPorts Stats PortStats UdpRate Device.
From Stdlib Require Import Strings.String Strings.Byte.

#[local] Open Scope Z_scope.

(** ** Writing *)

Definition newline : byte := x0a.

(** [strchr(s, '\n')] as an offset; the search ends at the NUL. *)
Fixpoint find_newline (s : bytes) : option nat :=
  match s with
  | [] => None
  | c :: s =>
      if bool_decide (c = newline) then Some O
      else if bool_decide (c = x00) then None
      else S <$> find_newline s
  end.

Section write.
(** The kernel's [sscanf] with ["%u;%127[^;];%u"] (UID, hook, count) and with
    ["%u;%u"] (UID, count): the values when every conversion matched. *)
Context (scan3 : bytes → option (Z * bytes * Z)) (scan2 : bytes → option (Z * Z)).

Definition java_line (line : bytes) (st : stats_state) : stats_state :=
  let short := match scan2 line with
               | Some (uid, count) =>
                   if 0 <? count then vpnhide_kmod_record_java_stat st uid [] count else st
               | None => st
               end in
  match scan3 line with
  | Some (uid, hook, count) =>
      if 0 <? count then vpnhide_kmod_record_java_stat st uid hook count else short
  | None => short
  end.

(** The loop over the shared buffer: a line ends where its newline was
    overwritten with NUL.  Every round but the last moves [ptr] forward, so
    the length of the buffer bounds their number. *)
Fixpoint java_lines (fuel : nat) (buf : bytes) (ptr : nat) (st : stats_state)
    : bytes * stats_state :=
  match fuel with
  | O => (buf, st)
  | S fuel =>
      if bool_decide (cstr (drop ptr buf) = []) then (buf, st)
      else
        let line_end := find_newline (drop ptr buf) in
        let buf := match line_end with Some i => <[(ptr + i)%nat := x00]> buf | None => buf end in
        let line := cstr (drop ptr buf) in
        let st := if bool_decide (line = []) then st else java_line line st in
        match line_end with
        | None => (buf, st)
        | Some i => java_lines fuel buf (ptr + i + 1) st
        end
  end.

(** [val] without one trailing newline. *)
Definition chomp (val : bytes) : bytes :=
  if bool_decide (last val = Some newline) then removelast val else val.

(** The value written to [global_cover_ifname]; ["none"] and the empty name
    clear its first byte. *)
Definition cover_name (val old : bytes) : bytes :=
  if bool_decide (val = []) || strcmp_eq val (lit "none") then <[0%nat := x00]> old
  else strncpy 15 val ++ [x00].

Definition write_command (kbuf : bytes) (d : device) : device :=
  if strncmp_eq 6 kbuf (lit "stats:") then
    let buf := strncpy 4095 (drop 6 kbuf) ++ [x00] in
    let '(buf, st) := java_lines 4096 buf 0 (dv_stats d) in
    set_stats (set_java d buf (dv_java_status d) (dv_java_clear_generation d)) st (dv_port_stats d)
  else if strncmp_eq 7 kbuf (lit "status:") then
    set_java d (dv_java_stats d) (strncpy 255 (drop 7 kbuf) ++ [x00]) (dv_java_clear_generation d)
  else if strcmp_eq kbuf (lit "clear_stats") then
    bump_generation (set_java d (<[0%nat := x00]> (dv_java_stats d)) (dv_java_status d)
                       (atomic_inc (dv_java_clear_generation d)))
  else if strncmp_eq 12 kbuf (lit "cover_iface:") then
    let val := chomp (cstr (drop 12 kbuf)) in
    bump_generation (set_cover d (dv_cover_ifindex d) (cover_name val (dv_cover_ifname d)))
  else d.

(** [buf] is what [copy_from_user] reads, [None] for a fault. *)
Definition vpnhide_dev_write (alloc : bool) (count : Z) (buf : option bytes) (d : device)
    : result (Z * device) :=
  if 4096 <? count then Err EINVAL
  else if negb alloc then Err ENOMEM
  else match buf with
       | None => Err EFAULT
       | Some b => Ok (count, write_command (take (Z.to_nat count) b ++ [x00]) d)
       end.
End write.

(** ** Reading *)

(** ["%u"]; a 32-bit value has at most ten digits. *)
Fixpoint dec_digits (fuel : nat) (n : Z) : bytes :=
  match fuel with
  | O => []
  | S fuel =>
      (if n <? 10 then [] else dec_digits fuel (n / 10)) ++ [byte_of_Z (48 + n mod 10)]
  end.

Definition fmt_u (n : Z) : bytes := dec_digits 20 n.
Definition fmt_d (n : Z) : bytes := if n <? 0 then x2d :: fmt_u (- n) else fmt_u n.

(** ["%s"] of the [i]-th element of an array of character arrays: it stops at
    the first NUL, which may lie in a later element. *)
Definition fmt_s_at (i : nat) (names : list bytes) : bytes := cstr (mjoin (drop i names)).

Definition encode_active_vpn (v : vpnhide_active_vpn) : bytes := put_u32 (av_ifindex v) ++ av_name v.

Definition fmt_vpn_at (i : nat) (vpns : list vpnhide_active_vpn) : bytes :=
  cstr (drop 4 (mjoin (encode_active_vpn <$> drop i vpns))).

Definition spaced (f : nat → bytes) (count : Z) : bytes :=
  mjoin ((λ i, x20 :: f i) <$> seq 0 (Z.to_nat count)).

Definition java_override_text (m : vpnhide_app_hook_mask_v3) : bytes :=
  if am_has_java_override m =? 0 then []
  else x20 :: fmt_u (am_uid m) ++ lit ":" ++ fmt_u (am_java_mask m).

Definition nl : bytes := [newline].

Definition list_mode_text (snapshot : option vpnhide_policy_snapshot) : bytes :=
  match snapshot with
  | Some s => if lsposed_match_mode s =? VPNHIDE_MATCH_EXCLUDE then lit "SHOW" else lit "HIDE"
  | None => lit "HIDE"
  end.

(** Everything before the variable part of the text. *)
Definition reader_header (d : device) : bytes :=
  lit "version_code: " ++ fmt_d VPNHIDE_VERSION_CODE ++ nl ++
  lit "java_hook_mask: " ++ fmt_u (vpnhide_java_hooks_mask (dv_policy d)) ++ nl ++
  lit "java_stats_clear_gen: " ++ fmt_d (dv_java_clear_generation d) ++ nl ++
  lit "stats_mode: cumulative_session" ++ nl ++
  lit "debug_enabled: " ++ fmt_d (Z.b2z (vpnhide_debug_is_enabled (dv_policy d))) ++ nl ++
  lit "lsposed_list_mode: " ++ list_mode_text (dv_policy d) ++ nl.

Definition reader_uids (d : device) : bytes :=
  lit "lsposed_uids:" ++
    (if dv_policy d is Some s then mjoin ((λ u, x20 :: fmt_u u) <$> lsposed_uids s) else []) ++ nl.

Definition reader_ifaces (d : device) : bytes :=
  lit "iface_prefixes:" ++
    (if dv_policy d is Some s
     then spaced (λ i, fmt_s_at i (if_prefixes (iface_prefixes s))) (if_count (iface_prefixes s))
     else []) ++ nl ++
  lit "active_vpn_ifaces:" ++
    (if dv_vpns d is Some v then spaced (λ i, fmt_vpn_at i (vi_vpns v)) (vi_count v) else []) ++ nl.

Definition reader_masks (d : device) : bytes :=
  lit "app_java_hook_mask:" ++
    (if dv_policy d is Some s then mjoin (java_override_text <$> app_hook_masks s) else []) ++ nl.

Definition reader_cover (d : device) : bytes :=
  lit "cover_iface: " ++
    (if bool_decide (cstr (dv_cover_ifname d) = []) then lit "none" else cstr (dv_cover_ifname d)) ++
  nl ++ nl.

Definition reader_text (d : device) : bytes :=
  reader_header d ++ reader_uids d ++ reader_ifaces d ++ reader_masks d ++ reader_cover d.

Definition reader_capacity (d : device) : Z :=
  1024 +
  match dv_policy d with
  | None => 0
  | Some s =>
      Z.of_nat (List.length (lsposed_uids s)) * 16 + Z.of_nat (List.length (app_hook_masks s)) * 32 +
      if_count (iface_prefixes s) * (MAX_IFACE_LEN + 1) + MAX_ACTIVE_VPNS * (MAX_IFACE_LEN + 1)
  end.

(** A run of [offset += scnprintf(buf + offset, capacity - offset, ...)] keeps
    the first [capacity - 1] characters of the concatenation. *)
Definition reader_fill (d : device) : bytes := take (Z.to_nat (reader_capacity d - 1)) (reader_text d).

Record vpnhide_dev_reader := mk_reader {
  rd_generation : Z;
  rd_buf : bytes;
  rd_pos : nat
}.

Definition vpnhide_dev_open (alloc : bool) : result vpnhide_dev_reader :=
  if alloc then Ok (mk_reader 0 [] 0) else Err ENOMEM.

(** [(unsigned long)atomic_read(&vpnhide_config_generation)] *)
Definition generation_of (d : device) : Z := u64 (dv_generation d).

(** What a read does before it copies. *)
Inductive reader_action := ActCopy | ActFill | ActReturn0 | ActAgain | ActSleep.

Definition reader_check (uid : Z) (nonblock : bool) (r : vpnhide_dev_reader) (d : device)
    : reader_action :=
  if (rd_pos r <? List.length (rd_buf r))%nat then ActCopy
  else if generation_of d <=? rd_generation r then
    if negb (uid =? 1000) then ActReturn0 else if nonblock then ActAgain else ActSleep
  else ActFill.

(** The copy to userspace; a fault leaves the position where it was. *)
Definition reader_copy (copy_out : bool) (count : nat) (r : vpnhide_dev_reader)
    : result bytes * vpnhide_dev_reader :=
  let out := take count (drop (rd_pos r) (rd_buf r)) in
  if copy_out then (Ok out, mk_reader (rd_generation r) (rd_buf r) (rd_pos r + List.length out))
  else (Err EFAULT, r).

(** A whole read: [d] is the device at the check, [woken] whether the wait
    ended without a signal, [d_fill] the device while the text is built and
    [d_gen] the device when the generation is read again. *)
Definition vpnhide_dev_read (uid : Z) (nonblock alloc copy_out : bool) (count : nat)
    (d : device) (woken : bool) (d_fill d_gen : device) (r : vpnhide_dev_reader)
    : result bytes * vpnhide_dev_reader :=
  let fill :=
    if negb alloc then (Err ENOMEM, r)
    else reader_copy copy_out count (mk_reader (generation_of d_gen) (reader_fill d_fill) 0) in
  match reader_check uid nonblock r d with
  | ActCopy => reader_copy copy_out count r
  | ActReturn0 => (Ok [], r)
  | ActAgain => (Err EAGAIN, r)
  | ActSleep => if woken then fill else (Err ERESTARTSYS, r)
  | ActFill => fill
  end.

(** ** What a statistics report leaves behind *)

(** The characters of [s] before its first newline. *)
Definition first_line (s : bytes) : bytes :=
  match find_newline s with Some i => take i s | None => s end.

Lemma find_newline_lt s i : find_newline s = Some i → (i < List.length s)%nat.
Proof.
  revert i; induction s as [|c s IH]; intros i; simpl; [done|].
  repeat case_bool_decide; intros Hf; simplify_eq; [lia|].
  apply fmap_Some in Hf as (j & Hj & ->). specialize (IH j Hj). lia.
Qed.

(** Cutting a buffer at the newline [strchr] found. *)
Lemma cstr_cut s i : find_newline s = Some i → cstr (<[i := x00]> s) = take i s.
Proof.
  revert i; induction s as [|c s IH]; intros i; simpl; [done|].
  repeat case_bool_decide; intros Hf; simplify_eq; [done|].
  apply fmap_Some in Hf as (j & Hj & ->). simpl. rewrite bool_decide_eq_false_2 by done.
  by rewrite IH.
Qed.

Lemma cstr_agree n s s' : take n s = take n s' → (List.length (cstr s) < n)%nat → cstr s' = cstr s.
Proof.
  revert s s'; induction n as [|n IH]; intros [|c s] [|c' s']; simpl; intros H Hn;
    try done; try lia.
  injection H as -> H. case_bool_decide; [done|]. simpl in Hn. f_equal. apply IH; [done|lia].
Qed.

Section write_facts.
Context (scan3 : bytes → option (Z * bytes * Z)) (scan2 : bytes → option (Z * Z)).

(** The loop never touches what lies before [ptr]. *)
Lemma java_lines_prefix fuel buf ptr st :
  take ptr (java_lines scan3 scan2 fuel buf ptr st).1 = take ptr buf.
Proof.
  revert buf ptr st; induction fuel as [|fuel IH]; intros buf ptr st; simpl; [done|].
  case_bool_decide; [done|].
  destruct (find_newline (drop ptr buf)) as [i|]; [|done].
  match goal with |- context [java_lines _ _ fuel _ _ ?x] => generalize x; intros st' end.
  specialize (IH (<[(ptr + i)%nat := x00]> buf) (ptr + i + 1)%nat st').
  apply (f_equal (take ptr)) in IH. rewrite !take_take in IH.
  rewrite (Nat.min_l ptr) in IH by lia. rewrite IH. apply take_insert_ge. lia.
Qed.

Lemma java_lines_first fuel buf st :
  (∃ rest, buf = cstr buf ++ x00 :: rest) → (0 < fuel)%nat →
  cstr (java_lines scan3 scan2 fuel buf 0 st).1 = first_line (cstr buf).
Proof.
  intros [rest Hb] Hf. destruct fuel as [|fuel]; [lia|]. simpl. rewrite drop_0.
  assert (∀ s rest, Forall (λ b, b ≠ x00) s → find_newline (s ++ x00 :: rest) = find_newline s) as Hfind.
  { clear. induction 1 as [|c s Hc _ IH]; simpl; [done|]. by rewrite IH. }
  specialize (Hfind (cstr buf) rest (cstr_no_nul buf)). rewrite <- Hb in Hfind.
  unfold first_line. rewrite <- Hfind.
  case_bool_decide as Hnil; [rewrite Hfind, Hnil; done|].
  destruct (find_newline buf) as [i|] eqn:E; [|done].
  rewrite drop_0. match goal with |- context [java_lines _ _ fuel _ _ ?x] => generalize x; intros st' end.
  pose proof (java_lines_prefix fuel (<[i := x00]> buf) (i + 1) st') as Hp.
  pose proof (find_newline_lt (cstr buf) i ltac:(congruence)) as Hi.
  assert (cstr (<[i := x00]> buf) = take i (cstr buf)) as Hc.
  { rewrite cstr_cut by done. rewrite Hb at 1. rewrite take_app_le by lia. done. }
  rewrite <- Hc. apply (cstr_agree (i + 1)); [done|].
  rewrite Hc, length_take. lia.
Qed.
End write_facts.

(** ** The size of the text *)

Lemma dec_digits_length fuel k n :
  n < 10 ^ Z.of_nat (S k) → (List.length (dec_digits fuel n) <= S k)%nat.
Proof.
  revert k n; induction fuel as [|fuel IH]; intros k n Hn; simpl; [lia|].
  destruct (Z.ltb_spec n 10) as [|Hge]; [simpl; lia|].
  rewrite length_app; simpl. destruct k as [|k]; [simpl in Hn; lia|].
  enough (List.length (dec_digits fuel (n / 10)) <= S k)%nat by lia.
  apply IH. apply Z.div_lt_upper_bound; [lia|].
  replace (Z.of_nat (S (S k))) with (Z.of_nat (S k) + 1) in Hn by lia.
  rewrite Z.pow_add_r in Hn by lia. lia.
Qed.

Lemma fmt_u_length n : fits 32 n → (List.length (fmt_u n) <= 10)%nat.
Proof. intros [_ Hn]. apply (dec_digits_length 20 9). lia. Qed.

Lemma fmt_d_length n : - 2 ^ 31 <= n < 2 ^ 31 → (List.length (fmt_d n) <= 11)%nat.
Proof.
  intros. unfold fmt_d. destruct (Z.ltb_spec n 0); simpl;
    pose proof (fmt_u_length n); pose proof (fmt_u_length (- n)); unfold fits in *; lia.
Qed.

Lemma length_mjoin_le {A} (k : nat) (ls : list (list A)) :
  Forall (λ l, List.length l <= k)%nat ls → (List.length (mjoin ls) <= k * List.length ls)%nat.
Proof. induction 1; simpl; [lia|]. rewrite length_app. lia. Qed.

Lemma spaced_length k f count :
  0 <= count → (∀ i, (i < Z.to_nat count)%nat → List.length (f i) <= k)%nat →
  Z.of_nat (List.length (spaced f count)) <= Z.of_nat (S k) * count.
Proof.
  intros Hc Hf. unfold spaced.
  pose proof (length_mjoin_le (S k) ((λ i, x20 :: f i) <$> seq 0 (Z.to_nat count))) as H.
  rewrite length_fmap, length_seq in H.
  enough (List.length (mjoin ((λ i, x20 :: f i) <$> seq 0 (Z.to_nat count))) <=
          S k * Z.to_nat count)%nat by lia.
  apply H, Forall_fmap, Forall_forall. intros i Hi%elem_of_seq. simpl.
  specialize (Hf i). lia.
Qed.

(** A 16-byte array that holds a terminated name. *)
Definition terminated (n : bytes) : Prop := List.length n = 16%nat ∧ x00 ∈ n.

Lemma cstr_length_terminated n rest : terminated n → (List.length (cstr (n ++ rest)) <= 15)%nat.
Proof.
  intros [Hl Hin]. enough (List.length (cstr (n ++ rest)) < List.length n)%nat by lia.
  clear Hl. induction n as [|c n IH]; simpl; [by apply not_elem_of_nil in Hin|].
  case_bool_decide; [simpl; lia|].
  apply elem_of_cons in Hin as [Hin|Hin]; [congruence|]. simpl. specialize (IH Hin). lia.
Qed.

(** The values the text prints are 32-bit and its names are terminated. *)
Record printable (d : device) : Prop := {
  pb_policy : ∀ s, dv_policy d = Some s →
    fits 32 (java_hooks_mask s) ∧ Forall (fits 32) (lsposed_uids s) ∧
    Forall (λ m, fits 32 (am_uid m) ∧ fits 32 (am_java_mask m)) (app_hook_masks s) ∧
    0 <= if_count (iface_prefixes s) <= MAX_IFACE_PREFIXES ∧
    List.length (if_prefixes (iface_prefixes s)) = 32%nat ∧
    Forall terminated (if_prefixes (iface_prefixes s));
  pb_vpns : ∀ v, dv_vpns d = Some v →
    0 <= vi_count v <= MAX_ACTIVE_VPNS ∧ List.length (vi_vpns v) = 16%nat ∧
    Forall (λ e, terminated (av_name e)) (vi_vpns v);
  pb_clear : - 2 ^ 31 <= dv_java_clear_generation d < 2 ^ 31;
  pb_cover : terminated (dv_cover_ifname d)
}.

(** Compute the lengths of the literals of a concatenation. *)
Ltac text_len :=
  rewrite ?length_app;
  repeat match goal with
  | |- context [List.length (lit ?s)] =>
      let n := eval vm_compute in (List.length (lit s)) in change (List.length (lit s)) with n
  end;
  cbn [List.length nl].

Section text_length.
Context (d : device) (Hd : printable d).

Lemma reader_header_length : (List.length (reader_header d) <= 188)%nat.
Proof.
  unfold reader_header. text_len.
  pose proof (fmt_d_length VPNHIDE_VERSION_CODE ltac:(by vm_compute)).
  pose proof (fmt_d_length _ (pb_clear d Hd)).
  pose proof (fmt_u_length (vpnhide_java_hooks_mask (dv_policy d))) as Hj.
  assert (List.length (fmt_u (vpnhide_java_hooks_mask (dv_policy d))) <= 10)%nat.
  { apply Hj. destruct (dv_policy d) as [s|] eqn:E; [by apply (pb_policy d Hd)|by vm_compute]. }
  assert (List.length (fmt_d (Z.b2z (vpnhide_debug_is_enabled (dv_policy d)))) <= 1)%nat.
  { by destruct (vpnhide_debug_is_enabled _); vm_compute; lia. }
  enough (List.length (list_mode_text (dv_policy d)) <= 4)%nat by lia.
  unfold list_mode_text. destruct (dv_policy d) as [s|]; [destruct (_ =? _)|]; simpl; lia.
Qed.

Lemma reader_ifaces_vpn_length v : dv_vpns d = Some v →
  Z.of_nat (List.length (spaced (λ i, fmt_vpn_at i (vi_vpns v)) (vi_count v))) <= 256.
Proof.
  intros Hv. destruct (pb_vpns d Hd v Hv) as (Hc & Hl & Ht). unfold MAX_ACTIVE_VPNS in Hc.
  pose proof (spaced_length 15 (λ i, fmt_vpn_at i (vi_vpns v)) (vi_count v) ltac:(lia)) as H.
  enough (∀ i, (i < Z.to_nat (vi_count v))%nat → List.length (fmt_vpn_at i (vi_vpns v)) <= 15)%nat
    by (specialize (H ltac:(done)); lia).
  intros i Hi. destruct (lookup_lt_is_Some_2 (vi_vpns v) i) as [e He]; [lia|].
  unfold fmt_vpn_at. rewrite (drop_S _ e) by done. cbn [fmap list_fmap mjoin list_join].
  unfold encode_active_vpn at 1. rewrite <- app_assoc, drop_app_length' by (symmetry; apply length_le_split).
  apply cstr_length_terminated. rewrite Forall_forall in Ht. apply Ht. by eapply list_elem_of_lookup_2.
Qed.

Lemma reader_ifaces_prefix_length s : dv_policy d = Some s →
  Z.of_nat (List.length (spaced (λ i, fmt_s_at i (if_prefixes (iface_prefixes s)))
    (if_count (iface_prefixes s)))) <= 16 * if_count (iface_prefixes s).
Proof.
  intros Hs. destruct (pb_policy d Hd s Hs) as (_ & _ & _ & Hc & Hl & Ht).
  unfold MAX_IFACE_PREFIXES in Hc. apply (spaced_length 15); [lia|].
  intros i Hi. destruct (lookup_lt_is_Some_2 (if_prefixes (iface_prefixes s)) i) as [e He]; [lia|].
  unfold fmt_s_at. rewrite (drop_S _ e) by done. cbn [mjoin list_join].
  apply cstr_length_terminated. rewrite Forall_forall in Ht. apply Ht. by eapply list_elem_of_lookup_2.
Qed.

Lemma reader_uids_text_length us : Forall (fits 32) us →
  (List.length (mjoin ((λ u, x20 :: fmt_u u) <$> us)) <= 11 * List.length us)%nat.
Proof.
  intros Hu. rewrite <- (length_fmap (λ u, x20 :: fmt_u u) us).
  apply length_mjoin_le, Forall_fmap. eapply Forall_impl; [exact Hu|]. intros u Hf. simpl.
  pose proof (fmt_u_length u Hf). lia.
Qed.

Lemma reader_masks_text_length ms :
  Forall (λ m, fits 32 (am_uid m) ∧ fits 32 (am_java_mask m)) ms →
  (List.length (mjoin (java_override_text <$> ms)) <= 22 * List.length ms)%nat.
Proof.
  intros Hm. rewrite <- (length_fmap java_override_text ms).
  apply length_mjoin_le, Forall_fmap. eapply Forall_impl; [exact Hm|]. intros m [Hu Hj]. simpl.
  unfold java_override_text. destruct (_ =? 0); [simpl; lia|].
  cbn [List.length]. text_len. pose proof (fmt_u_length _ Hu). pose proof (fmt_u_length _ Hj). lia.
Qed.

Lemma reader_cover_length : (List.length (reader_cover d) <= 30)%nat.
Proof.
  unfold reader_cover. text_len. pose proof (cstr_length_terminated _ [] (pb_cover d Hd)) as H.
  rewrite app_nil_r in H. case_bool_decide; simpl; lia.
Qed.

Lemma reader_text_length : Z.of_nat (List.length (reader_text d)) < reader_capacity d.
Proof.
  pose proof reader_header_length. pose proof reader_cover_length.
  unfold reader_text, reader_capacity, reader_uids, reader_ifaces, reader_masks. text_len.
  assert (Z.of_nat (List.length (if dv_vpns d is Some v
    then spaced (λ i, fmt_vpn_at i (vi_vpns v)) (vi_count v) else [])) <= 256).
  { destruct (dv_vpns d) as [v|] eqn:E; [by apply reader_ifaces_vpn_length|simpl; lia]. }
  destruct (dv_policy d) as [s|] eqn:E; [|cbn [List.length]; lia].
  destruct (pb_policy d Hd s E) as (_ & Hu & Hm & Hc & _).
  pose proof (reader_ifaces_prefix_length s E). pose proof (reader_uids_text_length _ Hu).
  pose proof (reader_masks_text_length _ Hm). unfold MAX_IFACE_LEN, MAX_ACTIVE_VPNS. lia.
Qed.
End text_length.

Lemma reader_fill_whole d : printable d → reader_fill d = reader_text d.
Proof.
  intros Hd. apply take_ge. pose proof (reader_text_length d Hd). lia.
Qed.

(** ** Properties *)

(** After a statistics report of several lines the shared buffer that
    [VH_GET_JAVA_STATS] returns holds only the first line as a string: the
    parser overwrites the newlines in place. *)
Theorem stats_report_keeps_first_line scan3 scan2 text d :
  cstr (dv_java_stats (write_command scan3 scan2 (lit "stats:" ++ text ++ [x00]) d)) =
  first_line (take 4095 (cstr (text ++ [x00]))).
Proof.
  unfold write_command.
  change (strncmp_eq 6 (lit "stats:" ++ text ++ [x00]) (lit "stats:")) with true. cbv iota.
  change (drop 6 (lit "stats:" ++ text ++ [x00])) with (text ++ [x00]).
  set (s := take 4095 (cstr (text ++ [x00]))).
  assert (Forall (λ b, b ≠ x00) s) as Hs by apply Forall_take, cstr_no_nul.
  set (k := (4095 - List.length s)%nat).
  assert (strncpy 4095 (text ++ [x00]) ++ [x00] = s ++ x00 :: replicate k x00) as Hbuf.
  { unfold strncpy. fold s. fold k. rewrite <- app_assoc. f_equal. symmetry. apply replicate_cons_app. }
  rewrite Hbuf. pose proof (cstr_app_nul s (replicate k x00) Hs) as Hc.
  pose proof (java_lines_first scan3 scan2 4096 (s ++ x00 :: replicate k x00) (dv_stats d)) as H.
  rewrite Hc in H. specialize (H ltac:(by eexists) ltac:(lia)).
  destruct (java_lines _ _ _ _ _ _) as [buf st]. exact H.
Qed.

(** The buffer of a read is always large enough: with terminated names the
    text is never truncated, whatever the number of UIDs, prefixes, VPNs and
    masks of the policy. *)
Theorem reader_text_complete d : printable d → reader_fill d = reader_text d.
Proof. apply reader_fill_whole. Qed.

Definition example_device : device := set_policy initial_device (Some example_snapshot).

Lemma example_device_printable : printable example_device.
Proof.
  assert (∀ l : bytes, List.length l = 16%nat → bool_decide (x00 ∈ l) = true → terminated l) as Ht.
  { intros l Hl Hb. split; [done|]. by apply bool_decide_eq_true_1 in Hb. }
  split; cbn [example_device set_policy dv_policy dv_vpns dv_java_clear_generation dv_cover_ifname
    initial_device].
  - intros s [= <-]. cbn [example_snapshot java_hooks_mask lsposed_uids app_hook_masks iface_prefixes
      if_count if_prefixes]. unfold fits, MAX_IFACE_PREFIXES. split_and!; try lia; try reflexivity.
    + constructor; [lia|constructor].
    + constructor; [cbn [am_uid am_java_mask]; lia|constructor].
    + constructor; [apply Ht; reflexivity|]. apply Forall_replicate, Ht; reflexivity.
  - intros v [=].
  - lia.
  - apply Ht; reflexivity.
Qed.

Lemma reader_text_complete_witness : reader_fill example_device = reader_text example_device.
Proof. apply (reader_text_complete example_device example_device_printable). Defined.

(** A reader takes the generation only after it has built its text; when the
    configuration changes in between, it keeps the old text under the new
    generation, and its next read reports that there is nothing new. *)
Theorem reader_misses_update uid alloc d d_old d_new r count :
  uid ≠ 1000 → alloc = true → reader_check uid false r d = ActFill →
  (List.length (reader_fill d_old) <= count)%nat →
  let '(out, r') := vpnhide_dev_read uid false alloc true count d true d_old d_new r in
  out = Ok (reader_fill d_old) ∧ reader_check uid false r' d_new = ActReturn0.
Proof.
  intros Hu -> Hc Hl. unfold vpnhide_dev_read. rewrite Hc. cbn [negb reader_copy rd_pos rd_buf rd_generation].
  rewrite drop_0, take_ge by done. split; [done|]. unfold reader_check. cbn [rd_pos rd_buf rd_generation].
  rewrite Nat.add_0_l, Nat.ltb_irrefl, Z.leb_refl. by destruct (Z.eqb_spec uid 1000).
Qed.

Lemma reader_misses_update_witness :
  let d_new := bump_generation example_device in
  let '(out, r') := vpnhide_dev_read 10123 false true true 4096 initial_device true
                      initial_device d_new (mk_reader 0 [] 0) in
  out = Ok (reader_fill initial_device) ∧ reader_check 10123 false r' d_new = ActReturn0.
Proof.
  apply (reader_misses_update 10123 true initial_device initial_device (bump_generation example_device)
    (mk_reader 0 [] 0) 4096).
  - discriminate.
  - reflexivity.
  - vm_compute. reflexivity.
  - apply Nat.leb_le. vm_compute. reflexivity.
Defined.
