(* ===== verification/DeviceInv.v ===== *)
(** * The device as a state machine

    Every way the module's shared state changes, as a step relation: ioctls,
    text commands, the two halves of a policy publication, and the events the
    socket hooks raise.  The invariant holds in every reachable state. *)
From S2P Require Import Prelude Abi Snapshot PolicyQuery Userspace OwnedPorts Stats PortStats UdpRate Device CharDev PolicyResolve Ctl RoundTrip.
From stdpp Require Import gmap.
From Stdlib Require Import Strings.Byte.

#[local] Open Scope Z_scope.

(** ** The invariant *)

Definition spoof_ok (is_ll : bytes → bool) (s : vpnhide_spoof_ip) : Prop :=
  (sip_has_ipv4 s = 0 ∨ sip_has_ipv4 s = 1) ∧ (sip_has_ipv6 s = 0 ∨ sip_has_ipv6 s = 1) ∧
  (sip_ipv4_mtu s = 0 ∨ sip_has_ipv4 s = 1 ∧ 68 <= sip_ipv4_mtu s <= 65535) ∧
  (sip_ipv6_mtu s = 0 ∨ sip_has_ipv6 s = 1 ∧ 1280 <= sip_ipv6_mtu s <= 65535) ∧
  (sip_has_ipv6_linklocal s = 0 ∧ sip_ipv6_linklocal_addr s = replicate 16 x00 ∨
   sip_has_ipv6_linklocal s = 1 ∧ is_ll (sip_ipv6_linklocal_addr s) = true).

Definition cache_ok (c : vh_vpn_name_cache) : Prop :=
  nc_hashes c = ((λ n, fnv1a_name n 16) <$> nc_names c) ∧ (length (nc_names c) <= 16)%nat.

Record device_wf (is_ll : bytes → bool) (d : device) : Prop := {
  dw_policy : ∀ s, dv_policy d = Some s → snapshot_wf s;
  dw_generation : - 2 ^ 31 <= dv_generation d < 2 ^ 31;
  dw_owned : ∀ s, dv_owned d = Some s → owned_wf s;
  dw_pending : pending_wf (dv_pending d);
  dw_stats : stats_wf (dv_stats d);
  dw_ports : port_stats_wf (dv_port_stats d);
  dw_spoof : ∀ s, dv_spoof d = Some s → spoof_ok is_ll s;
  dw_vpns : ∀ v, dv_vpns d = Some v → 0 <= vi_count v <= MAX_ACTIVE_VPNS;
  dw_names : ∀ c, dv_names d = Some c → cache_ok c;
  dw_cover : terminated (dv_cover_ifname d);
  dw_java : length (dv_java_stats d) = 4096%nat;
  dw_status : length (dv_java_status d) = 256%nat;
  dw_clear : - 2 ^ 31 <= dv_java_clear_generation d < 2 ^ 31;
  dw_rates : rates_wf (dv_udp_rates d)
}.

#[export] Hint Resolve dw_policy dw_generation dw_owned dw_pending dw_stats dw_ports dw_spoof dw_vpns dw_names
  dw_cover dw_java dw_status dw_clear dw_rates : vh.

(** A setter keeps what it does not set. *)
Ltac keep_device :=
  match goal with H : device_wf _ _ |- _ => destruct H end;
  split; cbn [dv_policy dv_generation dv_owned dv_pending dv_stats dv_port_stats dv_spoof dv_vpns
    dv_names dv_cover_ifindex dv_cover_ifname dv_java_stats dv_java_status dv_java_clear_generation
    dv_eventfd dv_udp_rates set_policy set_generation set_ports set_stats set_spoof set_vpns
    set_cover set_java set_eventfd set_udp bump_generation]; try done.

Lemma strncpy_terminated n src : n = 15%nat → terminated (strncpy n src ++ [x00]).
Proof.
  intros ->. split; [by rewrite length_app, length_strncpy|].
  apply elem_of_app. right. by apply list_elem_of_singleton.
Qed.

Lemma sanitize_spoof_ok is_ll s : spoof_ok is_ll (sanitize_spoof_ip is_ll s).
Proof.
  unfold spoof_ok, sanitize_spoof_ip. cbn.
  pose proof (bang_bang_01 (sip_has_ipv4 s)) as H4. pose proof (bang_bang_01 (sip_has_ipv6 s)) as H6.
  pose proof (bang_bang_01 (sip_has_ipv6_linklocal s)) as Hl. split_and!; try done.
  - destruct (_ || _) eqn:E; [by left|]. b2p. right. split; [|lia]. by destruct H4.
  - destruct (_ || _) eqn:E; [by left|]. b2p. right. split; [|lia]. by destruct H6.
  - destruct (_ || _) eqn:E; [by left|]. b2p. right. split; [|done]. by destruct Hl.
Qed.

Lemma rebuild_cache_ok alloc idata old :
  (∀ c, old = Some c → cache_ok c) → ∀ c, vh_rebuild_name_cache alloc idata old = Some c → cache_ok c.
Proof.
  intros Hold c. unfold vh_rebuild_name_cache. destruct alloc; cbn [negb]; [|apply Hold].
  intros [= <-]. split; [done|]. cbn [nc_names]. rewrite length_fmap, length_take.
  unfold MAX_ACTIVE_VPNS. destruct (Z.ltb_spec (vi_count idata) 16); lia.
Qed.

Section preservation.
Context {KS : KSort} {HKS : KSortLaws KS} (HZ : Z) (is_ll : bytes → bool).
Implicit Types d : device.

Lemma bump_generation_wf d : device_wf is_ll d → device_wf is_ll (bump_generation d).
Proof. intros H. keep_device. apply s32_range. Qed.

Lemma publish_locked_wf alloc s expected d d' :
  snapshot_wf s → device_wf is_ll d → publish_locked alloc s expected d = Ok d' → device_wf is_ll d'.
Proof.
  intros Hs Hd H. unfold publish_locked in H. case_result. subst d'.
  match goal with H : kmod_stats_reconcile _ _ _ = _ |- _ => apply reconcile_wf in H; eauto with vh end.
  keep_device; [by intros ? [= <-]|apply empty_pending_wf|by apply prune_wf].
Qed.

Lemma publish_policy_snapshot_wf alloc s expected d d' :
  snapshot_wf s → device_wf is_ll d → publish_policy_snapshot alloc s expected d = Ok d' →
  device_wf is_ll d'.
Proof.
  intros Hs Hd H. unfold publish_policy_snapshot in H. case_result. subst d'.
  eauto using publish_locked_wf, bump_generation_wf.
Qed.

Lemma apply_v3_wf a1 a2 b e d d' :
  device_wf is_ll d → vpnhide_apply_policy_v3 a1 a2 b e d = Ok d' → device_wf is_ll d'.
Proof.
  intros Hd H. unfold vpnhide_apply_policy_v3 in H. case_result.
  eauto using publish_policy_snapshot_wf, policy_snapshot_from_v3_wf.
Qed.

Lemma apply_v4_wf a1 a2 a3 b e d d' :
  device_wf is_ll d → vpnhide_apply_policy_v4 a1 a2 a3 b e d = Ok d' → device_wf is_ll d'.
Proof.
  intros Hd H. unfold vpnhide_apply_policy_v4 in H. case_result.
  eauto using publish_policy_snapshot_wf, policy_snapshot_from_v4_wf.
Qed.

Lemma apply_v2_wf a1 a2 a3 p e d d' :
  device_wf is_ll d → vpnhide_apply_policy a1 a2 a3 p e d = Ok d' → device_wf is_ll d'.
Proof.
  intros Hd H. unfold vpnhide_apply_policy in H. case_result. eauto using apply_v3_wf.
Qed.

Lemma commit_wf r d :
  device_wf is_ll d → (∀ d', r = Ok d' → device_wf is_ll d') → device_wf is_ll (ie_device (commit r d)).
Proof. intros Hd Hr. destruct r; simpl; auto. Qed.

Lemma ioctl_set_policy_wf al rq mem d :
  device_wf is_ll d → device_wf is_ll (ie_device (ioctl_set_policy al rq mem d)).
Proof.
  intros Hd. unfold ioctl_set_policy. destruct rq as [rq|]; [|done].
  repeat match goal with |- context [if ?b then _ else _] => destruct b; [try done|try done] end;
    destruct (copy_from_user _ _); try done;
    apply commit_wf; eauto using apply_v2_wf, apply_v3_wf, apply_v4_wf.
Qed.

(** Only the sequence number changes. *)
Lemma stats_wf_sequence st n : stats_wf st → stats_wf (mk_stats (kmod_stats st) (kmod_stats_capacity st) n).
Proof. by intros []. Qed.

Lemma ioctl_get_stats_wf alloc co first rq d :
  device_wf is_ll d → device_wf is_ll (ie_device (ioctl_get_stats alloc co first rq d)).
Proof.
  intros Hd. unfold ioctl_get_stats. destruct rq as [[cap ptr]|]; [|done].
  destruct (vh_get_stats _ _ _ _ _) as [[r st]|] eqn:E; [|done].
  unfold vh_get_stats in E. do 2 (destruct (_ && _); [done|]). injection E as _ <-.
  pose proof (stats_wf_sequence _ (u64 (kmod_stats_sequence (dv_stats d) + 1)) (dw_stats _ _ Hd)).
  destruct co; cbn [negb fail ie_device]; keep_device.
Qed.

Lemma count_live_wf now st : port_stats_wf st → port_stats_wf (count_live_port_stats_locked HZ now st).2.
Proof.
  intros Hst t. unfold count_live_port_stats_locked. destruct (pst_table st) as [t0|] eqn:E; simpl.
  - intros [= <-]. by apply expire_table_wf, Hst.
  - congruence.
Qed.

Lemma ioctl_get_stats_v2_wf a b co now fu fp rq d :
  device_wf is_ll d → device_wf is_ll (ie_device (ioctl_get_stats_v2 HZ a b co now fu fp rq d)).
Proof.
  intros Hd. unfold ioctl_get_stats_v2. destruct rq as [[[[uc up] pc] pp]|]; [|done].
  destruct (_ || _); [done|].
  pose proof (count_live_wf now _ (dw_ports _ _ Hd)) as Hp.
  destruct (count_live_port_stats_locked _ _ _) as [n ports0]. cbn [snd] in Hp.
  assert (∀ st, stats_wf st → ∀ ps, port_stats_wf ps → device_wf is_ll (set_stats d st ps)) as Hset.
  { intros st ? ps ?. keep_device. }
  destruct (vh_get_stats_v2 _ _ _ _ _) as [[r st]|] eqn:E; [|apply Hset; eauto with vh].
  unfold vh_get_stats_v2 in E. destruct (nonzero uc && _); [done|].
  destruct (_ && negb a); [done|]. injection E as _ <-.
  destruct (vh_get_port_stats _ _ _ _ _ _ _) as [[p ports]|] eqn:E2; [|apply Hset; eauto with vh].
  unfold vh_get_port_stats in E2. destruct (_ && _); [done|].
  destruct (count_live_port_stats_locked _ _ fp) as [n0 ?].
  destruct (_ && _); [done|]. pose proof (count_live_wf now _ Hp) as Hp2.
  destruct (count_live_port_stats_locked _ _ ports0) as [n1 ports1]. injection E2 as _ <-.
  pose proof (stats_wf_sequence _ (u64 (kmod_stats_sequence (dv_stats d) + 1)) (dw_stats _ _ Hd)).
  destruct co; cbn [negb fail ie_device]; [|by apply Hset].
  destruct (rp_error r), (pr_error p); by apply Hset.
Qed.

Lemma ioctl_clear_stats_wf alloc d :
  device_wf is_ll d → device_wf is_ll (ie_device (ioctl_clear_stats alloc d)).
Proof.
  intros Hd. unfold ioctl_clear_stats.
  destruct (vh_clear_stats _ _) as [st|] eqn:E; [|done].
  apply vh_clear_stats_wf in E; [|eauto with vh].
  destruct (vh_clear_port_stats _ _) as [ps|] eqn:E2; [|done].
  unfold vh_clear_port_stats in E2. case_result. subst ps. cbn [ie_device done_]. keep_device.
  intros t [= <-]. apply empty_port_table_wf.
Qed.

Lemma ioctl_set_vpn_ifindexes_wf a b c idata d :
  device_wf is_ll d → device_wf is_ll (ie_device (ioctl_set_vpn_ifindexes a b c idata d)).
Proof.
  intros Hd. unfold ioctl_set_vpn_ifindexes. destruct a; cbn [negb]; [|done].
  destruct idata as [idata|]; [|done]. destruct (_ || _) eqn:E; [done|]. b2p.
  destruct b; cbn [negb]; [|done]. apply bump_generation_wf. keep_device.
  - intros v [= <-]. lia.
  - by apply rebuild_cache_ok.
Qed.

Lemma ioctl_set_owned_ports_wf a b now u es d :
  device_wf is_ll d → device_wf is_ll (ie_device (ioctl_set_owned_ports HZ a b now u es d)).
Proof.
  intros Hd. unfold ioctl_set_owned_ports. destruct u as [[[count reserved] ptr]|]; [|done].
  destruct (replace_owned_ports _ _ _ _ _ _ _ _) as [s|] eqn:E; [|done]. cbn [ie_device done_].
  apply replace_owned_ports_wf in E. keep_device. by intros ? [= <-].
Qed.

(** No ioctl breaks the invariant, whatever userspace passes. *)
Lemma handle_vpnhide_ioctl_wf capable co now cmd d :
  device_wf is_ll d → device_wf is_ll (ie_device (handle_vpnhide_ioctl HZ is_ll capable co now cmd d)).
Proof.
  intros Hd. unfold handle_vpnhide_ioctl. destruct capable; cbn [negb]; [|done].
  destruct cmd; auto using ioctl_set_policy_wf, ioctl_get_stats_wf, ioctl_get_stats_v2_wf,
    ioctl_clear_stats_wf, ioctl_set_vpn_ifindexes_wf, ioctl_set_owned_ports_wf.
  all: try (by unfold ioctl_get_targets, ioctl_get_iface_prefixes, ioctl_get_app_hook_masks;
    repeat case_match).
  all: try (by destruct co).
  - unfold ioctl_set_spoof_ip. destruct sip, alloc; try done. cbn [negb ie_device done_]. keep_device.
    intros ? [= <-]. apply sanitize_spoof_ok.
  - unfold ioctl_set_cover_iface. destruct ifindex; [|done]. cbn [ie_device done_]. keep_device.
  - unfold ioctl_set_port_eventfd. destruct event_fd as [[]|]; try done. cbn [ie_device done_]. keep_device.
Qed.
End preservation.

(** ** Text commands and hook events *)

(** The conversions of ["%u"] store [unsigned int] values. *)
Record ScanLaws (scan3 : bytes → option (Z * bytes * Z)) (scan2 : bytes → option (Z * Z)) : Prop := {
  scan3_fits line uid hook count : scan3 line = Some (uid, hook, count) → fits 32 uid;
  scan2_fits line uid count : scan2 line = Some (uid, count) → fits 32 uid
}.

Section text.
Context (scan3 : bytes → option (Z * bytes * Z)) (scan2 : bytes → option (Z * Z)).
Context (Hscan : ScanLaws scan3 scan2) (is_ll : bytes → bool).

Lemma java_line_wf line st : stats_wf st → stats_wf (java_line scan3 scan2 line st).
Proof.
  intros Hst. unfold java_line, vpnhide_kmod_record_java_stat.
  destruct (scan3 line) as [[[uid hook] count]|] eqn:E3;
    destruct (scan2 line) as [[uid2 count2]|] eqn:E2; repeat case_match; try done;
    apply stats_add_wf; eauto using scan3_fits, scan2_fits.
Qed.

Lemma java_lines_wf fuel buf ptr st :
  stats_wf st →
  length (java_lines scan3 scan2 fuel buf ptr st).1 = length buf ∧
  stats_wf (java_lines scan3 scan2 fuel buf ptr st).2.
Proof.
  revert buf ptr st; induction fuel as [|fuel IH]; intros buf ptr st Hst; simpl; [done|].
  case_bool_decide; [done|].
  assert (∀ line, stats_wf (if bool_decide (line = []) then st else java_line scan3 scan2 line st)).
  { intros line. case_bool_decide; auto using java_line_wf. }
  destruct (find_newline _) as [i|]; [|by simpl].
  destruct (IH (<[(ptr + i)%nat := x00]> buf) (ptr + i + 1)%nat
    (if bool_decide (cstr (drop ptr (<[(ptr + i)%nat := x00]> buf)) = []) then st
     else java_line scan3 scan2 (cstr (drop ptr (<[(ptr + i)%nat := x00]> buf))) st)) as [Hl Hw];
    [done|]. by rewrite Hl, length_insert.
Qed.

Lemma terminated_clear n : terminated n → terminated (<[0%nat := x00]> n).
Proof.
  intros [Hl _]. split; [by rewrite length_insert|].
  apply (list_elem_of_lookup_2 _ 0), list_lookup_insert_eq. lia.
Qed.

Lemma write_command_wf kbuf d : device_wf is_ll d → device_wf is_ll (write_command scan3 scan2 kbuf d).
Proof.
  intros Hd. unfold write_command. destruct (strncmp_eq 6 _ _).
  { pose proof (java_lines_wf 4096 (strncpy 4095 (drop 6 kbuf) ++ [x00]) 0 _ (dw_stats _ _ Hd)) as [Hl Hw].
    destruct (java_lines _ _ _ _ _ _) as [buf st]. cbn [fst snd] in *.
    keep_device. rewrite Hl, length_app, length_strncpy. reflexivity. }
  destruct (strncmp_eq 7 _ _). { keep_device. by rewrite length_app, length_strncpy. }
  destruct (strcmp_eq _ _).
  { apply bump_generation_wf. keep_device; [by rewrite length_insert|apply s32_range]. }
  destruct (strncmp_eq 12 _ _); [|done].
  apply bump_generation_wf. keep_device. unfold cover_name.
  destruct (_ || _); [by apply terminated_clear|by apply strncpy_terminated].
Qed.
End text.

(** ** The transition system *)

Section system.
Context {KS : KSort} {HKS : KSortLaws KS} (HZ : Z) (is_ll : bytes → bool).
Context (scan3 : bytes → option (Z * bytes * Z)) (scan2 : bytes → option (Z * Z)).

Inductive dev_step : device → device → Prop :=
  | step_ioctl capable co now cmd d :
      dev_step d (ie_device (handle_vpnhide_ioctl HZ is_ll capable co now cmd d))
  | step_write alloc count buf d n d' :
      vpnhide_dev_write scan3 scan2 alloc count buf d = Ok (n, d') → dev_step d d'
  (** the two halves of a publication: the locked section and the increment *)
  | step_publish alloc payload s alloc_stats expected d d' :
      policy_snapshot_from_v4 alloc alloc payload = Ok s →
      publish_locked alloc_stats s expected d = Ok d' → dev_step d d'
  | step_bump d : dev_step d (bump_generation d)
  (** an intercept a hook counts *)
  | step_intercept uid type d : fits 32 uid →
      dev_step d (set_stats d (record_kmod_intercept (dv_stats d) uid type) (dv_port_stats d))
  | step_port_intercept now uid port protocol d : fits 32 uid →
      let '(st, ps) := record_port_intercept now uid port protocol (dv_stats d, dv_port_stats d) in
      dev_step d (set_stats d st ps)
  (** a bound socket of a targeted app *)
  | step_bound now uid sk d :
      dev_step d (set_ports d (dv_owned d)
        (vpnhide_record_bound_socket HZ (dv_policy d) (dv_pending d) now uid sk
           (if dv_eventfd d is Some _ then true else false)).1)
  (** a UDP send that is charged to the bucket of its UID *)
  | step_udp alloc now uid d : fits 64 now →
      dev_step d (set_udp d (udp_rate_limit_exceeded alloc now uid (dv_udp_rates d)).2).

Context (Hscan : ScanLaws scan3 scan2).

Lemma dev_step_wf d d' : dev_step d d' → device_wf is_ll d → device_wf is_ll d'.
Proof.
  destruct 1 as [| ?????? Hw | ??????? Hs Hp | |uid type d Hu|now uid port protocol d Hu|now uid sk d|alloc now uid d Hnow];
    intros Hd; cbn [fst snd].
  - by apply handle_vpnhide_ioctl_wf.
  - unfold vpnhide_dev_write in Hw. destruct (_ <? _); [done|]. destruct (negb _); [done|].
    destruct buf; [|done]. injection Hw as _ <-. by apply write_command_wf.
  - eauto using publish_locked_wf, policy_snapshot_from_v4_wf.
  - by apply bump_generation_wf.
  - keep_device. unfold record_kmod_intercept. destruct (core_uid _); [done|by apply stats_add_wf].
  - keep_device; [|by apply record_port_wf].
    unfold record_kmod_intercept. destruct (core_uid _); [done|by apply stats_add_wf].
  - keep_device. unfold vpnhide_record_bound_socket. destruct (uid =? 0); [done|].
    destruct (owned_port_from_sock _ _) as [owner|]; [|done].
    destruct (vpnhide_find_port_target _ _); [|done].
    pose proof (pending_record_wf HZ _ dw_pending0 now owner) as Hp.
    destruct (pending_record _ _ _ _). exact Hp.
  - keep_device. by apply udp_rates_wf.
Qed.

Lemma initial_device_wf : device_wf is_ll initial_device.
Proof.
  split; cbn [initial_device dv_policy dv_generation dv_owned dv_pending dv_stats dv_port_stats dv_spoof dv_vpns
    dv_names dv_cover_ifname dv_java_stats dv_java_status dv_java_clear_generation dv_udp_rates]; try done.
  - apply empty_pending_wf.
  - split; cbn [kmod_stats kmod_stats_capacity]; try done; constructor.
  - intros t [= <-]. apply empty_port_table_wf.
  - split; [done|]. by apply list_elem_of_here.
Qed.

Definition reachable (d : device) : Prop := rtc dev_step initial_device d.

Lemma reachable_wf d : reachable d → device_wf is_ll d.
Proof.
  apply (rtc_ind_r (device_wf is_ll) initial_device); eauto using dev_step_wf, initial_device_wf.
Qed.
End system.

(** ** What an update of the policy does *)

(** The fields a publication does not touch. *)
Definition same_environment (d d' : device) : Prop :=
  dv_port_stats d' = dv_port_stats d ∧ dv_spoof d' = dv_spoof d ∧ dv_vpns d' = dv_vpns d ∧
  dv_names d' = dv_names d ∧ dv_cover_ifindex d' = dv_cover_ifindex d ∧
  dv_cover_ifname d' = dv_cover_ifname d ∧ dv_java_stats d' = dv_java_stats d ∧
  dv_java_status d' = dv_java_status d ∧ dv_java_clear_generation d' = dv_java_clear_generation d ∧
  dv_eventfd d' = dv_eventfd d.

(** The request failed and the device is exactly as before. *)
Definition refused (d : device) (r : ioctl_end) : Prop := ∃ e, ie_error r = Some e ∧ ie_device r = d.

(** [d'] is [d] after policy [s] was published. *)
Definition published (d : device) (s : vpnhide_policy_snapshot) (d' : device) : Prop :=
  dv_policy d' = Some s ∧ dv_generation d' = atomic_inc (dv_generation d) ∧
  dv_owned d' = None ∧ dv_pending d' = empty_pending_table ∧
  (∃ alloc, kmod_stats_reconcile alloc s (dv_stats d) = Ok (dv_stats d')) ∧
  dv_udp_rates d' = vpnhide_udp_rates_prune (Some s) (dv_udp_rates d) ∧ same_environment d d'.

Section update.
Context {KS : KSort} {HKS : KSortLaws KS}.

Lemma publish_published alloc s expected d d' :
  publish_policy_snapshot alloc s expected d = Ok d' →
  published d s d' ∧ (expected = 0 ∨ expected = u64 (dv_generation d)).
Proof.
  unfold publish_policy_snapshot, publish_locked. intros H. case_result.
  match goal with E : nonzero expected && _ = false |- _ => rename E into Hgen end.
  subst. split; [by split_and!; eauto|].
  unfold nonzero in Hgen. destruct (Z.eqb_spec expected 0); [by left|]. right.
  by destruct (Z.eqb_spec expected (u64 (dv_generation d))).
Qed.

Definition update_ok (d : device) (expected : Z) (d' : device) : Prop :=
  (∃ s, snapshot_wf s ∧ published d s d') ∧ (expected = 0 ∨ expected = u64 (dv_generation d)).

Lemma apply_v3_update a b bs expected d d' :
  vpnhide_apply_policy_v3 a b bs expected d = Ok d' → update_ok d expected d'.
Proof.
  unfold vpnhide_apply_policy_v3. intros H. case_result.
  match goal with H : publish_policy_snapshot _ _ _ _ = _ |- _ =>
    apply publish_published in H as [? ?] end.
  split; [|done]. eauto using policy_snapshot_from_v3_wf.
Qed.

Lemma apply_v4_update a b c bs expected d d' :
  vpnhide_apply_policy_v4 a b c bs expected d = Ok d' → update_ok d expected d'.
Proof.
  unfold vpnhide_apply_policy_v4. intros H. case_result.
  match goal with H : publish_policy_snapshot _ _ _ _ = _ |- _ =>
    apply publish_published in H as [? ?] end.
  split; [|done]. eauto using policy_snapshot_from_v4_wf.
Qed.

Lemma apply_v2_update a b c p expected d d' :
  vpnhide_apply_policy a b c p expected d = Ok d' → update_ok d expected d'.
Proof. unfold vpnhide_apply_policy. intros H. case_result. by eapply apply_v3_update. Qed.

(** The two outcomes of the ioctl. *)
Lemma set_policy_outcome al rq mem d :
  let r := ioctl_set_policy al (Some rq) mem d in
  refused d r ∨
  (ie_error r = None ∧ update_ok d (rq_expected_generation rq) (ie_device r)).
Proof.
  cbv zeta. unfold ioctl_set_policy.
  assert (∀ r, (∀ d', r = Ok d' → update_ok d (rq_expected_generation rq) d') →
    refused d (commit r d) ∨
    (ie_error (commit r d) = None ∧ update_ok d (rq_expected_generation rq) (ie_device (commit r d)))) as Hc.
  { intros [d'|e] H; [right; auto|left; by exists e]. }
  repeat match goal with |- context [if ?b then fail _ _ else _] => destruct b; [left; by eexists|] end.
  destruct (copy_from_user _ _); [|left; by eexists].
  destruct (_ =? VPNHIDE_POLICY_ABI_VERSION_V4); [|destruct (_ =? VPNHIDE_POLICY_ABI_VERSION_V3)];
    apply Hc; intros d'; eauto using apply_v2_update, apply_v3_update, apply_v4_update.
Qed.
End update.

(** ** Properties *)

(** C7: in every state the module can reach from its start, by any sequence of
    ioctls with any arguments, text commands, policy publications (also
    interleaved between their two halves) and hook events, all shared tables
    satisfy their invariants. *)
Theorem reachable_state_wf {KS : KSort} {HKS : KSortLaws KS} HZ is_ll scan3 scan2 d :
  ScanLaws scan3 scan2 → reachable HZ is_ll scan3 scan2 d → device_wf is_ll d.
Proof. intros Hs Hr. by eapply reachable_wf. Qed.

Definition no_scan3 : bytes → option (Z * bytes * Z) := λ _, None.
Definition no_scan2 : bytes → option (Z * Z) := λ _, None.

Lemma no_scan_laws : ScanLaws no_scan3 no_scan2.
Proof. by split. Qed.

(** A day of the module: a policy is set, the daemon reports the owned ports, a
    targeted application binds a socket and sends two packets, and a hook counts
    an intercept. *)
Definition example_allocs : allocs := mk_allocs true true true true.

Definition example_ioctl (now : Z) (cmd : vh_ioctl) (d : device) : device :=
  ie_device (handle_vpnhide_ioctl (KS := merge_ksort) 250 (λ _, false) true true now cmd d).

Definition example_policy_set : device :=
  example_ioctl 1000
    (VH_SET_POLICY example_allocs (Some (mk_policy_ioctl 4 644 4096 0)) (payload_of example_snapshot))
    initial_device.

Definition example_ports_set : device :=
  example_ioctl 1001 (VH_SET_OWNED_PORTS true true (Some (1, 0, 4096)) (Some [example_owner])) example_policy_set.

Definition example_bound : device :=
  set_ports example_ports_set (dv_owned example_ports_set)
    (vpnhide_record_bound_socket 250 (dv_policy example_ports_set) (dv_pending example_ports_set) 1002 10123
       (Some example_sock) (if dv_eventfd example_ports_set is Some _ then true else false)).1.

Definition example_send (now : Z) (d : device) : device :=
  set_udp d (udp_rate_limit_exceeded true now 10123 (dv_udp_rates d)).2.

Definition example_sent : device := example_send 5000000 (example_send 1000000 example_bound).

Definition example_counted : device :=
  set_stats example_sent (record_kmod_intercept (dv_stats example_sent) 10123 4)
    (dv_port_stats example_sent).

Lemma example_reachable :
  reachable (KS := merge_ksort) 250 (λ _, false) no_scan3 no_scan2 example_counted.
Proof.
  unfold reachable. apply rtc_l with example_policy_set.
  { exact (step_ioctl (KS := merge_ksort) 250 (λ _, false) no_scan3 no_scan2 true true 1000
      (VH_SET_POLICY example_allocs (Some (mk_policy_ioctl 4 644 4096 0)) (payload_of example_snapshot))
      initial_device). }
  apply rtc_l with example_ports_set.
  { exact (step_ioctl (KS := merge_ksort) 250 (λ _, false) no_scan3 no_scan2 true true 1001
      (VH_SET_OWNED_PORTS true true (Some (1, 0, 4096)) (Some [example_owner])) example_policy_set). }
  apply rtc_l with example_bound.
  { exact (step_bound (KS := merge_ksort) 250 (λ _, false) no_scan3 no_scan2 1002 10123 (Some example_sock)
      example_ports_set). }
  apply rtc_l with (example_send 1000000 example_bound).
  { apply (step_udp (KS := merge_ksort) 250 (λ _, false) no_scan3 no_scan2 true 1000000 10123 example_bound).
    by split. }
  apply rtc_l with example_sent.
  { apply (step_udp (KS := merge_ksort) 250 (λ _, false) no_scan3 no_scan2 true 5000000 10123
      (example_send 1000000 example_bound)). by split. }
  apply rtc_once.
  apply (step_intercept (KS := merge_ksort) 250 (λ _, false) no_scan3 no_scan2 10123 4 example_sent).
  by split.
Qed.

Lemma reachable_state_wf_witness :
  (if dv_owned example_counted is Some s then owned_snapshot_contains (os_buckets s) example_owner else false) = true ∧
  dv_udp_rates example_counted !! 10123 = Some (mk_rate 5000000 249000) ∧
  device_wf (λ _, false) example_counted.
Proof.
  split; [|split].
  - vm_compute. reflexivity.
  - vm_compute. reflexivity.
  - exact (reachable_state_wf (KS := merge_ksort) (HKS := merge_ksort_laws) 250 (λ _, false) no_scan3 no_scan2
      example_counted no_scan_laws example_reachable).
Defined.

(** C8: whenever a reachable state has a policy, the connect and bind hooks are
    active for every UID, VPN state is hidden from exactly the UIDs the policy
    matches, and the port decision is defined: it is the policy's for every
    application UID, and a UID outside the application range is blocked only
    when a target names it, which [POLICY.md] rules out but the code honours. *)
Theorem reachable_policy_enforced {KS : KSort} {HKS : KSortLaws KS} HZ is_ll scan3 scan2 d s :
  ScanLaws scan3 scan2 → reachable HZ is_ll scan3 scan2 d → dv_policy d = Some s →
  ∀ uid, is_hook_active (dv_policy d) HOOK_CONNECT uid = true ∧
    is_hook_active (dv_policy d) HOOK_BIND uid = true ∧
    (is_target_uid_val (dv_policy d) uid = true ↔ matches (kmod_uids s) (kmod_match_mode s) uid) ∧
    ∀ port proto, ∃ b, port_blocked s uid port proto = Some b ∧
      (eligible uid → (b = true ↔ policy_blocks s uid port proto)) ∧
      (¬ eligible uid → (∀ t, t ∈ port_targets s → pt_uid t ≠ uid) → b = false).
Proof.
  intros Hsc Hr Hs uid. apply reachable_wf in Hr; [|done]. pose proof (dw_policy _ _ Hr s Hs) as Hwf.
  rewrite Hs. destruct (effective_mask_exists s Hwf uid) as [mask Hm].
  destruct (effective_mask_port_hooks s Hwf uid mask Hm) as [Hc Hb].
  rewrite !(is_hook_active_effective s Hwf _ uid mask Hm). split_and!; try done.
  - apply uid_matches_mode_spec, Hwf.
  - intros port proto. destruct (port_blocked_spec s uid port proto Hwf) as (b & Hb' & Hiff).
    exists b. split_and!; [done|done|]. intros He Hno. apply not_true_is_false. rewrite Hiff.
    by apply policy_blocks_core.
Qed.

(** In that state the connect hook is on for the application and its port 8085 is
    closed, as the loaded policy says. *)
Lemma reachable_policy_enforced_witness :
  reachable (KS := merge_ksort) 250 (λ _, false) no_scan3 no_scan2 example_counted ∧
  dv_policy example_counted = Some example_loaded ∧
  is_hook_active (dv_policy example_counted) HOOK_CONNECT 10123 = true ∧
  policy_blocks example_loaded 10123 8085 VH_PROTO_TCP.
Proof.
  assert (dv_policy example_counted = Some example_loaded) as Hs by (vm_compute; reflexivity).
  destruct (reachable_policy_enforced (KS := merge_ksort) (HKS := merge_ksort_laws) 250 (λ _, false)
    no_scan3 no_scan2 example_counted example_loaded no_scan_laws example_reachable Hs 10123)
    as (Hc & _ & _ & Hp).
  split; [exact example_reachable|]. split; [exact Hs|]. split; [exact Hc|].
  destruct (Hp 8085 VH_PROTO_TCP) as (b & Hb & Hiff & _). apply Hiff.
  - repeat split; discriminate.
  - vm_compute in Hb. congruence.
Defined.

(** C18: setting a policy is all or nothing: either the ioctl reports an error and
    the device is exactly as before, or it succeeds, the new snapshot is
    well-formed and in force, the statistics are reconciled with it, port
    ownership of the old policy is gone, the generation has advanced by one and
    everything else is unchanged. *)
Theorem set_policy_atomic {KS : KSort} {HKS : KSortLaws KS} al rq mem d :
  let r := ioctl_set_policy al (Some rq) mem d in
  refused d r ∨ (ie_error r = None ∧ ∃ s, snapshot_wf s ∧ published d s (ie_device r)).
Proof.
  cbv zeta. destruct (set_policy_outcome al rq mem d) as [H|(H & Hs & _)]; [by left|by right].
Qed.

Lemma set_policy_atomic_witness :
  let r := ioctl_set_policy (KS := merge_ksort) (mk_allocs true true true true)
             (Some (mk_policy_ioctl 4 644 4096 0)) (payload_of example_snapshot) initial_device in
  ie_error r = None ∧ ∃ s, snapshot_wf s ∧ published initial_device s (ie_device r).
Proof.
  destruct (set_policy_atomic (KS := merge_ksort) (HKS := merge_ksort_laws) (mk_allocs true true true true)
    (mk_policy_ioctl 4 644 4096 0) (payload_of example_snapshot) initial_device) as [(e & He & _)|H].
  - exfalso. revert He. vm_compute. discriminate.
  - exact H.
Defined.

(** A request that names a generation other than the current one never
    changes anything, whatever its payload. *)
Theorem stale_policy_refused {KS : KSort} {HKS : KSortLaws KS} al rq mem d :
  rq_expected_generation rq ≠ 0 → rq_expected_generation rq ≠ u64 (dv_generation d) →
  refused d (ioctl_set_policy al (Some rq) mem d).
Proof.
  intros H0 Hg. destruct (set_policy_outcome al rq mem d) as [H|(_ & _ & [H|H])]; [done|congruence..].
Qed.

Lemma stale_policy_refused_witness :
  let rq := mk_policy_ioctl 4 644 4096 7 in
  let al := mk_allocs true true true true in
  refused initial_device
    (ioctl_set_policy (KS := merge_ksort) al (Some rq) (payload_of example_snapshot) initial_device).
Proof.
  apply (stale_policy_refused (KS := merge_ksort) (HKS := merge_ksort_laws) (mk_allocs true true true true)
    (mk_policy_ioctl 4 644 4096 7) (payload_of example_snapshot) initial_device);
    [discriminate|vm_compute; discriminate].
Defined.
