(* ===== verification/Bpf.v ===== *)
(** * Laundering of BPF traffic statistics

    The probes of [kmod/hooks_fs.c] on [bpf(2)]: when a process that is not a
    target reads one of Android's traffic maps, the counters of VPN interfaces
    and of target UIDs are overwritten with zeroes in its buffers, and the
    traffic of the VPN interfaces is added to the cover interface.  Kernel
    memory that the code reads without having written it (the rest of a stack
    buffer, what follows a heap block) is an argument named [junk]. *)
From Stdlib Require Import Strings.Byte Strings.String ZArith Lia.
From stdpp Require Import base gmap numbers list.
From S2P Require Import Prelude Abi Snapshot PolicyQuery UserMem Device.

(** ** Counters *)

Record vh_stats_value := mk_stats_value {
  rxBytes : Z;
  rxPackets : Z;
  txBytes : Z;
  txPackets : Z
}.

Definition sizeof_stats_value : Z := 32.
Definition zero_value : vh_stats_value := mk_stats_value 0 0 0 0.

(** [(struct vh_stats_value * )buf]: reading and writing through the cast. *)
Definition load_value (buf : bytes) : vh_stats_value :=
  mk_stats_value (le_at 8 buf 0) (le_at 8 buf 8) (le_at 8 buf 16) (le_at 8 buf 24).

Definition store_value (v : vh_stats_value) (buf : bytes) : bytes :=
  le_split 8 (rxBytes v) ++ le_split 8 (rxPackets v) ++ le_split 8 (txBytes v) ++
  le_split 8 (txPackets v) ++ drop 32 buf.

(** The part of the module's state the probes read. *)
Record bpf_env := mk_bpf_env {
  be_policy : option vpnhide_policy_snapshot;
  be_vpns : option vpnhide_vpn_ifindexes;
  be_cover_ifindex : Z;
  be_pkts_first : bool
}.

Definition device_bpf_env (pkts_first : bool) (d : device) : bpf_env :=
  mk_bpf_env (dv_policy d) (dv_vpns d) (dv_cover_ifindex d) pkts_first.

Definition sv_rx_bytes (g : bool) (sv : vh_stats_value) : Z := if g then rxPackets sv else rxBytes sv.
Definition sv_tx_bytes (g : bool) (sv : vh_stats_value) : Z := if g then txPackets sv else txBytes sv.

(** Both branches of the C function add every field; only their order differs. *)
Definition sv_add (dst src : vh_stats_value) : vh_stats_value :=
  mk_stats_value (u64 (rxBytes dst + rxBytes src)) (u64 (rxPackets dst + rxPackets src))
    (u64 (txBytes dst + txBytes src)) (u64 (txPackets dst + txPackets src)).

(** ** Maps *)

Inductive vh_bpf_map_kind :=
  | VH_BPF_MAP_UNKNOWN
  | VH_BPF_MAP_KEYED_UID
  | VH_BPF_MAP_IFACE
  | VH_BPF_MAP_OTHER.

#[export] Instance vh_bpf_map_kind_eq_dec : EqDecision vh_bpf_map_kind.
Proof. solve_decision. Defined.

Definition text (s : string) : bytes := list_byte_of_string s.
Definition has_prefix (n : nat) (name : bytes) (s : string) : bool := strncmp_eq n name (text s).

Definition classify_bpf_map (name : option bytes) : vh_bpf_map_kind :=
  match name with
  | None => VH_BPF_MAP_UNKNOWN
  | Some name =>
      match cstr name with
      | [] => VH_BPF_MAP_UNKNOWN
      | "a"%byte :: _ =>
          if has_prefix 13 name "app_uid_stats" then VH_BPF_MAP_KEYED_UID else VH_BPF_MAP_UNKNOWN
      | "s"%byte :: _ =>
          if has_prefix 10 name "stats_map_" then VH_BPF_MAP_KEYED_UID else VH_BPF_MAP_UNKNOWN
      | "i"%byte :: _ =>
          if has_prefix 11 name "iface_stats" then VH_BPF_MAP_IFACE else VH_BPF_MAP_UNKNOWN
      | "u"%byte :: _ =>
          if has_prefix 9 name "uid_stats" then VH_BPF_MAP_KEYED_UID else VH_BPF_MAP_UNKNOWN
      | "t"%byte :: _ =>
          if has_prefix 12 name "tether_stats" then VH_BPF_MAP_IFACE else VH_BPF_MAP_UNKNOWN
      | "m"%byte :: _ =>
          if has_prefix 14 name "map_netd_stats" then VH_BPF_MAP_KEYED_UID
          else if has_prefix 15 name "map_netd_app_ui" || has_prefix 15 name "map_netd_uid_st"
          then VH_BPF_MAP_OTHER
          else if has_prefix 15 name "map_netd_iface_" then VH_BPF_MAP_IFACE
          else VH_BPF_MAP_UNKNOWN
      | _ => VH_BPF_MAP_UNKNOWN
      end
  end.

(** [struct bpf_map]: name, sizes and the kernel's lookup by key. *)
Record bpf_map := mk_bpf_map {
  map_name : bytes;
  map_key_size : Z;
  map_value_size : Z;
  map_lookup_elem : bytes → option bytes
}.

(** [struct vh_stats_key]: [uid] at offset 0, [ifaceIndex] at offset 12. *)
Definition key_uid (key : bytes) : Z := le_at 4 key 0.
Definition key_ifaceIndex (key : bytes) : Z := le_at 4 key 12.

(** [*(u32 * )key] *)
Definition key_ifindex (key : bytes) : Z := le_at 4 key 0.

Definition is_key_vpn_or_target_uid (e : bpf_env) (key : bytes) (kind : vh_bpf_map_kind) : bool :=
  match kind with
  | VH_BPF_MAP_KEYED_UID =>
      is_active_vpn_ifindex (be_vpns e) (key_ifaceIndex key) ||
      is_target_uid_val (be_policy e) (key_uid key)
  | VH_BPF_MAP_IFACE => is_active_vpn_ifindex (be_vpns e) (key_ifindex key)
  | _ => false
  end.

(** ** The map behind a descriptor *)

Definition BPF_FS_MAGIC : Z := 0xcafe4a11.
Definition ANON_INODE_FS_MAGIC : Z := 0x09041934.
Definition ANON_INODE_FS_MAGIC2 : Z := 0x09041957.

(** [d_name.name] and, with a superblock, its [s_magic]; [private_data] is a
    map, an [ERR_PTR] ([Some None]) or NULL. *)
Record bpf_file := mk_bpf_file {
  bf_dentry : option (bytes * option Z);
  bf_private : option (option bpf_map)
}.

Definition bpf_map_from_fd (file : option bpf_file) : option bpf_map :=
  match file with
  | None => None
  | Some f =>
      let dname := if bf_dentry f is Some (n, _) then n else text "unknown" in
      let magic := if bf_dentry f is Some (_, Some mg) then mg else 0 in
      match bf_private f with
      | None => None
      | Some p =>
          let is_bpf_file :=
            (magic =? BPF_FS_MAGIC) ||
            (((magic =? ANON_INODE_FS_MAGIC) || (magic =? ANON_INODE_FS_MAGIC2)) &&
             bool_decide (cstr dname = text "bpf-map")) in
          if is_bpf_file then p else None
      end
  end.

(** ** Single lookups *)

(** The active entries of [global_active_vpns]. *)
Definition vpn_ifindexes (vpns : option vpnhide_vpn_ifindexes) : list Z :=
  match vpns with
  | None => []
  | Some v => av_ifindex <$> take (Z.to_nat (vi_count v)) (vi_vpns v)
  end.

Definition collect_vpn_traffic_sum (e : bpf_env) (map : bpf_map) (vpn_sum : vh_stats_value)
    : vh_stats_value :=
  foldl (λ sum vpn_idx,
    match map_lookup_elem map (le_split 4 vpn_idx) with
    | Some v => sv_add sum (load_value v)
    | None => sum
    end) vpn_sum (vpn_ifindexes (be_vpns e)).

(** [vbuf] has room for [value_size] bytes and for a [vh_stats_value]; the bytes
    after the value are what the stack held. *)
Definition bpf_single_cover_update (g : bool) (m : umem) (usr_val value_size : Z) (junk : bytes)
    (vpn_sum : vh_stats_value) : umem :=
  if (sv_rx_bytes g vpn_sum =? 0) && (sv_tx_bytes g vpn_sum =? 0) then m
  else
    match copy_in m usr_val (Z.to_nat value_size) with
    | None => m
    | Some v =>
        let vbuf := v ++ junk in
        let vbuf := store_value (sv_add (load_value vbuf) vpn_sum) vbuf in
        (copy_out m usr_val (take (Z.to_nat value_size) vbuf)).1
    end.

(** [attr->map_fd], [attr->key], [attr->value] and [attr->batch]. *)
Definition attr_map_fd (attr : bytes) : Z := le_at 4 attr 0.
Definition attr_key (attr : bytes) : Z := le_at 8 attr 8.
Definition attr_value (attr : bytes) : Z := le_at 8 attr 16.
Definition attr_batch_keys (attr : bytes) : Z := le_at 8 attr 16.
Definition attr_batch_values (attr : bytes) : Z := le_at 8 attr 24.
Definition attr_batch_map_fd (attr : bytes) : Z := le_at 4 attr 36.
Definition off_batch_count : Z := 32.

Definition zeroes (n : Z) : bytes := replicate (Z.to_nat n) x00.

(** What the allocations of one call return and what lies behind its buffers. *)
Record bpf_kmem := mk_kmem {
  km_alloc_key : bool;
  km_alloc_value : bool;
  km_key_junk : bytes;
  km_value_junk : bytes
}.

(** A buffer on the stack when it is big enough, else from the allocator. *)
Definition have_buf (size stack : Z) (alloc : bool) : bool := (size <=? stack) || alloc.

Definition bpf_single_lookup_zero (e : bpf_env) (km : bpf_kmem) (map : bpf_map) (attr : bytes)
    (key_size value_size : Z) (kind : vh_bpf_map_kind) (m : umem) : umem :=
  if negb (have_buf key_size 64 (km_alloc_key km)) ||
     negb (have_buf value_size 256 (km_alloc_value km)) then m
  else
    let usr_key := attr_key attr in
    let usr_val := attr_value attr in
    match copy_in m usr_key (Z.to_nat key_size) with
    | None => m
    | Some k =>
        let kbuf := k ++ km_key_junk km in
        if is_key_vpn_or_target_uid e kbuf kind then (copy_out m usr_val (zeroes value_size)).1
        else
          match kind with
          | VH_BPF_MAP_IFACE =>
              let cover_idx := u32 (be_cover_ifindex e) in
              if negb (cover_idx =? 0) && (key_ifindex kbuf =? cover_idx) then
                bpf_single_cover_update (be_pkts_first e) m usr_val value_size (km_value_junk km)
                  (collect_vpn_traffic_sum e map zero_value)
              else m
          | _ => m
          end
    end.

(** ** Batch lookups *)

(** Loop state: user memory, [vpn_sum], [cover_pos] ([None] for [UINT_MAX]). *)
Record batch_state := mk_batch {
  bt_mem : umem;
  bt_sum : vh_stats_value;
  bt_cover : option nat
}.

Section batch.
Context (e : bpf_env) (kind : vh_bpf_map_kind) (keys : bytes).
Context (key_size value_size usr_vals : Z).

Definition batch_key (i : nat) : bytes := drop (i * Z.to_nat key_size) keys.
Definition batch_addr (i : nat) : Z := usr_vals + Z.of_nat i * value_size.

(** The body of the loop. *)
Definition batch_step (s : batch_state) (i : nat) : batch_state :=
  let key := batch_key i in
  match kind with
  | VH_BPF_MAP_IFACE =>
      let ifindex := key_ifindex key in
      let cover_idx := u32 (be_cover_ifindex e) in
      if is_active_vpn_ifindex (be_vpns e) ifindex then
        match copy_in (bt_mem s) (batch_addr i) (Z.to_nat value_size) with
        | None => s
        | Some v =>
            let sum := if sizeof_stats_value <=? value_size then sv_add (bt_sum s) (load_value v)
                       else bt_sum s in
            mk_batch (copy_out (bt_mem s) (batch_addr i) (zeroes value_size)).1 sum (bt_cover s)
        end
      else if negb (cover_idx =? 0) && (ifindex =? cover_idx) then
        mk_batch (bt_mem s) (bt_sum s) (Some i)
      else s
  | _ =>
      if is_key_vpn_or_target_uid e key kind then
        mk_batch (copy_out (bt_mem s) (batch_addr i) (zeroes value_size)).1 (bt_sum s) (bt_cover s)
      else s
  end.

(** After the loop: the VPN traffic goes to the cover interface. *)
Definition batch_cover (s : batch_state) : umem :=
  match bt_cover s with
  | Some pos =>
      if (negb (sv_rx_bytes (be_pkts_first e) (bt_sum s) =? 0) ||
          negb (sv_tx_bytes (be_pkts_first e) (bt_sum s) =? 0)) &&
         (sizeof_stats_value <=? value_size) then
        match copy_in (bt_mem s) (batch_addr pos) (Z.to_nat value_size) with
        | None => bt_mem s
        | Some v =>
            (copy_out (bt_mem s) (batch_addr pos)
               (store_value (sv_add (load_value v) (bt_sum s)) v)).1
        end
      else bt_mem s
  | None => bt_mem s
  end.

Definition batch_loop (count : nat) (m : umem) : umem :=
  batch_cover (foldl batch_step (mk_batch m zero_value None) (seq 0 count)).
End batch.

(** ** The probes *)

Definition BPF_MAP_LOOKUP_ELEM : Z := 1.
Definition BPF_MAP_UPDATE_ELEM : Z := 2.
Definition BPF_MAP_DELETE_ELEM : Z := 3.
Definition BPF_MAP_GET_NEXT_KEY : Z := 4.
Definition BPF_MAP_LOOKUP_AND_DELETE_ELEM : Z := 21.
Definition BPF_MAP_LOOKUP_BATCH : Z := 24.
Definition BPF_MAP_LOOKUP_AND_DELETE_BATCH : Z := 25.

(** [data->uattr] is 0 for NULL. *)
Record sys_bpf_data := mk_bpf_data {
  bd_cmd : Z;
  bd_uattr : Z;
  bd_size : Z;
  bd_attr : bytes;
  bd_map_fd : Z
}.

Definition bpf_batch_lookup_zero (e : bpf_env) (km : bpf_kmem) (data : sys_bpf_data)
    (key_size value_size : Z) (kind : vh_bpf_map_kind) (m : umem) : umem :=
  match get_user 4 m (bd_uattr data + off_batch_count) with
  | None => m
  | Some count =>
      if count <=? 0 then m
      else
        let usr_keys := attr_batch_keys (bd_attr data) in
        let usr_vals := attr_batch_values (bd_attr data) in
        if (usr_keys =? 0) || (usr_vals =? 0) || (4096 <? count) || (key_size =? 0) ||
           (value_size =? 0) then m
        else
          let keys_size := count * key_size in
          if negb (have_buf keys_size 64 (km_alloc_key km)) ||
             negb (have_buf value_size 256 (km_alloc_value km)) then m
          else
            match copy_in m usr_keys (Z.to_nat keys_size) with
            | None => m
            | Some keys =>
                batch_loop e kind (keys ++ km_key_junk km) key_size value_size usr_vals
                  (Z.to_nat count) m
            end
  end.

(** The arguments of the call: behind the wrapper, [None] when [regs[0]] is not
    a kernel pointer. *)
Record bpf_regs := mk_bpf_regs { br_cmd : Z; br_uattr : Z; br_size : Z }.

Definition is_map_cmd (cmd : Z) : bool :=
  (cmd =? BPF_MAP_LOOKUP_ELEM) || (cmd =? BPF_MAP_UPDATE_ELEM) || (cmd =? BPF_MAP_DELETE_ELEM) ||
  (cmd =? BPF_MAP_GET_NEXT_KEY) || (cmd =? BPF_MAP_LOOKUP_AND_DELETE_ELEM) ||
  (cmd =? BPF_MAP_LOOKUP_BATCH) || (cmd =? BPF_MAP_LOOKUP_AND_DELETE_BATCH).

Definition is_batch_cmd (cmd : Z) : bool :=
  (cmd =? BPF_MAP_LOOKUP_BATCH) || (cmd =? BPF_MAP_LOOKUP_AND_DELETE_BATCH).

Definition is_single_cmd (cmd : Z) : bool :=
  (cmd =? BPF_MAP_LOOKUP_ELEM) || (cmd =? BPF_MAP_LOOKUP_AND_DELETE_ELEM).

(** [None]: the entry handler returned 1 and the return handler does not run.
    [stale] is what the instance's data held. *)
Definition sys_bpf_entry (sizeof_attr : nat) (e : bpf_env) (uid : Z) (regs : option bpf_regs)
    (stale : bytes) (m : umem) : option sys_bpf_data :=
  if negb (is_hook_active (be_policy e) HOOK_BPF uid) || is_target_uid_val (be_policy e) uid
  then None
  else
    match regs with
    | None => None
    | Some r =>
        if negb (br_uattr r =? 0) && is_map_cmd (br_cmd r) then
          let copy_sz := Nat.min (Z.to_nat (br_size r)) sizeof_attr in
          Some match copy_in m (br_uattr r) copy_sz with
               | None => mk_bpf_data (br_cmd r) 0 (br_size r) (replicate sizeof_attr x00) 0
               | Some bs =>
                   let attr := bs ++ replicate (sizeof_attr - copy_sz) x00 in
                   mk_bpf_data (br_cmd r) (br_uattr r) (br_size r) attr
                     (if is_batch_cmd (br_cmd r) then attr_batch_map_fd attr else attr_map_fd attr)
               end
        else Some (mk_bpf_data (br_cmd r) (br_uattr r) (br_size r) stale 0)
    end.

Definition NEG_ENOENT : Z := -2.

Definition sys_bpf_ret (e : bpf_env) (km : bpf_kmem) (fdtable : Z → option bpf_file)
    (data : sys_bpf_data) (ret_val : Z) (m : umem) : umem :=
  if bd_uattr data =? 0 then m
  else if (ret_val <? 0) && negb (ret_val =? NEG_ENOENT) then m
  else if negb (is_single_cmd (bd_cmd data) || is_batch_cmd (bd_cmd data)) then m
  else
    match bpf_map_from_fd (fdtable (bd_map_fd data)) with
    | None => m
    | Some map =>
        let kind := classify_bpf_map (Some (map_name map)) in
        if bool_decide (kind = VH_BPF_MAP_UNKNOWN) then m
        else
          let key_size := map_key_size map in
          let value_size := map_value_size map in
          if is_single_cmd (bd_cmd data) && (ret_val =? 0) then
            bpf_single_lookup_zero e km map (bd_attr data) key_size value_size kind m
          else if is_batch_cmd (bd_cmd data) then
            bpf_batch_lookup_zero e km data key_size value_size kind m
          else m
    end.

(** ** The counters form a commutative monoid *)

Ltac sv_crush :=
  unfold sv_add, u64, wrap; simpl;
  rewrite ?Zplus_mod_idemp_l, ?Zplus_mod_idemp_r; f_equal; f_equal; lia.

Lemma sv_add_comm a b : sv_add a b = sv_add b a.
Proof. sv_crush. Qed.

Lemma sv_add_assoc a b c : sv_add a (sv_add b c) = sv_add (sv_add a b) c.
Proof. sv_crush. Qed.

Definition value_ok (v : vh_stats_value) : Prop :=
  fits 64 (rxBytes v) ∧ fits 64 (rxPackets v) ∧ fits 64 (txBytes v) ∧ fits 64 (txPackets v).

Lemma sv_add_ok a b : value_ok (sv_add a b).
Proof. split_and!; by apply wrap_fits. Qed.

Lemma sv_add_zero a : value_ok a → sv_add a zero_value = a.
Proof.
  intros (?&?&?&?). destruct a. unfold sv_add, u64. simpl in *. by rewrite !Z.add_0_r, !wrap_small.
Qed.

Lemma u64_add_cancel a b c : fits 64 a → fits 64 b → u64 (a + c) = u64 (b + c) → a = b.
Proof.
  unfold fits, u64, wrap. intros Ha Hb H.
  pose proof (Z.div_mod (a + c) (2 ^ 64) ltac:(lia)). pose proof (Z.div_mod (b + c) (2 ^ 64) ltac:(lia)).
  nia.
Qed.

Lemma sv_add_cancel a b c : value_ok a → value_ok b → sv_add a c = sv_add b c → a = b.
Proof.
  intros (?&?&?&?) (?&?&?&?) Heq. injection Heq as E1 E2 E3 E4. destruct a, b. simpl in *.
  f_equal; eapply u64_add_cancel; eauto.
Qed.

Lemma load_value_ok buf : value_ok (load_value buf).
Proof. split_and!; apply (le_at_range 8). Qed.

Lemma load_store v buf : value_ok v → load_value (store_value v buf) = v.
Proof.
  intros (H1 & H2 & H3 & H4). destruct v as [a b c d]; simpl in *. unfold store_value, load_value.
  assert (E : ∀ pre z rest n, fits 64 z → n = length pre → le_at 8 (pre ++ le_split 8 z ++ rest) n = z).
  { intros pre z rest n Hz ->. by apply le_at_app. }
  cbn [rxBytes rxPackets txBytes txPackets]. f_equal.
  - by apply (E [] a).
  - by apply (E (le_split 8 a) b); [|rewrite length_le_split].
  - rewrite (app_assoc (le_split 8 a)). by apply E; [|rewrite length_app, !length_le_split].
  - rewrite (app_assoc (le_split 8 a)), (app_assoc (_ ++ _)).
    by apply E; [|rewrite !length_app, !length_le_split].
Qed.

Lemma length_store v buf : (32 <= length buf)%nat → length (store_value v buf) = length buf.
Proof. intros. unfold store_value. len. Qed.

(** The traffic of the rows of a batch. *)
Definition sv_total (cs : list bytes) : vh_stats_value :=
  foldr (λ c acc, sv_add (load_value c) acc) zero_value cs.

Lemma sv_total_ok cs : value_ok (sv_total cs).
Proof. destruct cs; simpl; [|apply sv_add_ok]. split_and!; done. Qed.

Lemma sv_total_insert cs i c c' :
  cs !! i = Some c →
  sv_add (sv_total (<[i := c']> cs)) (load_value c) = sv_add (sv_total cs) (load_value c').
Proof.
  revert i. induction cs as [|x cs IH]; intros [|i] H; simplify_eq/=; [sv_crush|].
  rewrite <- sv_add_assoc, IH by done. by rewrite sv_add_assoc.
Qed.

Lemma load_zeroes n : load_value (zeroes n) = zero_value.
Proof.
  assert (E : ∀ k, le_combine (replicate k x00) = 0).
  { intros k. induction k as [|k IH]; [done|]. cbn [replicate]. unfold le_combine; fold le_combine.
    rewrite IH. done. }
  unfold load_value, zeroes, zero_value, le_at, slice. rewrite !drop_replicate, !take_replicate, !E.
  done.
Qed.

(** ** Rows of a batch in user memory *)

Section rows.
Context (usr_vals value_size : Z).

Abbreviation addr i := (usr_vals + Z.of_nat i * value_size).

(** The rows of the values array. *)
Definition values_at (m : umem) (cs : list bytes) : Prop :=
  ∀ i c, cs !! i = Some c → copy_in m (addr i) (Z.to_nat value_size) = Some c.

Lemma values_at_insert m cs i c :
  0 <= value_size → values_at m cs → (i < length cs)%nat → length c = Z.to_nat value_size →
  values_at (copy_out m (addr i) c).1 (<[i := c]> cs).
Proof.
  intros Hv Hm Hi Hc j d Hj. destruct (decide (i = j)) as [<-|Hne].
  - rewrite list_lookup_insert_eq in Hj by done. simplify_eq. rewrite <- Hc. apply copy_in_out.
    rewrite Hc. destruct (lookup_lt_is_Some_2 cs i Hi) as [x Hx]. rewrite (Hm _ _ Hx). done.
  - rewrite list_lookup_insert_ne in Hj by done. rewrite copy_in_out_ne; [by apply Hm|]. nia.
Qed.

Lemma values_at_frame m i c x n :
  0 <= value_size → (i < n)%nat → length c = Z.to_nat value_size →
  x < usr_vals ∨ addr n <= x → (copy_out m (addr i) c).1 !! x = m !! x.
Proof. intros. apply copy_out_lookup_ne. nia. Qed.
End rows.

Section batch_inv.
Context (e : bpf_env) (kind : vh_bpf_map_kind) (keys : bytes).
Context (key_size value_size usr_vals : Z).
Context (m0 : umem) (cs0 : list bytes).
Context (Hvs : 0 < value_size) (Hm0 : values_at usr_vals value_size m0 cs0).

Abbreviation key i := (batch_key keys key_size i).
Abbreviation hides i := (is_key_vpn_or_target_uid e (key i) kind).
Abbreviation iface := (bool_decide (kind = VH_BPF_MAP_IFACE)).

Definition is_cover (i : nat) : bool :=
  iface && negb (u32 (be_cover_ifindex e) =? 0) && (key_ifindex (key i) =? u32 (be_cover_ifindex e))
  && negb (hides i).

(** After [n] rows: the hidden rows among them are zero, nothing else changed,
    and what was taken away is in [vpn_sum]. *)
Record batch_inv (n : nat) (s : batch_state) (cs : list bytes) : Prop := {
  bi_values : values_at usr_vals value_size (bt_mem s) cs;
  bi_length : length cs = length cs0;
  bi_hidden : ∀ i, (i < n)%nat → hides i = true → cs !! i = Some (zeroes value_size);
  bi_others : ∀ i, (n <= i)%nat ∨ hides i = false → cs !! i = cs0 !! i;
  bi_sum : kind = VH_BPF_MAP_IFACE → 32 <= value_size →
    sv_add (sv_total cs) (bt_sum s) = sv_total cs0;
  bi_sum_ok : value_ok (bt_sum s);
  bi_cover : ∀ i, bt_cover s = Some i → (i < n)%nat ∧ is_cover i = true;
  bi_cover_seen : ∀ i, (i < n)%nat → is_cover i = true → is_Some (bt_cover s);
  bi_frame : ∀ x, x < usr_vals ∨ usr_vals + Z.of_nat (length cs0) * value_size <= x →
    bt_mem s !! x = m0 !! x
}.

Lemma batch_inv_init : batch_inv 0 (mk_batch m0 zero_value None) cs0.
Proof.
  split; simpl; try done; try lia.
  intros. apply sv_add_zero, sv_total_ok.
Qed.

(** A hidden row is zeroed and, in an interface map, added to the sum. *)
Lemma batch_inv_zero n s cs sum c :
  batch_inv n s cs → cs !! n = Some c → hides n = true → value_ok sum →
  (kind = VH_BPF_MAP_IFACE → 32 <= value_size → sum = sv_add (bt_sum s) (load_value c)) →
  batch_inv (S n)
    (mk_batch (copy_out (bt_mem s) (batch_addr value_size usr_vals n) (zeroes value_size)).1 sum
       (bt_cover s)) (<[n := zeroes value_size]> cs).
Proof.
  intros [Hv Hl Hh Ho Hs Hok Hc Hcs Hf] Hn Hhid Hsum Heq.
  pose proof (lookup_lt_Some _ _ _ Hn) as Hlt.
  assert (Hz : length (zeroes value_size) = Z.to_nat value_size) by apply length_replicate.
  split; simpl.
  - apply values_at_insert; auto; lia.
  - by rewrite length_insert.
  - intros i Hi Hhi. destruct (decide (i = n)) as [->|].
    + by apply list_lookup_insert_eq.
    + rewrite list_lookup_insert_ne by done. apply Hh; [lia|done].
  - intros i Hi. destruct (decide (i = n)) as [->|]; [exfalso; destruct Hi; [lia|congruence]|].
    rewrite list_lookup_insert_ne by done. apply Ho. destruct Hi; [left; lia|by right].
  - intros Hk H32. rewrite Heq, (sv_add_comm (bt_sum s)), sv_add_assoc, (sv_total_insert cs n c) by done.
    rewrite load_zeroes, sv_add_zero by apply sv_total_ok. by apply Hs.
  - done.
  - intros i Hi. destruct (Hc i Hi). split; [lia|done].
  - intros i Hi Hci. destruct (decide (i = n)) as [->|]; [|apply (Hcs i); [lia|done]].
    exfalso. unfold is_cover in Hci. rewrite Hhid, andb_false_r in Hci. done.
  - intros x Hx. unfold batch_addr. rewrite (values_at_frame _ _ _ _ _ _ (length cs0)); auto; lia.
Qed.

(** A row that is not hidden is left alone. *)
Lemma batch_inv_skip n s cs cover :
  batch_inv n s cs → hides n = false →
  cover = (if is_cover n then Some n else bt_cover s) →
  batch_inv (S n) (mk_batch (bt_mem s) (bt_sum s) cover) cs.
Proof.
  intros [Hv Hl Hh Ho Hs Hok Hc Hcs Hf] Hhid ->. split; simpl; auto.
  - intros i Hi Hhi. apply Hh; [|done]. destruct (decide (i = n)) as [->|]; [congruence|lia].
  - intros i Hi. destruct (decide (i = n)) as [->|]; [apply Ho; by right|].
    apply Ho. destruct Hi; [left; lia|by right].
  - intros i Hi. destruct (is_cover n) eqn:E; [simplify_eq; auto|].
    destruct (Hc i Hi). split; [lia|done].
  - intros i Hi Hci. destruct (is_cover n) eqn:E; [done|]. apply (Hcs i); [|done].
    destruct (decide (i = n)) as [->|]; [congruence|lia].
Qed.

Lemma batch_inv_step n s cs :
  batch_inv n s cs → (n < length cs0)%nat →
  ∃ cs', batch_inv (S n) (batch_step e kind keys key_size value_size usr_vals s n) cs'.
Proof.
  intros Hinv Hn. pose proof Hinv as [Hv Hl _ _ _ Hok _ _ _].
  destruct (lookup_lt_is_Some_2 cs n ltac:(lia)) as [c Hc]. pose proof (Hv n c Hc) as Hread.
  unfold batch_step. fold (batch_addr value_size usr_vals n) in Hread.
  destruct kind eqn:Hk.
  3: { destruct (is_active_vpn_ifindex (be_vpns e) (key_ifindex (key n))) eqn:Hvpn.
    - rewrite Hread. eexists. eapply batch_inv_zero; eauto.
      + by rewrite Hk.
      + case_match; [apply sv_add_ok|done].
      + intros _ H32. unfold sizeof_stats_value. by rewrite (proj2 (Z.leb_le _ _) H32).
    - exists cs. assert (Hhid : hides n = false) by by rewrite Hk.
      assert (Hcov : is_cover n = negb (u32 (be_cover_ifindex e) =? 0) &&
                                  (key_ifindex (key n) =? u32 (be_cover_ifindex e))).
      { unfold is_cover. by rewrite Hhid, bool_decide_eq_true_2, andb_true_r. }
      rewrite <- Hcov. destruct (is_cover n) eqn:E.
      + apply batch_inv_skip; auto. by rewrite E.
      + destruct s as [sm ss sc]. apply (batch_inv_skip n (mk_batch sm ss sc)); auto. by rewrite E. }
  all: rewrite <- Hk; destruct (hides n) eqn:Hhid;
    [eexists; eapply batch_inv_zero; eauto; congruence|].
  all: assert (E : is_cover n = false) by (unfold is_cover; by rewrite Hk).
  all: exists cs; destruct s as [sm ss sc]; apply (batch_inv_skip n (mk_batch sm ss sc)); auto;
    by rewrite E.
Qed.

Lemma batch_inv_loop n :
  (n <= length cs0)%nat →
  ∃ cs, batch_inv n (foldl (batch_step e kind keys key_size value_size usr_vals)
                      (mk_batch m0 zero_value None) (seq 0 n)) cs.
Proof.
  induction n as [|n IH]; intros Hn; [exists cs0; apply batch_inv_init|].
  destruct IH as [cs Hinv]; [lia|]. rewrite seq_S, foldl_snoc.
  by apply (batch_inv_step n _ cs).
Qed.
End batch_inv.

(** ** A batch call as a whole *)

(** A batch call whose arguments are in order: [count] rows were returned, the
    keys and the values can be read and the buffers are available. *)
Record batch_ready (km : bpf_kmem) (data : sys_bpf_data) (key_size value_size : Z) (m : umem)
    (keys : bytes) (cs : list bytes) : Prop := {
  br_count : get_user 4 m (bd_uattr data + off_batch_count) = Some (Z.of_nat (length cs));
  br_range : (0 < length cs <= 4096)%nat;
  br_ptrs : attr_batch_keys (bd_attr data) ≠ 0 ∧ attr_batch_values (bd_attr data) ≠ 0;
  br_sizes : 4 <= key_size ∧ 0 < value_size;
  br_key_buf : have_buf (Z.of_nat (length cs) * key_size) 64 (km_alloc_key km) = true;
  br_value_buf : have_buf value_size 256 (km_alloc_value km) = true;
  br_keys : copy_in m (attr_batch_keys (bd_attr data)) (Z.to_nat (Z.of_nat (length cs) * key_size))
    = Some keys;
  br_values : values_at (attr_batch_values (bd_attr data)) value_size m cs
}.

(** [field] of row [i] of the keys array, at byte [off] of the key. *)
Definition row_field (keys : bytes) (key_size : Z) (off i : nat) : Z :=
  le_at 4 keys (i * Z.to_nat key_size + off).

Definition row_hidden (e : bpf_env) (keys : bytes) (key_size : Z) (kind : vh_bpf_map_kind) (i : nat)
    : bool :=
  match kind with
  | VH_BPF_MAP_KEYED_UID =>
      is_active_vpn_ifindex (be_vpns e) (row_field keys key_size 12 i) ||
      is_target_uid_val (be_policy e) (row_field keys key_size 0 i)
  | VH_BPF_MAP_IFACE => is_active_vpn_ifindex (be_vpns e) (row_field keys key_size 0 i)
  | _ => false
  end.

Lemma le_at_app_l n bs junk off :
  (off + n <= length bs)%nat → le_at n (bs ++ junk) off = le_at n bs off.
Proof.
  intros H. unfold le_at, slice. rewrite drop_app_le by lia. rewrite take_app_le; [done|].
  rewrite length_drop. lia.
Qed.

Lemma le_at_drop n bs off k : le_at n (drop k bs) off = le_at n bs (k + off).
Proof. unfold le_at, slice. by rewrite drop_drop. Qed.

Section batch_call.
Context (e : bpf_env) (km : bpf_kmem) (data : sys_bpf_data) (key_size value_size : Z).
Context (kind : vh_bpf_map_kind) (m : umem) (keys : bytes) (cs : list bytes).
Context (Hr : batch_ready km data key_size value_size m keys cs).

Abbreviation vals := (attr_batch_values (bd_attr data)).
Abbreviation junky := (keys ++ km_key_junk km).

Lemma length_keys : length keys = (length cs * Z.to_nat key_size)%nat.
Proof.
  rewrite (copy_in_length _ _ _ _ (br_keys _ _ _ _ _ _ _ Hr)). destruct (br_sizes _ _ _ _ _ _ _ Hr). nia.
Qed.

(** A field inside the key does not see the memory behind the keys. *)
Lemma row_field_read off i :
  (i < length cs)%nat → Z.of_nat off + 4 <= key_size →
  le_at 4 (batch_key junky key_size i) off = row_field keys key_size off i.
Proof.
  intros Hi Ho. unfold batch_key, row_field. rewrite le_at_drop, le_at_app_l; [done|].
  rewrite length_keys. nia.
Qed.

Lemma row_hidden_read i :
  (kind = VH_BPF_MAP_KEYED_UID → 16 <= key_size) → (i < length cs)%nat →
  is_key_vpn_or_target_uid e (batch_key junky key_size i) kind = row_hidden e keys key_size kind i.
Proof.
  intros Hk Hi. destruct (br_sizes _ _ _ _ _ _ _ Hr) as [H4 _].
  unfold is_key_vpn_or_target_uid, row_hidden, key_uid, key_ifaceIndex, key_ifindex.
  destruct kind; try done; rewrite ?row_field_read; auto; lia.
Qed.

Lemma bpf_batch_loop :
  bpf_batch_lookup_zero e km data key_size value_size kind m =
  batch_loop e kind junky key_size value_size vals (length cs) m.
Proof.
  destruct Hr as [Hc [Hc0 Hc4] [Hp1 Hp2] [Hs1 Hs2] Hkb Hvb Hk Hv].
  unfold bpf_batch_lookup_zero. rewrite Hc.
  rewrite (proj2 (Z.leb_gt _ 0)) by lia.
  rewrite (proj2 (Z.eqb_neq _ _) Hp1), (proj2 (Z.eqb_neq _ _) Hp2), (proj2 (Z.ltb_ge _ _)) by lia.
  rewrite (proj2 (Z.eqb_neq key_size 0)), (proj2 (Z.eqb_neq value_size 0)) by lia.
  simpl. rewrite Hkb, Hvb, Hk. simpl. by rewrite Nat2Z.id.
Qed.

(** The loop and the update of the cover row. *)
Lemma bpf_batch_result :
  ∃ cs1 s, batch_inv e kind junky key_size value_size vals m cs (length cs) s cs1 ∧
    bpf_batch_lookup_zero e km data key_size value_size kind m = batch_cover e value_size vals s.
Proof.
  destruct (batch_inv_loop e kind junky key_size value_size vals m cs) with (n := length cs)
    as [cs1 Hinv]; [apply Hr|apply Hr|done|]. eexists cs1, _. split; [exact Hinv|].
  apply bpf_batch_loop.
Qed.

Lemma batch_cover_rows s cs1 :
  batch_inv e kind junky key_size value_size vals m cs (length cs) s cs1 →
  ∃ cs2, values_at vals value_size (batch_cover e value_size vals s) cs2 ∧
    length cs2 = length cs ∧
    (∀ i, is_cover e kind junky key_size i = false → cs2 !! i = cs1 !! i) ∧
    (∀ x, x < vals ∨ vals + Z.of_nat (length cs) * value_size <= x →
       batch_cover e value_size vals s !! x = m !! x) ∧
    (32 <= value_size → is_Some (bt_cover s) →
       sv_rx_bytes (be_pkts_first e) (bt_sum s) ≠ 0 ∨ sv_tx_bytes (be_pkts_first e) (bt_sum s) ≠ 0 →
       sv_total cs2 = sv_add (sv_total cs1) (bt_sum s)) ∧
    (bt_cover s = None ∨
     sv_rx_bytes (be_pkts_first e) (bt_sum s) = 0 ∧ sv_tx_bytes (be_pkts_first e) (bt_sum s) = 0 →
       cs2 = cs1).
Proof.
  intros [Hv Hl _ _ _ Hok Hc _ Hf]. destruct (br_sizes _ _ _ _ _ _ _ Hr) as [_ Hvs].
  assert (Hsame : ∃ cs2, values_at vals value_size (bt_mem s) cs2 ∧ cs2 = cs1) by eauto.
  unfold batch_cover. destruct (bt_cover s) as [pos|] eqn:Epos.
  2: { exists cs1. split_and!; auto. intros _ []. done. }
  destruct (Hc pos eq_refl) as [Hpos Hcov].
  destruct (lookup_lt_is_Some_2 cs1 pos ltac:(lia)) as [c Hcp].
  destruct ((_ || _) && _) eqn:E.
  2: { exists cs1. split_and!; auto. intros H32 _ Hnz. exfalso. unfold sizeof_stats_value in E.
    rewrite (proj2 (Z.leb_le _ _) H32), andb_true_r in E. b2p. tauto. }
  unfold batch_addr at 1 3. rewrite (Hv pos c Hcp). b2p. unfold sizeof_stats_value in *.
  assert (Hcl : length c = Z.to_nat value_size) by eapply copy_in_length, Hv, Hcp.
  set (c' := store_value _ c). assert (Hc' : length c' = Z.to_nat value_size).
  { unfold c'. rewrite length_store; lia. }
  exists (<[pos := c']> cs1). split_and!.
  - apply values_at_insert; auto; lia.
  - by rewrite length_insert.
  - intros i Hi. apply list_lookup_insert_ne. congruence.
  - intros x Hx. unfold batch_addr. rewrite (values_at_frame _ _ _ _ _ _ (length cs)); auto; lia.
  - intros _ _ _.
    assert (Hl' : load_value c' = sv_add (load_value c) (bt_sum s)) by apply load_store, sv_add_ok.
    pose proof (sv_total_insert cs1 pos c c' Hcp) as Ht. rewrite Hl' in Ht.
    rewrite (sv_add_comm (load_value c)), sv_add_assoc in Ht. by apply sv_add_cancel in Ht;
      [| apply sv_total_ok | apply sv_add_ok].
  - intros [[=]|[H1 H2]]. exfalso. rewrite H1, H2 in *. done.
Qed.
End batch_call.

(** The rows of a page that satisfy [p], the others zeroed. *)
Definition rows_where (p : nat → bool) (value_size : Z) (cs : list bytes) : list bytes :=
  imap (λ i c, if p i then c else zeroes value_size) cs.

(** Rows that are shown and rows that are not add up to all of them. *)
Lemma rows_where_split p value_size cs :
  sv_total cs = sv_add (sv_total (rows_where (λ i, negb (p i)) value_size cs)) (sv_total (rows_where p value_size cs)).
Proof.
  unfold rows_where. revert p. induction cs as [|c cs IH]; intros p; [done|]. rewrite !imap_cons.
  unfold sv_total in *. cbn [foldr]. rewrite (IH (λ i, p (S i))). unfold compose.
  set (a := foldr _ _ (imap (λ i c, if negb (p (S i)) then _ else _) cs)).
  set (b := foldr _ _ (imap (λ i c, if p (S i) then _ else _) cs)).
  destruct (p 0%nat); cbn [negb]; rewrite load_zeroes; sv_crush.
Qed.

(** ** Properties *)


Definition example_row (ifindex n : Z) : bytes * bytes :=
  (le_split 4 ifindex, le_split 8 n ++ le_split 8 1 ++ le_split 8 (2 * n) ++ le_split 8 1).

Definition place (a : Z) (bs : bytes) (m : umem) : umem :=
  foldr (λ '(i, b) m, <[a + Z.of_nat i := b]> m) m (imap pair bs).

(** Rows for [wlan0] (index 3), a VPN (index 30) and [lo] (index 1). *)
Definition example_keys : bytes := le_split 4 3 ++ le_split 4 30 ++ le_split 4 1.
Definition example_values : list bytes :=
  [(example_row 3 1000).2; (example_row 30 700).2; (example_row 1 5).2].
Definition example_bpf_mem : umem :=
  place 4096 (replicate 32 x00 ++ le_split 4 3) (place 8192 example_keys
    (place 16384 (mjoin example_values) ∅)).
Definition example_bpf_data : sys_bpf_data :=
  mk_bpf_data BPF_MAP_LOOKUP_BATCH 4096 56
    (replicate 16 x00 ++ le_split 8 8192 ++ le_split 8 16384 ++ le_split 4 3 ++ le_split 4 7) 7.
Definition example_bpf_env : bpf_env :=
  mk_bpf_env None (Some (mk_vpn_ifindexes 1 [mk_active_vpn 30 (text "tun0")])) 3 false.
Definition example_kmem : bpf_kmem := mk_kmem false false [] [].

Lemma example_batch_ready :
  batch_ready example_kmem example_bpf_data 4 32 example_bpf_mem example_keys example_values.
Proof.
  split.
  - vm_compute. done.
  - vm_compute. lia.
  - split; vm_compute; lia.
  - lia.
  - vm_compute. done.
  - vm_compute. done.
  - vm_compute. done.
  - intros i c Hi.
    do 3 (destruct i as [|i]; [apply (inj Some) in Hi; subst c; vm_compute; reflexivity|]).
    discriminate Hi.
Qed.


(** A batch read of a per-UID map zeroes exactly the rows of a VPN
    interface or of a target UID and changes nothing else. *)
Theorem bpf_uid_batch_exact e km data key_size value_size m keys cs :
  let hidden := row_hidden e keys key_size VH_BPF_MAP_KEYED_UID in
  let vals := attr_batch_values (bd_attr data) in
  let m' := bpf_batch_lookup_zero e km data key_size value_size VH_BPF_MAP_KEYED_UID m in
  batch_ready km data key_size value_size m keys cs → 16 <= key_size →
  values_at vals value_size m' (imap (λ i c, if hidden i then zeroes value_size else c) cs) ∧
  (∀ x, x < vals ∨ vals + Z.of_nat (length cs) * value_size <= x → m' !! x = m !! x).
Proof.
  intros hidden vals m' Hr H16.
  destruct (bpf_batch_result e km data key_size value_size VH_BPF_MAP_KEYED_UID m keys cs Hr)
    as (cs1 & s & Hinv & Hm'). fold m' in Hm'.
  destruct (batch_cover_rows e km data key_size value_size VH_BPF_MAP_KEYED_UID m keys cs Hr s cs1 Hinv)
    as (cs2 & Hv2 & Hl2 & Hsame & Hframe & _). rewrite <- Hm' in *.
  destruct Hinv as [_ Hl Hh Ho _ _ _ _ _].
  split; [|done]. intros i c Hi. apply Hv2. rewrite Hsame by done.
  rewrite list_lookup_imap in Hi. destruct (cs !! i) as [c0|] eqn:Ec; [|done]. simplify_eq/=.
  pose proof (lookup_lt_Some _ _ _ Ec) as Hlt.
  assert (Hk : is_key_vpn_or_target_uid e (batch_key (keys ++ km_key_junk km) key_size i)
                 VH_BPF_MAP_KEYED_UID = hidden i) by by eapply row_hidden_read.
  destruct (hidden i); [by apply Hh|]. rewrite Ho by auto. done.
Qed.

(** A per-UID map with 16-byte keys: UID 10123 on [wlan0] and on the VPN. *)
Definition example_uid_key (uid ifindex : Z) : bytes :=
  le_split 4 uid ++ replicate 8 x00 ++ le_split 4 ifindex.
Definition example_uid_keys : bytes := example_uid_key 10123 3 ++ example_uid_key 10123 30.
Definition example_uid_values : list bytes := [(example_row 3 1000).2; (example_row 30 700).2].
Definition example_uid_mem : umem :=
  place 4096 (replicate 32 x00 ++ le_split 4 2) (place 8192 example_uid_keys
    (place 16384 (mjoin example_uid_values) ∅)).

Lemma bpf_uid_batch_exact_witness :
  values_at 16384 32
    (bpf_batch_lookup_zero example_bpf_env example_kmem example_bpf_data 16 32
       VH_BPF_MAP_KEYED_UID example_uid_mem)
    [(example_row 3 1000).2; zeroes 32].
Proof.
  refine (proj1 (bpf_uid_batch_exact example_bpf_env example_kmem example_bpf_data 16 32
    example_uid_mem example_uid_keys example_uid_values _ _)); [|lia].
  split.
  - vm_compute. done.
  - vm_compute. lia.
  - split; vm_compute; lia.
  - lia.
  - vm_compute. done.
  - vm_compute. done.
  - vm_compute. done.
  - intros i c Hi.
    do 2 (destruct i as [|i]; [apply (inj Some) in Hi; subst c; vm_compute; reflexivity|]).
    discriminate Hi.
Defined.

(** A per-UID map whose key is the bare UID (4 bytes): the interface index
    is read from behind the key, so whether the counters of a UID that is not a
    target are zeroed depends on stale kernel stack only. *)
Theorem short_uid_key_reads_stale_stack e km map attr value_size m k :
  copy_in m (attr_key attr) 4 = Some k →
  is_target_uid_val (be_policy e) (key_uid k) = false →
  have_buf value_size 256 (km_alloc_value km) = true →
  bpf_single_lookup_zero e km map attr 4 value_size VH_BPF_MAP_KEYED_UID m =
  (if is_active_vpn_ifindex (be_vpns e) (le_at 4 (km_key_junk km) 8)
   then (copy_out m (attr_value attr) (zeroes value_size)).1 else m).
Proof.
  intros Hk Ht Hv. pose proof (copy_in_length _ _ _ _ Hk) as Hl.
  unfold bpf_single_lookup_zero. rewrite Hv. change (have_buf 4 64 _) with true.
  change (Z.to_nat 4) with 4%nat. cbn [negb orb]. rewrite Hk.
  unfold is_key_vpn_or_target_uid, key_uid, key_ifaceIndex.
  rewrite (le_at_app_l 4 k _ 0) by lia. fold (key_uid k). rewrite Ht, orb_false_r.
  replace (le_at 4 (k ++ km_key_junk km) 12) with (le_at 4 (km_key_junk km) 8); [done|].
  unfold le_at, slice. rewrite drop_app_ge by lia. by rewrite Hl.
Qed.

Definition example_key_attr : bytes :=
  replicate 8 x00 ++ le_split 8 8192 ++ le_split 8 16384.
Definition example_short_mem : umem := place 8192 (le_split 4 10123) (place 16384 (replicate 32 x01) ∅).
Definition stale_stack (ifindex : Z) : bytes := replicate 8 x00 ++ le_split 4 ifindex.

(** With the index of the VPN left on the stack the counters vanish, with
    another value they do not. *)
Lemma short_uid_key_reads_stale_stack_witness :
  let lookup junk := bpf_single_lookup_zero example_bpf_env (mk_kmem false false junk [])
    (mk_bpf_map [] 4 32 (λ _, None)) example_key_attr 4 32 VH_BPF_MAP_KEYED_UID example_short_mem in
  lookup (stale_stack 30) = (copy_out example_short_mem 16384 (zeroes 32)).1 ∧
  lookup (stale_stack 3) = example_short_mem.
Proof.
  split;
    (etrans; [refine (short_uid_key_reads_stale_stack example_bpf_env _ _ _ 32 _ (le_split 4 10123)
                _ _ _); vm_compute; reflexivity|]);
    vm_compute; reflexivity.
Defined.
