(* ===== verification/StatsRing.v ===== *)
(** * The daemon's statistics history

    [daemon/stats.c] reads the kernel's cumulative counters once a minute,
    keeps the last snapshot as a baseline and stores the difference to it as a
    point of a ring of 360 points, which a client reads as JSON.  This file
    models the ring, the two binary searches, the retry loop that reads the
    kernel's tables and the sampling step; [StatsJson] models the output. *)
From Stdlib Require Import ZArith Lia.
From S2P Require Import Prelude Abi Snapshot OwnedPorts Stats PortStats Device DeviceInv.

#[local] Open Scope Z_scope.

Definition STATS_RESOLUTION_SEC : Z := 60.
Definition STATS_RETENTION_SEC : Z := 6 * 60 * 60.
Definition STATS_RING_POINTS : nat := 360.

(** ** Data *)

(** [struct vpnhide_uid_stats] has the fields of the kernel's total. *)
Abbreviation vpnhide_uid_stats := kmod_uid_stats_total.

Record vpnhide_port_stats := mk_vps {
  vps_uid : Z;
  vps_port : Z;
  vps_protocol : Z;
  vps_count : Z
}.

Definition port_stats_of_row (r : Z * Z * Z * Z) : vpnhide_port_stats :=
  let '(uid, port, protocol, count) := r in mk_vps uid port protocol count.

Record daemon_stats_point := mk_point {
  pt_timestamp_ms : Z;
  pt_gap : bool;
  pt_entries : list vpnhide_uid_stats;
  pt_ports : list vpnhide_port_stats
}.

Definition zero_point : daemon_stats_point := mk_point 0 false [] [].

(** A counted array is a list; capacities are the allocated sizes. *)
Record daemon_stats_ring := mk_ring {
  rg_points : list daemon_stats_point;
  rg_head : nat;
  rg_count : nat;
  rg_dropped_intervals : Z;
  rg_latest_sequence : Z;
  rg_previous_sequence : Z;
  rg_session_id : bytes;
  rg_previous : list vpnhide_uid_stats;
  rg_previous_capacity : Z;
  rg_previous_ports : list vpnhide_port_stats;
  rg_previous_port_capacity : Z;
  rg_dropped_port_entries : Z;
  rg_baseline_valid : bool
}.

(** [memset(&stats_ring, 0, sizeof(stats_ring))] *)
Definition zero_ring : daemon_stats_ring :=
  mk_ring (replicate STATS_RING_POINTS zero_point) 0 0 0 0 0 [] [] 0 [] 0 0 false.

Definition clear_stats_ring (r : daemon_stats_ring) : daemon_stats_ring :=
  mk_ring (replicate STATS_RING_POINTS zero_point) 0 0 0 0 0 (rg_session_id r) [] 0 [] 0 0 false.

Definition set_window (points : list daemon_stats_point) (head count : nat) (dropped : Z)
    (r : daemon_stats_ring) : daemon_stats_ring :=
  mk_ring points head count dropped (rg_latest_sequence r) (rg_previous_sequence r)
    (rg_session_id r) (rg_previous r) (rg_previous_capacity r) (rg_previous_ports r)
    (rg_previous_port_capacity r) (rg_dropped_port_entries r) (rg_baseline_valid r).

Definition set_capacities (uids ports : Z) (r : daemon_stats_ring) : daemon_stats_ring :=
  mk_ring (rg_points r) (rg_head r) (rg_count r) (rg_dropped_intervals r) (rg_latest_sequence r)
    (rg_previous_sequence r) (rg_session_id r) (rg_previous r) uids (rg_previous_ports r)
    ports (rg_dropped_port_entries r) (rg_baseline_valid r).

(** ** Searching *)

(** [while (lo < hi)] with [hi] exclusive; [below] is the test of the loop. *)
Fixpoint lower_bound {A} (below : A → bool) (xs : list A) (fuel lo hi : nat) : option nat :=
  match fuel with
  | O => None
  | S fuel =>
      if (lo <? hi)%nat then
        let mid := (lo + (hi - lo) / 2)%nat in
        match xs !! mid with
        | None => None
        | Some x => if below x then lower_bound below xs fuel (mid + 1) hi
                    else lower_bound below xs fuel lo mid
        end
      else Some lo
  end.

(** The element at the bound, when it is the one looked for. *)
Definition bound_find {A} (below is_it : A → bool) (xs : list A) : option A :=
  lo ← lower_bound below xs (S (length xs)) 0 (length xs);
  x ← xs !! lo; if is_it x then Some x else None.

Definition find_uid_stats (entries : list vpnhide_uid_stats) (uid : Z) : option vpnhide_uid_stats :=
  bound_find (λ e, st_uid e <? uid) (λ e, st_uid e =? uid) entries.

Definition port_below (uid port protocol : Z) (e : vpnhide_port_stats) : bool :=
  (vps_uid e <? uid) || ((vps_uid e =? uid) && (vps_protocol e <? protocol)) ||
  ((vps_uid e =? uid) && (vps_protocol e =? protocol) && (vps_port e <? port)).

Definition find_port_stats (entries : list vpnhide_port_stats) (uid port protocol : Z)
    : option vpnhide_port_stats :=
  bound_find (port_below uid port protocol)
    (λ e, (vps_uid e =? uid) && (vps_port e =? port) && (vps_protocol e =? protocol)) entries.

Definition port_stats_compare (a b : vpnhide_port_stats) : Z :=
  if negb (vps_uid a =? vps_uid b) then if vps_uid a <? vps_uid b then -1 else 1
  else if negb (vps_protocol a =? vps_protocol b) then vps_protocol a - vps_protocol b
  else if negb (vps_port a =? vps_port b) then if vps_port a <? vps_port b then -1 else 1
  else 0.

(** ** Differences *)

Definition stats_delta (current previous : Z) : Z :=
  if previous <=? current then current - previous else current.

Definition all_counters : list stats_counter :=
  [ioctl_count; netlink_count; proc_count; sockopt_count; connect_count; getname_count; port_count;
   java_pm_count; java_um_count; java_nc_count; java_ni_count; java_net_count; java_lp_count;
   java_cs_count].

(** The condition of the counting loop. *)
Definition uid_changed (current : vpnhide_uid_stats) (old : option vpnhide_uid_stats) : bool :=
  match old with
  | None => true
  | Some old => existsb (λ c, negb (stats_delta (counter c current) (counter c old) =? 0)) all_counters
  end.

(** The condition under which the filling loop goes on to the next row. *)
Definition uid_unchanged (current : vpnhide_uid_stats) (old : option vpnhide_uid_stats) : bool :=
  match old with
  | None => false
  | Some old => forallb (λ c, stats_delta (counter c current) (counter c old) =? 0) all_counters
  end.

Definition old_counter (c : stats_counter) (old : option vpnhide_uid_stats) : Z :=
  match old with Some old => counter c old | None => 0 end.

Definition uid_delta (current : vpnhide_uid_stats) (old : option vpnhide_uid_stats)
    : vpnhide_uid_stats :=
  mk_uid_stats (st_uid current)
    ((λ c, stats_delta (counter c current) (old_counter c old)) <$> all_counters).

Definition count_uid_deltas (previous current : list vpnhide_uid_stats) : nat :=
  length (List.filter (λ e, uid_changed e (find_uid_stats previous (st_uid e))) current).

(** The rows the filling loop writes, in order. *)
Definition fill_uid_deltas (previous current : list vpnhide_uid_stats) : list vpnhide_uid_stats :=
  (λ e, uid_delta e (find_uid_stats previous (st_uid e))) <$>
  List.filter (λ e, negb (uid_unchanged e (find_uid_stats previous (st_uid e)))) current.

Definition port_delta (previous : list vpnhide_port_stats) (e : vpnhide_port_stats) : Z :=
  stats_delta (vps_count e)
    (match find_port_stats previous (vps_uid e) (vps_port e) (vps_protocol e) with
     | Some old => vps_count old | None => 0 end).

Definition count_port_deltas (previous current : list vpnhide_port_stats) : nat :=
  length (List.filter (λ e, negb (port_delta previous e =? 0)) current).

Definition fill_port_deltas (previous current : list vpnhide_port_stats) : list vpnhide_port_stats :=
  (λ e, mk_vps (vps_uid e) (vps_port e) (vps_protocol e) (port_delta previous e)) <$>
  List.filter (λ e, negb (port_delta previous e =? 0)) current.

(** ** The window *)

Definition next_index (i : nat) : nat := ((i + 1) mod STATS_RING_POINTS)%nat.

(** [free_stats_point(&ring->points[ring->head]); ring->head = ...;] *)
Definition drop_head (r : daemon_stats_ring) (count : nat) : daemon_stats_ring :=
  set_window (<[rg_head r := zero_point]> (rg_points r)) (next_index (rg_head r)) count
    (u64 (rg_dropped_intervals r + 1)) r.

Definition point_at (r : daemon_stats_ring) (i : nat) : daemon_stats_point :=
  default zero_point (rg_points r !! i).

Definition expired (timestamp_ms : Z) (p : daemon_stats_point) : bool :=
  u64 (pt_timestamp_ms p + STATS_RETENTION_SEC * 1000) <=? timestamp_ms.

(** [while (ring->count && ...)], by recursion on [ring->count]. *)
Fixpoint drop_expired (n : nat) (timestamp_ms : Z) (r : daemon_stats_ring) : daemon_stats_ring :=
  match n with
  | O => r
  | S n => if expired timestamp_ms (point_at r (rg_head r))
           then drop_expired n timestamp_ms (drop_head r n) else r
  end.

(** Make room and store the point. *)
Definition store_point (p : daemon_stats_point) (r : daemon_stats_ring) : daemon_stats_ring :=
  let r := if (rg_count r =? STATS_RING_POINTS)%nat then drop_head r (rg_count r)
           else set_window (rg_points r) (rg_head r) (rg_count r + 1) (rg_dropped_intervals r) r in
  set_window (<[((rg_head r + rg_count r - 1) mod STATS_RING_POINTS)%nat := p]> (rg_points r))
    (rg_head r) (rg_count r) (rg_dropped_intervals r) r.

(** What the allocations of one call return. *)
Record append_allocs := mk_append_allocs {
  aa_previous : bool;
  aa_previous_ports : bool;
  aa_entries : bool;
  aa_ports : bool
}.

Record stats_sample := mk_sample {
  sm_uids : list vpnhide_uid_stats;
  sm_ports : list vpnhide_port_stats;
  sm_sequence : Z;
  sm_dropped_ports : Z
}.

Definition sample_gap (r : daemon_stats_ring) (sequence : Z) : bool :=
  negb (rg_baseline_valid r) || (sequence <=? rg_previous_sequence r).

(** The point of one interval. *)
Definition make_point (r : daemon_stats_ring) (s : stats_sample) (timestamp_ms : Z)
    : daemon_stats_point :=
  if sample_gap r (sm_sequence s) then mk_point timestamp_ms true [] []
  else mk_point timestamp_ms false (fill_uid_deltas (rg_previous r) (sm_uids s))
         (fill_port_deltas (rg_previous_ports r) (sm_ports s)).

Definition needs_rows (gap : bool) (n : nat) : bool := negb gap && negb (n =? 0)%nat.

(** The last lines: the snapshot becomes the baseline. *)
Definition set_baseline (s : stats_sample) (r : daemon_stats_ring) : daemon_stats_ring :=
  mk_ring (rg_points r) (rg_head r) (rg_count r) (rg_dropped_intervals r) (sm_sequence s)
    (sm_sequence s) (rg_session_id r) (sm_uids s) (rg_previous_capacity r) (sm_ports s)
    (rg_previous_port_capacity r) (sm_dropped_ports s) true.

(** The flag is [false] when an allocation failed and the interval is left for
    the next sample. *)
Definition append_stats_point (al : append_allocs) (s : stats_sample) (timestamp_ms : Z)
    (r : daemon_stats_ring) : daemon_stats_ring * bool :=
  let count := Z.of_nat (length (sm_uids s)) in
  let port_count := Z.of_nat (length (sm_ports s)) in
  if (rg_previous_capacity r <? count) && negb (aa_previous al) then (r, false)
  else
    let r := set_capacities (Z.max (rg_previous_capacity r) count) (rg_previous_port_capacity r) r in
    if (rg_previous_port_capacity r <? port_count) && negb (aa_previous_ports al) then (r, false)
    else
      let r := set_capacities (rg_previous_capacity r)
                 (Z.max (rg_previous_port_capacity r) port_count) r in
      let gap := sample_gap r (sm_sequence s) in
      if needs_rows gap (count_uid_deltas (rg_previous r) (sm_uids s)) && negb (aa_entries al)
      then (r, false)
      else if needs_rows gap (count_port_deltas (rg_previous_ports r) (sm_ports s)) &&
              negb (aa_ports al) then (r, false)
      else
        let p := make_point r s timestamp_ms in
        (set_baseline s (store_point p (drop_expired (rg_count r) timestamp_ms r)), true).

(** ** Reading the kernel's tables *)

(** What [ioctl(VH_GET_STATS_V2)] left in the request and the buffers. *)
Inductive v2_outcome :=
  | V2Ok (s : stats_sample)
  | V2Err (e : errno) (uid_count ports_count : Z).

Inductive v1_outcome :=
  | V1Ok (uids : list vpnhide_uid_stats) (sequence : Z)
  | V1Err (e : errno) (count : Z).

Inductive read_end :=
  | ReadOk (s : stats_sample)
  | ReadFail
  | ReadNoV2.

Section read.
(** The kernel, with whatever happens to it between two calls, and [calloc]. *)
Context {K : Type}.
Context (ioctl_v2 : Z → Z → K → v2_outcome * K) (ioctl_v1 : Z → K → v1_outcome * K).
Context (calloc : K → Z → bool).

(** [if (request.count > capacity) { capacity = request.count; ... calloc }] *)
Definition grow_buffer (k : K) (count capacity : Z) : option Z :=
  if capacity <? count then if calloc k count then Some count else None else Some capacity.

Fixpoint read_v2 (fuel : nat) (capacity port_capacity : Z) (k : K) : option (read_end * K) :=
  match fuel with
  | O => None
  | S fuel =>
      match ioctl_v2 capacity port_capacity k with
      | (V2Ok s, k) => Some (ReadOk s, k)
      | (V2Err e uid_count ports_count, k) =>
          if bool_decide (e = ENOTTY) then Some (ReadNoV2, k)
          else if negb (bool_decide (e = ENOSPC)) ||
                  ((uid_count <=? capacity) && (ports_count <=? port_capacity))
          then Some (ReadFail, k)
          else
            match grow_buffer k uid_count capacity, grow_buffer k ports_count port_capacity with
            | Some capacity, Some port_capacity => read_v2 fuel capacity port_capacity k
            | _, _ => Some (ReadFail, k)
            end
      end
  end.

Fixpoint read_v1 (fuel : nat) (capacity : Z) (k : K) : option (read_end * K) :=
  match fuel with
  | O => None
  | S fuel =>
      match ioctl_v1 capacity k with
      | (V1Ok uids sequence, k) => Some (ReadOk (mk_sample uids [] sequence 0), k)
      | (V1Err e count, k) =>
          if negb (bool_decide (e = ENOSPC)) || (count <=? capacity) then Some (ReadFail, k)
          else if calloc k count then read_v1 fuel count k else Some (ReadFail, k)
      end
  end.

Definition read_kernel_stats (fuel : nat) (k : K) : option (option stats_sample * K) :=
  match read_v2 fuel 0 0 k with
  | Some (ReadOk s, k) => Some (Some s, k)
  | Some (ReadFail, k) => Some (None, k)
  | Some (ReadNoV2, k) =>
      match read_v1 fuel 0 k with
      | Some (ReadOk s, k) => Some (Some s, k)
      | Some (_, k) => Some (None, k)
      | None => None
      end
  | None => None
  end.

(** [sample_stats]; [qsort] sorts the port rows when there are two or more. *)
Definition sample_stats {KS : KSort} (fuel : nat) (al : append_allocs) (wall_time_ms : Z) (k : K)
    (r : daemon_stats_ring) : option (daemon_stats_ring * K) :=
  match read_kernel_stats fuel k with
  | None => None
  | Some (None, k) => Some (r, k)
  | Some (Some s, k) =>
      let ports := if (1 <? length (sm_ports s))%nat then ksort port_stats_compare (sm_ports s)
                   else sm_ports s in
      Some ((append_stats_point al (mk_sample (sm_uids s) ports (sm_sequence s) (sm_dropped_ports s))
               wall_time_ms r).1, k)
  end.
End read.

(** The kernel side of the read: a buffer of capacity zero is NULL. *)
Definition buffer_ptr (capacity : Z) : Z := if capacity =? 0 then 0 else 1.

Definition copied_rows (c : copied_entries) : list vpnhide_uid_stats :=
  match c with Values rows => rows | Uninitialised _ _ => [] end.

(** [VH_GET_STATS_V2] of the module; on [ENOSPC] the counts are written back,
    on other errors the request keeps its zeroes. *)
Definition kernel_v2 (HZ now : Z) (alloc : bool) (capacity port_capacity : Z) (d : device)
    : v2_outcome * device :=
  let r := ioctl_get_stats_v2 HZ alloc alloc true now (kmod_stats (dv_stats d)) (dv_port_stats d)
             (Some (capacity, buffer_ptr capacity, port_capacity, buffer_ptr port_capacity)) d in
  (match ie_error r, ie_out r with
   | None, OutStatsV2 u p =>
       V2Ok (mk_sample (copied_rows (rp_entries u)) (port_stats_of_row <$> pr_entries p)
               (rp_sequence u) (pr_dropped p))
   | Some e, OutCounts uc pc => V2Err e uc pc
   | Some e, _ => V2Err e 0 0
   | None, _ => V2Err EIO 0 0
   end, ie_device r).

(** ** Searching: exactness *)

Section bound.
Context {A : Type} (below : A → bool) (xs : list A).

(** [below] holds of a prefix exactly. *)
Definition split_at (k : nat) : Prop :=
  (k <= length xs)%nat ∧ ∀ i x, xs !! i = Some x → below x = true ↔ (i < k)%nat.

Lemma lower_bound_split k fuel lo hi :
  split_at k → (lo <= k <= hi)%nat → (hi <= length xs)%nat → (hi - lo < fuel)%nat →
  lower_bound below xs fuel lo hi = Some k.
Proof.
  intros [Hk Hs]. revert lo hi. induction fuel as [|fuel IH]; intros lo hi H1 H2 H3; [lia|].
  cbn [lower_bound].
  destruct (Nat.ltb_spec lo hi) as [Hlt|Hge]; [|f_equal; lia].
  cbv zeta. set (mid := (lo + (hi - lo) / 2)%nat).
  assert (Hm : (lo <= mid < hi)%nat).
  { pose proof (Nat.div_lt (hi - lo) 2 ltac:(lia) ltac:(lia)). lia. }
  destruct (lookup_lt_is_Some_2 xs mid ltac:(lia)) as [x Hx]. rewrite Hx.
  pose proof (Hs mid x Hx) as Hb. destruct (below x); apply IH; destruct Hb as [Hb1 Hb2]; lia.
Qed.

Lemma bound_find_split is_it k :
  split_at k → bound_find below is_it xs = x ← xs !! k; if is_it x then Some x else None.
Proof.
  intros Hs. unfold bound_find.
  rewrite (lower_bound_split k) by (done || destruct Hs; lia). done.
Qed.
End bound.

(** A list sorted by a strict order whose lower sets [below] cuts. *)
Lemma sorted_split {A} (lt : relation A) (below : A → bool) xs :
  StronglySorted lt xs →
  (∀ x y, lt x y → below y = true → below x = true) → ∃ k, split_at below xs k.
Proof.
  intros Hs Hb. induction Hs as [|x xs Hs IH Hall].
  { exists 0%nat. split; [simpl; lia|]. intros i y Hy. done. }
  destruct IH as (k & Hk & Hsp). destruct (below x) eqn:Ex.
  - exists (S k). split; [simpl; lia|]. intros [|i] y Hy; simplify_eq/=.
    + split; [lia|done].
    + rewrite (Hsp i y Hy). lia.
  - exists 0%nat. split; [simpl; lia|]. intros [|i] y Hy; simplify_eq/=.
    + split; [congruence|lia].
    + split; [|lia]. intros Hy'. rewrite Forall_forall in Hall.
      rewrite (Hb x y) in Ex; [done| |done]. by eapply Hall, list_elem_of_lookup_2.
Qed.

Lemma find_uid_stats_Some xs uid e :
  strictly_sorted st_uid xs → find_uid_stats xs uid = Some e ↔ e ∈ xs ∧ st_uid e = uid.
Proof.
  intros Hs. destruct (sorted_split (λ a b, st_uid a < st_uid b) (λ e, st_uid e <? uid) xs Hs)
    as (k & Hsp); [intros x y Hxy Hy; b2p; apply Z.ltb_lt; lia|].
  unfold find_uid_stats. rewrite (bound_find_split _ _ _ k Hsp). destruct Hsp as [Hk Hsp].
  split.
  - destruct (xs !! k) as [x|] eqn:Ex; [|done]. simpl. case_match; intros; simplify_eq. b2p.
    split; [by eapply list_elem_of_lookup_2|done].
  - intros [[i Hi]%list_elem_of_lookup Hu].
    assert (i = k) as ->; [|rewrite Hi; simpl; by rewrite Hu, Z.eqb_refl].
    destruct (Nat.lt_trichotomy i k) as [Hik|[?|Hik]]; [|done|].
    + apply (Hsp i e Hi) in Hik. b2p. lia.
    + destruct (lookup_lt_is_Some_2 xs k) as [x Hx]; [apply lookup_lt_Some in Hi; lia|].
      pose proof (strictly_sorted_lookup st_uid _ _ _ _ _ Hs Hx Hi Hik).
      assert (Hlt : (st_uid x <? uid) = true) by (apply Z.ltb_lt; lia). apply (Hsp k x Hx) in Hlt. lia.
Qed.

Lemma find_uid_stats_None xs uid :
  strictly_sorted st_uid xs → find_uid_stats xs uid = None ↔ ∀ e, e ∈ xs → st_uid e ≠ uid.
Proof.
  intros Hs. rewrite eq_None_not_Some. split.
  - intros Hn e He Hu. apply Hn. exists e. by apply find_uid_stats_Some.
  - intros Hn [e He]. apply find_uid_stats_Some in He as [? ?]; [|done]. by eapply Hn.
Qed.

(** The order of [port_stats_compare]. *)
Definition port_lt (a b : vpnhide_port_stats) : Prop :=
  vps_uid a < vps_uid b ∨
  (vps_uid a = vps_uid b ∧
   (vps_protocol a < vps_protocol b ∨ (vps_protocol a = vps_protocol b ∧ vps_port a < vps_port b))).

Definition port_key (e : vpnhide_port_stats) : Z * Z * Z := (vps_uid e, vps_protocol e, vps_port e).

(** Split the comparisons of the keys of two rows. *)
Ltac port_cases :=
  repeat match goal with
  | |- context [?a =? ?b] => destruct (Z.eqb_spec a b)
  | |- context [?a <? ?b] => destruct (Z.ltb_spec a b)
  | H : context [?a =? ?b] |- _ => destruct (Z.eqb_spec a b)
  | H : context [?a <? ?b] |- _ => destruct (Z.ltb_spec a b)
  end; simpl in *.

Lemma port_compare_le a b :
  port_stats_compare a b <= 0 ↔ port_lt a b ∨
    (vps_uid a = vps_uid b ∧ vps_protocol a = vps_protocol b ∧ vps_port a = vps_port b).
Proof. unfold port_stats_compare, port_lt. port_cases; lia. Qed.

Lemma port_compare_ok : cmp_ok port_stats_compare.
Proof.
  split; intros *; rewrite !port_compare_le; unfold port_lt; lia.
Qed.

Lemma port_compare_lt a b :
  port_stats_compare a b <= 0 → port_key a ≠ port_key b → port_lt a b.
Proof.
  rewrite port_compare_le. intros [H|(?&?&?)] Hne; [done|]. destruct Hne. unfold port_key. congruence.
Qed.

#[export] Instance port_lt_trans : Transitive port_lt.
Proof. intros a b c. unfold port_lt. lia. Qed.

(** After [qsort] rows with distinct keys are strictly sorted. *)
Lemma sorted_ports {KS : KSort} {HKS : KSortLaws KS} xs :
  NoDup (port_key <$> xs) → StronglySorted port_lt (ksort port_stats_compare xs).
Proof.
  intros Hnd. pose proof (ksort_sorted _ port_stats_compare xs port_compare_ok) as Hs.
  assert (Hnd' : NoDup (port_key <$> ksort port_stats_compare xs)) by by rewrite ksort_perm.
  apply Sorted_StronglySorted; [apply _|]. revert Hnd'.
  induction Hs as [|x l Hs IH Hhd]; intros Hn; constructor.
  - apply IH. by apply NoDup_cons in Hn as [_ Hn].
  - inversion Hhd as [|y l' Hle]; subst; constructor. apply port_compare_lt; [done|].
    rewrite !fmap_cons in Hn. apply NoDup_cons in Hn as [Hni _]. intros E. apply Hni. rewrite E.
    apply list_elem_of_here.
Qed.

Lemma port_below_lt uid port protocol e :
  port_below uid port protocol e = true ↔ port_lt e (mk_vps uid port protocol 0).
Proof.
  unfold port_below, port_lt; simpl. rewrite !orb_true_iff, !andb_true_iff, !Z.ltb_lt, !Z.eqb_eq. lia.
Qed.

Lemma StronglySorted_lookup_lt {A} (lt : relation A) xs i j x y :
  StronglySorted lt xs → xs !! i = Some x → xs !! j = Some y → (i < j)%nat → lt x y.
Proof.
  intros Hs; revert i j. induction Hs as [|a xs Hs IH Hall]; intros i j Hi Hj Hij; [done|].
  destruct j as [|j]; [lia|]. destruct i as [|i]; simplify_eq/=.
  - rewrite Forall_forall in Hall. by eapply Hall, list_elem_of_lookup_2.
  - eapply (IH i j); eauto with lia.
Qed.

Lemma find_port_stats_Some xs uid port protocol e :
  StronglySorted port_lt xs →
  find_port_stats xs uid port protocol = Some e ↔ e ∈ xs ∧ port_key e = (uid, protocol, port).
Proof.
  intros Hs. set (target := mk_vps uid port protocol 0).
  destruct (sorted_split port_lt (port_below uid port protocol) xs Hs) as (k & Hsp).
  { intros x y Hxy. rewrite !port_below_lt. intros Hy. by etrans. }
  unfold find_port_stats. rewrite (bound_find_split _ _ _ k Hsp). destruct Hsp as [Hk Hsp].
  split.
  - destruct (xs !! k) as [x|] eqn:Ex; [|done]. simpl. case_match; intros; simplify_eq. b2p.
    split; [by eapply list_elem_of_lookup_2|]. unfold port_key. congruence.
  - intros [[i Hi]%list_elem_of_lookup Hu]. injection Hu as H1 H2 H3.
    assert (i = k) as ->; [|rewrite Hi; simpl; by rewrite H1, H2, H3, !Z.eqb_refl].
    destruct (Nat.lt_trichotomy i k) as [Hik|[?|Hik]]; [|done|].
    + apply (Hsp i e Hi), port_below_lt in Hik. unfold port_lt in Hik. simpl in Hik. lia.
    + destruct (lookup_lt_is_Some_2 xs k) as [x Hx]; [apply lookup_lt_Some in Hi; lia|].
      pose proof (StronglySorted_lookup_lt _ _ _ _ _ _ Hs Hx Hi Hik) as Hxe.
      assert (Hlt : port_below uid port protocol x = true).
      { apply port_below_lt. unfold port_lt in *. simpl. lia. }
      apply (Hsp k x Hx) in Hlt. lia.
Qed.

(** ** The window refines a bounded queue *)

Definition ring_wf (r : daemon_stats_ring) : Prop :=
  length (rg_points r) = STATS_RING_POINTS ∧ (rg_head r < STATS_RING_POINTS)%nat ∧
  (rg_count r <= STATS_RING_POINTS)%nat.

(** The points from the oldest to the newest. *)
Definition slot (r : daemon_stats_ring) (n : nat) : nat := ((rg_head r + n) mod STATS_RING_POINTS)%nat.
Definition ring_view (r : daemon_stats_ring) : list daemon_stats_point :=
  (λ n, point_at r (slot r n)) <$> seq 0 (rg_count r).

(** The contract: a queue that forgets expired points and holds 360. *)
Fixpoint skip_expired (timestamp_ms : Z) (q : list daemon_stats_point) : list daemon_stats_point :=
  match q with
  | [] => []
  | p :: q' => if expired timestamp_ms p then skip_expired timestamp_ms q' else q
  end.

Definition queue_push (timestamp_ms : Z) (p : daemon_stats_point) (q : list daemon_stats_point)
    : list daemon_stats_point :=
  let q := skip_expired timestamp_ms q in
  (if (length q =? STATS_RING_POINTS)%nat then tail q else q) ++ [p].

Lemma wrap_index h k :
  (h < STATS_RING_POINTS)%nat → (k <= STATS_RING_POINTS)%nat →
  ((h + k) mod STATS_RING_POINTS = if h + k <? STATS_RING_POINTS then h + k
                                   else h + k - STATS_RING_POINTS)%nat.
Proof.
  intros Hh Hk. destruct (Nat.ltb_spec (h + k) STATS_RING_POINTS).
  - by apply Nat.mod_small.
  - replace (h + k)%nat with (h + k - STATS_RING_POINTS + 1 * STATS_RING_POINTS)%nat at 1 by lia.
    rewrite Nat.Div0.mod_add. apply Nat.mod_small. lia.
Qed.

Opaque STATS_RING_POINTS.

Lemma length_view r : length (ring_view r) = rg_count r.
Proof. unfold ring_view. by rewrite length_fmap, length_seq. Qed.

Lemma view_lookup r n : (n < rg_count r)%nat → ring_view r !! n = Some (point_at r (slot r n)).
Proof. intros. unfold ring_view. by rewrite list_lookup_fmap, lookup_seq_lt. Qed.

Lemma ring_points_pos : (0 < STATS_RING_POINTS)%nat.
Proof. Transparent STATS_RING_POINTS. unfold STATS_RING_POINTS. lia. Qed.
Opaque STATS_RING_POINTS.

(** Case analysis on where an index wraps. *)
Ltac wrap_cases :=
  unfold slot in *; simpl in *; unfold next_index in *; pose proof ring_points_pos;
  repeat match goal with
  | |- context [Nat.modulo (?h + ?k) STATS_RING_POINTS] =>
      rewrite (wrap_index h k) by lia;
      destruct (Nat.ltb_spec (h + k) STATS_RING_POINTS)
  end.

Lemma slots_distinct h i j :
  (h < STATS_RING_POINTS)%nat → (i < STATS_RING_POINTS)%nat → (j < STATS_RING_POINTS)%nat → i ≠ j →
  ((h + i) mod STATS_RING_POINTS ≠ (h + j) mod STATS_RING_POINTS)%nat.
Proof. intros. wrap_cases; lia. Qed.

Lemma drop_head_view r n :
  ring_wf r → (n < STATS_RING_POINTS)%nat → (n < rg_count r)%nat →
  ring_wf (drop_head r n) ∧ ring_view (drop_head r n) = take n (tail (ring_view r)).
Proof.
  intros (Hl & Hh & Hc) Hn Hnc. split.
  - split_and!; simpl; [by rewrite length_insert | | lia].
    unfold next_index. apply Nat.mod_upper_bound. pose proof ring_points_pos. lia.
  - apply list_eq. intros i. destruct (decide (i < n)%nat) as [Hi|Hi].
    + rewrite view_lookup by (simpl; lia). rewrite lookup_take_lt by done.
      rewrite lookup_tail, view_lookup by lia. f_equal. unfold point_at; simpl. f_equal.
      rewrite list_lookup_insert_ne by (wrap_cases; lia). f_equal. wrap_cases; lia.
    + rewrite !lookup_ge_None_2; [done| |rewrite length_view; simpl; lia].
      rewrite length_take. lia.
Qed.

Lemma drop_expired_view ts r :
  ring_wf r →
  ring_wf (drop_expired (rg_count r) ts r) ∧
  ring_view (drop_expired (rg_count r) ts r) = skip_expired ts (ring_view r).
Proof.
  remember (rg_count r) as n eqn:En. revert r En. induction n as [|n IH]; intros r En Hwf; simpl.
  - split; [done|]. unfold ring_view. by rewrite <- En.
  - assert (Hv : ring_view r = point_at r (rg_head r) :: take n (tail (ring_view r))).
    { assert (Hhd : ring_view r !! 0%nat = Some (point_at r (rg_head r))).
      { rewrite view_lookup by lia. unfold slot. rewrite Nat.add_0_r, Nat.mod_small; [done|apply Hwf]. }
      pose proof (length_view r) as Hlen. destruct (ring_view r) as [|p q]; simplify_eq/=.
      f_equal. rewrite take_ge; [done|lia]. }
    rewrite Hv. simpl. destruct (expired ts (point_at r (rg_head r))).
    + destruct (drop_head_view r n Hwf) as [Hwf' Hv']; [destruct Hwf as (?&?&?); lia|lia|].
      destruct (IH (drop_head r n) eq_refl Hwf') as [Hw Hvw]. split; [exact Hw|]. by rewrite Hvw, Hv'.
    + split; [done|]. by rewrite Hv at 1.
Qed.

Lemma store_point_view p r :
  ring_wf r →
  ring_wf (store_point p r) ∧
  ring_view (store_point p r) =
  (if (length (ring_view r) =? STATS_RING_POINTS)%nat then tail (ring_view r) else ring_view r) ++ [p].
Proof.
  intros (Hl & Hh & Hc). rewrite length_view. unfold store_point. pose proof ring_points_pos as Hpos.
  assert (Hidx : ∀ a, (a mod STATS_RING_POINTS < STATS_RING_POINTS)%nat)
    by (intros; apply Nat.mod_upper_bound; lia).
  destruct (Nat.eqb_spec (rg_count r) STATS_RING_POINTS) as [Hf|Hf].
  - split; [split_and!; simpl; rewrite ?length_insert; auto; apply Hidx|].
    apply list_eq. intros i. destruct (decide (i < rg_count r)%nat) as [Hi|Hi].
    + rewrite view_lookup by done. unfold point_at; simpl.
      destruct (decide (S i = rg_count r)) as [Hlast|Hlast].
      * rewrite lookup_app_r by (rewrite length_tl, length_view; lia).
        rewrite length_tl, length_view. replace (i - _)%nat with 0%nat by lia. simpl.
        replace (slot _ i) with ((next_index (rg_head r) + rg_count r - 1) mod STATS_RING_POINTS)%nat
          by (unfold slot; simpl; f_equal; lia).
        rewrite list_lookup_insert_eq; [done|]. rewrite length_insert, Hl. apply Hidx.
      * rewrite lookup_app_l by (rewrite length_tl, length_view; lia).
        rewrite lookup_tail, view_lookup by lia. f_equal. unfold point_at. f_equal.
        rewrite list_lookup_insert_ne.
        2: { unfold slot; simpl. rewrite <- Nat.add_sub_assoc by lia.
             apply slots_distinct; [apply Hidx|lia..]. }
        rewrite list_lookup_insert_ne by (wrap_cases; lia). f_equal. wrap_cases; lia.
    + rewrite !lookup_ge_None_2; [done| |rewrite length_view; simpl; lia].
      rewrite length_app, length_tl, length_view. simpl. lia.
  - split; [split_and!; simpl; rewrite ?length_insert; auto; lia|].
    apply list_eq. intros i. destruct (decide (i < rg_count r + 1)%nat) as [Hi|Hi].
    + rewrite view_lookup by done. unfold point_at; simpl.
      replace (rg_head r + (rg_count r + 1) - 1)%nat with (rg_head r + rg_count r)%nat by lia.
      destruct (decide (i = rg_count r)) as [->|Hne].
      * rewrite lookup_app_r by (rewrite length_view; lia). rewrite length_view, Nat.sub_diag.
        unfold slot; simpl. rewrite list_lookup_insert_eq; [done|]. rewrite Hl. apply Hidx.
      * rewrite lookup_app_l by (rewrite length_view; lia). rewrite view_lookup by lia. f_equal.
        rewrite list_lookup_insert_ne; [done|]. wrap_cases; lia.
    + rewrite !lookup_ge_None_2; [done| |rewrite length_view; simpl; lia].
      rewrite length_app, length_view. simpl. lia.
Qed.

(** Every dropped point is counted. *)
Lemma u64_succ x n : u64 (u64 (x + 1) + n) = u64 (x + (n + 1)).
Proof. unfold u64, wrap. rewrite Zplus_mod_idemp_l. f_equal. lia. Qed.

Lemma drop_expired_dropped ts r :
  fits 64 (rg_dropped_intervals r) →
  let r' := drop_expired (rg_count r) ts r in
  (rg_count r' <= rg_count r)%nat ∧ fits 64 (rg_dropped_intervals r') ∧
  rg_dropped_intervals r' = u64 (rg_dropped_intervals r + Z.of_nat (rg_count r - rg_count r')).
Proof.
  remember (rg_count r) as n eqn:En. revert r En. induction n as [|n IH]; intros r En Hf; cbn zeta; simpl.
  { split_and!; [lia|done|]. rewrite Z.add_0_r. symmetry. by apply wrap_small. }
  assert (Hsame : rg_dropped_intervals r = u64 (rg_dropped_intervals r + Z.of_nat (S n - rg_count r))).
  { rewrite <- En, Nat.sub_diag, Z.add_0_r. symmetry. by apply wrap_small. }
  destruct (expired ts (point_at r (rg_head r))); [|split_and!; [lia|done|exact Hsame]].
  destruct (IH (drop_head r n) eq_refl) as (H1 & H2 & H3); [by apply wrap_fits|].
  split_and!; [lia|exact H2|]. rewrite H3. simpl. rewrite u64_succ. do 2 f_equal.
  destruct (drop_expired n ts (drop_head r n)); simpl in *. lia.
Qed.

Lemma store_point_dropped p r :
  fits 64 (rg_dropped_intervals r) → (rg_count r <= STATS_RING_POINTS)%nat →
  rg_dropped_intervals (store_point p r) =
  u64 (rg_dropped_intervals r + Z.of_nat (rg_count r + 1 - rg_count (store_point p r))).
Proof.
  intros Hf Hc. unfold store_point. destruct (Nat.eqb_spec (rg_count r) STATS_RING_POINTS); simpl.
  - do 2 f_equal. lia.
  - rewrite Nat.sub_diag, Z.add_0_r. symmetry. by apply wrap_small.
Qed.

(** ** One sample *)

Lemma ring_wf_capacities u p r : ring_wf (set_capacities u p r) ↔ ring_wf r.
Proof. done. Qed.

(** What a call changes, when it stores a point and when it gives up. *)
Lemma append_cases al s ts r r' ok :
  append_stats_point al s ts r = (r', ok) →
  ∃ u p, let rc := set_capacities u p r in
    if ok then r' = set_baseline s (store_point (make_point r s ts) (drop_expired (rg_count r) ts rc))
    else r' = rc.
Proof.
  unfold append_stats_point. intros H. destruct r.
  repeat case_match; simplify_eq; by eexists _, _.
Qed.

Definition ready (al : append_allocs) : Prop :=
  aa_previous al = true ∧ aa_previous_ports al = true ∧ aa_entries al = true ∧ aa_ports al = true.

Lemma append_ready al s ts r : ready al → (append_stats_point al s ts r).2 = true.
Proof.
  intros (H1 & H2 & H3 & H4). unfold append_stats_point. rewrite H1, H2, H3, H4. simpl.
  by rewrite !andb_false_r.
Qed.

Lemma append_stored al s ts r r' :
  append_stats_point al s ts r = (r', true) → ring_wf r →
  ring_wf r' ∧ ring_view r' = queue_push ts (make_point r s ts) (ring_view r) ∧
  rg_previous r' = sm_uids s ∧ rg_previous_ports r' = sm_ports s ∧
  rg_previous_sequence r' = sm_sequence s ∧ rg_baseline_valid r' = true ∧
  (fits 64 (rg_dropped_intervals r) →
   rg_dropped_intervals r' =
   u64 (rg_dropped_intervals r + Z.of_nat (length (ring_view r) + 1 - length (ring_view r')))).
Proof.
  intros (u & p & Hr)%append_cases Hwf. cbn zeta in Hr. set (rc := set_capacities u p r) in *.
  assert (Hwc : ring_wf rc) by done.
  destruct (drop_expired_view ts rc Hwc) as [Hw1 Hv1].
  destruct (store_point_view (make_point r s ts) _ Hw1) as [Hw2 Hv2].
  change (rg_count rc) with (rg_count r) in *.
  set (r1 := drop_expired (rg_count r) ts rc) in *.
  set (r2 := store_point (make_point r s ts) r1) in *. subst r'.
  assert (Hvr : ring_view (set_baseline s r2) = ring_view r2) by done.
  split_and!; try done.
  - rewrite Hvr, Hv2, Hv1. done.
  - intros Hf. rewrite Hvr, !length_view. change (rg_dropped_intervals (set_baseline s r2))
      with (rg_dropped_intervals r2).
    destruct (drop_expired_dropped ts rc Hf) as (Hc1 & Hf1 & Hd1).
    change (rg_count rc) with (rg_count r) in *. fold r1 in Hc1, Hf1, Hd1.
    unfold r2 at 1. rewrite store_point_dropped by (done || apply Hw1). fold r2. rewrite Hd1.
    change (rg_dropped_intervals rc) with (rg_dropped_intervals r).
    unfold u64, wrap. rewrite Zplus_mod_idemp_l. f_equal. apply (f_equal length) in Hv2.
    rewrite length_app, !length_view in Hv2. cbn [length] in Hv2. pose proof ring_points_pos.
    destruct (Nat.eqb_spec (rg_count r1) STATS_RING_POINTS);
      rewrite ?length_tl, length_view in Hv2; lia.
Qed.

(** ** Deltas *)

(** The value of a counter in a table of rows; a UID without a row counts 0. *)
Definition row_counter (rows : list vpnhide_uid_stats) (uid : Z) (c : stats_counter) : Z :=
  old_counter c (find_uid_stats rows uid).

Lemma all_counters_index c : all_counters !! counter_index c = Some c.
Proof. by destruct c. Qed.

Lemma all_counters_in c : In c all_counters.
Proof. apply list_elem_of_In, list_elem_of_lookup. exists (counter_index c). apply all_counters_index. Qed.

Lemma counter_uid_delta c e old :
  counter c (uid_delta e old) = stats_delta (counter c e) (old_counter c old).
Proof. unfold counter at 1, uid_delta. cbn [st_counters]. by rewrite list_lookup_fmap, all_counters_index. Qed.

(** The two loops use complementary conditions: what is allocated is filled. *)
Lemma uid_unchanged_negb e old : uid_unchanged e old = negb (uid_changed e old).
Proof.
  destruct old as [old|]; [|done]. unfold uid_unchanged, uid_changed.
  induction all_counters as [|c cs IH]; [done|]. simpl. rewrite IH, negb_orb, negb_involutive. done.
Qed.

Lemma length_fill_uid previous current :
  length (fill_uid_deltas previous current) = count_uid_deltas previous current.
Proof.
  unfold fill_uid_deltas, count_uid_deltas. rewrite length_fmap. f_equal.
  apply List.filter_ext. intros e. by rewrite uid_unchanged_negb, negb_involutive.
Qed.

Lemma length_fill_ports previous current :
  length (fill_port_deltas previous current) = count_port_deltas previous current.
Proof. unfold fill_port_deltas, count_port_deltas. by rewrite length_fmap. Qed.

Lemma strictly_sorted_same_uid (f : vpnhide_uid_stats → vpnhide_uid_stats) xs :
  (∀ e, st_uid (f e) = st_uid e) → strictly_sorted st_uid xs → strictly_sorted st_uid (f <$> xs).
Proof.
  intros Hf Hs. induction Hs as [|x xs Hs IH Hall]; simpl; constructor; [done|].
  apply Forall_fmap. eapply Forall_impl; [exact Hall|]. intros y Hy. simpl. by rewrite !Hf.
Qed.

Lemma fill_uid_deltas_sorted previous current :
  strictly_sorted st_uid current → strictly_sorted st_uid (fill_uid_deltas previous current).
Proof. intros. by apply strictly_sorted_same_uid, strictly_sorted_filter. Qed.

(** The delta a point holds for a counter. *)
Lemma fill_uid_deltas_exact previous current uid c :
  strictly_sorted st_uid current →
  row_counter (fill_uid_deltas previous current) uid c =
  match find_uid_stats current uid with
  | Some e => stats_delta (counter c e) (row_counter previous uid c)
  | None => 0
  end.
Proof.
  intros Hs. pose proof (fill_uid_deltas_sorted previous current Hs) as Hf.
  unfold row_counter at 1.
  destruct (find_uid_stats (fill_uid_deltas previous current) uid) as [d|] eqn:Ed.
  - apply find_uid_stats_Some in Ed as [Hd Hu]; [|done].
    unfold fill_uid_deltas in Hd. apply list_elem_of_fmap in Hd as (e & -> & He). simpl in Hu.
    apply list_elem_of_In, filter_In in He as [He%list_elem_of_In _].
    rewrite (proj2 (find_uid_stats_Some current uid e Hs)) by done. simpl.
    rewrite counter_uid_delta. by rewrite Hu.
  - simpl. destruct (find_uid_stats current uid) as [e|] eqn:Ee; [|done].
    apply find_uid_stats_Some in Ee as [He Hu]; [|done].
    pose proof (proj1 (find_uid_stats_None _ uid Hf) Ed) as Hno.
    assert (Hun : uid_unchanged e (find_uid_stats previous (st_uid e)) = true).
    { apply not_false_is_true. intros Hf'.
      apply (Hno (uid_delta e (find_uid_stats previous (st_uid e)))); [|done].
      unfold fill_uid_deltas. apply list_elem_of_fmap. eexists; split; [done|].
      apply list_elem_of_In, filter_In. rewrite Hf'. split; [by apply list_elem_of_In|done]. }
    unfold row_counter. rewrite <- Hu. destruct (find_uid_stats previous (st_uid e)) as [o|]; [|done].
    unfold uid_unchanged in Hun. rewrite forallb_forall in Hun. symmetry. apply Z.eqb_eq, Hun, all_counters_in.
Qed.

Lemma delta_monotone previous current uid c :
  strictly_sorted st_uid current →
  0 <= row_counter previous uid c <= row_counter current uid c →
  row_counter (fill_uid_deltas previous current) uid c =
  row_counter current uid c - row_counter previous uid c.
Proof.
  intros Hs Hm. rewrite fill_uid_deltas_exact by done.
  assert (E : row_counter current uid c = old_counter c (find_uid_stats current uid)) by done.
  rewrite E in *. destruct (find_uid_stats current uid) as [e|]; simpl in *; [|lia].
  unfold stats_delta. destruct (Z.leb_spec (row_counter previous uid c) (counter c e)); lia.
Qed.

(** ** Histories *)

Record sampling := mk_sampling {
  sg_allocs : append_allocs;
  sg_sample : stats_sample;
  sg_time : Z
}.

Definition run_samples (r : daemon_stats_ring) (ss : list sampling) : daemon_stats_ring :=
  foldl (λ r s, (append_stats_point (sg_allocs s) (sg_sample s) (sg_time s) r).1) r ss.

Definition history_sum (r : daemon_stats_ring) (uid : Z) (c : stats_counter) : Z :=
  foldr (λ p acc, row_counter (pt_entries p) uid c + acc) 0 (ring_view r).

(** The samples of a run that were stored: the others met a failed allocation. *)
Fixpoint stored_samples (r : daemon_stats_ring) (ss : list sampling) : list stats_sample :=
  match ss with
  | [] => []
  | s :: ss =>
      let '(r', ok) := append_stats_point (sg_allocs s) (sg_sample s) (sg_time s) r in
      (if ok then [sg_sample s] else []) ++ stored_samples r' ss
  end.

Section history.
Context (uid : Z) (c : stats_counter).

Definition value_in (x : stats_sample) : Z := row_counter (sm_uids x) uid c.
Definition delta_in (p : daemon_stats_point) : Z := row_counter (pt_entries p) uid c.

(** A later sample: the sequence has grown and the counter has not decreased. *)
Definition grows (x y : stats_sample) : Prop :=
  sm_sequence x < sm_sequence y ∧ value_in x <= value_in y.

Definition sample_ok (x : stats_sample) : Prop :=
  strictly_sorted st_uid (sm_uids x) ∧ 0 <= value_in x.

(** The differences of successive values. *)
Fixpoint diffs (prev : Z) (vs : list Z) : list Z :=
  match vs with [] => [] | v :: vs => (v - prev) :: diffs v vs end.

Lemma length_diffs prev vs : length (diffs prev vs) = length vs.
Proof. revert prev. induction vs as [|v vs IH]; intros prev; simpl; [done|]. by rewrite IH. Qed.

Lemma diffs_snoc prev vs v : diffs prev (vs ++ [v]) = diffs prev vs ++ [v - default prev (last vs)].
Proof.
  revert prev. induction vs as [|w vs IH]; intros prev; [done|]. cbn [app diffs]. rewrite IH.
  cbn [app]. do 3 f_equal. destruct vs as [|w' vs]; [done|]. change (last (w :: w' :: vs)) with (last (w' :: vs)).
  by destruct (last (w' :: vs)) eqn:E; [|apply last_None in E].
Qed.

(** They add up to the difference of the ends. *)
Lemma diffs_sum prev vs j x :
  (prev :: vs) !! j = Some x → foldr Z.add 0 (drop j (diffs prev vs)) = default prev (last vs) - x.
Proof.
  revert prev j x. induction vs as [|v vs IH]; intros prev j x Hj.
  { destruct j; simplify_eq/=; lia. }
  assert (default prev (last (v :: vs)) = default v (last vs)) as ->.
  { destruct vs as [|w vs]; [done|]. change (last (v :: w :: vs)) with (last (w :: vs)).
    by destruct (last (w :: vs)) eqn:E; [|apply last_None in E]. }
  destruct j as [|j]; cbn [diffs drop].
  - simplify_eq/=. pose proof (IH v O v eq_refl) as H. rewrite drop_0 in H. lia.
  - by apply IH.
Qed.

(** What each stored sample adds to the history; the first adds nothing. *)
Definition steps (xs : list stats_sample) : list Z :=
  diffs (default 0 (head (value_in <$> xs))) (value_in <$> xs).

Lemma steps_snoc xs x : steps (xs ++ [x]) = steps xs ++ [value_in x - default (value_in x) (value_in <$> last xs)].
Proof.
  unfold steps. rewrite fmap_app. cbn [fmap list_fmap]. rewrite diffs_snoc.
  destruct xs as [|y xs]; [simpl; by rewrite Z.sub_diag|].
  cbn [fmap list_fmap app head default]. do 3 f_equal.
  change (value_in y :: (value_in <$> xs)) with (value_in <$> (y :: xs)). rewrite fmap_last.
  by destruct (last (y :: xs)) eqn:E; [|apply last_None in E].
Qed.

(** The ring after the samples [xs] were stored: its points are the last of
    them. *)
Record history_inv (r : daemon_stats_ring) (xs : list stats_sample) : Prop := {
  hi_wf : ring_wf r;
  hi_baseline : match last xs with
                | None => rg_baseline_valid r = false
                | Some x => rg_baseline_valid r = true ∧ rg_previous r = sm_uids x ∧
                    rg_previous_sequence r = sm_sequence x
                end;
  hi_length : (length (ring_view r) <= length xs)%nat;
  hi_points : delta_in <$> ring_view r = drop (length xs - length (ring_view r)) (steps xs)
}.

Lemma skip_expired_drop t q : ∃ m, (m <= length q)%nat ∧ skip_expired t q = drop m q.
Proof.
  induction q as [|p q (m & Hm & IH)]; [by exists O|]. simpl. destruct (expired t p).
  - exists (S m). split; [simpl; lia|done].
  - exists O. split; [lia|done].
Qed.

Lemma queue_push_drop t p q : ∃ m, (m <= length q)%nat ∧ queue_push t p q = drop m q ++ [p].
Proof.
  unfold queue_push. destruct (skip_expired_drop t q) as (m & Hm & ->).
  destruct (_ =? _)%nat eqn:E; [|by exists m]. exists (S m). apply Nat.eqb_eq in E. rewrite length_drop in E.
  pose proof ring_points_pos. split; [lia|]. f_equal. rewrite <- Nat.add_1_r, <- drop_drop.
  by destruct (drop m q).
Qed.

Lemma history_step r xs s r' ok :
  history_inv r xs → Forall (λ x, grows x (sg_sample s)) xs → Forall sample_ok xs → sample_ok (sg_sample s) →
  append_stats_point (sg_allocs s) (sg_sample s) (sg_time s) r = (r', ok) →
  history_inv r' (xs ++ (if ok then [sg_sample s] else [])).
Proof.
  intros [Hwf Hb Hl Hp] Hgrow Hxs [Hso Hpos] E. destruct ok.
  2: { rewrite app_nil_r. apply append_cases in E as (u & p & ->). by destruct r. }
  destruct (append_stored _ _ _ _ _ E Hwf) as (Hwf1 & Hv1 & Hp1 & _ & Hs1 & Hb1 & _).
  destruct (queue_push_drop (sg_time s) (make_point r (sg_sample s) (sg_time s)) (ring_view r)) as (m & Hm & Hq).
  rewrite Hq in Hv1. clear Hq.
  assert (Hd : delta_in (make_point r (sg_sample s) (sg_time s)) =
    value_in (sg_sample s) - default (value_in (sg_sample s)) (value_in <$> last xs)).
  { unfold make_point, sample_gap. destruct (last xs) as [x|] eqn:El.
    - destruct Hb as (-> & Hprev & ->). rewrite Forall_forall in Hgrow, Hxs.
      assert (x ∈ xs) as Hin by (apply last_Some_elem_of; done).
      destruct (Hgrow x Hin) as [Hlt Hle]. destruct (Hxs x Hin) as [_ H0].
      rewrite (proj2 (Z.leb_gt _ _)) by done. cbn [negb orb fmap option_fmap option_map default].
      unfold delta_in. cbn [pt_entries]. rewrite Hprev. apply delta_monotone; [done|]. unfold value_in in *. lia.
    - rewrite Hb. cbn. unfold delta_in, row_counter. simpl. lia. }
  split.
  - done.
  - rewrite last_snoc. done.
  - rewrite Hv1, !length_app, length_drop. simpl. lia.
  - rewrite Hv1, fmap_app, !length_app, length_drop. cbn [fmap list_fmap length].
    rewrite fmap_drop, Hp, drop_drop, Hd, steps_snoc.
    assert (length (steps xs) = length xs) as Hls by (unfold steps; by rewrite length_diffs, length_fmap).
    replace (length xs + 1 - (length (ring_view r) - m + 1))%nat with (length xs - length (ring_view r) + m)%nat by lia.
    rewrite drop_app_le by lia. done.
Qed.

Lemma history_run r xs ss :
  history_inv r xs → StronglySorted grows (xs ++ (sg_sample <$> ss)) → Forall sample_ok (xs ++ (sg_sample <$> ss)) →
  history_inv (run_samples r ss) (xs ++ stored_samples r ss).
Proof.
  revert r xs. induction ss as [|s ss IH]; intros r xs Hi Hs Hok; [by rewrite app_nil_r|].
  cbn [run_samples foldl stored_samples fmap list_fmap] in *. fold (run_samples).
  destruct (append_stats_point _ _ _ r) as [r' ok] eqn:E. cbn [fst].
  apply StronglySorted_app in Hs as (Hcross & Hs1 & Hs2). apply Forall_app in Hok as [Hok1 Hok2].
  inversion Hs2 as [|?? Hs3 Hall]; subst. apply Forall_cons in Hok2 as [Hoks Hok3].
  assert (history_inv r' (xs ++ (if ok then [sg_sample s] else []))) as Hi'.
  { eapply history_step; eauto. apply Forall_forall. intros x Hx. apply Hcross; [done|]. by left. }
  rewrite app_assoc. apply (IH r' _ Hi').
  - rewrite <- app_assoc. apply StronglySorted_app. split_and!; [|done|].
    + intros x y Hx Hy. apply Hcross; [done|]. destruct ok; cbn [app] in Hy; [done|by right].
    + destruct ok; [done|]. done.
  - rewrite <- app_assoc. apply Forall_app. split; [done|]. apply Forall_app. split; [|done].
    destruct ok; [by constructor|constructor].
Qed.
End history.

(** ** The read loop against the module *)

Section termination.
Context {K : Type} (inv : K → Prop).
Context (ioctl_v2 : Z → Z → K → v2_outcome * K) (ioctl_v1 : Z → K → v1_outcome * K).
Context (calloc : K → Z → bool) (U P : Z).
Context (Hinv2 : ∀ c p k, inv k → inv (ioctl_v2 c p k).2).
Context (Hinv1 : ∀ c k, inv k → inv (ioctl_v1 c k).2).
Context (Hv2 : ∀ c p k e uc pc, inv k → (ioctl_v2 c p k).1 = V2Err e uc pc → uc <= U ∧ pc <= P).
Context (Hv1 : ∀ c k e n, inv k → (ioctl_v1 c k).1 = V1Err e n → n <= U).

Lemma read_v2_terminates fuel c p k :
  inv k → Z.max 0 (U - c) + Z.max 0 (P - p) < Z.of_nat fuel →
  ∃ e k', read_v2 ioctl_v2 calloc fuel c p k = Some (e, k') ∧ inv k'.
Proof.
  revert c p k. induction fuel as [|fuel IH]; intros c p k Hk Hf; [lia|]. simpl.
  pose proof (Hinv2 c p k Hk) as Hk'. pose proof (Hv2 c p k) as Hb.
  destruct (ioctl_v2 c p k) as [[s|e uc pc] k']; simpl in *; [eauto|].
  destruct (Hb e uc pc Hk eq_refl) as [Huc Hpc].
  case_bool_decide; [eauto|]. destruct (negb _ || _) eqn:Eb; [eauto|]. b2p.
  apply andb_false_iff in H1. rewrite !Z.leb_gt in H1. unfold grow_buffer.
  repeat case_match; simplify_eq; eauto; b2p; apply IH; auto; lia.
Qed.

Lemma read_v1_terminates fuel c k :
  inv k → Z.max 0 (U - c) < Z.of_nat fuel →
  ∃ e k', read_v1 ioctl_v1 calloc fuel c k = Some (e, k').
Proof.
  revert c k. induction fuel as [|fuel IH]; intros c k Hk Hf; [lia|]. simpl.
  pose proof (Hinv1 c k Hk) as Hk'. pose proof (Hv1 c k) as Hb.
  destruct (ioctl_v1 c k) as [[s q|e n] k']; simpl in *; [eauto|].
  pose proof (Hb e n Hk eq_refl). destruct (negb _ || _) eqn:Eb; [eauto|]. b2p.
  case_match; [|eauto]. apply IH; [done|lia].
Qed.

Lemma read_terminates fuel k :
  inv k → 0 <= U → 0 <= P → U + P < Z.of_nat fuel →
  ∃ r k', read_kernel_stats ioctl_v2 ioctl_v1 calloc fuel k = Some (r, k').
Proof.
  intros Hk HU HP Hf. unfold read_kernel_stats.
  destruct (read_v2_terminates fuel 0 0 k) as ([s| |] & k' & -> & Hk'); [done|lia|eauto..|].
  destruct (read_v1_terminates fuel 0 k') as ([s| |] & k'' & ->); [done|lia|eauto..].
Qed.
End termination.

(** The rows of the port table that are still alive. *)
Definition live_rows (HZ now : Z) (ps : port_stats_state) : list vpnhide_port_stats :=
  match pst_table ps with
  | Some table => (λ e, port_stats_of_row (port_row e)) <$> List.filter used (expire HZ now <$> table)
  | None => []
  end.

Lemma expire_idemp HZ now e : expire HZ now (expire HZ now e) = expire HZ now e.
Proof.
  unfold expire at 2 3. destruct (used e) eqn:E; [destruct (time_after _ _) eqn:Et|];
    unfold expire; simpl; by rewrite ?E, ?Et.
Qed.

Lemma live_rows_expired HZ now ps :
  live_rows HZ now (count_live_port_stats_locked HZ now ps).2 = live_rows HZ now ps.
Proof.
  unfold live_rows, count_live_port_stats_locked. destruct (pst_table ps) as [t|] eqn:E; simpl; [|by rewrite E].
  do 2 f_equal. rewrite <- list_fmap_compose. apply list_fmap_ext. intros ? e _. simpl. apply expire_idemp.
Qed.

Lemma live_count HZ now ps :
  (count_live_port_stats_locked HZ now ps).1 = Z.of_nat (length (live_rows HZ now ps)).
Proof.
  unfold live_rows, count_live_port_stats_locked. destruct (pst_table ps); simpl; [|done].
  by rewrite length_fmap.
Qed.

Lemma vh_get_port_stats_spec HZ now cap ps :
  let n := Z.of_nat (length (live_rows HZ now ps)) in
  0 <= cap →
  ∃ p ps', vh_get_port_stats HZ now cap (buffer_ptr cap) true ps
             (count_live_port_stats_locked HZ now ps).2 = Ok (p, ps') ∧
    live_rows HZ now ps' = live_rows HZ now ps ∧ pr_count p = n ∧
    if n <=? cap then pr_error p = None ∧ port_stats_of_row <$> pr_entries p = live_rows HZ now ps
    else pr_error p = Some ENOSPC.
Proof.
  intros n Hcap. unfold vh_get_port_stats, buffer_ptr.
  pose proof (live_count HZ now ps) as Hc. pose proof (live_rows_expired HZ now ps) as He.
  set (ps1 := (count_live_port_stats_locked HZ now ps).2) in *.
  pose proof (live_count HZ now ps1) as Hc1. rewrite He in Hc1.
  pose proof (live_rows_expired HZ now ps1) as He1. rewrite He in He1.
  assert (Hrows : port_stats_of_row <$>
    (match pst_table (count_live_port_stats_locked HZ now ps1).2 with
     | Some table => port_row <$> List.filter used table | None => [] end) = live_rows HZ now ps).
  { rewrite <- He. unfold live_rows at 1, count_live_port_stats_locked.
    destruct (pst_table ps1) as [t|] eqn:Et; simpl; [|by rewrite Et]. by rewrite <- list_fmap_compose. }
  assert (Hguard : Snapshot.nonzero cap && ((if cap =? 0 then 0 else 1) =? 0) = false).
  { unfold Snapshot.nonzero. destruct (Z.eqb_spec cap 0); done. }
  rewrite Hguard. destruct (count_live_port_stats_locked HZ now ps) as [c0 ?] eqn:E0.
  simpl in Hc. subst c0. fold n. rewrite andb_false_r.
  destruct (count_live_port_stats_locked HZ now ps1) as [c1 ps2] eqn:E1. simpl in *. subst c1. fold n.
  assert (Hpos : 0 <= n) by lia.
  destruct (Z.leb_spec n cap) as [Hle|Hgt].
  - rewrite (proj2 (Z.ltb_ge cap n)) by lia. simpl.
    assert (Hal : ((if Snapshot.nonzero n then n else 0) <? n) = false).
    { apply Z.ltb_ge. unfold Snapshot.nonzero. destruct (Z.eqb_spec n 0); simpl; lia. }
    rewrite Hal. eexists _, _. split; [done|]. simpl. done.
  - rewrite (proj2 (Z.ltb_lt cap n)) by lia. simpl. eexists _, _. split; [done|]. simpl. done.
Qed.

Lemma vh_get_stats_v2_spec cap st :
  let n := Z.of_nat (length (kmod_stats st)) in
  0 <= cap →
  ∃ r st', vh_get_stats_v2 cap (buffer_ptr cap) true (kmod_stats st) st = Ok (r, st') ∧
    kmod_stats st' = kmod_stats st ∧ rp_sequence r = u64 (kmod_stats_sequence st + 1) ∧
    kmod_stats_sequence st' = u64 (kmod_stats_sequence st + 1) ∧ rp_count r = n ∧
    if n <=? cap then rp_error r = None ∧ copied_rows (rp_entries r) = kmod_stats st
    else rp_error r = Some ENOSPC.
Proof.
  intros n Hcap. unfold vh_get_stats_v2, buffer_ptr. fold n.
  assert (Hguard : Snapshot.nonzero cap && ((if cap =? 0 then 0 else 1) =? 0) = false).
  { unfold Snapshot.nonzero. destruct (Z.eqb_spec cap 0); done. }
  rewrite Hguard, andb_false_r. assert (Hpos : 0 <= n) by lia.
  destruct (Z.leb_spec n cap) as [Hle|Hgt].
  - rewrite (proj2 (Z.ltb_ge cap n)) by lia. simpl. unfold Snapshot.nonzero.
    destruct (Z.eqb_spec n 0) as [Hz|Hnz]; simpl.
    + rewrite Hz. eexists _, _. split; [done|]. simpl.
      destruct (kmod_stats st); [done|]. unfold n in Hz. simpl in Hz. lia.
    + rewrite (Z.ltb_irrefl n), (Z.leb_refl n). eexists _, _. split; [done|]. simpl. done.
  - rewrite (proj2 (Z.ltb_lt cap n)) by lia. simpl. eexists _, _. split; [done|]. simpl. done.
Qed.

(** The tables of a device as a reader is meant to see them. *)
Definition uid_rows (d : device) : list vpnhide_uid_stats := kmod_stats (dv_stats d).
Definition port_rows (HZ now : Z) (d : device) : list vpnhide_port_stats := live_rows HZ now (dv_port_stats d).

Lemma kernel_v2_spec HZ now cap pcap d :
  0 <= cap → 0 <= pcap →
  ∃ o d', kernel_v2 HZ now true cap pcap d = (o, d') ∧
    uid_rows d' = uid_rows d ∧ port_rows HZ now d' = port_rows HZ now d ∧
    kmod_stats_sequence (dv_stats d') = u64 (kmod_stats_sequence (dv_stats d) + 1) ∧
    if (Z.of_nat (length (uid_rows d)) <=? cap) && (Z.of_nat (length (port_rows HZ now d)) <=? pcap)
    then ∃ dropped, o = V2Ok (mk_sample (uid_rows d) (port_rows HZ now d)
                                (kmod_stats_sequence (dv_stats d')) dropped)
    else o = V2Err ENOSPC (Z.of_nat (length (uid_rows d))) (Z.of_nat (length (port_rows HZ now d))).
Proof.
  intros Hc Hp. unfold kernel_v2, ioctl_get_stats_v2.
  destruct (vh_get_stats_v2_spec cap (dv_stats d) Hc) as (r & st' & Hr & Hst & Hseq & Hseq' & Hrc & Hre).
  destruct (vh_get_port_stats_spec HZ now pcap (dv_port_stats d) Hp) as (p & ps' & Hpr & Hps & Hpc & Hpe).
  assert (Hguard : ∀ c, Snapshot.nonzero c && (buffer_ptr c =? 0) = false).
  { intros c. unfold Snapshot.nonzero, buffer_ptr. destruct (Z.eqb_spec c 0); done. }
  rewrite !Hguard. cbn [orb].
  destruct (count_live_port_stats_locked HZ now (dv_port_stats d)) as [c0 ports0] eqn:E0. cbn [snd] in Hpr.
  rewrite Hr, Hpr. cbn [negb]. unfold uid_rows, port_rows.
  destruct (Z.leb_spec (Z.of_nat (length (kmod_stats (dv_stats d)))) cap) as [Hu|Hu];
    destruct (Z.leb_spec (Z.of_nat (length (live_rows HZ now (dv_port_stats d)))) pcap) as [Hq|Hq];
    cbn [andb].
  1: destruct Hre as [-> Hrows], Hpe as [-> Hprows]; eexists _, _; (split; [reflexivity|]); simpl;
     split_and!; auto; exists (pr_dropped p); by rewrite Hrows, Hprows, Hseq, Hseq'.
  1: destruct Hre as [-> _]; rewrite Hpe.
  2-3: rewrite Hre.
  all: eexists _, _; (split; [reflexivity|]); simpl; split_and!; auto; by rewrite Hrc, Hpc.
Qed.

(** A device on which nothing happens between the calls of the loop. *)
Lemma read_v2_quiescent HZ now calloc d :
  (∀ k n, calloc k n = true) →
  ∃ s d', read_v2 (kernel_v2 HZ now true) calloc 2 0 0 d = Some (ReadOk s, d') ∧
    sm_uids s = uid_rows d ∧ sm_ports s = port_rows HZ now d ∧
    sm_sequence s = kmod_stats_sequence (dv_stats d').
Proof.
  intros Hall. set (U := Z.of_nat (length (uid_rows d))).
  set (P := Z.of_nat (length (port_rows HZ now d))).
  destruct (kernel_v2_spec HZ now 0 0 d) as (o & d1 & Hk & Hu & Hp & _ & Ho); [lia..|].
  cbn [read_v2]. rewrite Hk. fold U P in Ho.
  destruct ((U <=? 0) && (P <=? 0)) eqn:E.
  - destruct Ho as [dr ->]. by eexists _, _.
  - rewrite Ho, bool_decide_eq_false_2, bool_decide_eq_true_2 by done. cbn [negb orb]. fold U P.
    rewrite E. unfold grow_buffer. rewrite !Hall.
    assert (Hg : ∀ n, 0 <= n → (if 0 <? n then Some n else Some 0) = Some n).
    { intros n Hn. destruct (Z.ltb_spec 0 n); [done|]. f_equal. lia. }
    rewrite !Hg by lia.
    destruct (kernel_v2_spec HZ now U P d1) as (o2 & d2 & Hk2 & _ & _ & _ & Ho2); [lia..|].
    rewrite Hk2. rewrite Hu, Hp in Ho2. fold U P in Ho2. rewrite !Z.leb_refl in Ho2. cbn [andb] in Ho2.
    destruct Ho2 as [dr ->]. by eexists _, _.
Qed.

(** ** The module behind the daemon's ioctls *)

Definition kernel_v1 (alloc : bool) (capacity : Z) (d : device) : v1_outcome * device :=
  let r := ioctl_get_stats alloc true (kmod_stats (dv_stats d)) (Some (capacity, buffer_ptr capacity)) d in
  (match ie_error r, ie_out r with
   | None, OutStats u => V1Ok (copied_rows (rp_entries u)) (rp_sequence u)
   | Some e, OutStats u => V1Err e (rp_count u)
   | Some e, _ => V1Err e 0
   | None, _ => V1Err EIO 0
   end, ie_device r).

(** The module at each call, whatever happened in between. *)
Definition stream_v2 (HZ now : Z) (alloc : bool) (c p : Z) (k : nat → device)
    : v2_outcome * (nat → device) := ((kernel_v2 HZ now alloc c p (k 0%nat)).1, λ n, k (S n)).
Definition stream_v1 (alloc : bool) (c : Z) (k : nat → device) : v1_outcome * (nat → device) :=
  ((kernel_v1 alloc c (k 0%nat)).1, λ n, k (S n)).

Lemma stats_count_bound is_ll d : device_wf is_ll d → Z.of_nat (length (uid_rows d)) <= 4096.
Proof. intros [_ _ _ _ [_ _ ? ?] _ _ _ _ _ _ _ _ _]. unfold uid_rows, VPNHIDE_UID_STATS_CAPACITY in *. lia. Qed.

Lemma live_bound is_ll HZ now d :
  device_wf is_ll d → Z.of_nat (length (port_rows HZ now d)) <= 65536.
Proof.
  intros Hd. pose proof (dw_ports _ _ Hd) as Hp. unfold port_rows, live_rows.
  destruct (pst_table (dv_port_stats d)) as [t|] eqn:E; [|simpl; lia].
  pose proof (ptw_length _ (Hp t E)). rewrite length_fmap.
  etrans; [apply Nat2Z.inj_le, filter_length_le|]. rewrite length_fmap. lia.
Qed.

Lemma vh_get_stats_v2_count cap ptr alloc first st r st' :
  vh_get_stats_v2 cap ptr alloc first st = Ok (r, st') → rp_count r = Z.of_nat (length (kmod_stats st)).
Proof. unfold vh_get_stats_v2. cbv zeta. intros H. case_result. by destruct (_ || _); simplify_eq/=. Qed.

Lemma vh_get_port_stats_count HZ now cap ptr alloc first st r st' :
  vh_get_port_stats HZ now cap ptr alloc first st = Ok (r, st') →
  pr_count r = (count_live_port_stats_locked HZ now st).1.
Proof.
  unfold vh_get_port_stats. cbv zeta. intros H. case_result.
  destruct (count_live_port_stats_locked HZ now first) as [c0 ?]. case_result.
  destruct (count_live_port_stats_locked HZ now st) as [c1 ps2]. case_result.
  by destruct (_ || _); simplify_eq/=.
Qed.

Lemma kernel_v2_counts is_ll HZ now alloc c p d e uc pc :
  device_wf is_ll d → (kernel_v2 HZ now alloc c p d).1 = V2Err e uc pc → uc <= 4096 ∧ pc <= 65536.
Proof.
  intros Hd. pose proof (stats_count_bound is_ll d Hd) as Hu. pose proof (live_bound is_ll HZ now d Hd) as Hp.
  unfold kernel_v2, ioctl_get_stats_v2. destruct (_ || _); [intros [= <- <- <-]; lia|].
  destruct (count_live_port_stats_locked HZ now (dv_port_stats d)) as [c0 ps1] eqn:E0.
  destruct (vh_get_stats_v2 _ _ _ _ _) as [[r st]|] eqn:Er; [|intros [= <- <- <-]; lia].
  destruct (vh_get_port_stats _ _ _ _ _ _ _) as [[q ps]|] eqn:Eq; [|intros [= <- <- <-]; lia].
  apply vh_get_stats_v2_count in Er. apply vh_get_port_stats_count in Eq. simpl.
  rewrite live_count in Eq. replace ps1 with (count_live_port_stats_locked HZ now (dv_port_stats d)).2 in Eq
    by by rewrite E0. rewrite live_rows_expired in Eq. fold (port_rows HZ now d) (uid_rows d) in *.
  destruct (rp_error r), (pr_error q); simpl; intros; simplify_eq; lia.
Qed.

Lemma kernel_v1_counts is_ll alloc c d e n :
  device_wf is_ll d → (kernel_v1 alloc c d).1 = V1Err e n → n <= 4096.
Proof.
  intros Hd. pose proof (stats_count_bound is_ll d Hd) as Hu. unfold uid_rows in Hu.
  unfold kernel_v1, ioctl_get_stats.
  destruct (vh_get_stats _ _ _ _ _) as [[r st]|] eqn:Er; [|intros [= <- <-]; lia]. simpl.
  assert (Hr : rp_count r = Z.of_nat (length (kmod_stats (dv_stats d)))).
  { unfold vh_get_stats in Er. cbv zeta in Er. case_result. by destruct (_ <? _); simplify_eq/=. }
  destruct (rp_error r); simpl; intros; simplify_eq; lia.
Qed.

(** Keys of live port rows are distinct. *)
Lemma NoDup_filter_index {A B} (f : A → bool) (g : A → B) (l : list A) :
  (∀ i j x y, l !! i = Some x → l !! j = Some y → f x = true → f y = true → g x = g y → i = j) →
  NoDup (g <$> List.filter f l).
Proof.
  induction l as [|a l IH]; intros Hu; simpl; [constructor|].
  assert (Hl : NoDup (g <$> List.filter f l)).
  { apply IH. intros i j x y Hi Hj Hx Hy Hg. pose proof (Hu (S i) (S j) x y Hi Hj Hx Hy Hg). lia. }
  destruct (f a) eqn:Ea; [|done]. simpl. constructor; [|done].
  intros (x & Hg & Hx%list_elem_of_In%filter_In)%list_elem_of_fmap.
  destruct Hx as [[i Hi]%list_elem_of_In%list_elem_of_lookup Hfx].
  pose proof (Hu 0%nat (S i) a x eq_refl Hi Ea Hfx Hg). lia.
Qed.

Lemma used_expire HZ now e : used (expire HZ now e) = true → expire HZ now e = e.
Proof. unfold expire. destruct (used e); [|done]. by destruct (time_after _ _). Qed.

Lemma live_rows_NoDup HZ now ps :
  port_stats_wf ps → NoDup (port_key <$> live_rows HZ now ps).
Proof.
  intros Hp. unfold live_rows. destruct (pst_table ps) as [t|] eqn:E; [|constructor].
  pose proof (Hp t E) as Hwf. rewrite <- list_fmap_compose. apply NoDup_filter_index.
  intros i j x y Hx Hy Ux Uy Hk. rewrite list_lookup_fmap in Hx, Hy.
  destruct (t !! i) as [e|] eqn:He; [|done]. destruct (t !! j) as [f|] eqn:Hf; [|done].
  simpl in Hx, Hy. injection Hx as <-. injection Hy as <-.
  pose proof (used_expire HZ now e Ux) as Ee. pose proof (used_expire HZ now f Uy) as Ef.
  rewrite Ee, Ef in *. unfold used in *. b2p. unfold compose, port_key in Hk. simpl in Hk. injection Hk as H1 H2 H3.
  assert (Z.of_nat i = Z.of_nat j); [|lia].
  eapply (ptw_unique _ Hwf (Z.of_nat i) (Z.of_nat j) e f); unfold slot_at;
    rewrite ?Nat2Z.id; auto; lia.
Qed.

(** ** Properties *)

(** C24: the ring refines a bounded queue.  A sample that is stored drops from
    the front what is six hours old, then the oldest point when 360 are held,
    and appends the new point; every point that leaves is counted; the arrays
    allocated for the new point are exactly filled. *)
Theorem stats_ring_refines_queue al s ts r r' :
  append_stats_point al s ts r = (r', true) → ring_wf r → fits 64 (rg_dropped_intervals r) →
  ring_wf r' ∧
  ring_view r' = queue_push ts (make_point r s ts) (ring_view r) ∧
  rg_dropped_intervals r' =
    u64 (rg_dropped_intervals r + Z.of_nat (length (ring_view r) + 1 - length (ring_view r'))) ∧
  length (fill_uid_deltas (rg_previous r) (sm_uids s)) = count_uid_deltas (rg_previous r) (sm_uids s) ∧
  length (fill_port_deltas (rg_previous_ports r) (sm_ports s)) =
    count_port_deltas (rg_previous_ports r) (sm_ports s).
Proof.
  intros H Hwf Hf. destruct (append_stored _ _ _ _ _ H Hwf) as (? & ? & _ & _ & _ & _ & Hd).
  split_and!; auto using length_fill_uid, length_fill_ports.
Qed.

Definition example_allocs : append_allocs := mk_append_allocs true true true true.
Definition example_uid_row (uid connects : Z) : vpnhide_uid_stats :=
  bump (Some connect_count) connects (zero_stats uid).
Definition example_sample (connects seq : Z) : stats_sample :=
  mk_sample [example_uid_row 10123 connects] [] seq 0.

Lemma stats_ring_refines_queue_witness :
  ring_view (append_stats_point example_allocs (example_sample 3 2) 60000 zero_ring).1 =
  [mk_point 60000 true [] []].
Proof.
  destruct (stats_ring_refines_queue example_allocs (example_sample 3 2) 60000 zero_ring
    (append_stats_point example_allocs (example_sample 3 2) 60000 zero_ring).1)
    as (_ & H & _); [vm_compute; done| |vm_compute; done|].
  - split_and!; vm_compute; try reflexivity; lia.
  - etrans; [exact H|]. vm_compute. reflexivity.
Defined.

(** C25: nothing is lost or counted twice between samples.  However many samples a
    run has, whenever they are taken and whichever of their allocations fail: as
    long as the counter does not decrease and the kernel's sequence number grows
    from sample to sample, the deltas of the points the ring still holds add up to
    the difference between the value in the last stored sample and the value in
    the stored sample just before the oldest point held (the first stored sample,
    while nothing has been dropped). *)
Theorem stats_history_accounts uid c ss :
  let r := run_samples zero_ring ss in
  let xs := stored_samples zero_ring ss in
  StronglySorted (grows uid c) (sg_sample <$> ss) → Forall (sample_ok uid c) (sg_sample <$> ss) → xs ≠ [] →
  ∃ newest before, last xs = Some newest ∧ xs !! (length xs - 1 - length (ring_view r))%nat = Some before ∧
    history_sum r uid c = row_counter (sm_uids newest) uid c - row_counter (sm_uids before) uid c.
Proof.
  intros r xs Hs Hok Hne.
  assert (history_inv uid c r xs) as [_ _ Hl Hp].
  { apply (history_run uid c zero_ring [] ss); [|done|done]. split; try done.
    pose proof ring_points_pos. split_and!; simpl; [apply length_replicate|lia|lia]. }
  destruct (last xs) as [newest|] eqn:El; [|by apply last_None in El].
  destruct xs as [|x0 xs'] eqn:Exs; [done|]. rewrite <- Exs in *.
  assert (0 < length xs)%nat by (rewrite Exs; simpl; lia).
  destruct (lookup_lt_is_Some_2 xs (length xs - 1 - length (ring_view r))%nat) as [before Hbefore]; [lia|].
  exists newest, before. split_and!; [done|done|].
  assert (history_sum r uid c = foldr Z.add 0 (delta_in uid c <$> ring_view r)) as ->.
  { unfold history_sum. generalize (ring_view r). intros q. induction q as [|y q IH]; simpl; [done|].
    by rewrite IH. }
  rewrite Hp. unfold steps. rewrite (diffs_sum _ _ _ (value_in uid c before)).
  - rewrite fmap_last, El. done.
  - destruct (length xs - length (ring_view r))%nat as [|j] eqn:Ej.
    + replace (length xs - 1 - length (ring_view r))%nat with O in Hbefore by lia.
      rewrite Exs in Hbefore |- *. simplify_eq/=. done.
    + replace (length xs - 1 - length (ring_view r))%nat with j in Hbefore by lia.
      change ((value_in uid c <$> xs) !! j = Some (value_in uid c before)). by rewrite list_lookup_fmap, Hbefore.
Qed.

(** Three points in the first minutes, then one after more than six hours: the old
    points are gone and the sum is over the last interval alone; a sample whose
    allocation failed in between is made good by the next. *)
Definition example_sampling (al : append_allocs) (n seq t : Z) : sampling :=
  mk_sampling al (example_sample n seq) t.
Definition example_history : list sampling :=
  [example_sampling example_allocs 3 2 60000; example_sampling example_allocs 5 4 120000;
   example_sampling (mk_append_allocs true true false true) 6 6 180000;
   example_sampling example_allocs 9 8 21780000].

Lemma stats_history_accounts_witness :
  length (ring_view (run_samples zero_ring example_history)) = 1%nat ∧
  history_sum (run_samples zero_ring example_history) 10123 connect_count = 9 - 5.
Proof.
  split; [vm_compute; reflexivity|].
  destruct (stats_history_accounts 10123 connect_count example_history) as (newest & before & Hn & Hb & ->).
  - repeat constructor; vm_compute; discriminate.
  - repeat constructor; vm_compute; try discriminate; repeat constructor.
  - vm_compute. discriminate.
  - vm_compute in Hn. vm_compute in Hb. injection Hn as <-. injection Hb as <-. reflexivity.
Defined.

(** The retry loop of the reader ends.  Whatever happens to the tables of
    the module between two calls, and whether or not buffers can be allocated,
    [read_kernel_stats] returns after at most 69633 calls per interface: every
    retry needs a larger buffer and the tables are bounded. *)
Theorem read_kernel_stats_terminates is_ll HZ now alloc calloc (k : nat → device) :
  (∀ n, device_wf is_ll (k n)) →
  ∃ result k', read_kernel_stats (stream_v2 HZ now alloc) (stream_v1 alloc) calloc
                 (Z.to_nat 69633) k = Some (result, k').
Proof.
  intros Hd. apply (read_terminates (λ k, ∀ n, device_wf is_ll (k n)) _ _ _ 4096 65536); auto; try lia.
  - intros c p k' Hk n. apply Hk.
  - intros c k' Hk n. apply Hk.
  - intros c p k' e uc pc Hk. by eapply kernel_v2_counts.
  - intros c k' e n Hk. by eapply kernel_v1_counts.
Qed.

Lemma read_kernel_stats_terminates_witness :
  ∃ result k', read_kernel_stats (stream_v2 100 0 true) (stream_v1 true) (λ _ _, true)
                 (Z.to_nat 69633) (λ _, initial_device) = Some (result, k').
Proof.
  apply (read_kernel_stats_terminates (λ _, false) 100 0 true (λ _ _, true) (λ _, initial_device)).
  intros n. apply initial_device_wf.
Defined.

(** A sample of a quiet module is complete.  Two calls fetch exactly the
    UID table and the live port rows; they become the baseline, the ports
    sorted so that the next sample's binary searches find every row. *)
Theorem sample_stats_complete {KS : KSort} {HKS : KSortLaws KS} is_ll HZ now calloc al wall d r :
  device_wf is_ll d → (∀ k n, calloc k n = true) → ready al → ring_wf r →
  ∃ r' d', sample_stats (kernel_v2 HZ now true) (kernel_v1 true) calloc 2 al wall d r = Some (r', d') ∧
    ring_wf r' ∧ rg_previous r' = uid_rows d ∧ rg_previous_ports r' ≡ₚ port_rows HZ now d ∧
    (∀ u e, find_uid_stats (rg_previous r') u = Some e ↔ e ∈ uid_rows d ∧ st_uid e = u) ∧
    (∀ u p pr e, find_port_stats (rg_previous_ports r') u p pr = Some e ↔
       e ∈ port_rows HZ now d ∧ port_key e = (u, pr, p)).
Proof.
  intros Hd Hc Hal Hwf. unfold sample_stats, read_kernel_stats.
  destruct (read_v2_quiescent HZ now calloc d Hc) as (s & d' & -> & Hu & Hp & _).
  set (ports := if (1 <? length (sm_ports s))%nat then _ else _).
  assert (Hperm : ports ≡ₚ port_rows HZ now d).
  { unfold ports. rewrite Hp. case_match; [apply ksort_perm|done]. }
  assert (Hsort : StronglySorted port_lt ports).
  { unfold ports. rewrite Hp. destruct (Nat.ltb_spec 1 (length (port_rows HZ now d))) as [|Hl].
    - apply sorted_ports, live_rows_NoDup, Hd.
    - destruct (port_rows HZ now d) as [|x [|y l]]; [constructor|repeat constructor|simpl in Hl; lia]. }
  clearbody ports.
  set (s' := mk_sample _ _ _ _). pose proof (append_ready al s' wall r Hal) as Hok.
  destruct (append_stats_point al s' wall r) as [r' ok] eqn:E. simpl in Hok. subst ok.
  destruct (append_stored _ _ _ _ _ E Hwf) as (Hwf' & _ & Hp1 & Hp2 & _).
  exists r', d'. simpl in Hp1, Hp2. split_and!; auto.
  - congruence.
  - by rewrite Hp2.
  - intros u e. rewrite Hp1, Hu. apply find_uid_stats_Some, Hd.
  - intros u p pr e. rewrite Hp2, find_port_stats_Some by done. by rewrite Hperm.
Qed.

Lemma sample_stats_complete_witness :
  ∃ r' d', sample_stats (KS := merge_ksort) (kernel_v2 100 0 true) (kernel_v1 true) (λ _ _, true) 2
             example_allocs 60000 initial_device zero_ring = Some (r', d') ∧ rg_previous r' = [].
Proof.
  destruct (sample_stats_complete (KS := merge_ksort) (HKS := merge_ksort_laws) (λ _, false) 100 0
    (λ _ _, true) example_allocs 60000 initial_device zero_ring) as (r' & d' & H & _ & Hp & _);
    [apply initial_device_wf | done | done | split_and!; vm_compute; try reflexivity; lia |].
  exists r', d'. split; [exact H|]. rewrite Hp. reflexivity.
Defined.

(** [n] intercepted connects of UID 10123. *)
Definition connects (n : nat) (d : device) : device :=
  set_stats d (Nat.iter n (λ st, record_kmod_intercept st 10123 4) (dv_stats d)) (dv_port_stats d).

Definition quiet_sample (wall : Z) (dr : device * daemon_stats_ring) : device * daemon_stats_ring :=
  match sample_stats (KS := merge_ksort) (kernel_v2 100 0 true) (kernel_v1 true) (λ _ _, true) 2
          example_allocs wall dr.1 dr.2 with
  | Some (r, d) => (d, r)
  | None => dr
  end.

(** Another client reads the statistics. *)
Definition client_reads (d : device) : device :=
  match read_v2 (kernel_v2 100 0 true) (λ _ _, true) 2 0 0 d with
  | Some (_, d) => d
  | None => d
  end.

Definition tracked_device : device :=
  set_stats initial_device (mk_stats [zero_stats 10123] 4 0) (mk_port_stats None 0).

(** A reset can go unnoticed.  Five connects are sampled; the statistics
    are cleared, another client reads them once and seven more connects happen.
    The sequence number, which restarts at the clear and counts every read, is
    then above the one of the last sample, so the next point is no gap and
    reports two connects. *)
Theorem clear_between_samples_undetected :
  let '(d1, r1) := quiet_sample 60000 (connects 5 tracked_device, zero_ring) in
  let d2 := client_reads (ie_device (ioctl_clear_stats true d1)) in
  let '(d3, r3) := quiet_sample 120000 (connects 7 d2, r1) in
  row_counter (uid_rows d3) 10123 connect_count = 7 ∧
  (λ p, (pt_gap p, row_counter (pt_entries p) 10123 connect_count)) <$> ring_view r3 =
    [(true, 0); (false, 2)].
Proof. vm_compute. split; reflexivity. Qed.
