(* ===== verification/SeqFilter.v ===== *)
(** * Filtering of [/proc/net] text and of [SIOCGIFCONF]

    The return probes of [kmod/hooks_netlink.c] that compact a buffer in place:
    a [seq_file] buffer line by line, and the user's [ifreq] array entry by
    entry.  The buffers are byte strings that the loops overwrite through
    [memmove], as the code does; the theorems show that what remains is the
    original text without the lines of hidden interfaces. *)
From S2P Require Import Prelude Abi Snapshot PolicyQuery Userspace OwnedPorts Stats PortStats UdpRate Device.
From Stdlib Require Import Strings.Byte.

#[local] Open Scope Z_scope.

(** ** Buffers *)

Record seq_file := mk_seq {
  sq_buf : bytes;
  sq_count : nat
}.

(** [memmove(buf + dst, buf + src, len)] *)
Definition memmove (buf : bytes) (dst src len : nat) : bytes :=
  take dst buf ++ slice buf src len ++ drop (dst + len) buf.

Definition nl : byte := x0a.
Definition tab : byte := x09.
Definition space : byte := x20.

(** The length of the line that starts [s]: up to and including the first
    newline, or all of it. *)
Fixpoint line_length (s : bytes) : nat :=
  match s with
  | [] => O
  | c :: s => if bool_decide (c = nl) then 1 else S (line_length s)
  end.

Fixpoint span (f : byte → bool) (s : bytes) : bytes :=
  match s with
  | [] => []
  | c :: s => if f c then c :: span f s else []
  end.

Fixpoint skip (f : byte → bool) (s : bytes) : bytes :=
  match s with
  | [] => []
  | c :: rest => if f c then skip f rest else s
  end.

Definition is_one_of (cs : list byte) (c : byte) : bool := bool_decide (c ∈ cs).

(** ** The interface name of a line *)

(** [/proc/net/route]: the first column. *)
Definition fib_route_name (line : bytes) : bytes :=
  take 15 (span (λ c, negb (is_one_of [tab; nl] c)) line).

(** [/proc/net/ipv6_route] and [/proc/net/if_inet6]: the last word.  [p] walks
    back over blanks and then over at most [IFNAMSIZ - 1] characters; the name
    is read forward from there. *)
Definition last_word_start (line : bytes) : nat :=
  let stripped := skip (is_one_of [nl; x0d; space; tab]) (rev line) in
  let word := take 15 (span (λ c, negb (is_one_of [space; tab] c)) stripped) in
  (length stripped - length word)%nat.

Definition last_word_name (line : bytes) : bytes :=
  take 15 (span (λ c, negb (is_one_of [space; tab; nl] c)) (drop (last_word_start line) line)).

(** [/proc/net/dev]: the word before the colon, after leading blanks. *)
Definition dev_seq_name (line : bytes) : bytes :=
  take 15 (span (λ c, negb (is_one_of [x3a; space; tab; nl] c)) (skip (is_one_of [space; tab]) line)).

Section filter.
Context (vpns : option vpnhide_vpn_ifindexes).

Definition fib_route_hidden (line : bytes) : bool := is_active_vpn_ifname vpns (fib_route_name line).
Definition last_word_hidden (line : bytes) : bool := is_active_vpn_ifname vpns (last_word_name line).
Definition dev_seq_hidden (line : bytes) : bool :=
  negb (bool_decide (dev_seq_name line = [])) && is_active_vpn_ifname vpns (dev_seq_name line).

(** ** The in-place loop *)

Context (hidden : bytes → bool).

(** [while (src < end)]: the buffer, [dst] and the number of intercepts
    recorded.  Every round consumes a line, so the number of bytes left
    bounds the rounds. *)
Fixpoint compact_loop (fuel : nat) (buf : bytes) (src dst stop hits : nat) : bytes * nat * nat :=
  match fuel with
  | O => (buf, dst, hits)
  | S fuel =>
      if (src <? stop)%nat then
        let line_len := line_length (slice buf src (stop - src)) in
        let line := slice buf src line_len in
        if hidden line then compact_loop fuel buf (src + line_len) dst stop (S hits)
        else
          let buf := if (dst =? src)%nat then buf else memmove buf dst src line_len in
          compact_loop fuel buf (src + line_len) (dst + line_len) stop hits
      else (buf, dst, hits)
  end.

(** The common shape of the [*_ret] handlers; [None]: [seq] or [seq->buf] is
    NULL. *)
Definition seq_ret (start_count : nat) (seq : option seq_file) : option seq_file * nat :=
  match seq with
  | None => (None, O)
  | Some seq =>
      if (sq_count seq <=? start_count)%nat then (Some seq, O)
      else
        let '(buf, dst, hits) :=
          compact_loop (sq_count seq) (sq_buf seq) start_count start_count (sq_count seq) 0 in
        (Some (mk_seq buf dst), hits)
  end.

(** ** Reference: the lines of a text *)

Fixpoint lines_fuel (fuel : nat) (s : bytes) : list bytes :=
  match fuel, s with
  | S fuel, _ :: _ => take (line_length s) s :: lines_fuel fuel (drop (line_length s) s)
  | _, _ => []
  end.
Definition lines (s : bytes) : list bytes := lines_fuel (length s) s.

Definition visible_lines (s : bytes) : list bytes := List.filter (λ l, negb (hidden l)) (lines s).
Definition hidden_lines (s : bytes) : list bytes := List.filter hidden (lines s).
End filter.

(** The handlers of the three files; [vpns] is [global_active_vpns]. *)
Definition fib_route_ret vpns := seq_ret (fib_route_hidden vpns).
Definition ipv6_route_ret vpns := seq_ret (last_word_hidden vpns).
Definition if6_seq_ret vpns := seq_ret (last_word_hidden vpns).
Definition dev_seq_ret vpns := seq_ret (dev_seq_hidden vpns).

(** The entry handlers: [None] skips the return probe, otherwise the saved
    [start_count]. *)
Definition seq_entry (hook : vpnhide_hook_idx) (policy : option vpnhide_policy_snapshot) (uid : Z)
    (seq : option seq_file) : option nat :=
  if negb (is_hook_active policy hook uid) then None
  else if negb (is_target_uid_val policy uid) then None
  else Some (if seq is Some s then sq_count s else O).

(** ** [/proc/net/fib_trie] *)

(** The scan of one line for a word that names an active VPN.  [None]: still
    running after [fuel] rounds of the outer loop. *)
Fixpoint trie_scan (vpns : option vpnhide_vpn_ifindexes) (fuel : nat) (p : bytes) : option bool :=
  match fuel with
  | O => None
  | S fuel =>
      if bool_decide (p = []) then Some false
      else
        let p := skip (is_one_of [space; tab; x7c; x2b; x2d]) p in
        let word := take 15 (span (λ c, negb (is_one_of [space; tab; nl; x2f; x7c] c)) p) in
        if negb (bool_decide (word = [])) && is_active_vpn_ifname vpns word then Some true
        else trie_scan vpns fuel (drop (length word) p)
  end.

Fixpoint trie_loop (vpns : option vpnhide_vpn_ifindexes) (scan_fuel fuel : nat) (buf : bytes)
    (src dst stop hits : nat) : option (bytes * nat * nat) :=
  match fuel with
  | O => None
  | S fuel =>
      if (src <? stop)%nat then
        let line_len := line_length (slice buf src (stop - src)) in
        has_vpn ← trie_scan vpns scan_fuel (slice buf src line_len);
        if has_vpn : bool then trie_loop vpns scan_fuel fuel buf (src + line_len) dst stop (S hits)
        else
          let buf := if (dst =? src)%nat then buf else memmove buf dst src line_len in
          trie_loop vpns scan_fuel fuel buf (src + line_len) (dst + line_len) stop hits
      else Some (buf, dst, hits)
  end.

(** [None]: the handler has not returned within [fuel] rounds of each loop. *)
Definition fib_trie_ret (vpns : option vpnhide_vpn_ifindexes) (fuel start_count : nat)
    (seq : option seq_file) : option (option seq_file * nat) :=
  match seq with
  | None => Some (None, O)
  | Some seq =>
      if (sq_count seq <=? start_count)%nat then Some (Some seq, O)
      else
        '(buf, dst, hits) ←
          trie_loop vpns fuel fuel (sq_buf seq) start_count start_count (sq_count seq) 0;
        Some (Some (mk_seq buf dst), hits)
  end.

(** ** [SIOCGIFCONF] *)

(** A [struct ifreq] of 40 bytes. *)
Record ifreq := mk_ifreq {
  ifr_name : bytes;
  ifr_ifru : bytes
}.

Definition encode_ifreq (r : ifreq) : bytes := ifr_name r ++ ifr_ifru r.

(** [tmp.ifr_name[IFNAMSIZ - 1] = '\0'] *)
Definition terminate (r : ifreq) : ifreq := mk_ifreq (<[15%nat := x00]> (ifr_name r)) (ifr_ifru r).

Inductive filter_ifconf_result :=
  | FILTER_IFCONF_NO_CHANGE
  | FILTER_IFCONF_CHANGED (out_len : Z)
  | FILTER_IFCONF_COPY_FAULT.

Section ifconf.
(** [accessible i]: the copies from and to entry [i] succeed. *)
Context (vpns : option vpnhide_vpn_ifindexes) (accessible : nat → bool).

(** [k] entries are left to look at; [None]: a copy faulted. *)
Fixpoint ifconf_loop (k i dst : nat) (mem : list ifreq) : list ifreq * option nat :=
  match k with
  | O => (mem, Some dst)
  | S k =>
      match mem !! i with
      | None => (mem, None)
      | Some r =>
          if negb (accessible i) then (mem, None)
          else
            let tmp := terminate r in
            if is_active_vpn_ifname vpns (ifr_name tmp) then ifconf_loop k (S i) dst mem
            else if (dst =? i)%nat then ifconf_loop k (S i) (S dst) mem
            else if negb (accessible dst) then (mem, None)
            else ifconf_loop k (S i) (S dst) (<[dst := tmp]> mem)
      end
  end.

Definition filter_ifconf_buf (mem : list ifreq) (n : nat) : list ifreq * filter_ifconf_result :=
  match ifconf_loop n 0 0 mem with
  | (mem, None) => (mem, FILTER_IFCONF_COPY_FAULT)
  | (mem, Some dst) =>
      (mem, if (dst =? n)%nat then FILTER_IFCONF_NO_CHANGE
            else FILTER_IFCONF_CHANGED (Z.of_nat dst * 40))
  end.

(** [clear_user] on the bytes from [start_len] to [capacity_len]; [None] when
    it fails. *)
Definition clear_ifconf_tail (clear_ok : bool) (mem : bytes) (start_len capacity_len : Z) : option bytes :=
  if (start_len <? 0) || (capacity_len <=? start_len) then Some mem
  else if clear_ok then
    Some (take (Z.to_nat start_len) mem ++ replicate (Z.to_nat (capacity_len - start_len)) x00 ++
          drop (Z.to_nat capacity_len) mem)
  else None.

Record ifconf_end := mk_ifconf_end {
  ic_mem : bytes;
  ic_len : option Z;       (* the value [put_user] stored in [ifc_len] *)
  ic_intercept : bool
}.

(** [ifc] is what the handler reads back from [argp] ([None] when it cannot):
    the length the system call returned and whether [ifc_req] is set; [tail]
    are the bytes of the user's buffer that do not form a whole entry. *)
Definition sock_ioctl_ret (retval : Z) (ifc : option (Z * bool)) (ifc_capacity : Z)
    (clear_ok put_ok : bool) (mem : list ifreq) (tail : bytes) : ifconf_end :=
  let bytes_of mem := mjoin (encode_ifreq <$> mem) ++ tail in
  let untouched := mk_ifconf_end (bytes_of mem) None false in
  if negb (retval =? 0) then untouched
  else match ifc with
  | None => untouched
  | Some (ifc_len, have_req) =>
      if negb have_req || (ifc_len <? 0) then untouched
      else
        let len := if ifc_capacity <? ifc_len then ifc_capacity else ifc_len in
        match filter_ifconf_buf mem (Z.to_nat (len / 40)) with
        | (mem, FILTER_IFCONF_COPY_FAULT) => mk_ifconf_end (bytes_of mem) None false
        | (mem, res) =>
            let filtered := if res is FILTER_IFCONF_CHANGED out_len then out_len else len in
            match clear_ifconf_tail clear_ok (bytes_of mem) filtered ifc_capacity with
            | None => mk_ifconf_end (bytes_of mem) None false
            | Some final =>
                if res is FILTER_IFCONF_CHANGED out_len then
                  if put_ok then mk_ifconf_end final (Some out_len) true
                  else mk_ifconf_end final None false
                else mk_ifconf_end final None false
            end
        end
  end.

Definition SIOCGIFCONF : Z := 0x8912.

(** The entry handler: the capacity kept for the return handler.  [ifc] is
    what [copy_from_user] reads: the length and whether [ifc_req] is set. *)
Definition sock_ioctl_entry (policy : option vpnhide_policy_snapshot) (uid cmd : Z)
    (ifc : option (Z * bool)) : option Z :=
  if negb (is_hook_active policy HOOK_SOCK_IOCTL uid) then None
  else if negb (cmd =? SIOCGIFCONF) then None
  else if negb (is_target_uid_val policy uid) then None
  else match ifc with
       | Some (ifc_len, true) => if ifc_len <=? 0 then None else Some ifc_len
       | _ => None
       end.

(** The entries userspace may see. *)
Definition visible_ifreq (r : ifreq) : bool := negb (is_active_vpn_ifname vpns (ifr_name r)).
End ifconf.

(** ** Correctness of the compaction *)

Lemma line_length_bounds s : s ≠ [] → (0 < line_length s <= length s)%nat.
Proof.
  induction s as [|c s IH]; [done|]. intros _. simpl. case_bool_decide; [lia|].
  destruct s as [|c' s]; [simpl; lia|]. specialize (IH ltac:(done)). lia.
Qed.

Lemma lines_fuel_enough n m s : (length s <= n)%nat → (length s <= m)%nat → lines_fuel n s = lines_fuel m s.
Proof.
  revert m s; induction n as [|n IH]; intros m [|c s] Hn Hm; try by destruct m.
  - simpl in Hn. lia.
  - destruct m as [|m]; [simpl in Hm; lia|]. cbn [lines_fuel]. f_equal.
    pose proof (line_length_bounds (c :: s) ltac:(done)).
    apply IH; rewrite length_drop; cbn [length] in *; lia.
Qed.

Lemma lines_step s : s ≠ [] → lines s = take (line_length s) s :: lines (drop (line_length s) s).
Proof.
  intros Hs. destruct s as [|c s]; [done|]. unfold lines. cbn [length lines_fuel]. f_equal.
  pose proof (line_length_bounds (c :: s) ltac:(done)).
  apply lines_fuel_enough; rewrite length_drop; cbn [length] in *; lia.
Qed.

Lemma mjoin_lines s : mjoin (lines s) = s.
Proof.
  remember (length s) as n eqn:Hn. revert s Hn.
  induction (lt_wf n) as [n _ IH]; intros s ->. destruct (decide (s = [])) as [->|Hs]; [done|].
  rewrite lines_step by done. pose proof (line_length_bounds s Hs). simpl.
  rewrite (IH (length (drop (line_length s) s))); [apply take_drop| |done]. rewrite length_drop. lia.
Qed.

Section memmove.
Context (buf : bytes) (dst src len : nat) (Hd : (dst <= src)%nat) (Hs : (src + len <= length buf)%nat).

Lemma length_slice_within : length (slice buf src len) = len.
Proof. clear Hd. unfold slice. rewrite length_take, length_drop. lia. Qed.

Lemma length_memmove : length (memmove buf dst src len) = length buf.
Proof. unfold memmove. rewrite !length_app, length_slice_within, length_take, length_drop. lia. Qed.

Lemma take_memmove : take (dst + len) (memmove buf dst src len) = take dst buf ++ slice buf src len.
Proof.
  unfold memmove. rewrite app_assoc, take_app_length'; [done|].
  rewrite length_app, length_slice_within, length_take. lia.
Qed.

(** What lies past the source is not touched. *)
Lemma drop_memmove : drop (src + len) (memmove buf dst src len) = drop (src + len) buf.
Proof.
  unfold memmove. rewrite app_assoc, drop_app_ge; rewrite length_app, length_slice_within, length_take; [|lia].
  rewrite drop_drop. f_equal. lia.
Qed.
End memmove.

Section compaction.
Context (hidden : bytes → bool).

Lemma slice_take_line buf src stop n :
  (n <= stop - src)%nat → slice buf src n = take n (slice buf src (stop - src)).
Proof. intros. unfold slice. rewrite take_take. f_equal. lia. Qed.

Lemma slice_drop_line buf src stop n :
  slice buf (src + n) (stop - (src + n)) = drop n (slice buf src (stop - src)).
Proof. unfold slice. rewrite skipn_firstn_comm, drop_drop. f_equal. lia. Qed.

(** What the loop leaves, given that [dst] has not overtaken [src]. *)
Lemma compact_loop_spec fuel buf src dst stop hits :
  (dst <= src <= stop)%nat → (stop <= length buf)%nat → (stop - src <= fuel)%nat →
  let text := slice buf src (stop - src) in
  let '(buf', dst', hits') := compact_loop hidden fuel buf src dst stop hits in
  take dst' buf' = take dst buf ++ mjoin (visible_lines hidden text) ∧
  dst' = (dst + length (mjoin (visible_lines hidden text)))%nat ∧
  (dst' <= stop)%nat ∧ length buf' = length buf ∧
  hits' = (hits + length (hidden_lines hidden text))%nat.
Proof.
  revert buf src dst hits; induction fuel as [|fuel IH]; intros buf src dst hits Hds Hstop Hfuel.
  { replace (stop - src)%nat with O by lia. cbn. rewrite app_nil_r. split_and!; lia || done. }
  cbn [compact_loop]. destruct (Nat.ltb_spec src stop) as [Hlt|Hge]; cycle 1.
  { replace (stop - src)%nat with O by lia. cbn. rewrite app_nil_r. split_and!; lia || done. }
  set (text := slice buf src (stop - src)). set (n := line_length text).
  assert (length text = stop - src)%nat as Htl by (unfold text; apply length_slice_within; lia).
  assert (text ≠ []) as Hne by (intros E; rewrite E in Htl; simpl in Htl; lia).
  pose proof (line_length_bounds text Hne) as Hn. fold n in Hn.
  assert (slice buf src n = take n text) as Hline by (apply slice_take_line; lia).
  unfold visible_lines, hidden_lines. rewrite (lines_step text Hne). fold n. cbn [List.filter].
  rewrite Hline. destruct (hidden (take n text)) eqn:Eh; cbn [negb].
  - specialize (IH buf (src + n)%nat dst (S hits) ltac:(lia) Hstop ltac:(lia)).
    cbv zeta in IH. rewrite slice_drop_line in IH. fold text in IH.
    destruct (compact_loop _ _ _ _ _ _ _) as [[buf' dst'] hits'].
    unfold visible_lines, hidden_lines in IH. cbn [length].
    destruct IH as (? & ? & ? & ? & ?). split_and!; try done; lia.
  - set (buf1 := if (dst =? src)%nat then buf else memmove buf dst src n).
    assert (length buf1 = length buf) as Hl1
      by (unfold buf1; destruct (_ =? _)%nat; [done|apply length_memmove; lia]).
    assert (take (dst + n) buf1 = take dst buf ++ take n text) as Ht1.
    { unfold buf1. destruct (Nat.eqb_spec dst src) as [->|].
      - rewrite <- Hline. unfold slice. by rewrite take_take_drop.
      - rewrite take_memmove by lia. by rewrite Hline. }
    assert (drop (src + n) buf1 = drop (src + n) buf) as Hd1.
    { unfold buf1. destruct (_ =? _)%nat; [done|apply drop_memmove; lia]. }
    specialize (IH buf1 (src + n)%nat (dst + n)%nat hits ltac:(lia) ltac:(lia) ltac:(lia)).
    assert (slice buf1 (src + n) (stop - (src + n)) = drop n text) as Hs1.
    { unfold slice. rewrite Hd1. fold (slice buf (src + n) (stop - (src + n))). apply slice_drop_line. }
    cbv zeta in IH. rewrite Hs1, Ht1 in IH.
    destruct (compact_loop _ _ _ _ _ _ _) as [[buf' dst'] hits'].
    unfold visible_lines, hidden_lines in IH. rewrite mjoin_cons, length_app.
    rewrite <- app_assoc in IH. rewrite (length_take_le text n) by lia.
    destruct IH as (? & ? & ? & ? & ?). split_and!; try done; lia.
Qed.

Lemma seq_ret_spec start seq :
  (start < sq_count seq <= length (sq_buf seq))%nat →
  let text := slice (sq_buf seq) start (sq_count seq - start) in
  ∃ seq', seq_ret hidden start (Some seq) = (Some seq', length (hidden_lines hidden text)) ∧
    take (sq_count seq') (sq_buf seq') =
      take start (sq_buf seq) ++ mjoin (visible_lines hidden text) ∧
    length (sq_buf seq') = length (sq_buf seq) ∧ (sq_count seq' <= sq_count seq)%nat.
Proof.
  intros [Hs Hc]. cbv zeta. unfold seq_ret. destruct (Nat.leb_spec (sq_count seq) start); [lia|].
  pose proof (compact_loop_spec (sq_count seq) (sq_buf seq) start start (sq_count seq) 0
    ltac:(lia) Hc ltac:(lia)) as Hloop.
  destruct (compact_loop _ _ _ _ _ _ _) as [[buf dst] hits]. destruct Hloop as (H1 & H2 & H3 & H4 & ->).
  by exists (mk_seq buf dst).
Qed.
End compaction.

(** ** The scan of [fib_trie] lines *)

Lemma skip_suffix f s : ∃ pre, s = pre ++ skip f s ∧ Forall (λ c, f c = true) pre.
Proof.
  induction s as [|c s (pre & Hs & Hp)]; [by exists []|]. simpl. destruct (f c) eqn:E; [|by exists []].
  exists (c :: pre). split; [by rewrite Hs at 1|by constructor].
Qed.

Lemma span_prefix f s : ∃ rest, s = span f s ++ rest ∧ Forall (λ c, f c = true) (span f s).
Proof.
  induction s as [|c s (rest & Hs & Hp)]; [by exists []|]. simpl. destruct (f c) eqn:E.
  - exists rest. split; [by rewrite Hs at 1|by constructor].
  - by exists (c :: s).
Qed.

(** Dropping characters other than the last one keeps the last one. *)
Lemma last_app_neq pre s (c : byte) : last (pre ++ s) = Some c → Forall (λ x, x ≠ c) pre → last s = Some c.
Proof.
  intros Hl Hp. destruct s as [|x s].
  - rewrite app_nil_r in Hl. exfalso. rewrite Forall_forall in Hp.
    apply (Hp c); [|done]. by apply last_Some_elem_of.
  - by rewrite last_app_cons in Hl.
Qed.

Lemma trie_scan_newline vpns fuel line : last line = Some nl → trie_scan vpns fuel line ≠ Some false.
Proof.
  revert line; induction fuel as [|fuel IH]; intros line Hl; cbn [trie_scan]; [done|].
  case_bool_decide as Hne; [by subst|].
  set (blank := is_one_of [space; tab; x7c; x2b; x2d]).
  set (inword := λ c, negb (is_one_of [space; tab; nl; x2f; x7c] c)).
  destruct (skip_suffix blank line) as (pre & Hs & Hpre).
  destruct (span_prefix inword (skip blank line)) as (rest & Hw & Hword).
  set (p := skip blank line) in *. set (word := take 15 (span inword p)).
  destruct (negb _ && _); [done|]. apply IH.
  assert (last p = Some nl) as Hp.
  { rewrite Hs in Hl. eapply last_app_neq; [exact Hl|]. eapply Forall_impl; [exact Hpre|].
    intros c Hc ->. by vm_compute in Hc. }
  assert (p = word ++ drop (length word) p) as Hsplit.
  { assert (p = word ++ drop 15 (span inword p) ++ rest) as E
      by (unfold word; by rewrite app_assoc, take_drop).
    rewrite E at 2. by rewrite drop_app_length. }
  rewrite Hsplit in Hp. eapply last_app_neq; [exact Hp|]. unfold word. apply Forall_take.
  eapply Forall_impl; [exact Hword|]. intros c Hc ->. by vm_compute in Hc.
Qed.

(** ** The compacted [ifreq] array *)

Section ifconf_facts.
Context (vpns : option vpnhide_vpn_ifindexes).

Lemma terminate_idemp r : terminate (terminate r) = terminate r.
Proof. unfold terminate. simpl. by rewrite list_insert_insert_eq. Qed.

(** What the loop leaves below [dst] is what it kept, up to the terminators
    it writes. *)
Lemma ifconf_loop_spec k i dst mem :
  (dst <= i)%nat → (i + k <= length mem)%nat →
  let '(mem', dst') := ifconf_loop vpns (λ _, true) k i dst mem in
  ∃ n, dst' = Some n ∧ length mem' = length mem ∧ (dst <= n <= dst + k)%nat ∧
    terminate <$> take n mem' =
      (terminate <$> take dst mem) ++
      List.filter (visible_ifreq vpns) (terminate <$> take k (drop i mem)).
Proof.
  revert i dst mem; induction k as [|k IH]; intros i dst mem Hd Hi; cbn [ifconf_loop].
  { exists dst. cbn. rewrite app_nil_r. split_and!; try done; lia. }
  destruct (lookup_lt_is_Some_2 mem i) as [r Hr]; [lia|]. rewrite Hr. cbn [negb].
  rewrite (drop_S mem r i Hr). cbn [take fmap list_fmap List.filter]. unfold visible_ifreq at 1.
  destruct (is_active_vpn_ifname vpns (ifr_name (terminate r))) eqn:Ev; cbn [negb].
  - specialize (IH (S i) dst mem ltac:(lia) ltac:(lia)).
    destruct (ifconf_loop _ _ _ _ _ _) as [mem' dst']. destruct IH as (n & ? & ? & ? & ?).
    exists n. split_and!; try done; lia.
  - destruct (Nat.eqb_spec dst i) as [->|Hne].
    + specialize (IH (S i) (S i) mem ltac:(lia) ltac:(lia)).
      destruct (ifconf_loop _ _ _ _ _ _) as [mem' dst']. destruct IH as (n & ? & ? & ? & E).
      exists n. split_and!; try done; try lia. rewrite E, (take_S_r mem i r Hr), fmap_app.
      by rewrite <- app_assoc.
    + specialize (IH (S i) (S dst) (<[dst := terminate r]> mem) ltac:(lia)
        ltac:(rewrite length_insert; lia)).
      destruct (ifconf_loop _ _ _ _ _ _) as [mem' dst'].
      destruct IH as (n & ? & Hl & ? & E). rewrite length_insert in Hl.
      exists n. split_and!; try done; try lia. rewrite E.
      rewrite (take_S_r _ dst (terminate r)) by (apply list_lookup_insert_eq; lia).
      rewrite take_insert_ge, drop_insert_lt by lia. rewrite fmap_app. cbn [fmap list_fmap].
      by rewrite terminate_idemp, <- app_assoc.
Qed.

Lemma length_encode_terminate r : length (encode_ifreq (terminate r)) = length (encode_ifreq r).
Proof. unfold encode_ifreq, terminate. simpl. by rewrite !length_app, length_insert. Qed.

Lemma ifconf_loop_size k i dst mem :
  Forall (λ r, length (encode_ifreq r) = 40%nat) mem →
  Forall (λ r, length (encode_ifreq r) = 40%nat) (ifconf_loop vpns (λ _, true) k i dst mem).1.
Proof.
  revert i dst mem; induction k as [|k IH]; intros i dst mem Hm; cbn [ifconf_loop negb]; [done|].
  destruct (mem !! i) as [r|] eqn:Hr; [|done].
  destruct (is_active_vpn_ifname _ _); [by apply IH|]. destruct (_ =? _)%nat; [by apply IH|].
  apply IH, Forall_insert; [done|]. rewrite length_encode_terminate.
  rewrite Forall_forall in Hm. apply Hm. by eapply list_elem_of_lookup_2.
Qed.

Lemma length_encoded mem :
  Forall (λ r, length (encode_ifreq r) = 40%nat) mem →
  length (mjoin (encode_ifreq <$> mem)) = (40 * length mem)%nat.
Proof. induction 1 as [|r mem Hr _ IH]; [done|].
  rewrite fmap_cons, mjoin_cons, length_app, IH, Hr. cbn [length]. lia. Qed.
End ifconf_facts.

(** ** Properties *)

(** C31: the in-place compaction of a [/proc/net] buffer, whatever marks a line
    as hidden, leaves the text that was there before the call followed by
    exactly the visible lines in their order, never grows the buffer, and
    counts one intercept per hidden line. *)
Theorem seq_compaction_exact hidden start seq :
  (start < sq_count seq <= length (sq_buf seq))%nat →
  let text := slice (sq_buf seq) start (sq_count seq - start) in
  mjoin (lines text) = text ∧
  ∃ seq', seq_ret hidden start (Some seq) = (Some seq', length (hidden_lines hidden text)) ∧
    take (sq_count seq') (sq_buf seq') = take start (sq_buf seq) ++ mjoin (visible_lines hidden text) ∧
    length (sq_buf seq') = length (sq_buf seq) ∧ (sq_count seq' <= sq_count seq)%nat.
Proof. intros H. split; [apply mjoin_lines|]. by apply seq_ret_spec. Qed.

(** ["tun0\t1\nwlan0\t2\n"] *)
Definition example_seq : seq_file :=
  mk_seq [x74; x75; x6e; x30; x09; x31; x0a; x77; x6c; x61; x6e; x30; x09; x32; x0a] 15.

Definition example_vpns : vpnhide_vpn_ifindexes :=
  mk_vpn_ifindexes 1 [mk_active_vpn 7 ([x74; x75; x6e; x30] ++ replicate 12 x00)].

Lemma seq_compaction_exact_witness :
  let hidden := fib_route_hidden (Some example_vpns) in
  let text := slice (sq_buf example_seq) 0 (sq_count example_seq - 0) in
  mjoin (lines text) = text ∧
  ∃ seq', fib_route_ret (Some example_vpns) 0 (Some example_seq) =
      (Some seq', length (hidden_lines hidden text)) ∧
    take (sq_count seq') (sq_buf seq') = take 0 (sq_buf example_seq) ++ mjoin (visible_lines hidden text) ∧
    length (sq_buf seq') = length (sq_buf example_seq) ∧ (sq_count seq' <= sq_count example_seq)%nat.
Proof.
  apply (seq_compaction_exact (fib_route_hidden (Some example_vpns)) 0 example_seq).
  split; apply Nat.leb_le; reflexivity.
Defined.

(** The route filter hides a line exactly when its first column (up to
    fifteen characters) is the name of an active VPN interface, so after the
    probe no such line is left. *)
Theorem fib_route_no_vpn_line vpns start seq seq' hits :
  (start < sq_count seq <= length (sq_buf seq))%nat →
  fib_route_ret vpns start (Some seq) = (Some seq', hits) →
  ∃ kept, take (sq_count seq') (sq_buf seq') = take start (sq_buf seq) ++ mjoin kept ∧
    Forall (λ line, is_active_vpn_ifname vpns (fib_route_name line) = false) kept ∧
    ∀ line, line ∈ kept ↔ line ∈ lines (slice (sq_buf seq) start (sq_count seq - start)) ∧
      is_active_vpn_ifname vpns (fib_route_name line) = false.
Proof.
  intros Hs H. destruct (seq_ret_spec (fib_route_hidden vpns) start seq Hs) as (s2 & E & Ht & _).
  unfold fib_route_ret in H. rewrite E in H. injection H as <- _.
  exists (visible_lines (fib_route_hidden vpns) (slice (sq_buf seq) start (sq_count seq - start))).
  assert (∀ line, line ∈ visible_lines (fib_route_hidden vpns)
      (slice (sq_buf seq) start (sq_count seq - start)) ↔
    line ∈ lines (slice (sq_buf seq) start (sq_count seq - start)) ∧
      is_active_vpn_ifname vpns (fib_route_name line) = false) as Hiff.
  { intros line. unfold visible_lines. rewrite !list_elem_of_In, List.filter_In, negb_true_iff. done. }
  split_and!; [done| |done]. apply Forall_forall. intros line [_ Hl]%Hiff. done.
Qed.

Lemma fib_route_no_vpn_line_witness :
  ∃ seq' hits kept, fib_route_ret (Some example_vpns) 0 (Some example_seq) = (Some seq', hits) ∧
    take (sq_count seq') (sq_buf seq') = take 0 (sq_buf example_seq) ++ mjoin kept ∧
    Forall (λ line, is_active_vpn_ifname (Some example_vpns) (fib_route_name line) = false) kept.
Proof.
  destruct (fib_route_ret (Some example_vpns) 0 (Some example_seq)) as [o hits] eqn:E.
  destruct o as [seq'|]; [|vm_compute in E; discriminate E].
  destruct (fib_route_no_vpn_line (Some example_vpns) 0 example_seq seq' hits) as (kept & H1 & H2 & _);
    [split; apply Nat.leb_le; reflexivity|exact E|].
  exists seq', hits, kept. split; [reflexivity|]. split; assumption.
Defined.

(** C38: the scan of [/proc/net/fib_trie] does not advance at a newline, so on a
    line that ends in one it can only stop by finding a VPN name: for a buffer
    whose first line is such a line and names no active VPN, the probe never
    returns, however long it runs. *)
Theorem fib_trie_ret_diverges vpns start seq fuel :
  (start < sq_count seq)%nat →
  (let text := slice (sq_buf seq) start (sq_count seq - start) in
   let line := slice (sq_buf seq) start (line_length text) in
   last line = Some nl ∧ ∀ n, trie_scan vpns n line ≠ Some true) →
  fib_trie_ret vpns fuel start (Some seq) = None.
Proof.
  cbv zeta. intros Hs [Hl Hno]. unfold fib_trie_ret. destruct (Nat.leb_spec (sq_count seq) start); [lia|].
  destruct fuel as [|fuel]; [done|]. cbn [trie_loop]. destruct (Nat.ltb_spec start (sq_count seq)); [|lia].
  pose proof (trie_scan_newline vpns (S fuel) _ Hl) as Hf. specialize (Hno (S fuel)).
  destruct (trie_scan vpns (S fuel) _) as [[]|]; done.
Qed.

(** The header line ["Main:\n"] of the file. *)
Definition example_trie : seq_file := mk_seq [x4d; x61; x69; x6e; x3a; x0a] 6.

Lemma trie_scan_no_vpn fuel p : trie_scan None fuel p ≠ Some true.
Proof.
  revert p; induction fuel as [|fuel IH]; intros p; cbn [trie_scan]; [done|].
  case_bool_decide; [done|]. unfold is_active_vpn_ifname. destruct (bool_decide (cstr _ = []));
    rewrite andb_false_r; apply IH.
Qed.

Lemma fib_trie_ret_diverges_witness : fib_trie_ret None 1000 0 (Some example_trie) = None.
Proof.
  apply (fib_trie_ret_diverges None 0 example_trie 1000).
  - apply Nat.ltb_lt. reflexivity.
  - split; [reflexivity|]. intros n. apply trie_scan_no_vpn.
Defined.

(** C14: after a [SIOCGIFCONF] the entry handler took (no copy faults), with [n] entries
    returned by the kernel in a buffer of [capacity] bytes: the buffer starts with
    exactly the entries of interfaces that are not active VPNs, in order; the length
    the app finds is that of these entries; every byte behind them up to the
    capacity is zero, so that no trace of a removed entry is left; and an intercept
    is counted exactly when an entry was removed. *)
Theorem ifconf_no_trace vpns mem tail n capacity :
  40 * Z.of_nat n <= capacity → (n <= length mem)%nat →
  Z.of_nat (length (mjoin (encode_ifreq <$> mem) ++ tail)) = capacity →
  Forall (λ r, length (encode_ifreq r) = 40%nat) mem →
  let len := 40 * Z.of_nat n in
  let visible := List.filter (visible_ifreq vpns) (terminate <$> take n mem) in
  let e := sock_ioctl_ret vpns (λ _, true) 0 (Some (len, true)) capacity true true mem tail in
  ∃ kept, terminate <$> kept = visible ∧
    ic_mem e = mjoin (encode_ifreq <$> kept) ++ replicate (Z.to_nat (capacity - 40 * Z.of_nat (length kept))) x00 ∧
    default len (ic_len e) = 40 * Z.of_nat (length kept) ∧
    ic_intercept e = (length visible <? n)%nat.
Proof.
  cbv zeta. intros Hle Hn Hcap Hsz. unfold sock_ioctl_ret. cbn [Z.eqb negb orb].
  destruct (Z.ltb_spec (40 * Z.of_nat n) 0); [lia|]. destruct (Z.ltb_spec capacity (40 * Z.of_nat n)); [lia|].
  replace (Z.to_nat (40 * Z.of_nat n / 40)) with n by (rewrite Z.mul_comm, Z.div_mul by lia; lia). unfold filter_ifconf_buf.
  pose proof (ifconf_loop_spec vpns n 0 0 mem ltac:(lia) ltac:(lia)) as Hloop.
  destruct (ifconf_loop _ _ _ _ _ _) as [mem' dst] eqn:Eloop. destruct Hloop as (k & -> & Hl & Hk & Hkept).
  rewrite drop_0, take_0, fmap_nil, app_nil_l in Hkept.
  pose proof (ifconf_loop_size vpns n 0 0 mem Hsz) as Hsz'. rewrite Eloop in Hsz'. cbn [fst] in Hsz'.
  assert (Hcap' : Z.of_nat (length (mjoin (encode_ifreq <$> mem') ++ tail)) = capacity).
  { rewrite length_app, length_encoded by done. rewrite length_app, length_encoded in Hcap by done. lia. }
  exists (take k mem'). rewrite <- Hkept, length_fmap, !length_take, Nat.min_l by lia.
  assert (Hclear : clear_ifconf_tail true (mjoin (encode_ifreq <$> mem') ++ tail) (40 * Z.of_nat k) capacity =
    Some (mjoin (encode_ifreq <$> take k mem') ++ replicate (Z.to_nat (capacity - 40 * Z.of_nat k)) x00)).
  { assert (Htake : take (Z.to_nat (40 * Z.of_nat k)) (mjoin (encode_ifreq <$> mem') ++ tail) =
      mjoin (encode_ifreq <$> take k mem')).
    { rewrite <- (take_drop k mem') at 1. rewrite fmap_app, join_app, <- app_assoc. apply take_app_length'.
      rewrite length_encoded by (by apply Forall_take). rewrite length_take. lia. }
    unfold clear_ifconf_tail. destruct (Z.ltb_spec (40 * Z.of_nat k) 0); [lia|]. cbn [orb].
    destruct (Z.leb_spec capacity (40 * Z.of_nat k)); f_equal.
    - rewrite <- Htake, take_ge by lia. rewrite (proj2 (Z.sub_move_0_r capacity (40 * Z.of_nat k))) by lia. by rewrite app_nil_r.
    - by rewrite Htake, (drop_ge _ (Z.to_nat capacity)), app_nil_r by lia. }
  rewrite (Z.mul_comm (Z.of_nat k) 40). destruct (Nat.eqb_spec k n) as [->|Hkn].
  - rewrite Hclear. by rewrite Nat.ltb_irrefl.
  - rewrite Hclear. cbn [ic_mem ic_len ic_intercept]. by rewrite (proj2 (Nat.ltb_lt _ _)) by lia.
Qed.

Definition example_ifreqs : list ifreq :=
  [mk_ifreq ([x74; x75; x6e; x30] ++ replicate 12 x00) (replicate 24 x01);
   mk_ifreq ([x77; x6c; x61; x6e; x30] ++ replicate 11 x00) (replicate 24 x02)].

(** Of tun0 and wlan0 only the second is left. *)
Lemma ifconf_no_trace_witness :
  let e := sock_ioctl_ret (Some example_vpns) (λ _, true) 0 (Some (80, true)) 100 true true example_ifreqs (replicate 20 x07) in
  ∃ kept, terminate <$> kept = drop 1 example_ifreqs ∧
    ic_mem e = mjoin (encode_ifreq <$> kept) ++ replicate (Z.to_nat (100 - 40 * Z.of_nat (length kept))) x00 ∧
    ic_len e = Some 40 ∧ ic_intercept e = true.
Proof.
  destruct (ifconf_no_trace (Some example_vpns) example_ifreqs (replicate 20 x07) 2 100) as (kept & Hk & Hm & _ & Hi).
  - lia.
  - apply Nat.leb_le. reflexivity.
  - reflexivity.
  - repeat constructor.
  - exists kept. split; [exact Hk|]. split; [exact Hm|]. split; [vm_compute; reflexivity|exact Hi].
Defined.
