(* ===== verification/SocketHooks.v ===== *)
(** * The connect and bind probes

    The handlers of [kmod/hooks_socket.c] that refuse connections to hidden
    local ports and record which ports an app has bound.  There are two connect
    probes, one on the system call (with or without the register wrapper of
    arm64) and one on [security_socket_connect]; each has its own copy of the
    decision. *)
From S2P Require Import Prelude Abi Snapshot PolicyQuery Userspace OwnedPorts Stats PortStats UdpRate Device.

#[local] Open Scope Z_scope.

(** ** Addresses and registers *)

(** [struct sockaddr]: the fields of the two families the hooks look at.  Ports
    and IPv4 addresses are in network byte order, IPv6 addresses are the four
    words in memory. *)
Inductive sockaddr :=
  | SaInet (sin_port sin_addr : Z)
  | SaInet6 (sin6_port : Z) (sin6_addr : list Z)
  | SaOther (family : Z).

(** [ntohs] on a little-endian machine. *)
Definition ntohs (x : Z) : Z := Z.lor (Z.shiftl (Z.land x 255) 8) (Z.shiftr x 8).

Definition INADDR_ANY : Z := 0.

Definition v4_local (a : Z) : bool := ipv4_is_loopback a || (a =? INADDR_ANY).

Definition proto_of (sk : sock) : Z := if sk_type sk =? SOCK_STREAM then VH_PROTO_TCP else VH_PROTO_UDP.

(** The probe's registers: through the wrapper, whether [regs[0]] is a kernel
    pointer, the user's [addrlen], what copying the address yields and the
    socket of the descriptor; otherwise the two pointers.  A socket is
    [Some None] when its [sk] is NULL. *)
Record probe_regs := mk_regs {
  rg_user_regs : bool;
  rg_addrlen : Z;
  rg_addr : option sockaddr;
  rg_sock : option (option sock)
}.

Definition sizeof_sockaddr_storage : Z := 128.

(** The socket, the address and [put_needed]. *)
Definition resolve_sock_addr (regs : probe_regs) (uses_wrapper : bool)
    : option (option sock) * option sockaddr * bool :=
  if uses_wrapper then
    if rg_user_regs regs then
      let copy_sz := Z.min (rg_addrlen regs) sizeof_sockaddr_storage in
      let addr := if 0 <? copy_sz then rg_addr regs else None in
      (rg_sock regs, addr, if rg_sock regs is Some _ then true else false)
    else (None, None, false)
  else (rg_sock regs, rg_addr regs, false).

(** ** Deciding *)

Record socket_connect_data := mk_connect_data {
  cd_should_block : bool;
  cd_intercepted : bool;
  cd_port : Z;
  cd_protocol : Z
}.

Definition zero_connect_data : socket_connect_data := mk_connect_data false false 0 VH_PROTO_TCP.

Section decide.
(** The shared state at the time of the call. *)
Context (policy : option vpnhide_policy_snapshot) (owned : option vpnhide_owned_ports_snapshot)
  (pending : pending_table) (now uid : Z).

(** [should_block_port(...) && !vpnhide_uid_owns_port(...)]; a rule outside
    the table cannot occur in a valid snapshot. *)
Definition refuses (s : vpnhide_policy_snapshot) (urules : vpnhide_port_target_v3)
    (port proto family : Z) (address : list Z) : bool :=
  default false (should_block_port s urules port proto) &&
  negb (vpnhide_uid_owns_port owned pending now uid port proto family address).

(** [Some (port, protocol)] when the connection is refused. *)
Definition direct_connect_should_block (so : option (option sock)) (addr : option sockaddr)
    : option (Z * Z) :=
  sk ← so; sk ← sk; addr ← addr;
  s ← policy;
  urules ← vpnhide_find_port_target policy uid;
  match addr with
  | SaInet sin_port sin_addr =>
      let port := ntohs sin_port in
      let proto := proto_of sk in
      if v4_local sin_addr && refuses s urules port proto AF_INET [sin_addr; 0; 0; 0]
      then Some (port, proto) else None
  | SaInet6 sin6_port a =>
      let port := ntohs sin6_port in
      let proto := proto_of sk in
      let local := ipv6_addr_loopback a || ipv6_addr_any a in
      let '(local, family, address) :=
        if ipv6_addr_v4mapped a then
          let v4addr := nth 3 a 0 in (v4_local v4addr, AF_INET, [v4addr; 0; 0; 0])
        else (local, AF_INET6, a) in
      if local && refuses s urules port proto family address then Some (port, proto) else None
  | SaOther _ => None
  end.

(** The body of [socket_connect_entry] once socket and address are known:
    the data it leaves for the return handler. *)
Definition connect_decision (uses_wrapper user_regs : bool) (s : vpnhide_policy_snapshot)
    (urules : vpnhide_port_target_v3) (sk : sock) (addr : sockaddr) : socket_connect_data :=
  let block port proto := mk_connect_data true (uses_wrapper && user_regs) port proto in
  match addr with
  | SaInet sin_port sin_addr =>
      if v4_local sin_addr then
        let port := ntohs sin_port in
        let proto := proto_of sk in
        if refuses s urules port proto AF_INET [sin_addr; 0; 0; 0] then block port proto
        else zero_connect_data
      else zero_connect_data
  | SaInet6 sin6_port a =>
      let is_loopback :=
        if ipv6_addr_loopback a || ipv6_addr_any a then true
        else if ipv6_addr_v4mapped a then v4_local (nth 3 a 0) else false in
      if is_loopback then
        let port := ntohs sin6_port in
        let proto := proto_of sk in
        let '(family, address) :=
          if ipv6_addr_v4mapped a then (AF_INET, [nth 3 a 0; 0; 0; 0]) else (AF_INET6, a) in
        if refuses s urules port proto family address then block port proto
        else zero_connect_data
      else zero_connect_data
  | SaOther _ => zero_connect_data
  end.

(** [None]: the entry handler returns 1 and the return handler does not run.
    [cd_intercepted] is also whether [user_regs->regs[1]] was cleared. *)
Definition socket_connect_entry (uses_wrapper : bool) (regs : probe_regs)
    : option socket_connect_data :=
  if negb (is_hook_active policy HOOK_CONNECT uid) then None
  else
    let '(so, addr, _) := resolve_sock_addr regs uses_wrapper in
    if uses_wrapper && (if so is None then true else false) then Some zero_connect_data
    else
      match policy with
      | None => None
      | Some s =>
          match vpnhide_find_port_target policy uid, addr, so with
          | Some urules, Some addr, Some (Some sk) =>
              let data := connect_decision uses_wrapper (rg_user_regs regs) s urules sk addr in
              if cd_should_block data then Some data else None
          | _, _, _ => None
          end
      end.

Definition security_socket_connect_entry (so : option (option sock)) (addr : option sockaddr)
    : option socket_connect_data :=
  if negb (is_hook_active policy HOOK_CONNECT uid) then None
  else match direct_connect_should_block so addr with
       | Some (port, proto) => Some (mk_connect_data true false port proto)
       | None => None
       end.
End decide.

(** ** Acting *)

(** [-EFAULT] and [-ECONNREFUSED] *)
Definition NEG_EFAULT : Z := -14.
Definition NEG_ECONNREFUSED : Z := -111.

(** The return value the app sees and the new statistics. *)
Definition socket_connect_ret (uses_wrapper : bool) (now uid : Z) (data : socket_connect_data)
    (retval : Z) (st : stats_state * port_stats_state) : Z * (stats_state * port_stats_state) :=
  if cd_should_block data then
    let st := record_port_intercept now uid (cd_port data) (cd_protocol data) st in
    if uses_wrapper then
      if cd_intercepted data && (retval =? NEG_EFAULT) then (NEG_ECONNREFUSED, st)
      else (retval, st)
    else (NEG_ECONNREFUSED, st)
  else (retval, st).

Definition security_socket_connect_ret (now uid : Z) (data : socket_connect_data) (retval : Z)
    (st : stats_state * port_stats_state) : Z * (stats_state * port_stats_state) :=
  if cd_should_block data
  then (NEG_ECONNREFUSED, record_port_intercept now uid (cd_port data) (cd_protocol data) st)
  else (retval, st).

(** ** Bound sockets *)

Section bind.
Context (HZ : Z) (policy : option vpnhide_policy_snapshot) (now : Z) (have_eventfd : bool).

(** The socket, the UID and [put_needed] kept for the return handler. *)
Definition socket_bind_entry (uses_wrapper : bool) (regs : probe_regs) (uid : Z)
    : option (option sock * Z * bool) :=
  let '(so, _, put_needed) := resolve_sock_addr regs uses_wrapper in
  sk ← so; Some (sk, uid, put_needed).

Definition socket_bind_ret (data : option sock * Z) (retval : Z) (pending : pending_table)
    : pending_table * bool :=
  match data with
  | (Some sk, uid) =>
      if (retval =? 0) && ((sk_family sk =? AF_INET) || (sk_family sk =? AF_INET6)) &&
         (sk_type sk =? SOCK_DGRAM)
      then vpnhide_record_bound_socket HZ policy pending now uid (Some sk) have_eventfd
      else (pending, false)
  | (None, _) => (pending, false)
  end.

Definition inet_bind_owner_entry (so : option (option sock)) (uid : Z) : option (sock * Z) :=
  sk ← so; sk ← sk;
  if negb (sk_family sk =? AF_INET) || negb (sk_type sk =? SOCK_DGRAM) then None else Some (sk, uid).

Definition inet_listen_owner_entry (so : option (option sock)) (uid : Z) : option (sock * Z) :=
  sk ← so; sk ← sk;
  if (negb (sk_family sk =? AF_INET) && negb (sk_family sk =? AF_INET6)) ||
     negb (sk_type sk =? SOCK_STREAM) then None
  else Some (sk, uid).

(** [inet_bind_owner_ret] and [inet_listen_owner_ret] *)
Definition inet_owner_ret (data : sock * Z) (retval : Z) (pending : pending_table)
    : pending_table * bool :=
  let '(sk, uid) := data in
  if retval =? 0 then vpnhide_record_bound_socket HZ policy pending now uid (Some sk) have_eventfd
  else (pending, false).
End bind.

(** ** Specification *)

(** A destination on the device itself, as family, port and the key under which
    an owner of the port is recorded. *)
Definition local_destination (addr : sockaddr) : option (Z * Z * list Z) :=
  match addr with
  | SaInet p a => if v4_local a then Some (ntohs p, AF_INET, [a; 0; 0; 0]) else None
  | SaInet6 p a =>
      if ipv6_addr_v4mapped a
      then if v4_local (nth 3 a 0) then Some (ntohs p, AF_INET, [nth 3 a 0; 0; 0; 0]) else None
      else if ipv6_addr_loopback a || ipv6_addr_any a then Some (ntohs p, AF_INET6, a) else None
  | SaOther _ => None
  end.

(** A mapped address is neither the loopback address nor the wildcard. *)
Lemma v4mapped_not_local a :
  ipv6_addr_v4mapped a = true → ipv6_addr_loopback a || ipv6_addr_any a = false.
Proof.
  unfold ipv6_addr_v4mapped, ipv6_addr_loopback, ipv6_addr_any. intros H. b2p.
  apply orb_false_intro; apply bool_decide_eq_false_2; by intros ->.
Qed.

Section decision_facts.
Context (policy : option vpnhide_policy_snapshot) (owned : option vpnhide_owned_ports_snapshot)
  (pending : pending_table) (now uid : Z).

Lemma direct_connect_local s urules sk addr :
  policy = Some s → vpnhide_find_port_target policy uid = Some urules →
  direct_connect_should_block policy owned pending now uid (Some (Some sk)) (Some addr) =
  '(port, family, address) ← local_destination addr;
  if refuses owned pending now uid s urules port (proto_of sk) family address
  then Some (port, proto_of sk) else None.
Proof.
  intros -> Hu. unfold direct_connect_should_block. rewrite Hu. cbn [mbind option_bind].
  destruct addr as [p a|p a|f]; cbn [local_destination]; [| |done].
  - by destruct (v4_local a).
  - destruct (ipv6_addr_v4mapped a); [by destruct (v4_local _)|by destruct (_ || _)].
Qed.

Lemma connect_decision_local w ur s urules sk addr :
  connect_decision owned pending now uid w ur s urules sk addr =
  match '(port, family, address) ← local_destination addr;
        if refuses owned pending now uid s urules port (proto_of sk) family address
        then Some (port, proto_of sk) else None with
  | Some (port, proto) => mk_connect_data true (w && ur) port proto
  | None => zero_connect_data
  end.
Proof.
  unfold connect_decision. destruct addr as [p a|p a|f]; cbn [local_destination]; [| |done].
  - destruct (v4_local a); cbn [mbind option_bind]; [|done]. by destruct (refuses _ _ _ _ _ _ _ _ _ _).
  - destruct (ipv6_addr_v4mapped a) eqn:Em.
    + rewrite (v4mapped_not_local a Em). destruct (v4_local _); cbn [mbind option_bind]; [|done].
      by destruct (refuses _ _ _ _ _ _ _ _ _ _).
    + destruct (_ || _); cbn [mbind option_bind]; [|done]. by destruct (refuses _ _ _ _ _ _ _ _ _ _).
Qed.
End decision_facts.

Section refusal.
Context (s : vpnhide_policy_snapshot) (Hwf : snapshot_wf s).
Context (owned : option vpnhide_owned_ports_snapshot) (pending : pending_table) (now uid : Z).

(** The decision of the first copy, as a specification. *)
Lemma direct_connect_spec sk addr port proto :
  direct_connect_should_block (Some s) owned pending now uid (Some (Some sk)) (Some addr) =
    Some (port, proto) ↔
  ∃ family address, local_destination addr = Some (port, family, address) ∧ proto = proto_of sk ∧
    policy_blocks s uid port proto ∧
    vpnhide_uid_owns_port owned pending now uid port proto family address = false.
Proof.
  destruct (vpnhide_find_port_target (Some s) uid) as [urules|] eqn:Ht.
  - rewrite (direct_connect_local _ _ _ _ _ s urules) by done.
    destruct (local_destination addr) as [[[p family] address]|]; cbn [mbind option_bind].
    2:{ split; [done|]. by intros (? & ? & ? & _). }
    unfold refuses. destruct (port_blocked_spec s uid p (proto_of sk) Hwf) as (b & Hb & Hiff).
    unfold port_blocked in Hb. rewrite Ht in Hb. rewrite Hb. cbn [default].
    destruct b, (vpnhide_uid_owns_port _ _ _ _ _ _ _ _) eqn:Eo; cbn [andb negb id from_option];
      (split; [intros; simplify_eq|intros (f & a & [= -> -> ->] & -> & Hp & Hn)]);
      try done; try congruence; try (by apply Hiff in Hp).
    exists family, address. split_and!; try done. by apply Hiff.
  - unfold direct_connect_should_block. cbn [mbind option_bind]. rewrite Ht. cbn [mbind option_bind].
    split; [done|]. intros (f & a & Hl & -> & Hb & _).
    destruct (port_blocked_spec s uid port (proto_of sk) Hwf) as (b & Hb' & Hiff).
    unfold port_blocked in Hb'. rewrite Ht in Hb'. injection Hb' as <-. by apply Hiff in Hb.
Qed.
End refusal.

(** ** Properties *)

(** C12: under a valid policy the connect probe refuses a connection (and its
    return handler makes the app see [ECONNREFUSED] and counts it) exactly when
    the destination is on the device itself, the policy blocks that port for
    the app and protocol, and the app does not own the port.  This is for
    application UIDs; a target that names root, the system server or another
    UID outside the application range is honoured as well, which [POLICY.md]
    rules out ([port_target_of_core_uid]). *)
Theorem connect_refused_iff s owned pending now uid sk addr retval st :
  snapshot_wf s → eligible uid →
  match security_socket_connect_entry (Some s) owned pending now uid (Some (Some sk)) (Some addr) with
  | Some data =>
      (∃ port family address, local_destination addr = Some (port, family, address) ∧
        policy_blocks s uid port (proto_of sk) ∧
        vpnhide_uid_owns_port owned pending now uid port (proto_of sk) family address = false ∧
        security_socket_connect_ret now uid data retval st =
          (NEG_ECONNREFUSED, record_port_intercept now uid port (proto_of sk) st))
  | None =>
      ∀ port family address, local_destination addr = Some (port, family, address) →
        policy_blocks s uid port (proto_of sk) →
        vpnhide_uid_owns_port owned pending now uid port (proto_of sk) family address = true
  end.
Proof.
  intros Hwf _. unfold security_socket_connect_entry.
  destruct (effective_mask_exists s Hwf uid) as [mask Hm].
  rewrite (is_hook_active_effective s Hwf _ uid mask Hm).
  rewrite (proj1 (effective_mask_port_hooks s Hwf uid mask Hm)). cbn [negb].
  destruct (direct_connect_should_block _ _ _ _ _ _ _) as [[port proto]|] eqn:E.
  - apply direct_connect_spec in E as (family & address & Hl & -> & Hb & Ho); [|done].
    exists port, family, address. by split_and!.
  - intros port family address Hl Hb.
    destruct (vpnhide_uid_owns_port _ _ _ _ _ _ _ _) eqn:Eo; [done|].
    rewrite (proj2 (direct_connect_spec s Hwf owned pending now uid sk addr port (proto_of sk))) in E;
      [done|]. by exists family, address.
Qed.

(** TCP to 127.0.0.1:8080 *)
Definition example_addr : sockaddr := SaInet 36895 127.

Lemma connect_refused_iff_witness :
  ∃ port family address, local_destination example_addr = Some (port, family, address) ∧
    policy_blocks example_snapshot 10123 port (proto_of example_sock) ∧
    vpnhide_uid_owns_port None empty_pending_table 1000 10123 port (proto_of example_sock) family address = false.
Proof.
  pose proof (connect_refused_iff example_snapshot None empty_pending_table 1000 10123 example_sock
    example_addr 0 (mk_stats [] 0 0, mk_port_stats None 0) example_snapshot_wf) as H.
  specialize (H ltac:(repeat split; discriminate)).
  destruct (security_socket_connect_entry _ _ _ _ _ _ _) as [data|] eqn:E.
  - destruct H as (port & family & address & H1 & H2 & H3 & _). exists port, family, address. auto.
  - vm_compute in E. discriminate E.
Defined.

(** The probe on the system call and the probe on the security hook, which
    have separate copies of the decision (also for IPv4-mapped IPv6
    addresses), refuse exactly the same connections and record the same port
    and protocol. *)
Theorem connect_probes_agree policy owned pending now uid regs sk addr :
  rg_sock regs = Some (Some sk) → rg_addr regs = Some addr →
  (λ d, (cd_port d, cd_protocol d)) <$>
    (socket_connect_entry policy owned pending now uid false regs ≫= λ d,
       if cd_should_block d then Some d else None) =
  (λ d, (cd_port d, cd_protocol d)) <$>
    security_socket_connect_entry policy owned pending now uid (Some (Some sk)) (Some addr).
Proof.
  intros Hsock Haddr. unfold socket_connect_entry, security_socket_connect_entry.
  destruct (negb _); [done|]. unfold resolve_sock_addr. rewrite Hsock, Haddr. cbn [andb].
  destruct policy as [s|]; [|done].
  destruct (vpnhide_find_port_target (Some s) uid) as [urules|] eqn:Ht; cycle 1.
  { unfold direct_connect_should_block. cbn [mbind option_bind]. by rewrite Ht. }
  rewrite (direct_connect_local _ _ _ _ _ s urules) by done. rewrite connect_decision_local.
  destruct (local_destination addr ≫= _) as [[port proto]|]; done.
Qed.

Lemma connect_probes_agree_witness :
  (λ d, (cd_port d, cd_protocol d)) <$>
    (socket_connect_entry (Some example_snapshot) None empty_pending_table 1000 10123 false
       (mk_regs false 0 (Some example_addr) (Some (Some example_sock))) ≫= λ d,
       if cd_should_block d then Some d else None) =
  (λ d, (cd_port d, cd_protocol d)) <$>
    security_socket_connect_entry (Some example_snapshot) None empty_pending_table 1000 10123
      (Some (Some example_sock)) (Some example_addr).
Proof.
  apply (connect_probes_agree (Some example_snapshot) None empty_pending_table 1000 10123
    (mk_regs false 0 (Some example_addr) (Some (Some example_sock))) example_sock example_addr);
    reflexivity.
Defined.

(** C33: an app can reach what it listens on: after the listen probe has recorded
    a successful listen of a targeted app, a connection of the same app to that
    address is not refused while the record lives, even if its policy blocks
    the port. *)
Theorem own_listener_reachable HZ policy pending now elapsed uid sk owner have_eventfd owned client addr :
  pending_wf pending → uid ≠ 0 → inet_listen_owner_entry (Some (Some sk)) uid = Some (sk, uid) →
  owned_port_from_sock uid (Some sk) = Some owner →
  is_Some (vpnhide_find_port_target policy uid) →
  0 <= elapsed < VPNHIDE_PENDING_PORT_TTL HZ → VPNHIDE_PENDING_PORT_TTL HZ < 2 ^ 63 →
  local_destination addr = Some (op_port owner, op_family owner, op_address owner) →
  proto_of client = op_protocol owner →
  direct_connect_should_block policy owned
    (inet_owner_ret HZ policy now have_eventfd (sk, uid) 0 pending).1
    (u64 (now + elapsed)) uid (Some (Some client)) (Some addr) = None.
Proof.
  intros Hwf Hu _ Ho [urules Ht] He Httl Hl Hp. destruct policy as [s|]; [|done].
  rewrite (direct_connect_local _ _ _ _ _ s urules) by done. rewrite Hl. cbn [mbind option_bind].
  unfold refuses, inet_owner_ret. cbn [Z.eqb]. rewrite Hp.
  rewrite (recorded_socket_owned HZ (Some s) pending now elapsed uid sk have_eventfd owner owned) by done.
  by rewrite andb_false_r.
Qed.

Lemma own_listener_reachable_witness :
  direct_connect_should_block (Some example_snapshot) None
    (inet_owner_ret 250 (Some example_snapshot) 1000 true (example_sock, 10123) 0 empty_pending_table).1
    (u64 (1000 + 10)) 10123 (Some (Some example_sock)) (Some example_addr) = None.
Proof.
  apply (own_listener_reachable 250 (Some example_snapshot) empty_pending_table 1000 10 10123 example_sock
    example_owner true None example_sock example_addr).
  - apply empty_pending_wf.
  - discriminate.
  - reflexivity.
  - vm_compute. reflexivity.
  - eexists. vm_compute. reflexivity.
  - vm_compute. split; [discriminate|reflexivity].
  - vm_compute. reflexivity.
  - vm_compute. reflexivity.
  - reflexivity.
Defined.
