(* ===== verification/Iface.v ===== *)
(** * Interface classification

    The VPN-name matcher shared by the kernel module, its tests and the daemon
    ([kmod/generated/iface_lists.h]) and the daemon's choice of cover
    interfaces ([daemon/interface.h]).  A name is the list of its characters
    before the terminating NUL. *)
From S2P Require Import Prelude Abi Userspace.
From Stdlib Require Import Strings.String Strings.Byte.

#[local] Open Scope Z_scope.

(** [tolower((unsigned char)c)]; bytes above 127 never equal a character of the
    patterns. *)
Definition tolower (c : byte) : byte :=
  let z := byte_to_Z c in if (65 <=? z) && (z <=? 90) then byte_of_Z (z + 32) else c.

Fixpoint vpnhide_iface_starts_with_ci (name prefix : bytes) : bool :=
  match prefix, name with
  | [], _ => true
  | _ :: _, [] => false
  | p :: prefix, c :: name =>
      if bool_decide (tolower c = p) then vpnhide_iface_starts_with_ci name prefix else false
  end.

Definition is_digit (c : byte) : bool := (48 <=? byte_to_Z c) && (byte_to_Z c <=? 57).

Definition vpnhide_iface_starts_with_then_digits_ci (name prefix : bytes) : bool :=
  if negb (vpnhide_iface_starts_with_ci name prefix) then false
  else match drop (List.length prefix) name with
       | [] => false
       | rest => forallb is_digit rest
       end.

Fixpoint vpnhide_iface_equals_ci (name other : bytes) : bool :=
  match other, name with
  | [], [] => true
  | [], _ :: _ => false
  | _ :: _, [] => false
  | p :: other, c :: name =>
      if bool_decide (tolower c = p) then vpnhide_iface_equals_ci name other else false
  end.

(** The inner loop: the needle matches here, a character differs, or the name
    ends first. *)
Inductive match_end := Matched | Differs | NameEnds.

Fixpoint match_here (name needle : bytes) : match_end :=
  match needle, name with
  | [], _ => Matched
  | _ :: _, [] => NameEnds
  | p :: needle, c :: name => if bool_decide (tolower c = p) then match_here name needle else Differs
  end.

Fixpoint contains_loop (name needle : bytes) : bool :=
  match name with
  | [] => false
  | _ :: rest =>
      match match_here name needle with
      | Matched => true
      | NameEnds => false
      | Differs => contains_loop rest needle
      end
  end.

Definition vpnhide_iface_contains_ci (name needle : bytes) : bool :=
  if bool_decide (needle = []) then true else contains_loop name needle.

Definition vpnhide_is_gre_or_gretap (name : bytes) : bool :=
  vpnhide_iface_equals_ci name (lit "gre0") || vpnhide_iface_equals_ci name (lit "gretap0").

(** The prefixes that mark a VPN by themselves. *)
Definition vpn_prefixes : list bytes :=
  lit <$> ["tap"; "ap"; "wg"; "tailscale"; "ts"; "he-ipv6"; "zt"; "ppp"; "ipsec"; "xfrm"; "utun"; "l2tp"]%string.

(** [None] is the NULL pointer. *)
Definition vpnhide_iface_is_vpn (name : option bytes) : bool :=
  match name with
  | None => false
  | Some name =>
      if bool_decide (name = []) then false
      else if vpnhide_is_gre_or_gretap name then false
      else if vpnhide_iface_starts_with_ci name (lit "tun") &&
              negb (vpnhide_iface_starts_with_ci name (lit "tunl")) then true
      else if existsb (vpnhide_iface_starts_with_ci name) vpn_prefixes then true
      else if vpnhide_iface_contains_ci name (lit "vpn") then true
      else vpnhide_iface_starts_with_then_digits_ci name (lit "if")
  end.

(** ** The daemon's classification *)

Definition ARPHRD_NONE : Z := 0xFFFE.
Definition ARPHRD_PPP : Z := 512.

Definition has_prefix (name : bytes) (prefix : bytes) : bool :=
  strncmp_eq (List.length prefix) name prefix.

Definition vpnhide_daemon_is_cover_candidate (ifname : option bytes) : bool :=
  match ifname with
  | None => false
  | Some n => negb (bool_decide (n = [])) && negb (has_prefix n (lit "dummy"))
  end.

Definition vpnhide_daemon_is_cellular_uplink (ifname : option bytes) : bool :=
  match ifname with
  | None => false
  | Some n => has_prefix n (lit "rmnet") || has_prefix n (lit "ccmni") || has_prefix n (lit "epdg") ||
              has_prefix n (lit "r_net") || has_prefix n (lit "pdp")
  end.

Definition vpnhide_daemon_is_vpn_interface (ifname : option bytes) (is_point_to_point : bool)
    (arphrd : Z) (name_matches_vpn : bool) : bool :=
  if name_matches_vpn then true
  else if negb (vpnhide_daemon_is_cellular_uplink ifname) &&
          ((arphrd =? ARPHRD_NONE) || (arphrd =? ARPHRD_PPP)) then true
  else is_point_to_point && negb (vpnhide_daemon_is_cellular_uplink ifname).

Definition lower (name : bytes) : bytes := tolower <$> name.

(** [strncasecmp(a, b, n) == 0] *)
Definition strncasecmp_eq (n : nat) (a b : bytes) : bool := strncmp_eq n (lower a) (lower b).

(** The static patterns or a configured prefix. *)
Definition daemon_is_vpn_ifname (name : bytes) (prefixes : option vpnhide_iface_ioctl_data) : bool :=
  if vpnhide_iface_is_vpn (Some name) then true
  else match prefixes with
       | None => false
       | Some d =>
           existsb (λ p, let len := List.length (cstr p) in
                         (0 <? len)%nat && strncasecmp_eq len name (cstr p))
             (take (Z.to_nat (if_count d)) (if_prefixes d))
       end.

(** ** Specification *)

Definition names_vpn (l : bytes) : Prop :=
  l ≠ [] ∧ l ≠ lit "gre0" ∧ l ≠ lit "gretap0" ∧
  ((lit "tun" `prefix_of` l ∧ ¬ lit "tunl" `prefix_of` l) ∨
   (∃ p, p ∈ vpn_prefixes ∧ p `prefix_of` l) ∨
   (∃ pre post, l = pre ++ lit "vpn" ++ post) ∨
   (∃ digits, l = lit "if" ++ digits ∧ digits ≠ [] ∧ Forall (λ c, is_digit c = true) digits)).

Lemma starts_with_ci_spec name prefix :
  vpnhide_iface_starts_with_ci name prefix = true ↔ prefix `prefix_of` lower name.
Proof.
  revert name; induction prefix as [|p prefix IH]; intros [|c name]; simpl.
  - split; [|done]. intros _. apply prefix_nil.
  - split; [|done]. intros _. apply prefix_nil.
  - split; [done|]. intros [k Hk]. done.
  - case_bool_decide as Hc; [rewrite IH; subst p; split|split; [done|]].
    + apply prefix_cons.
    + apply prefix_cons_inv_2.
    + intros H%prefix_cons_inv_1. done.
Qed.

Lemma equals_ci_spec name other : vpnhide_iface_equals_ci name other = true ↔ lower name = other.
Proof.
  revert name; induction other as [|p other IH]; intros [|c name]; simpl; try done.
  case_bool_decide as Hc; [rewrite IH; subst p; split; [by intros ->|by intros [= ->]]|].
  split; [done|]. by intros [= ? ?].
Qed.

Lemma match_here_spec name needle :
  match match_here name needle with
  | Matched => needle `prefix_of` lower name
  | Differs => ¬ needle `prefix_of` lower name
  | NameEnds => (List.length name < List.length needle)%nat
  end.
Proof.
  revert name; induction needle as [|p needle IH]; intros [|c name]; simpl; try apply prefix_nil; [lia|].
  case_bool_decide as Hc; [subst p|by intros H%prefix_cons_inv_1].
  specialize (IH name). destruct (match_here name needle); [by apply prefix_cons| |lia].
  by intros H%prefix_cons_inv_2.
Qed.

(** Giving up when the name ends is sound: no later start has room. *)
Lemma contains_ci_spec name needle :
  needle ≠ [] →
  vpnhide_iface_contains_ci name needle = true ↔ ∃ pre post, lower name = pre ++ needle ++ post.
Proof.
  intros Hne. unfold vpnhide_iface_contains_ci. rewrite bool_decide_eq_false_2 by done.
  induction name as [|c name IH]; cbn [contains_loop].
  { split; [done|]. intros (pre & post & H). simpl in H.
    symmetry in H. apply app_nil in H as [_ H]. by apply app_nil in H as [? _]. }
  pose proof (match_here_spec (c :: name) needle) as Hm.
  destruct (match_here (c :: name) needle).
  - split; [|done]. intros _. destruct Hm as [post Hm]. by exists [], post.
  - rewrite IH. split.
    + intros (pre & post & H). exists (tolower c :: pre), post. simpl. by rewrite <- H.
    + intros ([|x pre] & post & H); [by destruct Hm; exists post|]. injection H as _ H. by exists pre, post.
  - split; [done|]. intros (pre & post & H). apply (f_equal List.length) in H.
    unfold lower in H. rewrite length_fmap, !length_app in H. simpl in *. lia.
Qed.

Lemma tolower_digit c : is_digit (tolower c) = is_digit c.
Proof. destruct c; vm_compute; reflexivity. Qed.

Lemma digit_tolower c : is_digit c = true → tolower c = c.
Proof. destruct c; vm_compute; congruence. Qed.

Lemma tolower_idemp c : tolower (tolower c) = tolower c.
Proof. destruct c; vm_compute; reflexivity. Qed.

Lemma digits_ci_spec name :
  vpnhide_iface_starts_with_then_digits_ci name (lit "if") = true ↔
  ∃ digits, lower name = lit "if" ++ digits ∧ digits ≠ [] ∧ Forall (λ c, is_digit c = true) digits.
Proof.
  unfold vpnhide_iface_starts_with_then_digits_ci.
  destruct (vpnhide_iface_starts_with_ci name (lit "if")) eqn:E; cbn [negb].
  - apply starts_with_ci_spec in E as [k Hk]. change (List.length (lit "if")) with 2%nat.
    assert (k = lower (drop 2 name)) as ->.
    { unfold lower in *. rewrite fmap_drop, Hk. done. }
    destruct (drop 2 name) as [|c rest] eqn:Ed.
    + split; [done|]. intros (ds & H & Hne & _). rewrite Hk in H. by injection H as <-.
    + split.
      * intros H. exists (lower (c :: rest)). split; [done|]. split; [done|].
        apply Forall_fmap, Forall_forall. intros x Hx. unfold compose. rewrite tolower_digit.
        rewrite List.forallb_forall in H. by apply H, list_elem_of_In.
      * intros (ds & H & _ & Hall). rewrite Hk in H. apply app_inv_head in H. subst ds.
        apply List.forallb_forall. intros x Hx%list_elem_of_In.
        rewrite <- tolower_digit. rewrite Forall_forall in Hall. apply Hall. by apply list_elem_of_fmap_2.
  - split; [done|]. intros (ds & H & _). rewrite <- not_true_iff_false in E. destruct E.
    apply starts_with_ci_spec. by exists ds.
Qed.

Lemma iface_is_vpn_spec name : vpnhide_iface_is_vpn (Some name) = true ↔ names_vpn (lower name).
Proof.
  unfold vpnhide_iface_is_vpn, names_vpn, vpnhide_is_gre_or_gretap.
  case_bool_decide as Hn; [by subst; split; [|intros [? _]]|].
  assert (lower name ≠ []) as Hn' by (by destruct name).
  destruct (_ || _) eqn:Eg.
  { split; [done|]. intros (_ & H1 & H2 & _). apply orb_true_iff in Eg as [Eg|Eg];
      by apply equals_ci_spec in Eg. }
  apply orb_false_iff in Eg as [Eg1 Eg2]. rewrite <- not_true_iff_false in Eg1, Eg2.
  rewrite equals_ci_spec in Eg1, Eg2.
  pose proof (contains_ci_spec name (lit "vpn") ltac:(done)) as Hc. pose proof (digits_ci_spec name) as Hd.
  assert (existsb (vpnhide_iface_starts_with_ci name) vpn_prefixes = true ↔
          ∃ p, p ∈ vpn_prefixes ∧ p `prefix_of` lower name) as Hp.
  { rewrite List.existsb_exists. setoid_rewrite starts_with_ci_spec.
    by setoid_rewrite <- (list_elem_of_In vpn_prefixes). }
  pose proof (starts_with_ci_spec name (lit "tun")) as H1.
  pose proof (starts_with_ci_spec name (lit "tunl")) as H2.
  destruct (vpnhide_iface_starts_with_ci name (lit "tun")), (vpnhide_iface_starts_with_ci name (lit "tunl")),
    (existsb _ _), (vpnhide_iface_contains_ci _ _), (vpnhide_iface_starts_with_then_digits_ci _ _);
    cbn [andb negb]; intuition congruence.
Qed.

(** ** Properties *)

(** The matcher accepts a name exactly when its lower-case form is a VPN
    name by the declarative rules (a known prefix, [tun] but not [tunl], [vpn]
    anywhere, or [if] and digits, and neither [gre0] nor [gretap0]); in
    particular case does not matter and giving up the substring search at the
    end of the name loses nothing. *)
Theorem iface_is_vpn_exact name : vpnhide_iface_is_vpn (Some name) = true ↔ names_vpn (lower name).
Proof. apply iface_is_vpn_spec. Qed.
