(* ===== verification/SockOpt.v ===== *)
(** * Socket options

    The probes of [kmod/hooks_socket.c] on [setsockopt] and [getsockopt].  A
    [setsockopt] that would bind a socket to a VPN is answered by replacing the
    option value in the caller's memory for the duration of the call; a
    [getsockopt] that would reveal a VPN binding, its MTU or its segment size
    has its result rewritten.  Registers are a function of their number; what a
    probe finds behind a kernel pointer is an argument. *)
From Stdlib Require Import Strings.Byte Strings.String ZArith Lia.
From stdpp Require Import base gmap numbers list.
From S2P Require Import Prelude Abi Snapshot PolicyQuery UserMem OwnedPorts Stats Device Iface.

(** ** Constants of the socket API *)

Definition SOL_SOCKET : Z := 1.
Definition IPPROTO_IP : Z := 0.
Definition IPPROTO_TCP : Z := 6.
Definition IPPROTO_UDP : Z := 17.
Definition IPPROTO_IPV6 : Z := 41.
Definition SO_BINDTODEVICE : Z := 25.
Definition SO_MARK : Z := 36.
Definition SO_TIMESTAMPING : Z := 37.
Definition SO_BINDTOIFINDEX : Z := 62.
Definition IP_MTU_DISCOVER : Z := 10.
Definition IP_MTU : Z := 14.
Definition IPV6_MTU_DISCOVER : Z := 23.
Definition IPV6_MTU : Z := 24.
Definition TCP_MAXSEG : Z := 2.
Definition TCP_INFO : Z := 11.
Definition UDP_SEGMENT : Z := 103.
Definition IP_PMTUDISC_DONT : Z := 0.
Definition IP_PMTUDISC_DO : Z := 2.
Definition SOF_TIMESTAMPING_TX_HARDWARE : Z := 1.
Definition SOF_TIMESTAMPING_RX_HARDWARE : Z := 4.
Definition SOF_TIMESTAMPING_RAW_HARDWARE : Z := 64.
Definition AF_UNSPEC : Z := 0.
Definition IFNAMSIZ : Z := 16.
Definition sizeof_int : Z := 4.
Definition ENODEV_ : Z := 19.

(** [get_user] and [put_user] of an [int]. *)
Definition get_int (m : umem) (a : Z) : option Z := s32 <$> get_user 4 m a.
Definition put_int (m : umem) (a x : Z) : umem * bool := put_user 4 m a (u32 x).

(** The UID is a target of the kernel hooks. *)
Definition is_target (d : device) (uid : Z) : bool := is_target_uid_val (dv_policy d) uid.

(** ** setsockopt *)

(** The [union] with its two flags: which original value is kept. *)
Inductive saved_value :=
  | NothingSaved
  | orig_name (name : bytes)
  | orig_ifindex (ifindex : Z).

Record sock_setsockopt_data := mk_sdata {
  sd_override_ret : bool;
  sd_deny_errno : Z;
  sd_intercepted : bool;
  sd_optval_ptr : Z;
  sd_optlen : Z;
  sd_saved : saved_value
}.

Definition empty_sdata : sock_setsockopt_data := mk_sdata false 0 false 0 0 NothingSaved.

Record setsockopt_args := mk_setsockopt_args {
  sa_level : Z;
  sa_optname : Z;
  sa_optval : Z;
  sa_optlen : Z
}.

(** What the entry handler leaves: the instance's data ([None] when it returned
    1), user memory, the [optlen] register and the device. *)
Record setsockopt_entered := mk_entered {
  en_data : option sock_setsockopt_data;
  en_mem : umem;
  en_optlen : Z;
  en_device : device
}.

(** [nonexistent0] padded with [x] to 15 characters. *)
Definition fake_name : bytes := list_byte_of_string "nonexistent0xxx" ++ [x00].

Definition sizeof_spoof_ip : Z := 48.

Definition decode_spoof_ip (bs : bytes) : vpnhide_spoof_ip :=
  mk_spoof_ip (le_at 4 bs 0) (slice bs 4 16) (slice bs 20 16) (le_at 1 bs 36) (le_at 1 bs 37)
    (le_at 1 bs 38) (le_at 1 bs 39) (le_at 4 bs 40) (le_at 4 bs 44).

Section setsockopt.
Context (ipv6_is_linklocal : bytes → bool) (alloc : bool) (d : device) (uid : Z).

(** The private option through which the framework sets the cover address. *)
Definition setsockopt_cover (a : setsockopt_args) (m : umem) : setsockopt_entered :=
  let refused := mk_entered None m (sa_optlen a) d in
  if ((uid =? 1000) || (uid =? 0)) && (sa_optlen a =? sizeof_spoof_ip) then
    match copy_in m (sa_optval a) (Z.to_nat sizeof_spoof_ip) with
    | Some bs =>
        let r := ioctl_set_spoof_ip ipv6_is_linklocal alloc (Some (decode_spoof_ip bs)) d in
        match ie_error r with
        | None => mk_entered (Some (mk_sdata true 0 false 0 0 NothingSaved)) m (sa_optlen a) (ie_device r)
        | Some _ => refused
        end
    | None => refused
    end
  else refused.

(** [return 0] without an effect: the return handler runs and does nothing. *)
Definition pass (a : setsockopt_args) (m : umem) : setsockopt_entered :=
  mk_entered (Some empty_sdata) m (sa_optlen a) d.

(** The end of the handler: with nothing intercepted it returns 1. *)
Definition leave (a : setsockopt_args) (intercepted : bool) (m : umem) : setsockopt_entered :=
  mk_entered (if intercepted then Some (mk_sdata false 0 true 0 0 NothingSaved) else None) m
    (sa_optlen a) d.

Definition setsockopt_bindtodevice (a : setsockopt_args) (m : umem) : setsockopt_entered :=
  if sa_optlen a <=? 0 then pass a m
  else
    let optlen := if IFNAMSIZ <=? sa_optlen a then IFNAMSIZ - 1 else sa_optlen a in
    match copy_in m (sa_optval a) (Z.to_nat optlen) with
    | None => pass a m
    | Some bs =>
        let name := bs ++ replicate (Z.to_nat (IFNAMSIZ - optlen)) x00 in
        if is_active_vpn_ifname (dv_vpns d) name then
          let '(m', ok) := copy_out m (sa_optval a) (take (Z.to_nat optlen) fake_name) in
          if ok then
            mk_entered (Some (mk_sdata false 0 true (sa_optval a) optlen (orig_name name))) m'
              (sa_optlen a) d
          else
            mk_entered (Some (mk_sdata true ENODEV_ true (sa_optval a) optlen (orig_name name))) m' (-1) d
        else leave a false m
    end.

Definition setsockopt_bindtoifindex (a : setsockopt_args) (m : umem) : setsockopt_entered :=
  if negb (sa_optlen a =? sizeof_int) then pass a m
  else
    match get_int m (sa_optval a) with
    | None => pass a m
    | Some ifindex =>
        if ifindex <=? 0 then pass a m
        else if is_active_vpn_ifindex (dv_vpns d) (u32 ifindex) then
          let '(m', ok) := put_int m (sa_optval a) (-1) in
          mk_entered (Some (mk_sdata true ENODEV_ true (sa_optval a) (sa_optlen a) (orig_ifindex ifindex)))
            m' (if ok then sa_optlen a else -1) d
        else leave a false m
    end.

Definition setsockopt_mark (a : setsockopt_args) (m : umem) : setsockopt_entered :=
  if negb (sa_optlen a =? sizeof_int) then pass a m
  else
    match get_int m (sa_optval a) with
    | None => pass a m
    | Some mark =>
        if negb (mark =? 0) then let '(m', ok) := put_int m (sa_optval a) 0 in leave a ok m'
        else leave a false m
    end.

Definition hw_timestamping : Z :=
  Z.lor (Z.lor SOF_TIMESTAMPING_TX_HARDWARE SOF_TIMESTAMPING_RX_HARDWARE) SOF_TIMESTAMPING_RAW_HARDWARE.

Definition setsockopt_timestamping (a : setsockopt_args) (m : umem) : setsockopt_entered :=
  match (if sa_optlen a =? sizeof_int then get_int m (sa_optval a) else None) with
  | None => leave a false m
  | Some flags =>
      let stripped := Z.land flags (Z.lnot hw_timestamping) in
      if negb (stripped =? flags) then
        let '(m', ok) := put_int m (sa_optval a) stripped in leave a ok m'
      else leave a false m
  end.

(** [IP_MTU_DISCOVER] and [IPV6_MTU_DISCOVER], whose values agree. *)
Definition setsockopt_mtu_discover (a : setsockopt_args) (m : umem) : setsockopt_entered :=
  match (if sa_optlen a =? sizeof_int then get_int m (sa_optval a) else None) with
  | None => leave a false m
  | Some discover =>
      if negb (discover =? IP_PMTUDISC_DONT) then
        let '(m', ok) := put_int m (sa_optval a) IP_PMTUDISC_DONT in leave a ok m'
      else leave a false m
  end.

Definition setsockopt_udp_segment (a : setsockopt_args) (m : umem) : setsockopt_entered :=
  let '(m', ok) := put_int m (sa_optval a) 0 in leave a ok m'.

(** [None]: through the wrapper, [regs[0]] is not a kernel pointer. *)
Definition sys_setsockopt_entry (args : option setsockopt_args) (m : umem) : setsockopt_entered :=
  match args with
  | None => mk_entered None m 0 d
  | Some a =>
      if negb (is_hook_active (dv_policy d) HOOK_SETSOCKOPT uid) then mk_entered None m (sa_optlen a) d
      else if (sa_level a =? 0x5648) && (sa_optname a =? 0x88) then setsockopt_cover a m
      else if negb (is_target d uid) then mk_entered None m (sa_optlen a) d
      else if sa_level a =? SOL_SOCKET then
        if sa_optname a =? SO_BINDTODEVICE then setsockopt_bindtodevice a m
        else if sa_optname a =? SO_BINDTOIFINDEX then setsockopt_bindtoifindex a m
        else if sa_optname a =? SO_MARK then setsockopt_mark a m
        else if sa_optname a =? SO_TIMESTAMPING then setsockopt_timestamping a m
        else leave a false m
      else if sa_level a =? IPPROTO_IP then
        if sa_optname a =? IP_MTU_DISCOVER then setsockopt_mtu_discover a m else leave a false m
      else if sa_level a =? IPPROTO_IPV6 then
        if sa_optname a =? IPV6_MTU_DISCOVER then setsockopt_mtu_discover a m else leave a false m
      else if sa_level a =? IPPROTO_UDP then
        if (sa_optname a =? UDP_SEGMENT) && (sa_optlen a =? sizeof_int) then setsockopt_udp_segment a m
        else leave a false m
      else leave a false m
  end.
End setsockopt.

(** User memory, the return value and the statistics after the call. *)
Definition sys_setsockopt_ret (uid : Z) (data : sock_setsockopt_data) (m : umem) (retval : Z)
    (st : stats_state) : umem * Z * stats_state :=
  let st := if sd_intercepted data then record_kmod_intercept st uid 3 else st in
  let m :=
    if sd_optval_ptr data =? 0 then m
    else match sd_saved data with
         | orig_name name => (copy_out m (sd_optval_ptr data) (take (Z.to_nat (sd_optlen data)) name)).1
         | orig_ifindex i => (put_int m (sd_optval_ptr data) i).1
         | NothingSaved => m
         end in
  (m, if sd_override_ret data then (if sd_deny_errno data =? 0 then 0 else - sd_deny_errno data)
      else retval, st).

(** ** getsockopt *)

Record sock_getsockopt_data := mk_gdata {
  gd_level : Z;
  gd_optname : Z;
  gd_optval : Z;
  gd_optlen : Z;
  gd_family : Z
}.

(** The filter every entry handler starts with: [false] is [return 1]. *)
Definition getsockopt_filter (level optname : Z) : bool :=
  if negb (level =? SOL_SOCKET) && negb (level =? IPPROTO_IP) && negb (level =? IPPROTO_IPV6) &&
     negb (level =? IPPROTO_TCP) then false
  else if (level =? SOL_SOCKET) && negb (optname =? SO_BINDTODEVICE) && negb (optname =? SO_BINDTOIFINDEX)
  then false
  else if (level =? IPPROTO_IP) && negb (optname =? IP_MTU) && negb (optname =? IP_MTU_DISCOVER) then false
  else if (level =? IPPROTO_IPV6) && negb (optname =? IPV6_MTU) && negb (optname =? IPV6_MTU_DISCOVER)
  then false
  else if (level =? IPPROTO_TCP) && negb (optname =? TCP_MAXSEG) && negb (optname =? TCP_INFO) then false
  else true.

Definition getsockopt_applies (d : device) (uid level optname : Z) : bool :=
  is_hook_active (dv_policy d) HOOK_GETSOCKOPT uid && getsockopt_filter level optname && is_target d uid.

Abbreviation pt_regs := (nat → Z).

(** [sock_getsockopt(sock, level, optname, optval, optlen)]; [family_of] reads
    [sock->sk->sk_family] behind the pointer. *)
Definition sock_getsockopt_entry (d : device) (uid : Z) (family_of : Z → option Z) (regs : pt_regs)
    : option sock_getsockopt_data :=
  let level := s32 (regs 1%nat) in
  let optname := s32 (regs 2%nat) in
  if negb (getsockopt_applies d uid level optname) then None
  else Some (mk_gdata level optname (regs 3%nat) (regs 4%nat) (default AF_UNSPEC (family_of (regs 0%nat)))).

(** The system call: [fd] in register 0; [lookup_family] is the family of the
    socket of a descriptor.  [None]: the wrapper's register is no pointer. *)
Definition sys_getsockopt_entry (d : device) (uid : Z) (lookup_family : Z → option Z)
    (regs : option pt_regs) : option sock_getsockopt_data :=
  match regs with
  | None => None
  | Some regs =>
      let level := s32 (regs 1%nat) in
      let optname := s32 (regs 2%nat) in
      if negb (getsockopt_applies d uid level optname) then None
      else Some (mk_gdata level optname (regs 3%nat) (regs 4%nat)
                   (default (if level =? IPPROTO_IPV6 then AF_INET6 else AF_INET)
                      (lookup_family (s32 (regs 0%nat)))))
  end.

(** [sk_getsockopt(sk, level, optname, optval, is_kernel, optlen)]; the same
    handler is attached to [sock_common_getsockopt]. *)
Definition sk_getsockopt_entry (d : device) (uid : Z) (family_of_sk : Z → option Z) (regs : pt_regs)
    : option sock_getsockopt_data :=
  let is_kernel := Z.odd (regs 4%nat) in
  let level := s32 (regs 1%nat) in
  let optname := s32 (regs 2%nat) in
  if is_kernel || negb (getsockopt_applies d uid level optname) then None
  else Some (mk_gdata level optname (regs 3%nat) (regs 5%nat)
               (default AF_UNSPEC (family_of_sk (regs 0%nat)))).

Definition mtu_or_default (mtu : Z) : Z := if mtu =? 0 then 1500 else mtu.

(** [int cover_mss = mtu > header_len ? mtu - header_len : 1460], by family. *)
Definition cover_mss (sip : vpnhide_spoof_ip) (family : Z) : Z :=
  let mtu := if family =? AF_INET6 then mtu_or_default (sip_ipv6_mtu sip)
             else mtu_or_default (sip_ipv4_mtu sip) in
  let header_len := if family =? AF_INET6 then 60 else 40 in
  if header_len <? mtu then mtu - header_len else 1460.

(** [get_user(len, optlen) == 0 && len >= sizeof(int)]: an unsigned comparison. *)
Definition len_ok (m : umem) (optlen : Z) : bool :=
  match get_int m optlen with Some len => sizeof_int <=? u64 len | None => false end.

(** Replace a positive [int] result by the cover's. *)
Definition spoof_int (m : umem) (data : sock_getsockopt_data) (cover : Z) : umem :=
  if len_ok m (gd_optlen data) then
    match get_int m (gd_optval data) with
    | Some v => if (0 <? v) && negb (v =? cover) then (put_int m (gd_optval data) cover).1 else m
    | None => m
    end
  else m.

Definition spoof_discover (m : umem) (data : sock_getsockopt_data) : umem :=
  if len_ok m (gd_optlen data) then
    match get_int m (gd_optval data) with
    | Some v => if v =? IP_PMTUDISC_DONT then (put_int m (gd_optval data) IP_PMTUDISC_DO).1 else m
    | None => m
    end
  else m.

(** The first 24 bytes of [struct tcp_info]: [snd_mss] at 16, [rcv_mss] at 20. *)
Definition spoof_mss (v cover : Z) : Z := if (0 <? v) && negb (v =? cover) then cover else v.

Definition spoof_tcp_info (m : umem) (data : sock_getsockopt_data) (cover : Z) : umem :=
  match get_int m (gd_optlen data) with
  | None => m
  | Some len =>
      if len <? 24 then m
      else
        match copy_in m (gd_optval data) 24 with
        | None => m
        | Some ti =>
            let snd_mss := le_at 4 ti 16 in
            let rcv_mss := le_at 4 ti 20 in
            let snd' := spoof_mss snd_mss cover in
            let rcv' := spoof_mss rcv_mss cover in
            if negb (snd' =? snd_mss) || negb (rcv' =? rcv_mss) then
              (copy_out m (gd_optval data) (take 16 ti ++ le_split 4 snd' ++ le_split 4 rcv')).1
            else m
        end
  end.

Definition hide_bound_name (d : device) (m : umem) (data : sock_getsockopt_data) : umem :=
  match get_int m (gd_optlen data) with
  | None => m
  | Some len =>
      if len <=? 0 then m
      else
        let len := if IFNAMSIZ <=? len then IFNAMSIZ - 1 else len in
        match copy_in m (gd_optval data) (Z.to_nat len) with
        | None => m
        | Some bs =>
            if is_active_vpn_ifname (dv_vpns d) (bs ++ [x00]) then
              let '(m, ok) := copy_out m (gd_optval data) [x00] in
              if ok then (put_int m (gd_optlen data) 0).1 else m
            else m
        end
  end.

Definition hide_bound_ifindex (d : device) (m : umem) (data : sock_getsockopt_data) : umem :=
  match get_int m (gd_optval data) with
  | None => m
  | Some ifindex =>
      if ifindex <=? 0 then m
      else if is_active_vpn_ifindex (dv_vpns d) (u32 ifindex) then (put_int m (gd_optval data) 0).1 else m
  end.

(** The rewriting part of the return handler. *)
Definition getsockopt_rewrite (d : device) (data : sock_getsockopt_data) (m : umem) : umem :=
  let sip := get_spoof_ip (dv_spoof d) in
  if (gd_level data =? IPPROTO_IP) && (gd_optname data =? IP_MTU) then
    spoof_int m data (mtu_or_default (sip_ipv4_mtu sip))
  else if (gd_level data =? IPPROTO_IPV6) && (gd_optname data =? IPV6_MTU) then
    spoof_int m data (mtu_or_default (sip_ipv6_mtu sip))
  else if (gd_level data =? IPPROTO_IP) && (gd_optname data =? IP_MTU_DISCOVER) then
    spoof_discover m data
  else if (gd_level data =? IPPROTO_IPV6) && (gd_optname data =? IPV6_MTU_DISCOVER) then
    spoof_discover m data
  else if (gd_level data =? IPPROTO_TCP) && (gd_optname data =? TCP_MAXSEG) then
    spoof_int m data (cover_mss sip (gd_family data))
  else if (gd_level data =? IPPROTO_TCP) && (gd_optname data =? TCP_INFO) then
    spoof_tcp_info m data (cover_mss sip (gd_family data))
  else if negb (gd_level data =? SOL_SOCKET) then m
  else if gd_optname data =? SO_BINDTODEVICE then hide_bound_name d m data
  else if gd_optname data =? SO_BINDTOIFINDEX then hide_bound_ifindex d m data
  else m.

Definition sock_getsockopt_ret (d : device) (uid : Z) (data : sock_getsockopt_data) (ret : Z)
    (m : umem) (st : stats_state) : umem * stats_state :=
  if negb (ret =? 0) then (m, st)
  else (getsockopt_rewrite d data m, record_kmod_intercept st uid 3).

(** ** Memory lemmas *)

Lemma s32_u32 x : - 2 ^ 31 <= x < 2 ^ 31 → s32 (u32 x) = x.
Proof.
  intros. unfold s32, u32, wrap. rewrite Zplus_mod_idemp_l, Z.mod_small by lia. lia.
Qed.

Lemma u32_s32 x : fits 32 x → u32 (s32 x) = x.
Proof.
  intros Hx. unfold u32, wrap, s32.
  rewrite Zminus_mod_idemp_l. replace (x + 2 ^ 31 - 2 ^ 31) with x by lia. by apply Z.mod_small.
Qed.

Lemma get_int_range m a v : get_int m a = Some v → - 2 ^ 31 <= v < 2 ^ 31.
Proof. unfold get_int. destruct (get_user 4 m a); [|done]. intros [= <-]. apply s32_range. Qed.

Lemma get_int_mapped m a v : get_int m a = Some v → copy_in m a 4 = Some (le_split 4 (u32 v)).
Proof.
  unfold get_int, get_user. destruct (copy_in m a 4) as [bs|] eqn:E; [|done]. simpl. intros [= <-].
  pose proof (copy_in_length _ _ _ _ E) as Hl. rewrite u32_s32.
  - f_equal. rewrite <- (le_split_combine bs) at 1. by rewrite Hl.
  - pose proof (le_combine_range bs) as Hr. rewrite Hl in Hr. exact Hr.
Qed.

Lemma put_int_ok m a v x : get_int m a = Some v → (put_int m a x).2 = true.
Proof.
  intros H%get_int_mapped. unfold put_int, put_user. apply copy_out_ok.
  rewrite length_le_split, H. done.
Qed.

Lemma get_put_int m a v x :
  get_int m a = Some v → - 2 ^ 31 <= x < 2 ^ 31 → get_int (put_int m a x).1 a = Some x.
Proof.
  intros H Hx. unfold get_int, put_int. rewrite get_put_user.
  - simpl. by rewrite s32_u32.
  - unfold get_user. by rewrite (get_int_mapped _ _ _ H).
  - by apply wrap_fits.
Qed.

(** Overwriting an [int] and putting the old value back. *)
Lemma put_int_restore m a v x : get_int m a = Some v → (put_int (put_int m a x).1 a v).1 = m.
Proof.
  intros H. unfold put_int, put_user.
  rewrite (copy_out_restore m a (le_split 4 (u32 v)) (le_split 4 (u32 x))); [done| |].
  - rewrite length_le_split. by apply get_int_mapped.
  - by rewrite !length_le_split.
Qed.

Lemma put_int_same m a v : get_int m a = Some v → (put_int m a v).1 = m.
Proof.
  intros H. unfold put_int, put_user. rewrite copy_out_same; [done|].
  rewrite length_le_split. by apply get_int_mapped.
Qed.

(** ** getsockopt: rewriting is idempotent *)

Section idempotent.
Context (m : umem) (data : sock_getsockopt_data).

Lemma spoof_int_idemp cover :
  - 2 ^ 31 <= cover < 2 ^ 31 → spoof_int (spoof_int m data cover) data cover = spoof_int m data cover.
Proof.
  intros Hc. unfold spoof_int at 2 3. destruct (len_ok m (gd_optlen data)) eqn:El.
  2: { unfold spoof_int. by rewrite El. }
  destruct (get_int m (gd_optval data)) as [v|] eqn:Ev.
  2: { unfold spoof_int. by rewrite El, Ev. }
  destruct ((0 <? v) && negb (v =? cover)) eqn:E.
  - unfold spoof_int. rewrite (get_put_int _ _ v) by done. rewrite Z.eqb_refl, andb_false_r. by case_match.
  - unfold spoof_int. by rewrite El, Ev, E.
Qed.

Lemma spoof_discover_idemp : spoof_discover (spoof_discover m data) data = spoof_discover m data.
Proof.
  unfold spoof_discover at 2 3. destruct (len_ok m (gd_optlen data)) eqn:El.
  2: { unfold spoof_discover. by rewrite El. }
  destruct (get_int m (gd_optval data)) as [v|] eqn:Ev.
  2: { unfold spoof_discover. by rewrite El, Ev. }
  destruct (v =? IP_PMTUDISC_DONT) eqn:E.
  - unfold spoof_discover. rewrite (get_put_int _ _ v) by done. by case_match.
  - unfold spoof_discover. by rewrite El, Ev, E.
Qed.

Lemma spoof_mss_idemp v cover : spoof_mss (spoof_mss v cover) cover = spoof_mss v cover.
Proof.
  unfold spoof_mss at 2 3. destruct ((0 <? v) && negb (v =? cover)) eqn:E; unfold spoof_mss.
  - by rewrite Z.eqb_refl, andb_false_r.
  - by rewrite E.
Qed.

Lemma spoof_mss_fits v cover : fits 32 v → fits 32 cover → fits 32 (spoof_mss v cover).
Proof. intros. unfold spoof_mss. by case_match. Qed.

Lemma spoof_tcp_info_idemp cover :
  fits 32 cover → spoof_tcp_info (spoof_tcp_info m data cover) data cover = spoof_tcp_info m data cover.
Proof.
  intros Hc. unfold spoof_tcp_info at 2 3. destruct (get_int m (gd_optlen data)) as [len|] eqn:El.
  2: { unfold spoof_tcp_info. by rewrite El. }
  destruct (len <? 24) eqn:E24.
  { unfold spoof_tcp_info. by rewrite El, E24. }
  destruct (copy_in m (gd_optval data) 24) as [ti|] eqn:Et.
  2: { unfold spoof_tcp_info. by rewrite El, E24, Et. }
  cbv zeta. set (snd' := spoof_mss (le_at 4 ti 16) cover). set (rcv' := spoof_mss (le_at 4 ti 20) cover).
  destruct (negb (snd' =? _) || _) eqn:E.
  2: { unfold spoof_tcp_info. rewrite El, E24, Et. cbv zeta. fold snd' rcv'. by rewrite E. }
  set (ti' := take 16 ti ++ le_split 4 snd' ++ le_split 4 rcv').
  assert (Hlt : length ti = 24%nat) by eapply copy_in_length, Et.
  assert (Hl : length ti' = 24%nat) by (unfold ti'; len).
  assert (Hr : copy_in (copy_out m (gd_optval data) ti').1 (gd_optval data) 24 = Some ti').
  { rewrite <- Hl. apply copy_in_out. by rewrite Hl, Et. }
  assert (Hs : fits 32 snd') by (apply spoof_mss_fits; [apply (le_at_range 4)|done]).
  assert (Hv : fits 32 rcv') by (apply spoof_mss_fits; [apply (le_at_range 4)|done]).
  assert (H16 : length (take 16 ti) = 16%nat) by (rewrite length_take; lia).
  assert (Hsnd : le_at 4 ti' 16 = snd').
  { unfold ti'. replace 16%nat with (length (take 16 ti)) at 2. by apply le_at_app. }
  assert (Hrcv : le_at 4 ti' 20 = rcv').
  { unfold ti'. rewrite app_assoc.
    replace 20%nat with (length (take 16 ti ++ le_split 4 snd')) by (rewrite length_app, H16, length_le_split; lia).
    rewrite <- (app_nil_r (le_split 4 rcv')). by apply le_at_app. }
  unfold spoof_tcp_info at 1. case_match; [|done]. case_match; [done|]. rewrite Hr. cbv zeta.
  rewrite Hsnd, Hrcv. unfold snd', rcv'. rewrite !spoof_mss_idemp, !Z.eqb_refl. done.
Qed.

Lemma hide_bound_ifindex_idemp d :
  hide_bound_ifindex d (hide_bound_ifindex d m data) data = hide_bound_ifindex d m data.
Proof.
  unfold hide_bound_ifindex at 2 3. destruct (get_int m (gd_optval data)) as [v|] eqn:Ev.
  2: { unfold hide_bound_ifindex. by rewrite Ev. }
  destruct (v <=? 0) eqn:E0; [unfold hide_bound_ifindex; by rewrite Ev, E0|].
  destruct (is_active_vpn_ifindex _ _) eqn:E; [|unfold hide_bound_ifindex; by rewrite Ev, E0, E].
  unfold hide_bound_ifindex. by rewrite (get_put_int _ _ v) by done.
Qed.

Lemma hide_bound_name_idemp d :
  hide_bound_name d (hide_bound_name d m data) data = hide_bound_name d m data.
Proof.
  unfold hide_bound_name at 2 3. destruct (get_int m (gd_optlen data)) as [len|] eqn:El.
  2: { unfold hide_bound_name. by rewrite El. }
  destruct (len <=? 0) eqn:E0; [unfold hide_bound_name; by rewrite El, E0|]. cbv zeta.
  set (n := if IFNAMSIZ <=? len then IFNAMSIZ - 1 else len) in *.
  destruct (copy_in m (gd_optval data) (Z.to_nat n)) as [bs|] eqn:Eb.
  2: { unfold hide_bound_name. rewrite El, E0. cbv zeta. fold n. by rewrite Eb. }
  destruct (is_active_vpn_ifname _ _) eqn:E.
  2: { unfold hide_bound_name. rewrite El, E0. cbv zeta. fold n. by rewrite Eb, E. }
  destruct (copy_out m (gd_optval data) [x00]) as [m1 ok] eqn:Eo.
  assert (Hm1 : is_Some (get_int m1 (gd_optlen data))).
  { unfold get_int, get_user. rewrite !fmap_is_Some. replace m1 with (copy_out m (gd_optval data) [x00]).1 by by rewrite Eo.
    apply copy_in_mapped. intros x Hx. apply copy_out_dom.
    apply get_int_mapped in El. eapply copy_in_mapped_inv in El; eauto. }
  destruct Hm1 as [v Hv]. destruct ok.
  - unfold hide_bound_name. by rewrite (get_put_int _ _ v) by done.
  - exfalso. assert (Hok : (copy_out m (gd_optval data) [x00]).2 = true); [|by rewrite Eo in Hok].
    apply copy_out_ok. simpl. b2p. assert (0 < n) by (unfold n; case_match; unfold IFNAMSIZ in *; lia).
    destruct (Z.to_nat n) as [|k] eqn:Ek; [lia|]. simpl in Eb. destruct (m !! gd_optval data); [done|done].
Qed.
End idempotent.

(** ** setsockopt: what the call sees and what the caller keeps *)

(** A target process whose call reaches the option-specific part. *)
Definition intercepting (d : device) (uid : Z) : Prop :=
  is_hook_active (dv_policy d) HOOK_SETSOCKOPT uid = true ∧ is_target d uid = true.

Definition bind_args (optname optval optlen : Z) : setsockopt_args :=
  mk_setsockopt_args SOL_SOCKET optname optval optlen.

Lemma entry_bindtodevice ll alloc d uid optval optlen m :
  intercepting d uid →
  sys_setsockopt_entry ll alloc d uid (Some (bind_args SO_BINDTODEVICE optval optlen)) m =
  setsockopt_bindtodevice d (bind_args SO_BINDTODEVICE optval optlen) m.
Proof. intros [H1 H2]. unfold sys_setsockopt_entry. rewrite H1, H2. done. Qed.

Lemma entry_bindtoifindex ll alloc d uid optval m :
  intercepting d uid →
  sys_setsockopt_entry ll alloc d uid (Some (bind_args SO_BINDTOIFINDEX optval 4)) m =
  setsockopt_bindtoifindex d (bind_args SO_BINDTOIFINDEX optval 4) m.
Proof. intros [H1 H2]. unfold sys_setsockopt_entry. rewrite H1, H2. done. Qed.

Lemma fake_name_prefix n : (n <= 15)%nat → length (take n fake_name) = n.
Proof. intros. rewrite length_take. simpl. lia. Qed.

(** Restoring the name undoes the replacement. *)
Lemma restore_name m optval name fake :
  copy_in m optval (length fake) = Some (take (length fake) name) →
  (copy_out (copy_out m optval fake).1 optval (take (length fake) name)).1 = m.
Proof.
  intros H. pose proof (copy_in_length _ _ _ _ H) as Hl.
  rewrite (copy_out_restore m optval (take (length fake) name) fake); [done|by rewrite Hl|done].
Qed.

(** ** Properties *)

(** Rewriting a result a second time changes nothing. *)
Lemma getsockopt_rewrite_twice d data m :
  0 <= sip_ipv4_mtu (get_spoof_ip (dv_spoof d)) <= 65535 →
  0 <= sip_ipv6_mtu (get_spoof_ip (dv_spoof d)) <= 65535 →
  getsockopt_rewrite d data (getsockopt_rewrite d data m) = getsockopt_rewrite d data m.
Proof.
  intros H4 H6. set (sip := get_spoof_ip (dv_spoof d)) in *.
  assert (Hmtu : ∀ x, 0 <= x <= 65535 → 0 <= mtu_or_default x <= 65535).
  { intros x Hx. unfold mtu_or_default. case_match; lia. }
  pose proof (Hmtu _ H4) as H4'. pose proof (Hmtu _ H6) as H6'.
  assert (Hmss : 0 <= cover_mss sip (gd_family data) < 65536).
  { unfold cover_mss. repeat case_match; lia. }
  unfold getsockopt_rewrite; cbv zeta; fold sip.
  repeat (case_match; [auto using spoof_int_idemp, spoof_discover_idemp, spoof_tcp_info_idemp,
    hide_bound_name_idemp, hide_bound_ifindex_idemp with lia|]); try done.
  all: first [apply spoof_int_idemp; lia | apply spoof_tcp_info_idemp; unfold fits; lia | done].
Qed.

(** Stacked probes agree.  One [getsockopt] call can pass through several
    probed functions; rewriting the result a second time changes nothing, for
    every option and whatever the two user pointers are. *)
Theorem getsockopt_rewrite_idempotent d data m :
  0 <= sip_ipv4_mtu (get_spoof_ip (dv_spoof d)) <= 65535 →
  0 <= sip_ipv6_mtu (get_spoof_ip (dv_spoof d)) <= 65535 →
  getsockopt_rewrite d data (getsockopt_rewrite d data m) = getsockopt_rewrite d data m.
Proof. apply getsockopt_rewrite_twice. Qed.

Definition example_cover : vpnhide_spoof_ip :=
  mk_spoof_ip 0 (replicate 16 x00) (replicate 16 x00) 1 0 0 0 1400 0.

Definition sockopt_device : device :=
  set_vpns (set_spoof initial_device (Some example_cover))
    (Some (mk_vpn_ifindexes 1 [mk_active_vpn 30 (list_byte_of_string "tun0" ++ replicate 12 x00)])) None.

(** [n] bytes at address [a]. *)
Definition put_bytes (a : Z) (bs : bytes) (m : umem) : umem :=
  foldr (λ '(i, b) m, <[a + Z.of_nat i := b]> m) m (imap pair bs).

Lemma getsockopt_rewrite_idempotent_witness :
  let m := put_bytes 100 (le_split 4 1280) (put_bytes 200 (le_split 4 4) ∅) in
  let data := mk_gdata IPPROTO_IP IP_MTU 100 200 AF_INET in
  get_int (getsockopt_rewrite sockopt_device data m) 100 = Some 1400 ∧
  getsockopt_rewrite sockopt_device data (getsockopt_rewrite sockopt_device data m) =
  getsockopt_rewrite sockopt_device data m.
Proof.
  split; [vm_compute; reflexivity|].
  apply (getsockopt_rewrite_idempotent sockopt_device); simpl; lia.
Defined.

(** A name the program's list of VPN names has, or another of three characters or
    more that does not begin with the word non. *)
Definition usual_vpn_name (name : bytes) : Prop :=
  vpnhide_iface_is_vpn (Some (cstr name)) = true ∨
  (3 <= length (cstr name))%nat ∧ take 3 (cstr name) ≠ list_byte_of_string "non".

(** No part of the substituted name is in the program's list of VPN names. *)
Lemma fake_name_unlisted n : (n <= 15)%nat → vpnhide_iface_is_vpn (Some (take n fake_name)) = false.
Proof. intros Hn. do 16 (destruct n as [|n]; [vm_compute; reflexivity|]). lia. Qed.

Lemma cstr_fake_name n : (n <= 15)%nat → cstr (take n fake_name) = take n fake_name.
Proof. intros Hn. do 16 (destruct n as [|n]; [vm_compute; reflexivity|]). lia. Qed.

(** So it is not the name of such a VPN. *)
Lemma fake_name_no_vpn v n :
  (0 < n <= 15)%nat → Forall (λ e, usual_vpn_name (av_name e)) (vi_vpns v) →
  is_active_vpn_ifname (Some v) (take n fake_name) = false.
Proof.
  intros Hn Hu. apply not_true_iff_false. unfold is_active_vpn_ifname. rewrite cstr_fake_name by lia.
  case_bool_decide; [done|]. intros (e & He & Heq)%existsb_exists.
  apply list_elem_of_In, elem_of_take in He as (i & He & _). apply (Forall_lookup_1 _ _ _ _ Hu) in He.
  apply strncmp_eq_spec in Heq. rewrite cstr_fake_name, take_take, Nat.min_r in Heq by lia.
  assert (Hc : cstr (av_name e) = take n fake_name).
  { rewrite <- Heq. symmetry. apply take_ge. apply (f_equal length) in Heq.
    rewrite length_take, fake_name_prefix in Heq by lia. lia. }
  destruct He as [Hl|[Hl Hno]].
  - rewrite Hc, fake_name_unlisted in Hl by lia. done.
  - apply Hno. rewrite Hc, fake_name_prefix in * by lia. by rewrite take_take, Nat.min_l by lia.
Qed.

(** C34: binding to a VPN by name is concealed from both sides, when the names of
    the VPNs are those of the program's list or others that do not begin with non.
    The kernel finds in the option value a name that is neither an active VPN's
    nor of the list; when the call returns, the caller's memory is exactly what it
    was and its result is the kernel's. *)
Theorem bindtodevice_concealed ll alloc d uid optval optlen m name v :
  let n := Z.to_nat (Z.min optlen 15) in
  let e := sys_setsockopt_entry ll alloc d uid (Some (bind_args SO_BINDTODEVICE optval optlen)) m in
  intercepting d uid → 0 < optlen → optval ≠ 0 → copy_in m optval n = Some name →
  dv_vpns d = Some v → Forall (λ e, usual_vpn_name (av_name e)) (vi_vpns v) →
  is_active_vpn_ifname (dv_vpns d) (name ++ replicate (16 - n) x00) = true →
  ∃ data, en_data e = Some data ∧ en_optlen e = optlen ∧
    (∃ seen, copy_in (en_mem e) optval n = Some seen ∧ is_active_vpn_ifname (dv_vpns d) seen = false ∧
       vpnhide_iface_is_vpn (Some (cstr seen)) = false) ∧
    ∀ retval st, sys_setsockopt_ret uid data (en_mem e) retval st =
      (m, retval, record_kmod_intercept st uid 3).
Proof.
  intros n e Hint Hpos Hnz Hname Hv Hu Hvpn.
  assert (Hn : (0 < n <= 15)%nat) by (unfold n; lia).
  pose proof (copy_in_length _ _ _ _ Hname) as Hln.
  assert (Hl : length (take n fake_name) = n) by (apply fake_name_prefix; lia).
  assert (Hok : (copy_out m optval (take n fake_name)).2 = true).
  { apply copy_out_ok. rewrite Hl, Hname. done. }
  assert (He : e = mk_entered (Some (mk_sdata false 0 true optval (Z.min optlen 15)
                 (orig_name (name ++ replicate (16 - n) x00))))
                 (copy_out m optval (take n fake_name)).1 optlen d).
  { unfold e. rewrite entry_bindtodevice by done. unfold setsockopt_bindtodevice. simpl.
    rewrite (proj2 (Z.leb_gt optlen 0)) by lia. unfold IFNAMSIZ.
    assert (Hclip : (if 16 <=? optlen then 16 - 1 else optlen) = Z.min optlen 15).
    { destruct (Z.leb_spec 16 optlen); lia. }
    rewrite Hclip. fold n. rewrite Hname.
    replace (Z.to_nat (16 - Z.min optlen 15)) with (16 - n)%nat by (unfold n; lia).
    rewrite Hvpn. destruct (copy_out m optval (take n fake_name)) as [m' ok]. simpl in Hok. by subst ok. }
  eexists. rewrite He. simpl. split_and!; auto.
  - exists (take n fake_name). split_and!.
    + rewrite <- Hl at 2. apply copy_in_out. by rewrite Hl, Hname.
    + rewrite Hv. by apply fake_name_no_vpn.
    + rewrite cstr_fake_name by lia. apply fake_name_unlisted. lia.
  - intros retval st. unfold sys_setsockopt_ret. simpl. rewrite (proj2 (Z.eqb_neq optval 0) Hnz).
    fold n. f_equal. f_equal. rewrite <- Hl at 2. apply restore_name. rewrite Hl, Hname.
    f_equal. rewrite take_app_le by lia. by rewrite take_ge by lia.
Qed.

(** A policy under which UID 10123 is a target with every hook on. *)
Definition target_snapshot : vpnhide_policy_snapshot :=
  {| active_hooks_mask := UINT32_MAX; java_hooks_mask := 0; debug_enabled := 0; flags := 0;
     kmod_match_mode := 0; lsposed_match_mode := 0; port_match_mode := 0;
     iface_prefixes := iface_prefixes example_snapshot;
     kmod_uids := [10123]; lsposed_uids := []; port_targets := []; port_rules := [];
     app_hook_masks := [] |}.

Definition target_device : device := set_policy sockopt_device (Some target_snapshot).

Lemma bindtodevice_concealed_witness :
  let m := put_bytes 4096 (list_byte_of_string "tun0" ++ [x00]) ∅ in
  let e := sys_setsockopt_entry (λ _, false) true target_device 10123
             (Some (bind_args SO_BINDTODEVICE 4096 5)) m in
  ∃ data, en_data e = Some data ∧
    sys_setsockopt_ret 10123 data (en_mem e) (-19) (dv_stats target_device) =
    (m, -19, record_kmod_intercept (dv_stats target_device) 10123 3).
Proof.
  intros m e.
  destruct (bindtodevice_concealed (λ _, false) true target_device 10123 4096 5 m
    (list_byte_of_string "tun0" ++ [x00]) (mk_vpn_ifindexes 1 [mk_active_vpn 30 (list_byte_of_string "tun0" ++ replicate 12 x00)])) as (data & Hd & _ & _ & Hr).
  - split; vm_compute; reflexivity.
  - lia.
  - lia.
  - vm_compute; reflexivity.
  - reflexivity.
  - constructor; [left; vm_compute; reflexivity|constructor].
  - vm_compute; reflexivity.
  - exists data. split; [exact Hd|apply Hr].
Defined.

(** Binding to a VPN by index is refused as for an index that does not
    exist: the kernel reads -1, the caller gets [-ENODEV] and keeps its value. *)
Theorem bindtoifindex_concealed ll alloc d uid optval m ifindex :
  let e := sys_setsockopt_entry ll alloc d uid (Some (bind_args SO_BINDTOIFINDEX optval 4)) m in
  intercepting d uid → optval ≠ 0 → get_int m optval = Some ifindex → 0 < ifindex →
  is_active_vpn_ifindex (dv_vpns d) ifindex = true →
  ∃ data, en_data e = Some data ∧ get_int (en_mem e) optval = Some (-1) ∧
    ∀ retval st, sys_setsockopt_ret uid data (en_mem e) retval st =
      (m, - ENODEV_, record_kmod_intercept st uid 3).
Proof.
  intros e Hint Hnz Hi Hpos Hvpn. pose proof (get_int_range _ _ _ Hi) as Hr.
  assert (He : e = mk_entered (Some (mk_sdata true ENODEV_ true optval 4 (orig_ifindex ifindex)))
                 (put_int m optval (-1)).1 4 d).
  { unfold e. rewrite entry_bindtoifindex by done. unfold setsockopt_bindtoifindex. simpl. rewrite Hi.
    rewrite (proj2 (Z.leb_gt ifindex 0)) by lia. unfold u32. rewrite wrap_small by (unfold fits; lia).
    rewrite Hvpn. pose proof (put_int_ok m optval ifindex (-1) Hi) as Hok.
    destruct (put_int m optval (-1)) as [m' ok]. simpl in Hok. by subst ok. }
  eexists. rewrite He. simpl. split_and!; auto.
  - by rewrite (get_put_int _ _ ifindex) by (done || lia).
  - intros retval st. unfold sys_setsockopt_ret. simpl. rewrite (proj2 (Z.eqb_neq optval 0) Hnz).
    by rewrite put_int_restore.
Qed.

Lemma bindtoifindex_concealed_witness :
  let m := put_bytes 4096 (le_split 4 30) ∅ in
  let e := sys_setsockopt_entry (λ _, false) true target_device 10123
             (Some (bind_args SO_BINDTOIFINDEX 4096 4)) m in
  get_int (en_mem e) 4096 = Some (-1) ∧
  ∃ data, en_data e = Some data ∧
    (sys_setsockopt_ret 10123 data (en_mem e) (-22) (dv_stats target_device)).1 = (m, -19).
Proof.
  intros m e.
  destruct (bindtoifindex_concealed (λ _, false) true target_device 10123 4096 m 30)
    as (data & Hd & Hk & Hr).
  - split; vm_compute; reflexivity.
  - lia.
  - vm_compute; reflexivity.
  - lia.
  - vm_compute; reflexivity.
  - split; [exact Hk|]. exists data. split; [exact Hd|]. rewrite (Hr (-22)). reflexivity.
Defined.

(** A getsockopt does not tell a VPN binding.  The index it leaves in
    memory is not an active VPN's, and no name of a VPN can be read from the
    buffer with the length it leaves. *)
Theorem getsockopt_hides_binding d optval optlen family m :
  let by_index := getsockopt_rewrite d (mk_gdata SOL_SOCKET SO_BINDTOIFINDEX optval optlen family) m in
  let by_name := getsockopt_rewrite d (mk_gdata SOL_SOCKET SO_BINDTODEVICE optval optlen family) m in
  (∀ i, get_int by_index optval = Some i → 0 < i → is_active_vpn_ifindex (dv_vpns d) i = false) ∧
  (∀ len bs, get_int by_name optlen = Some len → 0 < len →
     copy_in by_name optval (Z.to_nat (Z.min len 15)) = Some bs →
     is_active_vpn_ifname (dv_vpns d) (bs ++ [x00]) = false).
Proof.
  intros by_index by_name. split.
  - intros i. unfold by_index, getsockopt_rewrite; simpl. unfold hide_bound_ifindex; simpl.
    destruct (get_int m optval) as [v|] eqn:Ev; [|congruence].
    pose proof (get_int_range _ _ _ Ev).
    destruct (Z.leb_spec v 0); [rewrite Ev; intros [= <-]; lia|].
    unfold u32. rewrite wrap_small by (unfold fits; lia).
    destruct (is_active_vpn_ifindex (dv_vpns d) v) eqn:E.
    + rewrite (get_put_int _ _ v) by (done || lia). intros [= <-]. lia.
    + rewrite Ev. intros [= <-]. done.
  - intros len bs. unfold by_name, getsockopt_rewrite; simpl. unfold hide_bound_name; simpl.
    destruct (get_int m optlen) as [v|] eqn:Ev; [|congruence].
    destruct (Z.leb_spec v 0); [rewrite Ev; intros [= <-]; lia|].
    assert (Hclip : (if IFNAMSIZ <=? v then IFNAMSIZ - 1 else v) = Z.min v 15).
    { unfold IFNAMSIZ. destruct (Z.leb_spec 16 v); lia. }
    rewrite Hclip. destruct (copy_in m optval (Z.to_nat (Z.min v 15))) as [name|] eqn:En.
    2: { rewrite Ev. intros [= <-]. congruence. }
    destruct (is_active_vpn_ifname _ _) eqn:E.
    + destruct (copy_out m optval [x00]) as [m1 ok] eqn:Eo.
      destruct (Z.to_nat (Z.min v 15)) as [|k] eqn:Ek; [lia|]. simpl in En, Eo.
      destruct (m !! optval) eqn:Eb; [|done]. simplify_eq.
      assert (Hm1 : is_Some (get_int (<[optval := x00]> m) optlen)).
      { unfold get_int, get_user. rewrite !fmap_is_Some. apply copy_in_mapped. intros x Hx.
        apply get_int_mapped in Ev. destruct (copy_in_mapped_inv _ _ _ _ x Ev Hx) as [y Hy].
        destruct (decide (x = optval)) as [->|]; [rewrite lookup_insert_eq|rewrite lookup_insert_ne]; done. }
      destruct Hm1 as [w Hw]. rewrite (get_put_int _ _ w) by (done || lia). intros [= <-]. lia.
    + rewrite Ev. intros [= <-] _. rewrite En. intros [= <-]. done.
Qed.

(** The two levels that have the option, with its name at that level. *)
Definition mtu_discover_option (level optname : Z) : Prop :=
  (level = IPPROTO_IP ∧ optname = IP_MTU_DISCOVER) ∨ (level = IPPROTO_IPV6 ∧ optname = IPV6_MTU_DISCOVER).

(** Path-MTU discovery does not read back.  Whatever value an application
    sets, the kernel is given [IP_PMTUDISC_DONT]; and when the kernel returns
    what it was given, the application is shown [IP_PMTUDISC_DO].  An
    application that sets any other value gets a value it never set. *)
Theorem mtu_discover_reads_back_do ll alloc d uid level optname optval m v :
  let e := sys_setsockopt_entry ll alloc d uid (Some (mk_setsockopt_args level optname optval 4)) m in
  intercepting d uid → mtu_discover_option level optname → get_int m optval = Some v →
  get_int (en_mem e) optval = Some IP_PMTUDISC_DONT ∧
  ∀ m2 optval2 optlen2 family,
    get_int m2 optval2 = get_int (en_mem e) optval → len_ok m2 optlen2 = true →
    get_int (getsockopt_rewrite d (mk_gdata level optname optval2 optlen2 family) m2) optval2 =
    Some IP_PMTUDISC_DO.
Proof.
  intros e [Hh Ht] Hopt Hv.
  assert (He : e = setsockopt_mtu_discover d (mk_setsockopt_args level optname optval 4) m).
  { unfold e, sys_setsockopt_entry. rewrite Hh, Ht. destruct Hopt as [[-> ->]|[-> ->]]; done. }
  assert (Hk : get_int (en_mem e) optval = Some IP_PMTUDISC_DONT).
  { rewrite He. unfold setsockopt_mtu_discover. simpl. rewrite Hv.
    destruct (Z.eqb_spec v IP_PMTUDISC_DONT) as [->|]; [exact Hv|]. simpl.
    destruct (put_int m optval IP_PMTUDISC_DONT) as [m' ok] eqn:Ep. simpl.
    replace m' with (put_int m optval IP_PMTUDISC_DONT).1 by by rewrite Ep.
    apply (get_put_int _ _ v); [done|unfold IP_PMTUDISC_DONT; lia]. }
  split; [exact Hk|]. intros m2 optval2 optlen2 family H2 Hlen. rewrite Hk in H2.
  assert (Hg : getsockopt_rewrite d (mk_gdata level optname optval2 optlen2 family) m2 =
    spoof_discover m2 (mk_gdata level optname optval2 optlen2 family)).
  { destruct Hopt as [[-> ->]|[-> ->]]; done. }
  rewrite Hg. unfold spoof_discover. simpl. rewrite Hlen, H2, Z.eqb_refl.
  apply (get_put_int _ _ IP_PMTUDISC_DONT); [done|unfold IP_PMTUDISC_DO; lia].
Qed.

(** The value 1 ([IP_PMTUDISC_WANT]) is set and 2 is read. *)
Lemma mtu_discover_reads_back_do_witness :
  let m := put_bytes 4096 (le_split 4 1) ∅ in
  let m2 := put_bytes 4096 (le_split 4 0) (put_bytes 8192 (le_split 4 4) ∅) in
  get_int m 4096 = Some 1 ∧
  get_int (getsockopt_rewrite target_device (mk_gdata IPPROTO_IP IP_MTU_DISCOVER 4096 8192 AF_INET) m2)
    4096 = Some 2.
Proof.
  intros m m2. split; [vm_compute; reflexivity|].
  refine (proj2 (mtu_discover_reads_back_do (λ _, false) true target_device 10123 IPPROTO_IP
    IP_MTU_DISCOVER 4096 m 1 _ _ _) m2 4096 8192 AF_INET _ _).
  - split; vm_compute; reflexivity.
  - left. done.
  - vm_compute; reflexivity.
  - vm_compute; reflexivity.
  - vm_compute; reflexivity.
Defined.

(** Options that are rewritten leave a trace.  For [SO_MARK] the value is
    overwritten with 0 in the caller's own memory and, unlike a device name or
    index, never put back: after the call the caller reads 0. *)
Theorem so_mark_rewrite_visible ll alloc d uid optval m mark :
  let e := sys_setsockopt_entry ll alloc d uid (Some (bind_args SO_MARK optval 4)) m in
  intercepting d uid → get_int m optval = Some mark → mark ≠ 0 →
  ∃ data, en_data e = Some data ∧
    ∀ retval st, get_int (sys_setsockopt_ret uid data (en_mem e) retval st).1.1 optval = Some 0.
Proof.
  intros e [Hh Ht] Hm Hnz.
  assert (He : e = setsockopt_mark d (bind_args SO_MARK optval 4) m).
  { unfold e, sys_setsockopt_entry. rewrite Hh, Ht. done. }
  unfold setsockopt_mark in He. simpl in He. rewrite Hm, (proj2 (Z.eqb_neq mark 0) Hnz) in He. simpl in He.
  pose proof (put_int_ok m optval mark 0 Hm) as Hok.
  pose proof (get_put_int m optval mark 0 Hm ltac:(lia)) as Hg.
  destruct (put_int m optval 0) as [m' ok]. simpl in *. subst ok. rewrite He. simpl. eexists. split; [done|].
  intros retval st. exact Hg.
Qed.

Lemma so_mark_rewrite_visible_witness :
  let m := put_bytes 4096 (le_split 4 0x2a) ∅ in
  let e := sys_setsockopt_entry (λ _, false) true target_device 10123
             (Some (bind_args SO_MARK 4096 4)) m in
  ∃ data, en_data e = Some data ∧
    get_int (sys_setsockopt_ret 10123 data (en_mem e) (-1) (dv_stats target_device)).1.1 4096 = Some 0.
Proof.
  intros m e. destruct (so_mark_rewrite_visible (λ _, false) true target_device 10123 4096 m 42)
    as (data & Hd & Hr); [split; vm_compute; reflexivity | vm_compute; reflexivity | lia |].
  exists data. split; [exact Hd | apply Hr].
Defined.

(** The registers of [sock_common_getsockopt(sock, level, optname, optval,
    optlen)]: five arguments; the sixth register holds [left_over]. *)
Definition sock_common_regs (sock level optname optval optlen left_over : Z) : pt_regs :=
  λ n, nth n [sock; level; optname; optval; optlen; left_over] 0.

(** The handler shared with [sock_common_getsockopt] takes the length
    pointer from a register that call does not pass: the data it records
    depends on what the register happens to hold and not on [optlen]. *)
Theorem sock_common_optlen_unrelated d uid family_of sock level optname optval optlen left_over data :
  sk_getsockopt_entry d uid family_of (sock_common_regs sock level optname optval optlen left_over)
    = Some data →
  gd_optlen data = left_over ∧
  ∀ optlen', Z.odd optlen' = false →
    sk_getsockopt_entry d uid family_of (sock_common_regs sock level optname optval optlen' left_over)
      = Some data.
Proof.
  unfold sk_getsockopt_entry, sock_common_regs; simpl. intros H.
  destruct (Z.odd optlen); [done|]. simpl in H.
  destruct (negb _) eqn:E; [done|]. injection H as <-. split; [done|]. intros o ->. done.
Qed.

Lemma sock_common_optlen_unrelated_witness :
  ∃ data, sk_getsockopt_entry
            (set_policy sockopt_device (Some target_snapshot)) 10123 (λ _, None)
            (sock_common_regs 1 IPPROTO_TCP TCP_MAXSEG 4096 8192 0xdead0) = Some data ∧
    gd_optlen data = 0xdead0.
Proof.
  eexists. split; [vm_compute; reflexivity|].
  exact (proj1 (sock_common_optlen_unrelated target_device 10123 (λ _, None) 1 IPPROTO_TCP TCP_MAXSEG
    4096 8192 0xdead0 _ ltac:(vm_compute; reflexivity))).
Defined.
