(* ===== verification/Names.v ===== *)
(** * Socket names and link-local destinations

    The probes of [kmod/hooks_socket.c] that replace the local address a target
    reads with [getsockname] (at the system call or, where that probe is not
    available, in [inet_getname] and [inet6_getname]), and those that refuse
    link-local binds and sends scoped to a VPN interface. *)
From Stdlib Require Import Strings.Byte ZArith Lia.
From stdpp Require Import base gmap numbers list.
From S2P Require Import Prelude Abi Snapshot PolicyQuery UserMem OwnedPorts Stats UdpRate Device SocketHooks SockOpt.

(** ** Addresses *)

(** [sockaddr_in]: family at 0, address at 4, 16 bytes; [sockaddr_in6]: family
    at 0, address at 8, scope at 24, 28 bytes. *)
Definition sizeof_sockaddr_in : Z := 16.
Definition sizeof_sockaddr_in6 : Z := 28.
Definition sa_family (sa : bytes) : Z := le_at 2 sa 0.
Definition sin_addr (sa : bytes) : bytes := slice sa 4 4.
Definition sin6_addr (sa : bytes) : bytes := slice sa 8 16.
Definition sin6_scope_id (sa : bytes) : Z := le_at 4 sa 24.

(** [htonl(0xC0000004)]: 192.0.0.4 *)
Definition fallback_ipv4 : bytes := [xc0; x00; x00; x04].

(** 2001:db8::10 *)
Definition fallback_ipv6 : bytes := [x20; x01; x0d; xb8] ++ replicate 11 x00 ++ [x10].

(** [addr == 0 || (ntohl(addr) & 0xFF000000) == 0x7F000000] *)
Definition ipv4_kept (addr : bytes) : bool :=
  (le_combine addr =? 0) || ipv4_is_loopback (le_combine addr).

Definition in6_loopback : bytes := replicate 15 x00 ++ [x01].

(** [ipv6_addr_any(&addr) || ipv6_addr_loopback(&addr)] *)
Definition ipv6_kept (addr : bytes) : bool :=
  bool_decide (addr = replicate 16 x00) || bool_decide (addr = in6_loopback).

Definition target_ipv4 (sip : vpnhide_spoof_ip) : bytes :=
  if nonzero (sip_has_ipv4 sip) then le_split 4 (sip_ipv4_addr sip) else fallback_ipv4.

Definition target_ipv6 (sip : vpnhide_spoof_ip) : bytes :=
  if nonzero (sip_has_ipv6 sip) then sip_ipv6_addr sip else fallback_ipv6.

(** ** getsockname at the system call *)

Record sys_getsockname_data := mk_getsockname { gn_uaddr : Z; gn_ulen : Z }.

(** [None] for [regs]: the wrapper's register is not a kernel pointer;
    otherwise the two user pointers of the call. *)
Definition sys_getsockname_entry (d : device) (uid : Z) (regs : option (Z * Z)) (m : umem)
    : option sys_getsockname_data :=
  if negb (is_hook_active (dv_policy d) HOOK_GETNAME_INET uid) &&
     negb (is_hook_active (dv_policy d) HOOK_GETNAME_INET6 uid) then None
  else if negb (is_target d uid) then None
  else match regs with
       | None => None
       | Some (uaddr, ulen) => Some (mk_getsockname uaddr (default 0 (get_int m ulen)))
       end.

Definition spoof_getsockname_ipv4 (uid uaddr : Z) (sip : vpnhide_spoof_ip) (m : umem) (st : stats_state)
    : umem * stats_state :=
  match copy_in m (uaddr + 4) 4 with
  | None => (m, st)
  | Some addr =>
      if ipv4_kept addr then (m, st)
      else let '(m', ok) := copy_out m (uaddr + 4) (target_ipv4 sip) in
           (m', if ok then record_kmod_intercept st uid 5 else st)
  end.

Definition spoof_getsockname_ipv6 (uid uaddr : Z) (sip : vpnhide_spoof_ip) (m : umem) (st : stats_state)
    : umem * stats_state :=
  match copy_in m (uaddr + 8) 16 with
  | None => (m, st)
  | Some addr6 =>
      if ipv6_kept addr6 then (m, st)
      else let '(m', ok) := copy_out m (uaddr + 8) (target_ipv6 sip) in
           (m', if ok then record_kmod_intercept st uid 5 else st)
  end.

Definition sys_getsockname_ret (d : device) (uid : Z) (data : sys_getsockname_data) (retval : Z)
    (m : umem) (st : stats_state) : umem * stats_state :=
  if negb (retval =? 0) || (gn_uaddr data =? 0) then (m, st)
  else
    match get_user 2 m (gn_uaddr data) with
    | None => (m, st)
    | Some family =>
        let sip := get_spoof_ip (dv_spoof d) in
        if family =? AF_INET then
          if sizeof_sockaddr_in <=? gn_ulen data then spoof_getsockname_ipv4 uid (gn_uaddr data) sip m st
          else (m, st)
        else if family =? AF_INET6 then
          if sizeof_sockaddr_in6 <=? gn_ulen data then spoof_getsockname_ipv6 uid (gn_uaddr data) sip m st
          else (m, st)
        else (m, st)
    end.

(** ** getname inside the kernel *)

(** The address buffer is the kernel's; [None] when [data->uaddr] is NULL. *)
Definition getname_entry (hook : vpnhide_hook_idx) (d : device) (uid peer : Z) : bool :=
  is_hook_active (dv_policy d) hook uid && (peer =? 0) && is_target d uid.

Definition inet_getname_entry := getname_entry HOOK_GETNAME_INET.
Definition inet6_getname_entry := getname_entry HOOK_GETNAME_INET6.

Definition inet_getname_ret (d : device) (uid retval : Z) (sa : bytes) (st : stats_state)
    : bytes * stats_state :=
  if (0 <=? retval) && (sa_family sa =? AF_INET) && negb (ipv4_kept (sin_addr sa)) then
    (take 4 sa ++ target_ipv4 (get_spoof_ip (dv_spoof d)) ++ drop 8 sa, record_kmod_intercept st uid 4)
  else (sa, st).

Definition inet6_getname_ret (d : device) (uid retval : Z) (sa : bytes) (st : stats_state)
    : bytes * stats_state :=
  if (0 <=? retval) && (sa_family sa =? AF_INET6) && negb (ipv6_kept (sin6_addr sa)) then
    (take 8 sa ++ target_ipv6 (get_spoof_ip (dv_spoof d)) ++ drop 24 sa, record_kmod_intercept st uid 5)
  else (sa, st).

(** ** Link-local destinations scoped to a VPN *)

(** The first two bytes are in fe80::/10. *)
Definition is_fe80 (addr : bytes) : bool :=
  match addr with
  | a :: b :: _ => (byte_to_Z a =? 0xfe) && (Z.land (byte_to_Z b) 0xc0 =? 0x80)
  | _ => false
  end.

(** A complete [sockaddr_in6] in fe80::/10 whose scope is a VPN interface. *)
Definition vpn_linklocal (d : device) (sa : bytes) : bool :=
  (sa_family sa =? AF_INET6) && is_fe80 (sin6_addr sa) && negb (sin6_scope_id sa =? 0) &&
  is_active_vpn_ifindex (dv_vpns d) (sin6_scope_id sa).

Record inet6_bind_ll_data := mk_bind_ll {
  bl_should_deny : bool;
  bl_sock : option sock;
  bl_uid : Z
}.

(** The datagram socket is kept for its owner; the UID is set with it. *)
Definition inet6_bind_ll_entry (d : device) (uid : Z) (so : option (option sock)) (sin6 : option bytes)
    : option inet6_bind_ll_data :=
  let kept := sk ← so; sk ← sk;
    if (sk_family sk =? AF_INET6) && (sk_type sk =? SOCK_DGRAM) then Some sk else None in
  let data_uid := if kept is Some _ then uid else 0 in
  let passed := if kept is Some _ then Some (mk_bind_ll false kept data_uid) else None in
  if negb (is_hook_active (dv_policy d) HOOK_INET6_BIND_LL data_uid) || negb (is_target d uid) then passed
  else
    match sin6 with
    | None => passed
    | Some sa => if vpn_linklocal d sa then Some (mk_bind_ll true kept data_uid) else passed
    end.

Definition NEG_ENODEV : Z := -19.
Definition NEG_ENOBUFS : Z := -105.

(** The return value, the statistics and the pending table. *)
Definition inet6_bind_ll_ret (HZ : Z) (d : device) (now : Z) (have_eventfd bind_uses_wrapper : bool)
    (uid : Z) (data : inet6_bind_ll_data) (retval : Z) (st : stats_state) (pending : pending_table)
    : Z * stats_state * pending_table :=
  if negb (bl_should_deny data) then
    (retval, st,
     if negb bind_uses_wrapper && (retval =? 0) then
       match bl_sock data with
       | Some sk => (vpnhide_record_bound_socket HZ (dv_policy d) pending now (bl_uid data) (Some sk)
                       have_eventfd).1
       | None => pending
       end
     else pending)
  else (NEG_ENODEV, record_kmod_intercept st uid 4, pending).

(** *** UDP sends *)

Record udpv6_sendmsg_ll_data := mk_send_ll {
  sl_should_deny : bool;
  sl_orig_sndbuf : Z;
  sl_rl_spoofed : bool
}.

(** [msg->msg_name] with its length: the bytes are [None] when the copy faults. *)
Abbreviation message_name := (option (option bytes * Z)).

(** The destination of the message when it is a complete [sockaddr_in6]. *)
Definition msg_sin6 (msg_name : message_name) : option bytes :=
  match msg_name with
  | Some (Some sa, namelen) =>
      if (sizeof_sockaddr_in6 <=? namelen) && (sa_family sa =? AF_INET6) then Some sa else None
  | _ => None
  end.

(** [vpnhide_udp_dst_is_vpn_bound(sk, msg)] looks at the same message. *)
Definition send_to (s : udp_send) (msg_name : message_name) : udp_send :=
  mk_udp_send (us_family s) (us_v6_daddr s) (us_daddr s) (us_dst s) (us_sndbuf s) (us_msg_flags s)
    (if msg_name is Some _ then true else false).

(** The instance data with the new [sk_sndbuf]; [s] is [None] when the socket
    or the message is NULL. *)
Definition udpv6_sendmsg_ll_entry (d : device) (alloc : bool) (now uid : Z)
    (s : option (udp_send * message_name)) (rates : udp_rates)
    : option (udpv6_sendmsg_ll_data * Z) * udp_rates :=
  if negb (is_hook_active (dv_policy d) HOOK_UDPV6_SENDMSG uid) then (None, rates)
  else if negb (is_target d uid) then (None, rates)
  else
    match s with
    | None => (None, rates)
    | Some (s, msg_name) =>
        let denied := match msg_sin6 msg_name with Some sa => vpn_linklocal d sa | None => false end in
        if denied then (Some (mk_send_ll true (us_sndbuf s) false, us_sndbuf s), rates)
        else
          let passed := Some (mk_send_ll false (us_sndbuf s) false, us_sndbuf s) in
          if nonzero (Z.land (us_msg_flags s) MSG_DONTWAIT) &&
             vpnhide_udp_dst_is_vpn_bound (is_active_vpn_ifindex (dv_vpns d)) (send_to s msg_name) then
            let '(exceeded, rates') := udp_rate_limit_exceeded alloc now uid rates in
            (if exceeded : bool then Some (mk_send_ll false (us_sndbuf s) true, 0) else passed, rates')
          else (passed, rates)
    end.

(** The return value, [sk_sndbuf] and the statistics after the call. *)
Definition udpv6_sendmsg_ll_ret (uid : Z) (data : udpv6_sendmsg_ll_data) (retval sndbuf : Z)
    (st : stats_state) : Z * Z * stats_state :=
  let sndbuf := if sl_rl_spoofed data then sl_orig_sndbuf data else sndbuf in
  if negb (sl_should_deny data) then (retval, sndbuf, st)
  else (NEG_ENOBUFS, sndbuf, record_kmod_intercept st uid 4).

(** ** Overlaying a part of a buffer *)

Lemma copy_out_lookup m a bs i :
  is_Some (copy_in m a (length bs)) → (i < length bs)%nat →
  (copy_out m a bs).1 !! (a + Z.of_nat i) = bs !! i.
Proof. intros Hm Hi. apply (copy_in_lookup _ _ (length bs)); [by apply copy_in_out|done]. Qed.

(** Writing [ts] at offset [k] of a buffer that was just written. *)
Lemma copy_out_overlay m a bs k ts :
  is_Some (copy_in m a (length bs)) → (k + length ts <= length bs)%nat →
  (copy_out (copy_out m a bs).1 (a + Z.of_nat k) ts).1 =
  (copy_out m a (take k bs ++ ts ++ drop (k + length ts) bs)).1.
Proof.
  intros Hm Hk. set (bs' := take k bs ++ ts ++ drop (k + length ts) bs).
  assert (Hl : length bs' = length bs) by (unfold bs'; len).
  assert (Hsub : is_Some (copy_in (copy_out m a bs).1 (a + Z.of_nat k) (length ts))).
  { apply copy_in_mapped. intros x Hx. apply copy_out_dom. destruct Hm as [c Hc].
    eapply copy_in_mapped_inv; [exact Hc|]. lia. }
  apply map_eq. intros x.
  destruct (decide (a <= x < a + Z.of_nat (length bs))) as [Hin|Hout].
  2: { rewrite !copy_out_lookup_ne by lia. done. }
  replace x with (a + Z.of_nat (Z.to_nat (x - a))) by lia. set (i := Z.to_nat (x - a)).
  rewrite (copy_out_lookup m a bs') by (rewrite ?Hl; auto; unfold i; lia).
  destruct (decide (k <= i < k + length ts)%nat) as [Hi|Hi].
  - replace (a + Z.of_nat i) with (a + Z.of_nat k + Z.of_nat (i - k)) by lia.
    rewrite copy_out_lookup by (auto; lia). unfold bs'.
    rewrite lookup_app_r by (rewrite length_take; lia).
    rewrite length_take, Nat.min_l by lia. rewrite lookup_app_l by lia. done.
  - rewrite copy_out_lookup_ne by lia. rewrite copy_out_lookup by (auto; unfold i; lia). unfold bs'.
    destruct (decide (i < k)%nat).
    + rewrite lookup_app_l by (rewrite length_take; lia). by rewrite lookup_take_lt by lia.
    + rewrite lookup_app_r by (rewrite length_take; lia). rewrite length_take, Nat.min_l by lia.
      rewrite lookup_app_r by lia. rewrite lookup_drop. f_equal. lia.
Qed.

(** Reading a part of a buffer that was just written. *)
Lemma copy_in_part m a bs k n :
  is_Some (copy_in m a (length bs)) → (k + n <= length bs)%nat →
  copy_in (copy_out m a bs).1 (a + Z.of_nat k) n = Some (slice bs k n).
Proof.
  intros Hm Hk. assert (Hl : length (slice bs k n) = n) by (unfold slice; len).
  rewrite <- Hl at 1. apply copy_in_Some. intros i b Hb.
  replace (a + Z.of_nat k + Z.of_nat i) with (a + Z.of_nat (k + i)) by lia.
  pose proof (lookup_lt_Some _ _ _ Hb). rewrite copy_out_lookup by (auto; lia).
  unfold slice in Hb. rewrite lookup_take_lt in Hb by lia. by rewrite lookup_drop in Hb.
Qed.

Lemma sockname_family m a sa :
  is_Some (copy_in m a (length sa)) → (2 <= length sa)%nat →
  get_user 2 (copy_out m a sa).1 a = Some (sa_family sa).
Proof.
  intros Hm Hl. unfold get_user. pose proof (copy_in_part m a sa 0 2 Hm ltac:(lia)) as H.
  rewrite Z.add_0_r in H. rewrite H. done.
Qed.

(** ** Properties *)

(** A complete name as the kernel returns it, for the family the probe serves. *)
Definition full_name (family : Z) (sa : bytes) : Prop :=
  sa_family sa = family ∧
  ((family = AF_INET ∧ length sa = 16%nat) ∨ (family = AF_INET6 ∧ length sa = 28%nat)).

Definition getname_ret (family : Z) (d : device) (uid retval : Z) (sa : bytes) (st : stats_state) : bytes :=
  if family =? AF_INET then (inet_getname_ret d uid retval sa st).1
  else (inet6_getname_ret d uid retval sa st).1.

(** The two ways of replacing a socket's name agree.  Rewriting the
    kernel's buffer before it is copied out, or the user's copy afterwards,
    leaves the same bytes in user memory. *)
Theorem getname_paths_agree d uid uaddr ulen sa m st family :
  full_name family sa → uaddr ≠ 0 → Z.of_nat (length sa) <= ulen →
  is_Some (copy_in m uaddr (length sa)) →
  length (sip_ipv6_addr (get_spoof_ip (dv_spoof d))) = 16%nat →
  (sys_getsockname_ret d uid (mk_getsockname uaddr ulen) 0 (copy_out m uaddr sa).1 st).1 =
  (copy_out m uaddr (getname_ret family d uid (Z.of_nat (length sa)) sa st)).1.
Proof.
  intros [Hfam Hlen] Hnz Hul Hm H16. unfold sys_getsockname_ret, getname_ret. simpl.
  rewrite (proj2 (Z.eqb_neq uaddr 0) Hnz).
  rewrite sockname_family by (auto; destruct Hlen as [[_ ->]|[_ ->]]; lia). simpl. rewrite Hfam.
  destruct Hlen as [[-> Hl]|[-> Hl]]; rewrite Hl in *; simpl Z.of_nat in *.
  - unfold AF_INET, sizeof_sockaddr_in. simpl. rewrite (proj2 (Z.leb_le 16 ulen)) by lia.
    unfold spoof_getsockname_ipv4, inet_getname_ret.
    pose proof (copy_in_part m uaddr sa 4 4) as Hp. rewrite Hl in Hp.
    change (uaddr + 4) with (uaddr + Z.of_nat 4). rewrite (Hp Hm ltac:(lia)).
    fold (sin_addr sa). unfold AF_INET in Hfam. rewrite Hfam. simpl.
    destruct (ipv4_kept (sin_addr sa)); [done|].
    assert (Ht : length (target_ipv4 (get_spoof_ip (dv_spoof d))) = 4%nat).
    { unfold target_ipv4. case_match; [apply length_le_split|done]. }
    pose proof (copy_out_overlay m uaddr sa 4 (target_ipv4 (get_spoof_ip (dv_spoof d)))) as Ho.
    rewrite Hl, Ht in Ho. specialize (Ho Hm ltac:(lia)). cbn [negb fst plus] in Ho |- *.
    rewrite <- Ho. by destruct (copy_out (copy_out m uaddr sa).1 _ _).
  - unfold AF_INET6, AF_INET, sizeof_sockaddr_in6. simpl. rewrite (proj2 (Z.leb_le 28 ulen)) by lia.
    unfold spoof_getsockname_ipv6, inet6_getname_ret.
    pose proof (copy_in_part m uaddr sa 8 16) as Hp. rewrite Hl in Hp.
    change (uaddr + 8) with (uaddr + Z.of_nat 8). rewrite (Hp Hm ltac:(lia)).
    fold (sin6_addr sa). unfold AF_INET6 in Hfam. rewrite Hfam. simpl.
    destruct (ipv6_kept (sin6_addr sa)); [done|].
    assert (Ht : length (target_ipv6 (get_spoof_ip (dv_spoof d))) = 16%nat).
    { unfold target_ipv6. case_match; done. }
    pose proof (copy_out_overlay m uaddr sa 8 (target_ipv6 (get_spoof_ip (dv_spoof d)))) as Ho.
    rewrite Hl, Ht in Ho. specialize (Ho Hm ltac:(lia)). cbn [negb fst plus] in Ho |- *.
    rewrite <- Ho. by destruct (copy_out (copy_out m uaddr sa).1 _ _).
Qed.

Definition example_sin : bytes := le_split 2 2 ++ [x1f; x90] ++ [x0a; x08; x00; x02] ++ replicate 8 x00.

Lemma getname_paths_agree_witness :
  let m := put_bytes 4096 (replicate 16 x00) ∅ in
  copy_in (sys_getsockname_ret target_device 10123 (mk_getsockname 4096 16) 0
             (copy_out m 4096 example_sin).1 (dv_stats target_device)).1 4100 4 = Some [x00; x00; x00; x00] ∧
  (sys_getsockname_ret target_device 10123 (mk_getsockname 4096 16) 0
     (copy_out m 4096 example_sin).1 (dv_stats target_device)).1 =
  (copy_out m 4096 (getname_ret AF_INET target_device 10123 16 example_sin (dv_stats target_device))).1.
Proof.
  intros m. split; [vm_compute; reflexivity|].
  refine (getname_paths_agree target_device 10123 4096 16 example_sin m (dv_stats target_device) AF_INET _ _ _ _ _).
  - split; [vm_compute; reflexivity|]. left. split; vm_compute; reflexivity.
  - lia.
  - vm_compute. discriminate.
  - vm_compute. eexists. reflexivity.
  - vm_compute. reflexivity.
Defined.

(** A short buffer gets the real address.  With room for 8 to 15 bytes
    the kernel copies the IPv4 address, but the probe at the system call asks
    for a whole [sockaddr_in] before it rewrites anything. *)
Theorem short_getsockname_leaks d uid uaddr ulen sa m st :
  full_name AF_INET sa → 8 <= ulen < 16 → is_Some (copy_in m uaddr (Z.to_nat ulen)) →
  let copied := (copy_out m uaddr (take (Z.to_nat ulen) sa)).1 in
  copy_in (sys_getsockname_ret d uid (mk_getsockname uaddr ulen) 0 copied st).1 (uaddr + 4) 4 =
  Some (sin_addr sa).
Proof.
  intros [Hfam [[_ Hl]|[Hf _]]] Hu Hm copied; [|done].
  set (sa' := take (Z.to_nat ulen) sa) in *.
  assert (Hl' : length sa' = Z.to_nat ulen) by (unfold sa'; rewrite length_take; lia).
  rewrite <- Hl' in Hm.
  assert (Hsame : (sys_getsockname_ret d uid (mk_getsockname uaddr ulen) 0 copied st).1 = copied).
  { unfold sys_getsockname_ret. simpl. destruct (uaddr =? 0); [done|].
    unfold copied. rewrite sockname_family by (auto; lia). simpl.
    assert (Hsf : sa_family sa' = AF_INET).
    { rewrite <- Hfam. unfold sa_family, le_at, slice, sa'. rewrite !drop_0, take_take. do 2 f_equal. lia. }
    rewrite Hsf, Z.eqb_refl. unfold sizeof_sockaddr_in. by rewrite (proj2 (Z.leb_gt 16 ulen)) by lia. }
  rewrite Hsame. unfold copied. change (uaddr + 4) with (uaddr + Z.of_nat 4).
  rewrite copy_in_part by (auto; lia). f_equal. unfold sin_addr, slice, sa'.
  rewrite !take_drop_commute, take_take. do 2 f_equal. lia.
Qed.

(** The VPN address 10.8.0.2 is read with an 8-byte buffer. *)
Lemma short_getsockname_leaks_witness :
  copy_in (sys_getsockname_ret target_device 10123 (mk_getsockname 4096 8) 0
             (copy_out (put_bytes 4096 (replicate 8 x00) ∅) 4096 (take 8 example_sin)).1
             (dv_stats target_device)).1 (4096 + 4) 4 = Some [x0a; x08; x00; x02].
Proof.
  refine (short_getsockname_leaks target_device 10123 4096 8 example_sin
    (put_bytes 4096 (replicate 8 x00) ∅) (dv_stats target_device) _ _ _).
  - split; [vm_compute; reflexivity|]. left. split; vm_compute; reflexivity.
  - lia.
  - vm_compute. eexists. reflexivity.
Defined.

(** Binds to a link-local address of a VPN, datagram sockets: exactly they
    fail with [ENODEV], counted once; the others keep their result. *)
Theorem linklocal_bind_refused_iff HZ d now have_eventfd uid sk sin6 data retval st pending :
  is_hook_active (dv_policy d) HOOK_INET6_BIND_LL uid = true → is_target d uid = true →
  sk_family sk = AF_INET6 → sk_type sk = SOCK_DGRAM →
  inet6_bind_ll_entry d uid (Some (Some sk)) (Some sin6) = Some data →
  (inet6_bind_ll_ret HZ d now have_eventfd true uid data retval st pending).1 =
  (if vpn_linklocal d sin6 then (NEG_ENODEV, record_kmod_intercept st uid 4) else (retval, st)).
Proof.
  intros Hh Ht Hf Hty. unfold inet6_bind_ll_entry. simpl. rewrite Hf, Hty. simpl.
  rewrite Hh, Ht. simpl. destruct (vpn_linklocal d sin6); intros [= <-]; done.
Qed.

Definition example_ll : bytes :=
  le_split 2 10 ++ replicate 6 x00 ++ [xfe; x80] ++ replicate 13 x00 ++ [x01] ++ le_split 4 30.
Definition udp6_sock : sock := mk_sock SOCK_DGRAM AF_INET6 5353 0 [0; 0; 0; 0].
Definition tcp6_sock : sock := mk_sock SOCK_STREAM AF_INET6 5353 0 [0; 0; 0; 0].

Lemma linklocal_bind_refused_iff_witness :
  ∃ data, inet6_bind_ll_entry target_device 10123 (Some (Some udp6_sock)) (Some example_ll) = Some data ∧
    (inet6_bind_ll_ret 100 target_device 0 false true 10123 data 0 (dv_stats target_device)
       (dv_pending target_device)).1 = (-19, record_kmod_intercept (dv_stats target_device) 10123 4).
Proof.
  eexists. split; [vm_compute; reflexivity|].
  etrans; [refine (linklocal_bind_refused_iff 100 target_device 0 false 10123 udp6_sock example_ll _ 0
    (dv_stats target_device) (dv_pending target_device) _ _ _ _ _); vm_compute; reflexivity|].
  reflexivity.
Defined.

(** For a stream socket the hook is looked up for UID 0 instead of the
    caller: when the global mask has the hook off, a bind to a VPN's link-local
    address passes even for an application whose own mask turns it on. *)
Theorem linklocal_stream_bind_uses_root_mask d uid sk sin6 :
  sk_type sk ≠ SOCK_DGRAM → is_hook_active (dv_policy d) HOOK_INET6_BIND_LL 0 = false →
  inet6_bind_ll_entry d uid (Some (Some sk)) (Some sin6) = None.
Proof.
  intros Hty Hh. unfold inet6_bind_ll_entry. simpl. rewrite (proj2 (Z.eqb_neq _ _) Hty), andb_false_r.
  simpl. by rewrite Hh.
Qed.

(** UID 10123 turns the hook on for itself; the global mask has it off. *)
Definition own_mask_device : device :=
  set_policy sockopt_device (Some
    {| active_hooks_mask := 0; java_hooks_mask := 0; debug_enabled := 0; flags := 0;
       kmod_match_mode := 0; lsposed_match_mode := 0; port_match_mode := 0;
       iface_prefixes := iface_prefixes example_snapshot;
       kmod_uids := [10123]; lsposed_uids := []; port_targets := []; port_rules := [];
       app_hook_masks := [mk_app_hook_mask_v3 10123 UINT32_MAX 0 1 0 [0; 0]] |}).

Lemma linklocal_stream_bind_uses_root_mask_witness :
  is_hook_active (dv_policy own_mask_device) HOOK_INET6_BIND_LL 10123 = true ∧
  is_target own_mask_device 10123 = true ∧ vpn_linklocal own_mask_device example_ll = true ∧
  inet6_bind_ll_entry own_mask_device 10123 (Some (Some tcp6_sock)) (Some example_ll) = None.
Proof.
  split; [vm_compute; reflexivity|]. split; [vm_compute; reflexivity|]. split; [vm_compute; reflexivity|].
  apply (linklocal_stream_bind_uses_root_mask own_mask_device 10123 tcp6_sock example_ll);
    [done | vm_compute; reflexivity].
Defined.

(** Whatever the entry handler did to the buffer limit is undone. *)
Lemma udpv6_sendmsg_restores d alloc now uid s name rates data sndbuf rates' retval st :
  udpv6_sendmsg_ll_entry d alloc now uid (Some (s, name)) rates = (Some (data, sndbuf), rates') →
  (udpv6_sendmsg_ll_ret uid data retval sndbuf st).1.2 = us_sndbuf s.
Proof.
  unfold udpv6_sendmsg_ll_entry, udpv6_sendmsg_ll_ret.
  repeat case_match; intros; simplify_eq/=; done.
Qed.

(** A link-local send scoped to a VPN is the only one answered [ENOBUFS]. *)
Lemma udpv6_sendmsg_denied_iff d alloc now uid s name rates data sndbuf rates' retval st :
  udpv6_sendmsg_ll_entry d alloc now uid (Some (s, name)) rates = (Some (data, sndbuf), rates') →
  (udpv6_sendmsg_ll_ret uid data retval sndbuf st).1.1 =
  if match msg_sin6 name with Some sa => vpn_linklocal d sa | None => false end
  then NEG_ENOBUFS else retval.
Proof.
  unfold udpv6_sendmsg_ll_entry, udpv6_sendmsg_ll_ret.
  repeat case_match; intros; simplify_eq/=; done.
Qed.
