(* ===== verification/PktInfo.v ===== *)
(** * Packet information of received messages

    The probes of [kmod/hooks_socket.c] on the functions that store ancillary
    data of a received datagram: they walk the control messages in user memory
    and replace a VPN's interface index in [IP_PKTINFO] and [IPV6_PKTINFO] by
    the cover interface's. *)
From Stdlib Require Import Strings.Byte ZArith Lia.
From stdpp Require Import base gmap numbers list.
From S2P Require Import Prelude Abi Snapshot PolicyQuery UserMem OwnedPorts Stats Device SockOpt Names.

Definition SOL_IP : Z := 0.
Definition SOL_IPV6 : Z := 41.
Definition IP_PKTINFO : Z := 8.
Definition IPV6_PKTINFO : Z := 50.
Definition MSG_CMSG_COMPAT : Z := 0x80000000.

(** ** One packet information record *)

(** [struct in_pktinfo]: index, specified destination, address; 12 bytes. *)
Definition sizeof_in_pktinfo : Z := 12.

(** [struct in6_pktinfo]: address, index; 20 bytes. *)
Definition sizeof_in6_pktinfo : Z := 20.

Section spoof.
(** [ipv6_addr_type(addr) & IPV6_ADDR_LINKLOCAL] *)
Context (ipv6_is_linklocal : bytes → bool) (d : device) (uid : Z) (hook : vpnhide_hook_idx).

Definition spoof_enabled : bool :=
  is_hook_active (dv_policy d) hook uid && is_target_uid_val (dv_policy d) uid &&
  (0 <? dv_cover_ifindex d).

Definition vh_spoof_pktinfo4 (info : bytes) : option bytes :=
  if is_active_vpn_ifindex (dv_vpns d) (le_at 4 info 0) && spoof_enabled
  then Some (le_split 4 (dv_cover_ifindex d) ++ drop 4 info)
  else None.

Definition ipv6_is_multicast (addr : bytes) : bool :=
  match addr with a :: _ => bool_decide (a = xff) | [] => false end.

(** The address shown with the cover's index. *)
Definition cover_addr6 (addr : bytes) : bytes :=
  let sip := get_spoof_ip (dv_spoof d) in
  if ipv6_is_linklocal addr then
    if nonzero (sip_has_ipv6_linklocal sip) then sip_ipv6_linklocal_addr sip else addr
  else if negb (ipv6_is_multicast addr) then
    if nonzero (sip_has_ipv6 sip) then sip_ipv6_addr sip else addr
  else addr.

Definition vh_spoof_pktinfo6 (info : bytes) : option bytes :=
  if is_active_vpn_ifindex (dv_vpns d) (le_at 4 info 16) && spoof_enabled
  then Some (cover_addr6 (take 16 info) ++ le_split 4 (dv_cover_ifindex d))
  else None.
End spoof.

(** ** The control buffer *)

Record vh_pktinfo_recv_data := mk_recv {
  rv_control_start : Z;
  rv_controllen_start : Z;
  rv_uid : Z;
  rv_hook : vpnhide_hook_idx
}.

(** The fields of [struct msghdr] the probes read. *)
Record msghdr := mk_msghdr {
  mh_control_is_user : bool;
  mh_control_user : Z;
  mh_controllen : Z;
  mh_flags : Z
}.

Definition vh_pktinfo_recv_entry (d : device) (uid : Z) (msg : option msghdr) (hook : vpnhide_hook_idx)
    : option vh_pktinfo_recv_data :=
  match msg with
  | None => None
  | Some msg =>
      if negb (mh_control_is_user msg) || (mh_control_user msg =? 0) || (mh_controllen msg =? 0) ||
         negb (is_hook_active (dv_policy d) hook uid) || negb (is_target_uid_val (dv_policy d) uid)
      then None
      else Some (mk_recv (mh_control_user msg) (mh_controllen msg) uid hook)
  end.

Definition ip_cmsg_recv_entry (d : device) (uid : Z) (msg : option msghdr) :=
  vh_pktinfo_recv_entry d uid msg HOOK_GETNAME_INET.
Definition ip6_cmsg_recv_entry (d : device) (uid : Z) (msg : option msghdr) :=
  vh_pktinfo_recv_entry d uid msg HOOK_GETNAME_INET6.

(** [ALIGN(x, a)] on [size_t], [a] a power of two. *)
Definition align (a x : Z) : Z := Z.land (u64 (x + (a - 1))) (u64 (Z.lnot (a - 1))).

(** [cmsg_len], [cmsg_level] and [cmsg_type] of a header, by ABI. *)
Definition header_len (compat : bool) : Z := if compat then 12 else 16.
Definition hdr_len (compat : bool) (h : bytes) : Z := if compat then le_at 4 h 0 else le_at 8 h 0.
Definition hdr_level (compat : bool) (h : bytes) : Z :=
  if compat then s32 (le_at 4 h 4) else s32 (le_at 4 h 8).
Definition hdr_type (compat : bool) (h : bytes) : Z :=
  if compat then s32 (le_at 4 h 8) else s32 (le_at 4 h 12).
Definition hdr_step (compat : bool) (len : Z) : Z := if compat then align 4 len else align 8 len.

Section walk.
Context (ipv6_is_linklocal : bytes → bool) (d : device) (data : vh_pktinfo_recv_data).
Context (compat : bool) (used : Z).

(** Read, replace and write back one record. *)
Definition rewrite_record (m : umem) (st : stats_state) (payload size : Z)
    (spoof : bytes → option bytes) : umem * stats_state :=
  match copy_in m payload (Z.to_nat size) with
  | None => (m, st)
  | Some info =>
      match spoof info with
      | None => (m, st)
      | Some info' =>
          let '(m', ok) := copy_out m payload info' in
          (m', if ok then record_kmod_intercept st (rv_uid data) 5 else st)
      end
  end.

Definition rewrite_cmsg (m : umem) (st : stats_state) (offset level type data_len : Z)
    : umem * stats_state :=
  let payload := rv_control_start data + offset + header_len compat in
  if (level =? SOL_IP) && (type =? IP_PKTINFO) && (sizeof_in_pktinfo <=? data_len) then
    rewrite_record m st payload sizeof_in_pktinfo (vh_spoof_pktinfo4 d (rv_uid data) (rv_hook data))
  else if (level =? SOL_IPV6) && (type =? IPV6_PKTINFO) && (sizeof_in6_pktinfo <=? data_len) then
    rewrite_record m st payload sizeof_in6_pktinfo
      (vh_spoof_pktinfo6 ipv6_is_linklocal d (rv_uid data) (rv_hook data))
  else (m, st).

(** The loop; [None] is running out of fuel. *)
Fixpoint cmsg_loop (fuel : nat) (offset : Z) (m : umem) (st : stats_state)
    : option (umem * stats_state) :=
  match fuel with
  | O => None
  | S fuel =>
      if offset <? used then
        if used - offset <? header_len compat then Some (m, st)
        else
          match copy_in m (rv_control_start data + offset) (Z.to_nat (header_len compat)) with
          | None => Some (m, st)
          | Some h =>
              let cmsg_len := hdr_len compat h in
              let step := hdr_step compat cmsg_len in
              if (cmsg_len <? header_len compat) || (used - offset <? cmsg_len) || (step <? cmsg_len)
              then Some (m, st)
              else
                let '(m, st) := rewrite_cmsg m st offset (hdr_level compat h) (hdr_type compat h)
                                  (cmsg_len - header_len compat) in
                if (step =? 0) || (used - offset <? step) then Some (m, st)
                else cmsg_loop fuel (offset + step) m st
          end
      else Some (m, st)
  end.
End walk.

(** The whole walk; every round moves on by a header at least, so one round
    per byte of the buffer is more than enough. *)
Definition vh_rewrite_pktinfo_cmsgs (ll : bytes → bool) (d : device) (data : vh_pktinfo_recv_data)
    (msg : msghdr) (m : umem) (st : stats_state) : option (umem * stats_state) :=
  if (rv_control_start data =? 0) || negb (mh_control_is_user msg) ||
     (rv_controllen_start data <? mh_controllen msg) then Some (m, st)
  else
    let used := rv_controllen_start data - mh_controllen msg in
    let compat := nonzero (Z.land (mh_flags msg) MSG_CMSG_COMPAT) in
    cmsg_loop ll d data compat used (S (Z.to_nat used)) 0 m st.

(** ** Control messages *)

(** A control message as [put_cmsg] lays it out: header, data and padding to a
    multiple of the word size, 4 bytes for a compat task and 8 for a native one. *)
Record cmsg := mk_cmsg {
  cm_level : Z;
  cm_type : Z;
  cm_data : bytes;
  cm_pad : bytes
}.

Definition cmsg_len (compat : bool) (c : cmsg) : Z := header_len compat + Z.of_nat (length (cm_data c)).

Definition encode_header (compat : bool) (c : cmsg) : bytes :=
  (if compat then le_split 4 (cmsg_len compat c) else le_split 8 (cmsg_len compat c)) ++
  le_split 4 (u32 (cm_level c)) ++ le_split 4 (u32 (cm_type c)).

Definition encode_cmsg (compat : bool) (c : cmsg) : bytes :=
  encode_header compat c ++ cm_data c ++ cm_pad c.

Definition encode_cmsgs (compat : bool) (cs : list cmsg) : bytes := mjoin (encode_cmsg compat <$> cs).

Definition cmsg_ok (compat : bool) (c : cmsg) : Prop :=
  - 2 ^ 31 <= cm_level c < 2 ^ 31 ∧ - 2 ^ 31 <= cm_type c < 2 ^ 31 ∧
  cmsg_len compat c < 2 ^ 32 - 8 ∧
  Z.of_nat (length (cm_pad c)) = (- cmsg_len compat c) mod (if compat then 4 else 8).

(** The messages of a buffer: the padding of the last one may be cut off at the end
    of the caller's buffer. *)
Fixpoint cmsgs_ok (compat : bool) (cs : list cmsg) : Prop :=
  match cs with
  | [] => True
  | [c] => ∃ pad, cmsg_ok compat (mk_cmsg (cm_level c) (cm_type c) (cm_data c) (cm_pad c ++ pad))
  | c :: cs => cmsg_ok compat c ∧ cmsgs_ok compat cs
  end.

Definition with_data (c : cmsg) (bs : bytes) : cmsg := mk_cmsg (cm_level c) (cm_type c) bs (cm_pad c).

Section messages.
Context (ll : bytes → bool) (d : device) (uid : Z) (hook : vpnhide_hook_idx).

(** Replace the record at the start of the data. *)
Definition spoof_data (size : nat) (spoof : bytes → option bytes) (c : cmsg) : option cmsg :=
  info' ← spoof (take size (cm_data c)); Some (with_data c (info' ++ drop size (cm_data c))).

Definition is_pktinfo4 (c : cmsg) : bool :=
  (cm_level c =? SOL_IP) && (cm_type c =? IP_PKTINFO) && (12 <=? length (cm_data c))%nat.
Definition is_pktinfo6 (c : cmsg) : bool :=
  (cm_level c =? SOL_IPV6) && (cm_type c =? IPV6_PKTINFO) && (20 <=? length (cm_data c))%nat.

(** What the walk is meant to do to a message; [None]: nothing. *)
Definition spoof_cmsg (c : cmsg) : option cmsg :=
  if is_pktinfo4 c then spoof_data 12 (vh_spoof_pktinfo4 d uid hook) c
  else if is_pktinfo6 c then spoof_data 20 (vh_spoof_pktinfo6 ll d uid hook) c
  else None.

Definition shown (c : cmsg) : cmsg := default c (spoof_cmsg c).

Definition count_spoofed (cs : list cmsg) : nat := length (omap spoof_cmsg cs).

Definition record_hits (n : nat) (st : stats_state) : stats_state :=
  Nat.iter n (λ st, record_kmod_intercept st uid 5) st.
End messages.

Lemma record_hits_succ uid n st :
  record_hits uid (S n) st = record_hits uid n (record_kmod_intercept st uid 5).
Proof. exact (Nat.iter_succ_r n (λ st, record_kmod_intercept st uid 5) st). Qed.

Lemma count_spoofed_cons ll d uid hook c cs :
  count_spoofed ll d uid hook (c :: cs) =
  if spoof_cmsg ll d uid hook c is Some _ then S (count_spoofed ll d uid hook cs)
  else count_spoofed ll d uid hook cs.
Proof. unfold count_spoofed. simpl. by destruct (spoof_cmsg ll d uid hook c). Qed.

Lemma header_length compat c : Z.of_nat (length (encode_header compat c)) = header_len compat.
Proof. unfold encode_header. destruct compat; rewrite !length_app, !length_le_split; done. Qed.

Lemma le_at_off pre n z rest off :
  off = length pre → fits (8 * Z.of_nat n) z → le_at n (pre ++ le_split n z ++ rest) off = z.
Proof. intros ->. apply le_at_app. Qed.

(** Rounding up with the mask is padding to the next multiple. *)
Lemma align_pad k x :
  0 <= k <= 8 → 0 <= x < 2 ^ 32 → align (2 ^ k) x = x + (- x) mod 2 ^ k.
Proof.
  intros Hk Hx.
  assert (Hp : 0 < 2 ^ k <= 2 ^ 8) by (split; [apply Z.pow_pos_nonneg|apply Z.pow_le_mono_r]; lia).
  unfold align. rewrite (wrap_small 64) by (unfold fits; lia). unfold u64, wrap.
  rewrite <- Z.land_ones, (Z.land_comm (Z.lnot _)), Z.land_assoc, Z.land_ones, Z.mod_small by lia.
  rewrite Z.sub_1_r, <- Z.ones_equiv, <- Z.ldiff_land, Z.ldiff_ones_r, Z.shiftl_mul_pow2, Z.shiftr_div_pow2 by lia.
  rewrite Z.ones_equiv. pose proof (Z.div_mod (x + Z.pred (2 ^ k)) (2 ^ k)). pose proof (Z.div_mod (- x) (2 ^ k)).
  pose proof (Z.mod_pos_bound (x + Z.pred (2 ^ k)) (2 ^ k)). pose proof (Z.mod_pos_bound (- x) (2 ^ k)).
  assert ((x + Z.pred (2 ^ k)) / 2 ^ k = - (- x / 2 ^ k)) by nia. nia.
Qed.

(** The step of the walk is what a message occupies. *)
Lemma encoded_step compat c :
  cmsg_ok compat c → Z.of_nat (length (encode_cmsg compat c)) = hdr_step compat (cmsg_len compat c).
Proof.
  intros (_ & _ & Hs & Hp). unfold encode_cmsg. rewrite !length_app, !Nat2Z.inj_add, header_length, Hp.
  assert (0 <= cmsg_len compat c) by (unfold cmsg_len, header_len; destruct compat; lia).
  rewrite Z.add_assoc. fold (cmsg_len compat c). unfold hdr_step.
  destruct compat; symmetry; [apply (align_pad 2)|apply (align_pad 3)]; lia.
Qed.

Lemma hdr_fields compat c :
  cmsg_ok compat c →
  hdr_len compat (encode_header compat c) = cmsg_len compat c ∧
  hdr_level compat (encode_header compat c) = cm_level c ∧
  hdr_type compat (encode_header compat c) = cm_type c.
Proof.
  intros (Hl & Ht & Hs & _).
  assert (0 <= cmsg_len compat c) by (unfold cmsg_len, header_len; destruct compat; lia).
  assert (Hw : ∀ x, fits (8 * Z.of_nat 4) (u32 x)) by (intros; by apply wrap_fits).
  unfold hdr_len, hdr_level, hdr_type, encode_header. destruct compat.
  - split_and!.
    + apply (le_at_app [] 4). unfold fits. lia.
    + rewrite (le_at_off (le_split 4 (cmsg_len true c))) by done. by rewrite s32_u32.
    + rewrite app_assoc, <- (app_nil_r (le_split 4 (u32 (cm_type c)))).
      rewrite (le_at_off (le_split 4 (cmsg_len true c) ++ le_split 4 (u32 (cm_level c)))) by done.
      by rewrite s32_u32.
  - split_and!.
    + apply (le_at_app [] 8). unfold fits. lia.
    + rewrite (le_at_off (le_split 8 (cmsg_len false c))) by done. by rewrite s32_u32.
    + rewrite app_assoc, <- (app_nil_r (le_split 4 (u32 (cm_type c)))).
      rewrite (le_at_off (le_split 8 (cmsg_len false c) ++ le_split 4 (u32 (cm_level c)))) by done.
      by rewrite s32_u32.
Qed.

(** ** The walk is exact *)

Section exact.
Context (ll : bytes → bool) (d : device) (data : vh_pktinfo_recv_data) (compat : bool).
Context (H6 : length (sip_ipv6_addr (get_spoof_ip (dv_spoof d))) = 16%nat).
Context (Hll : length (sip_ipv6_linklocal_addr (get_spoof_ip (dv_spoof d))) = 16%nat).

Abbreviation spoof4 := (vh_spoof_pktinfo4 d (rv_uid data) (rv_hook data)).
Abbreviation spoof6 := (vh_spoof_pktinfo6 ll d (rv_uid data) (rv_hook data)).
Abbreviation spoofed := (spoof_cmsg ll d (rv_uid data) (rv_hook data)).
Abbreviation show := (shown ll d (rv_uid data) (rv_hook data)).

Lemma length_spoof4 info info' : length info = 12%nat → spoof4 info = Some info' → length info' = 12%nat.
Proof.
  unfold vh_spoof_pktinfo4. intros Hl. case_match; [|done]. intros <-%(inj Some).
  rewrite length_app, length_le_split, length_drop. lia.
Qed.

Lemma length_spoof6 info info' : length info = 20%nat → spoof6 info = Some info' → length info' = 20%nat.
Proof.
  unfold vh_spoof_pktinfo6. intros Hl. case_match; [|done]. intros <-%(inj Some).
  assert (Hc : length (cover_addr6 ll d (take 16 info)) = 16%nat).
  { unfold cover_addr6. cbv zeta. repeat case_match; auto; rewrite length_take; lia. }
  rewrite length_app, Hc, length_le_split. done.
Qed.

(** One record of [size] bytes at the start of the data of [c]. *)
Lemma rewrite_record_exact m st a c size (spoof : bytes → option bytes) :
  copy_in m a (length (encode_cmsg compat c)) = Some (encode_cmsg compat c) →
  (size <= length (cm_data c))%nat →
  (∀ info info', length info = size → spoof info = Some info' → length info' = size) →
  let r := rewrite_record data m st (a + header_len compat) (Z.of_nat size) spoof in
  let c' := default c (spoof_data size spoof c) in
  cmsg_len compat c' = cmsg_len compat c ∧
  copy_in r.1 a (length (encode_cmsg compat c)) = Some (encode_cmsg compat c') ∧
  (∀ x, x < a ∨ a + Z.of_nat (length (encode_cmsg compat c)) <= x → r.1 !! x = m !! x) ∧
  r.2 = if spoof_data size spoof c is Some _ then record_kmod_intercept st (rv_uid data) 5 else st.
Proof.
  intros Hm Hs Hlen r c'.
  set (h := encode_header compat c). set (info := take size (cm_data c)).
  set (t := drop size (cm_data c) ++ cm_pad c).
  assert (Henc : encode_cmsg compat c = h ++ info ++ t).
  { unfold encode_cmsg, info, t. by rewrite (app_assoc (take _ _)), take_drop. }
  rewrite Henc in *. assert (Hi : length info = size) by (unfold info; rewrite length_take; lia).
  assert (Hh : a + header_len compat = a + Z.of_nat (length h)) by (unfold h; by rewrite header_length).
  assert (Hread : copy_in m (a + header_len compat) (Z.to_nat (Z.of_nat size)) = Some info).
  { apply copy_in_split in Hm as [_ Hm]. apply copy_in_split in Hm as [Hm _].
    rewrite Hh, Nat2Z.id, <- Hi. exact Hm. }
  unfold r, c', rewrite_record, spoof_data. rewrite Hread. fold info.
  destruct (spoof info) as [info'|] eqn:Es; simpl; [|by rewrite Henc].
  pose proof (Hlen _ _ Hi Es) as Hi'.
  assert (Hcl : cmsg_len compat (with_data c (info' ++ drop size (cm_data c))) = cmsg_len compat c).
  { unfold cmsg_len. simpl. rewrite length_app, length_drop. lia. }
  assert (Henc' : encode_cmsg compat (with_data c (info' ++ drop size (cm_data c))) = h ++ info' ++ t).
  { unfold encode_cmsg, t. simpl. rewrite <- app_assoc. f_equal. unfold h, encode_header. by rewrite Hcl. }
  pose proof (copy_in_replace m a h info info' t Hm ltac:(lia)) as Hrep.
  assert (Hsame : length (h ++ info' ++ t) = length (h ++ info ++ t)) by (rewrite !length_app; lia).
  assert (Hok : (copy_out m (a + header_len compat) info').2 = true).
  { apply copy_out_ok. rewrite Hi'. rewrite Nat2Z.id in Hread. rewrite Hread. done. }
  rewrite Hh in *. destruct (copy_out m (a + Z.of_nat (length h)) info') as [m' ok] eqn:Eo.
  simpl in *. subst ok. split_and!; auto.
  - by rewrite Henc', <- Hsame.
  - intros x Hx. replace m' with (copy_out m (a + Z.of_nat (length h)) info').1 by by rewrite Eo.
    apply copy_out_lookup_ne. rewrite !length_app in Hx. lia.
Qed.

(** The body of one round. *)
Lemma rewrite_cmsg_exact m st offset c :
  let a := rv_control_start data + offset in
  copy_in m a (length (encode_cmsg compat c)) = Some (encode_cmsg compat c) →
  let r := rewrite_cmsg ll d data compat m st offset (cm_level c) (cm_type c)
             (Z.of_nat (length (cm_data c))) in
  cmsg_len compat (show c) = cmsg_len compat c ∧
  copy_in r.1 a (length (encode_cmsg compat c)) = Some (encode_cmsg compat (show c)) ∧
  (∀ x, x < a ∨ a + Z.of_nat (length (encode_cmsg compat c)) <= x → r.1 !! x = m !! x) ∧
  r.2 = if spoofed c is Some _ then record_kmod_intercept st (rv_uid data) 5 else st.
Proof.
  intros a Hm r. unfold r, rewrite_cmsg, shown, spoof_cmsg, is_pktinfo4, is_pktinfo6. cbv zeta.
  change sizeof_in_pktinfo with (Z.of_nat 12). change sizeof_in6_pktinfo with (Z.of_nat 20).
  assert (Hle : ∀ k, (Z.of_nat k <=? Z.of_nat (length (cm_data c))) = (k <=? length (cm_data c))%nat).
  { intros k. destruct (Nat.leb_spec k (length (cm_data c))); [apply Z.leb_le|apply Z.leb_gt]; lia. }
  rewrite !Hle. fold a.
  destruct ((cm_level c =? SOL_IP) && (cm_type c =? IP_PKTINFO) && _) eqn:E4.
  { b2p. apply rewrite_record_exact; [exact Hm|by apply Nat.leb_le|apply length_spoof4]. }
  destruct ((cm_level c =? SOL_IPV6) && (cm_type c =? IPV6_PKTINFO) && _) eqn:E6; [|done].
  b2p. apply rewrite_record_exact; [exact Hm|by apply Nat.leb_le|apply length_spoof6].
Qed.

Lemma length_show c : cmsg_len compat (show c) = cmsg_len compat c →
  length (encode_cmsg compat (show c)) = length (encode_cmsg compat c).
Proof.
  intros H. unfold encode_cmsg. rewrite !length_app.
  assert (Hp : cm_pad (show c) = cm_pad c).
  { unfold shown, spoof_cmsg, spoof_data. repeat case_match; try done;
      match goal with |- context [?s ≫= _] => destruct s; done end. }
  rewrite Hp. unfold cmsg_len in H.
  pose proof (header_length compat c). pose proof (header_length compat (show c)). lia.
Qed.

(** One round on a message that is there but for some of its padding: the walk
    goes on behind it, or ends when nothing follows. *)
Lemma cmsg_round c pad fuel offset m st used :
  cmsg_ok compat (mk_cmsg (cm_level c) (cm_type c) (cm_data c) (cm_pad c ++ pad)) → 0 <= offset →
  let n := Z.of_nat (length (encode_cmsg compat c)) in
  offset + n <= used → (pad ≠ [] → used = offset + n) →
  let a := rv_control_start data + offset in
  copy_in m a (length (encode_cmsg compat c)) = Some (encode_cmsg compat c) →
  ∃ m1, copy_in m1 a (length (encode_cmsg compat c)) = Some (encode_cmsg compat (show c)) ∧
    (∀ x, x < a ∨ a + n <= x → m1 !! x = m !! x) ∧
    let st1 := if spoofed c is Some _ then record_kmod_intercept st (rv_uid data) 5 else st in
    cmsg_loop ll d data compat used (S fuel) offset m st =
    if bool_decide (pad = []) then cmsg_loop ll d data compat used fuel (offset + n) m1 st1 else Some (m1, st1).
Proof.
  intros Hc Ho n Hu Htr a Hm. set (full := mk_cmsg _ _ _ _) in Hc.
  pose proof (hdr_fields compat full Hc) as (Hf1 & Hf2 & Hf3). pose proof (encoded_step compat full Hc) as Hstep.
  change (encode_header compat full) with (encode_header compat c) in *.
  change (cmsg_len compat full) with (cmsg_len compat c) in *. cbn [full cm_level cm_type] in Hf2, Hf3.
  assert (Hfn : Z.of_nat (length (encode_cmsg compat full)) = n + Z.of_nat (length pad)).
  { unfold n, encode_cmsg. change (encode_header compat full) with (encode_header compat c).
    cbn [full cm_data cm_pad]. rewrite !length_app. lia. }
  rewrite Hfn in Hstep.
  assert (Hpos : 12 <= header_len compat) by (unfold header_len; destruct compat; lia).
  assert (Hcl : header_len compat <= cmsg_len compat c <= n).
  { unfold n, cmsg_len, encode_cmsg. rewrite !length_app. pose proof (header_length compat c). lia. }
  assert (Hh : copy_in m a (Z.to_nat (header_len compat)) = Some (encode_header compat c)).
  { pose proof Hm as Hhd. unfold encode_cmsg in Hhd. apply copy_in_split in Hhd as [Hhd _].
    rewrite <- (header_length compat c), Nat2Z.id. exact Hhd. }
  destruct (rewrite_cmsg_exact m st offset c Hm) as (Hlen & Hr1 & Hr2 & Hr3).
  exists (rewrite_cmsg ll d data compat m st offset (cm_level c) (cm_type c) (Z.of_nat (length (cm_data c)))).1.
  split_and!; [exact Hr1|exact Hr2|]. cbv zeta. rewrite <- Hr3.
  cbn [cmsg_loop]. rewrite (proj2 (Z.ltb_lt offset used)) by lia.
  rewrite (proj2 (Z.ltb_ge (used - offset) (header_len compat))) by lia. fold a. rewrite Hh. cbv zeta.
  rewrite Hf1, Hf2, Hf3, <- Hstep.
  rewrite (proj2 (Z.ltb_ge (cmsg_len compat c) _)), (proj2 (Z.ltb_ge (used - offset) (cmsg_len compat c))),
    (proj2 (Z.ltb_ge _ (cmsg_len compat c))) by lia. cbn [orb].
  replace (cmsg_len compat c - header_len compat) with (Z.of_nat (length (cm_data c)))
    by (unfold cmsg_len; lia).
  destruct (rewrite_cmsg ll d data compat m st offset _ _ _) as [m1 st1]. cbn [fst snd].
  rewrite (proj2 (Z.eqb_neq _ 0)) by lia. cbn [orb]. destruct pad as [|b pad].
  - rewrite bool_decide_eq_true_2 by done. rewrite (proj2 (Z.ltb_ge _ _)) by (simpl; lia).
    by rewrite Z.add_0_r.
  - rewrite bool_decide_eq_false_2 by done. rewrite (proj2 (Z.ltb_lt _ _)); [done|].
    rewrite Htr by done. simpl. lia.
Qed.

Lemma cmsg_loop_exact cs fuel offset m st used :
  cmsgs_ok compat cs → 0 <= offset →
  used = offset + Z.of_nat (length (encode_cmsgs compat cs)) → (length cs < fuel)%nat →
  let a := rv_control_start data + offset in
  copy_in m a (length (encode_cmsgs compat cs)) = Some (encode_cmsgs compat cs) →
  ∃ m', cmsg_loop ll d data compat used fuel offset m st =
      Some (m', record_hits (rv_uid data) (count_spoofed ll d (rv_uid data) (rv_hook data) cs) st) ∧
    copy_in m' a (length (encode_cmsgs compat cs)) = Some (encode_cmsgs compat (show <$> cs)) ∧
    (∀ x, x < a ∨ a + Z.of_nat (length (encode_cmsgs compat cs)) <= x → m' !! x = m !! x).
Proof.
  revert fuel offset m st. induction cs as [|c cs IH]; intros fuel offset m st Hok Ho Hu Hf a Hm.
  { destruct fuel as [|fuel]; [simpl in Hf; lia|]. simpl in Hu. exists m. simpl.
    rewrite (proj2 (Z.ltb_ge offset used)) by lia. done. }
  destruct fuel as [|fuel]; [simpl in Hf; lia|]. simpl in Hf.
  assert (Henc : encode_cmsgs compat (c :: cs) = encode_cmsg compat c ++ encode_cmsgs compat cs) by done.
  rewrite Henc in *. pose proof Hm as Hm'. apply copy_in_split in Hm' as [Hhd Htl]. rewrite length_app in Hu.
  assert (∃ pad, cmsg_ok compat (mk_cmsg (cm_level c) (cm_type c) (cm_data c) (cm_pad c ++ pad)) ∧
    (pad ≠ [] → cs = []) ∧ cmsgs_ok compat cs) as (pad & Hc & Hlast & Hrest).
  { destruct cs as [|c' cs']; [destruct Hok as [pad Hok]; by exists pad|]. exists []. rewrite app_nil_r.
    destruct Hok as [Hok1 Hok2]. split_and!; [by destruct c|done|exact Hok2]. }
  destruct (cmsg_round c pad fuel offset m st used Hc Ho) as (m1 & Hr1 & Hr2 & Hloop); [lia| |exact Hhd|].
  { intros Hp. rewrite (Hlast Hp) in Hu. cbn in Hu. lia. }
  fold a in Hr1, Hr2. cbv zeta in Hloop. rewrite Hloop. clear Hloop.
  set (st1 := if spoofed c is Some _ then _ else _).
  assert (Hgoal : ∃ m', (if bool_decide (pad = []) then
        cmsg_loop ll d data compat used fuel (offset + Z.of_nat (length (encode_cmsg compat c))) m1 st1
      else Some (m1, st1)) =
      Some (m', record_hits (rv_uid data) (count_spoofed ll d (rv_uid data) (rv_hook data) cs) st1) ∧
    copy_in m' (a + Z.of_nat (length (encode_cmsg compat c))) (length (encode_cmsgs compat cs)) =
      Some (encode_cmsgs compat (show <$> cs)) ∧
    (∀ x, x < a + Z.of_nat (length (encode_cmsg compat c)) ∨
      a + Z.of_nat (length (encode_cmsg compat c)) + Z.of_nat (length (encode_cmsgs compat cs)) <= x → m' !! x = m1 !! x)).
  { case_bool_decide as Hp; [|rewrite (Hlast Hp); by exists m1].
    destruct (IH fuel (offset + Z.of_nat (length (encode_cmsg compat c))) m1 st1) as (m2 & E2 & Hm2 & Hfr);
      [done|lia|lia|lia| |].
    - rewrite Z.add_assoc. fold a. rewrite (copy_in_ext m1 m); [exact Htl|]. intros x Hx. apply Hr2. lia.
    - rewrite Z.add_assoc in Hm2, Hfr. fold a in Hm2, Hfr. by exists m2. }
  destruct Hgoal as (m2 & -> & Hm2 & Hfr). exists m2. split_and!.
  - rewrite count_spoofed_cons. do 2 f_equal. unfold st1. destruct (spoofed c); [|done].
    by rewrite record_hits_succ.
  - change (encode_cmsgs compat (show <$> c :: cs))
      with (encode_cmsg compat (show c) ++ encode_cmsgs compat (show <$> cs)).
    rewrite length_app, copy_in_app, Hm2. rewrite (copy_in_ext m2 m1), Hr1; [done|].
    intros x Hx. apply Hfr. lia.
  - intros x Hx. rewrite length_app in Hx. rewrite Hfr, Hr2 by lia. done.
Qed.
End exact.

(** ** Arbitrary buffers *)

Section bounds.
Context (ll : bytes → bool) (d : device) (data : vh_pktinfo_recv_data) (compat : bool) (used : Z).
Context (H6 : length (sip_ipv6_addr (get_spoof_ip (dv_spoof d))) = 16%nat).
Context (Hll : length (sip_ipv6_linklocal_addr (get_spoof_ip (dv_spoof d))) = 16%nat).

Abbreviation start := (rv_control_start data).

(** A record is written inside [[payload, payload + size)]. *)
Lemma rewrite_record_frame m st payload size spoof x :
  (∀ info info', length info = Z.to_nat size → spoof info = Some info' → length info' = Z.to_nat size) →
  0 <= size → x < payload ∨ payload + size <= x →
  (rewrite_record data m st payload size spoof).1 !! x = m !! x.
Proof.
  intros Hl Hs Hx. unfold rewrite_record. destruct (copy_in m payload _) as [info|] eqn:Ei; [|done].
  destruct (spoof info) as [info'|] eqn:Es; [|done].
  pose proof (Hl _ _ (copy_in_length _ _ _ _ Ei) Es) as Hi'.
  pose proof (copy_out_lookup_ne m payload info' x ltac:(lia)) as Hne.
  by destruct (copy_out m payload info').
Qed.

Lemma rewrite_cmsg_frame m st offset level type len x :
  x < start + offset ∨ start + offset + header_len compat + len <= x → 0 <= len →
  (rewrite_cmsg ll d data compat m st offset level type len).1 !! x = m !! x.
Proof.
  intros Hx Hlen. unfold rewrite_cmsg. cbv zeta.
  assert (0 <= header_len compat) by (unfold header_len; destruct compat; lia).
  destruct (_ && (sizeof_in_pktinfo <=? len)) eqn:E4.
  { b2p. unfold sizeof_in_pktinfo in *. apply rewrite_record_frame; [|lia|lia].
    intros info info' Hi Hs. by eapply length_spoof4. }
  destruct (_ && (sizeof_in6_pktinfo <=? len)) eqn:E6; [|done].
  b2p. unfold sizeof_in6_pktinfo in *. apply rewrite_record_frame; [|lia|lia].
  intros info info' Hi Hs. by eapply length_spoof6.
Qed.

Lemma cmsg_loop_safe fuel offset m st :
  0 <= offset → Z.max 0 (used - offset) < Z.of_nat fuel →
  ∃ m' st', cmsg_loop ll d data compat used fuel offset m st = Some (m', st') ∧
    ∀ x, x < start ∨ start + used <= x → m' !! x = m !! x.
Proof.
  revert offset m st. induction fuel as [|fuel IH]; intros offset m st Ho Hf; [lia|].
  cbn [cmsg_loop]. destruct (Z.ltb_spec offset used); [|eauto].
  destruct (Z.ltb_spec (used - offset) (header_len compat)); [eauto|].
  destruct (copy_in m _ _) as [h|]; [|eauto]. cbv zeta.
  destruct (_ || (hdr_step compat (hdr_len compat h) <? hdr_len compat h)) eqn:E; [eauto|]. b2p.
  assert (12 <= header_len compat) by (unfold header_len; destruct compat; lia).
  pose proof (rewrite_cmsg_frame m st offset (hdr_level compat h) (hdr_type compat h)
    (hdr_len compat h - header_len compat)) as Hfr.
  destruct (rewrite_cmsg _ _ _ _ _ _ _ _ _ _) as [m1 st1]. simpl in Hfr.
  assert (Hfr' : ∀ x, x < start ∨ start + used <= x → m1 !! x = m !! x).
  { intros x Hx. apply Hfr; lia. }
  destruct (_ || _) eqn:E2; [eauto|]. b2p.
  destruct (IH (offset + hdr_step compat (hdr_len compat h)) m1 st1) as (m2 & st2 & E3 & Hfr2); [lia|lia|].
  exists m2, st2. split; [exact E3|]. intros x Hx. rewrite Hfr2, Hfr'; auto.
Qed.
End bounds.

(** ** Properties *)

(** C30: the walk over the control messages ends and stays inside them, for
    any content of the user's buffer: headers that lie about their length
    included, no byte outside what the kernel used is written. *)
Theorem pktinfo_walk_safe ll d data msg m st :
  length (sip_ipv6_addr (get_spoof_ip (dv_spoof d))) = 16%nat →
  length (sip_ipv6_linklocal_addr (get_spoof_ip (dv_spoof d))) = 16%nat →
  ∃ m' st', vh_rewrite_pktinfo_cmsgs ll d data msg m st = Some (m', st') ∧
    ∀ x, x < rv_control_start data ∨
         rv_control_start data + (rv_controllen_start data - mh_controllen msg) <= x → m' !! x = m !! x.
Proof.
  intros H6 Hll. unfold vh_rewrite_pktinfo_cmsgs. destruct (_ || _) eqn:E; [eauto|]. b2p. cbv zeta.
  apply cmsg_loop_safe; auto; lia.
Qed.

Lemma pktinfo_walk_safe_witness :
  let m := put_bytes 4096 (replicate 32 xff) ∅ in
  ∃ m' st', vh_rewrite_pktinfo_cmsgs (λ _, false) target_device (mk_recv 4096 32 10123 HOOK_GETNAME_INET)
              (mk_msghdr true 0 0 0) m (dv_stats target_device) = Some (m', st') ∧
    ∀ x, x < 4096 ∨ 4096 + (32 - 0) <= x → m' !! x = m !! x.
Proof.
  intros m. apply (pktinfo_walk_safe (λ _, false) target_device (mk_recv 4096 32 10123 HOOK_GETNAME_INET)
    (mk_msghdr true 0 0 0)); reflexivity.
Defined.

(** ** What a rewrite is *)

(** Where a message gives the index of a VPN interface away: at the start of an
    [in_pktinfo] of 12 bytes, or behind the address of an [in6_pktinfo] of 20. *)
Definition vpn_record (d : device) (c : cmsg) : option nat :=
  if (cm_level c =? 0) && (cm_type c =? 8) && (12 <=? length (cm_data c))%nat then
    if is_active_vpn_ifindex (dv_vpns d) (le_at 4 (cm_data c) 0) then Some 0%nat else None
  else if (cm_level c =? 41) && (cm_type c =? 50) && (20 <=? length (cm_data c))%nat then
    if is_active_vpn_ifindex (dv_vpns d) (le_at 4 (cm_data c) 16) then Some 16%nat else None
  else None.

(** [c'] is [c] with the index of the cover interface in the place of a VPN's, and
    with the cover's address of the same scope, if it has one, before it. *)
Definition rewritten (ll : bytes → bool) (d : device) (c c' : cmsg) : Prop :=
  match vpn_record d c with
  | None => c' = c
  | Some off =>
      let sip := get_spoof_ip (dv_spoof d) in
      let addr := take off (cm_data c) in
      cm_level c' = cm_level c ∧ cm_type c' = cm_type c ∧ cm_pad c' = cm_pad c ∧
      length (cm_data c') = length (cm_data c) ∧
      le_at 4 (cm_data c') off = dv_cover_ifindex d ∧ drop (off + 4) (cm_data c') = drop (off + 4) (cm_data c) ∧
      (off = 16%nat →
       take off (cm_data c') =
         if ll addr then if sip_has_ipv6_linklocal sip =? 0 then addr else sip_ipv6_linklocal_addr sip
         else if ipv6_is_multicast addr then addr
         else if sip_has_ipv6 sip =? 0 then addr else sip_ipv6_addr sip)
  end.

Lemma le_at_take n bs off k : (off + n <= k)%nat → le_at n (take k bs) off = le_at n bs off.
Proof. intros H. unfold le_at, slice. rewrite !take_drop_commute, take_take. do 3 f_equal. lia. Qed.

Section rewritten.
Context (ll : bytes → bool) (d : device) (uid : Z) (hook : vpnhide_hook_idx).
Context (H6 : length (sip_ipv6_addr (get_spoof_ip (dv_spoof d))) = 16%nat).
Context (Hll : length (sip_ipv6_linklocal_addr (get_spoof_ip (dv_spoof d))) = 16%nat).

Lemma spoof_cmsg_off c : spoof_enabled d uid hook = false → spoof_cmsg ll d uid hook c = None.
Proof.
  intros Hen. unfold spoof_cmsg, spoof_data, vh_spoof_pktinfo4, vh_spoof_pktinfo6. rewrite Hen, !andb_false_r.
  by destruct (is_pktinfo4 c), (is_pktinfo6 c).
Qed.

Lemma spoof_cmsg_some c :
  spoof_enabled d uid hook = true → is_Some (spoof_cmsg ll d uid hook c) ↔ is_Some (vpn_record d c).
Proof.
  intros Hen. unfold spoof_cmsg, vpn_record, is_pktinfo4, is_pktinfo6, spoof_data, vh_spoof_pktinfo4,
    vh_spoof_pktinfo6, SOL_IP, SOL_IPV6, IP_PKTINFO, IPV6_PKTINFO. rewrite Hen, !andb_true_r, !le_at_take by lia.
  repeat (case_match; cbn [mbind option_bind]); split; intros [? ?]; done || eauto.
Qed.

Lemma count_spoofed_on cs :
  spoof_enabled d uid hook = true →
  count_spoofed ll d uid hook cs = length (filter (λ c, is_Some (vpn_record d c)) cs).
Proof.
  intros Hen. induction cs as [|c cs IH]; [done|]. rewrite count_spoofed_cons, filter_cons.
  pose proof (spoof_cmsg_some c Hen) as Hs. destruct (spoof_cmsg ll d uid hook c).
  - rewrite decide_True by (apply Hs; eauto). simpl. by rewrite IH.
  - rewrite decide_False; [done|]. intros [? ?]%Hs. done.
Qed.

Lemma shown_rewritten c :
  spoof_enabled d uid hook = true → fits 31 (dv_cover_ifindex d) → rewritten ll d c (shown ll d uid hook c).
Proof.
  intros Hen Hfit. unfold fits in Hfit.
  assert (Hf : fits (8 * Z.of_nat 4) (dv_cover_ifindex d)) by (unfold fits; lia).
  unfold rewritten, shown. pose proof (spoof_cmsg_some c Hen) as Hs.
  destruct (vpn_record d c) as [off|] eqn:Ev.
  2: { destruct (spoof_cmsg ll d uid hook c); [|done]. destruct (proj1 Hs); eauto. done. }
  unfold vpn_record in Ev. unfold spoof_cmsg, is_pktinfo4, is_pktinfo6, spoof_data, vh_spoof_pktinfo4,
    vh_spoof_pktinfo6, SOL_IP, SOL_IPV6, IP_PKTINFO, IPV6_PKTINFO. rewrite Hen, !andb_true_r, !le_at_take by lia.
  destruct ((cm_level c =? 0) && (cm_type c =? 8) && _) eqn:E4.
  - destruct (is_active_vpn_ifindex _ _) eqn:Ea in Ev; [|done]. injection Ev as <-. rewrite Ea. cbn [mbind option_bind default id].
    unfold with_data. cbn [cm_level cm_type cm_pad cm_data]. b2p. apply Nat.leb_le in H0.
    split_and!; try done.
    + rewrite !length_app, length_le_split, !length_drop, length_take. lia.
    + rewrite <- app_assoc. by rewrite le_at_head.
    + cbn [Nat.add]. rewrite <- app_assoc, drop_app_length' by (symmetry; apply length_le_split).
      rewrite skipn_firstn_comm. replace (drop 12 (cm_data c)) with (drop 8 (drop 4 (cm_data c))) by (by rewrite drop_drop).
      apply take_drop.
  - destruct ((cm_level c =? 41) && (cm_type c =? 50) && _) eqn:E6; [|done].
    destruct (is_active_vpn_ifindex _ _) eqn:Ea in Ev; [|done]. injection Ev as <-. rewrite Ea. cbn [mbind option_bind default id].
    unfold with_data. cbn [cm_level cm_type cm_pad cm_data]. b2p. apply Nat.leb_le in H0.
    assert (Hc : length (cover_addr6 ll d (take 16 (take 20 (cm_data c)))) = 16%nat).
    { unfold cover_addr6. cbv zeta. repeat case_match; auto; rewrite !length_take; lia. }
    split_and!; try done.
    + rewrite !length_app, Hc, length_le_split, length_drop. lia.
    + rewrite <- app_assoc. by rewrite (le_at_off _ 4).
    + rewrite <- app_assoc, app_assoc. rewrite drop_app_length'; [done|]. rewrite length_app, Hc, length_le_split. done.
    + intros _. rewrite <- app_assoc, take_app_length' by done. rewrite take_take. cbn [Nat.min].
      unfold cover_addr6, nonzero. cbv zeta.
      destruct (ll (take 16 (cm_data c))), (ipv6_is_multicast (take 16 (cm_data c))); cbn [negb];
        repeat case_match; b2p; done || lia.
Qed.

(** When the cover is no VPN, no index of a VPN remains. *)
Lemma rewritten_no_vpn c c' :
  is_active_vpn_ifindex (dv_vpns d) (dv_cover_ifindex d) = false → rewritten ll d c c' → vpn_record d c' = None.
Proof.
  intros Hcov. unfold rewritten. destruct (vpn_record d c) as [off|] eqn:Ev; [|by intros ->].
  intros (Hl & Ht & _ & Hn & Hi & _). unfold vpn_record in *. rewrite Hl, Ht, Hn.
  destruct (_ && _ && (12 <=? _)%nat) eqn:E4.
  - destruct (is_active_vpn_ifindex _ _) in Ev; [|done]. injection Ev as <-. by rewrite Hi, Hcov.
  - destruct (_ && _ && (20 <=? _)%nat); [|done].
    destruct (is_active_vpn_ifindex _ _) in Ev; [|done]. injection Ev as <-. by rewrite Hi, Hcov.
Qed.
End rewritten.


(** C29: the walk is exact on what the kernel writes.  On a buffer of control
    messages, in the native or the compat layout, the padding of the last one
    possibly cut off: when the hook is on for a target and a cover interface is
    set, exactly the packet information of VPN interfaces is rewritten, to the
    cover's index and, for IPv6, its address of the same scope; each is counted
    once; every other message and all other memory is left alone; and no index of
    a VPN remains provided the cover itself is not one.  With the hook off, for
    another UID or without a cover interface nothing is rewritten or counted. *)
Theorem pktinfo_rewrite_exact ll d data msg m st cs :
  let compat := nonzero (Z.land (mh_flags msg) MSG_CMSG_COMPAT) in
  let buf := encode_cmsgs compat cs in
  let on := is_hook_active (dv_policy d) (rv_hook data) (rv_uid data) &&
            is_target_uid_val (dv_policy d) (rv_uid data) && (0 <? dv_cover_ifindex d) in
  length (sip_ipv6_addr (get_spoof_ip (dv_spoof d))) = 16%nat →
  length (sip_ipv6_linklocal_addr (get_spoof_ip (dv_spoof d))) = 16%nat →
  dv_cover_ifindex d < 2 ^ 31 →
  rv_control_start data ≠ 0 → mh_control_is_user msg = true →
  rv_controllen_start data - mh_controllen msg = Z.of_nat (length buf) →
  cmsgs_ok compat cs → copy_in m (rv_control_start data) (length buf) = Some buf →
  ∃ m' cs' hits, vh_rewrite_pktinfo_cmsgs ll d data msg m st = Some (m', record_hits (rv_uid data) hits st) ∧
    copy_in m' (rv_control_start data) (length buf) = Some (encode_cmsgs compat cs') ∧
    (∀ x, x < rv_control_start data ∨ rv_control_start data + Z.of_nat (length buf) <= x →
       m' !! x = m !! x) ∧
    (on = true →
       Forall2 (rewritten ll d) cs cs' ∧ hits = length (filter (λ c, is_Some (vpn_record d c)) cs) ∧
       (is_active_vpn_ifindex (dv_vpns d) (dv_cover_ifindex d) = false →
        Forall (λ c, vpn_record d c = None) cs')) ∧
    (on = false → cs' = cs ∧ hits = 0%nat).
Proof.
  intros compat buf on H6 Hll Hcov Hnz Hus Hlen Hok Hm. unfold vh_rewrite_pktinfo_cmsgs.
  rewrite (proj2 (Z.eqb_neq _ 0) Hnz), Hus, (proj2 (Z.ltb_ge _ _)) by lia. cbn [orb negb]. cbv zeta.
  fold compat. rewrite Hlen, Nat2Z.id.
  destruct (cmsg_loop_exact ll d data compat H6 Hll cs (S (length buf)) 0 m st (Z.of_nat (length buf)))
    as (m' & E & Hm' & Hfr); auto; try lia.
  - unfold buf. clear. induction cs as [|c cs IH]; [simpl; lia|].
    change (encode_cmsgs compat (c :: cs)) with (encode_cmsg compat c ++ encode_cmsgs compat cs).
    rewrite length_app. simpl. unfold encode_cmsg at 1. rewrite length_app.
    pose proof (header_length compat c). unfold header_len in *. destruct compat; lia.
  - by rewrite Z.add_0_r.
  - rewrite Z.add_0_r in Hm', Hfr. eexists m', _, _. split_and!; [exact E|exact Hm'|exact Hfr|..].
    + intros Hon. assert (Hfit : fits 31 (dv_cover_ifindex d)).
      { unfold on in Hon. b2p. unfold fits. lia. }
      assert (Hall : Forall2 (rewritten ll d) cs (shown ll d (rv_uid data) (rv_hook data) <$> cs)).
      { apply Forall2_fmap_r, Forall_Forall2_diag, Forall_true. intros c. by apply shown_rewritten. }
      split_and!; [exact Hall|by apply count_spoofed_on|]. intros Hc.
      apply Forall_forall. intros c' Hin. apply list_elem_of_lookup in Hin as [i Hi].
      destruct (Forall2_lookup_r _ _ _ _ _ Hall Hi) as (c & _ & Hr). by eapply rewritten_no_vpn.
    + intros Hon. assert (Hnone : ∀ c, spoof_cmsg ll d (rv_uid data) (rv_hook data) c = None)
        by (intros c; by apply spoof_cmsg_off). split.
      * rewrite <- (list_fmap_id cs) at 2. apply list_fmap_ext. intros i c _. unfold shown. by rewrite Hnone.
      * unfold count_spoofed. clear -Hnone. induction cs as [|c cs IH]; [done|]. simpl. by rewrite Hnone.
Qed.

Definition cover_device : device := set_cover target_device 3 (dv_cover_ifname target_device).
Definition example_cmsg (ifindex : Z) : cmsg :=
  mk_cmsg SOL_IP IP_PKTINFO (le_split 4 ifindex ++ replicate 8 x0a) (replicate 4 x00).

(** The padding of the second message is cut off. *)
Definition example_last : cmsg := mk_cmsg SOL_IP IP_PKTINFO (le_split 4 2 ++ replicate 8 x0a) [x00].

Lemma pktinfo_rewrite_exact_witness :
  let buf := encode_cmsgs false [example_cmsg 30; example_last] in
  let m := put_bytes 4096 buf ∅ in
  ∃ m' cs', vh_rewrite_pktinfo_cmsgs (λ _, false) cover_device (mk_recv 4096 61 10123 HOOK_GETNAME_INET)
          (mk_msghdr true 0 0 0) m (dv_stats cover_device) =
        Some (m', record_kmod_intercept (dv_stats cover_device) 10123 5) ∧
    copy_in m' 4096 61 = Some (encode_cmsgs false cs') ∧
    Forall2 (rewritten (λ _, false) cover_device) [example_cmsg 30; example_last] cs' ∧
    Forall (λ c, vpn_record cover_device c = None) cs'.
Proof.
  intros buf m.
  destruct (pktinfo_rewrite_exact (λ _, false) cover_device (mk_recv 4096 61 10123 HOOK_GETNAME_INET)
    (mk_msghdr true 0 0 0) m (dv_stats cover_device) [example_cmsg 30; example_last])
    as (m' & cs' & hits & E & Hm' & _ & Hon & _).
  - reflexivity.
  - reflexivity.
  - vm_compute. reflexivity.
  - discriminate.
  - reflexivity.
  - vm_compute. reflexivity.
  - split; [|exists [x00; x00; x00]]; repeat split; vm_compute; reflexivity || discriminate.
  - vm_compute. reflexivity.
  - destruct (Hon ltac:(vm_compute; reflexivity)) as (Hr & Hh & Hv). exists m', cs'. split; [|split; [exact Hm'|split; [exact Hr|]]].
    + rewrite E, Hh. vm_compute. reflexivity.
    + apply Hv. vm_compute. reflexivity.
Defined.
