(* ===== verification/Netlink.v ===== *)
(** * Netlink dumps and interface ioctls

    The probes of [kmod/hooks_netlink.c] on the kernel functions that write one
    record of a netlink dump (a link, an address, a route, a rule, a queueing
    discipline) and on the two ioctls that answer for one interface by name.  A
    record about a VPN is cut off the socket buffer again after the kernel wrote
    it.  What a probe finds behind a kernel pointer is data of the object given
    to it: a pointer is an [option], and a read through
    [copy_from_kernel_nofault] an [option] around what it reads. *)
From Stdlib Require Import Strings.Byte Strings.String ZArith Lia.
From stdpp Require Import base gmap numbers list.
From S2P Require Import Prelude Abi Snapshot PolicyQuery UserMem OwnedPorts Stats Device SockOpt.

(** ** Interface ioctls *)

Definition SIOCGIFADDR : Z := 0x8915.
Definition SIOCGIFDSTADDR : Z := 0x8917.
Definition SIOCGIFBRDADDR : Z := 0x8919.
Definition SIOCGIFNETMASK : Z := 0x891b.
Definition NEG_ENODEV_ : Z := -19.

(** The shared guard of the entry handlers: the hook is on for the caller and
    the caller is a target. *)
Definition guarded (hook : vpnhide_hook_idx) (d : device) (uid : Z) : bool :=
  is_hook_active (dv_policy d) hook uid && is_target d uid.

(** [name[IFNAMSIZ - 1] = '\0'] *)
Definition terminate_name (name : bytes) : bytes := take 15 name ++ [x00].

Record dev_ioctl_data := mk_dev_ioctl { di_cmd : Z; di_kifr : Z }.

Definition dev_ioctl_entry (d : device) (uid cmd kifr : Z) : option dev_ioctl_data :=
  if guarded HOOK_DEV_IOCTL d uid then Some (mk_dev_ioctl (u32 cmd) kifr) else None.

Definition hide_ifname (d : device) (uid : Z) (name : bytes) (retval : Z) (st : stats_state)
    : Z * stats_state :=
  if is_active_vpn_ifname (dv_vpns d) (terminate_name name)
  then (NEG_ENODEV_, record_kmod_intercept st uid 0)
  else (retval, st).

(** [ifr_name] is the name field of the kernel's [ifreq] when the call returns
    (an output of [SIOCGIFNAME]). *)
Definition dev_ioctl_ret (d : device) (uid : Z) (data : dev_ioctl_data) (ifr_name : bytes) (retval : Z)
    (st : stats_state) : Z * stats_state :=
  if negb (retval =? 0) then (retval, st)
  else if di_kifr data =? 0 then (retval, st)
  else hide_ifname d uid ifr_name retval st.

Record inet_ioctl_data := mk_inet_ioctl { ii_cmd : Z; ii_uarg : Z }.

Definition inet_ioctl_entry (d : device) (uid cmd uarg : Z) : option inet_ioctl_data :=
  let cmd := u32 cmd in
  if negb (bool_decide (cmd ∈ [SIOCGIFADDR; SIOCGIFDSTADDR; SIOCGIFBRDADDR; SIOCGIFNETMASK])) then None
  else if guarded HOOK_DEV_IOCTL d uid then Some (mk_inet_ioctl cmd uarg) else None.

Definition inet_ioctl_ret (d : device) (uid : Z) (data : inet_ioctl_data) (retval : Z) (m : umem)
    (st : stats_state) : Z * stats_state :=
  if negb (retval =? 0) then (retval, st)
  else if ii_uarg data =? 0 then (retval, st)
  else match copy_in m (ii_uarg data) 16 with
       | None => (retval, st)
       | Some name => hide_ifname d uid name retval st
       end.

(** ** Kernel objects a record is written from *)

Record net_device := mk_net_device { nd_ifindex : Z; nd_name : bytes }.

(** [nh_info]: [fib_nhc.nhc_dev]. *)
Record nh_info := mk_nh_info { nhi_dev : option (option net_device) }.

Inductive nexthop :=
  | mk_nexthop (is_group : option bool) (nh_grp : option (option nh_group))
      (info : option (option nh_info))
with nh_group :=
  | mk_nh_group (num_nh : option Z) (entry0 : option (option nexthop)).

Record fib_info := mk_fib_info {
  fi_nh : option (option nexthop);
  fi_fib_nhs : option Z;
  fi_nh0_dev : option (option net_device)   (* fib_nh[0].nh_common.nhc_dev *)
}.

(** A read of a pointer that counts only when it succeeds. *)
Definition nofault_ptr {A} (r : option (option A)) : option A := default None r.

Definition nexthop_info (nh : nexthop) : option nh_info :=
  let '(mk_nexthop _ _ info) := nh in nofault_ptr info.

Definition group_dev (grp : nh_group) : option net_device :=
  let '(mk_nh_group num_nh entry0) := grp in
  if 0 <? default 0 num_nh then
    match nofault_ptr entry0 with
    | Some nhe => info ← nexthop_info nhe; nofault_ptr (nhi_dev info)
    | None => None
    end
  else None.

Definition vpnhide_get_fib_info_dev (fi : option fib_info) : option net_device :=
  match fi with
  | None => None
  | Some fi =>
      match nofault_ptr (fi_nh fi) with
      | Some ((mk_nexthop is_group nh_grp _) as nh) =>
          if default false is_group then nofault_ptr nh_grp ≫= group_dev
          else info ← nexthop_info nh; nofault_ptr (nhi_dev info)
      | None =>
          if 0 <? default 0 (fi_fib_nhs fi) then nofault_ptr (fi_nh0_dev fi) else None
      end
  end.

(** [fib_rule]: the two names are 16-byte arrays. *)
Record fib_rule := mk_fib_rule {
  fr_iifname : bytes;
  fr_oifname : bytes;
  fr_start : Z;
  fr_end : Z;
  fr_table : Z
}.

(** ** Record probes *)

(** The data of the record probes; [fd_skb] is [data->skb != NULL]. *)
Record fill_data := mk_fill_data {
  fd_skb : bool;
  fd_saved_len : Z;
  fd_should_filter : bool
}.

(** [data->saved_len = data->skb ? data->skb->len : 0] *)
Definition start_filter (skb : option bytes) : fill_data :=
  match skb with
  | Some s => mk_fill_data true (Z.of_nat (length s)) true
  | None => mk_fill_data false 0 true
  end.

Definition skb_trim (skb : bytes) (len : Z) : bytes := take (Z.to_nat len) skb.

(** [dev && is_active_vpn_ifindex(dev->ifindex)] *)
Definition is_vpn_dev (d : device) (dev : option net_device) : bool :=
  match dev with
  | Some dev => is_active_vpn_ifindex (dv_vpns d) (u32 (nd_ifindex dev))
  | None => false
  end.

Definition rtnl_fill_entry (d : device) (uid : Z) (dev : option net_device) (skb : option bytes)
    : option fill_data :=
  if negb (guarded HOOK_RTNL_FILL d uid) then None
  else if negb (is_vpn_dev d dev) then None else Some (start_filter skb).

(** What a fill handler leaves: the buffer, the return value, the counters. *)
Definition fill_end : Type := bytes * Z * stats_state.

Definition rtnl_fill_ret (uid : Z) (data : fill_data) (skb : bytes) (retval : Z) (st : stats_state)
    : fill_end :=
  if negb (fd_should_filter data) || negb (fd_skb data) then (skb, retval, st)
  else (skb_trim skb (fd_saved_len data), 0, record_kmod_intercept st uid 1).

(** [ifa]: its [idev] and the device of that. *)
Definition inet6_fill_entry (d : device) (uid : Z) (ifa : option (option (option net_device)))
    (skb : option bytes) : option fill_data :=
  if negb (guarded HOOK_INET6_FILL d uid) then None
  else match ifa with
       | Some (Some (Some dev)) =>
           if negb (is_active_vpn_ifindex (dv_vpns d) (u32 (nd_ifindex dev))) then None
           else Some (start_filter skb)
       | _ => None
       end.

Definition inet6_fill_ret (uid : Z) (data : fill_data) (skb : bytes) (retval : Z) (st : stats_state)
    : fill_end :=
  if negb (fd_should_filter data) || negb (fd_skb data) then (skb, retval, st)
  else (skb_trim skb (fd_saved_len data), 0, record_kmod_intercept st uid 1).

Definition inet_fill_entry (d : device) (uid : Z) (ifa : option (option (option net_device)))
    (skb : option bytes) : option fill_data :=
  if negb (guarded HOOK_INET_FILL d uid) then None
  else match ifa with
       | Some (Some (Some dev)) =>
           if negb (is_active_vpn_ifindex (dv_vpns d) (u32 (nd_ifindex dev))) then None
           else Some (start_filter skb)
       | _ => None
       end.

Definition inet_fill_ret (uid : Z) (data : fill_data) (skb : bytes) (retval : Z) (st : stats_state)
    : fill_end :=
  if negb (fd_should_filter data) || negb (fd_skb data) then (skb, retval, st)
  else (skb_trim skb (fd_saved_len data), 0, record_kmod_intercept st uid 1).

(** [fri]: NULL, an unreadable [fib_rt_info], or its [fi]. *)
Definition fib_dump_entry (d : device) (uid : Z) (fri : option (option (option fib_info)))
    (skb : option bytes) : option fill_data :=
  if negb (guarded HOOK_FIB_DUMP d uid) then None
  else match fri with
       | Some (Some (Some fi)) =>
           if is_vpn_dev d (vpnhide_get_fib_info_dev (Some fi)) then Some (start_filter skb) else None
       | _ => None
       end.

Definition fib_dump_ret (uid : Z) (data : fill_data) (skb : bytes) (retval : Z) (st : stats_state)
    : fill_end :=
  if negb (fd_should_filter data) || negb (fd_skb data) then (skb, retval, st)
  else if 0 <=? retval then (skb_trim skb (fd_saved_len data), 0, record_kmod_intercept st uid 1)
  else (skb, retval, st).

Definition rule_names_vpn (d : device) (name : bytes) : bool :=
  negb (bool_decide (head name = Some x00)) && is_active_vpn_ifname (dv_vpns d) name.

(** A rule for an application's UIDs, or a target's, into a table of its own. *)
Definition splits_uids (d : device) (rule : fib_rule) : bool :=
  let start := fr_start rule in
  let end_ := fr_end rule in
  ((10000 <=? start) || (10000 <=? end_) || is_target d start || is_target d end_) &&
  negb (end_ =? UINT32_MAX) &&
  (negb (fr_table rule =? 254) && negb (fr_table rule =? 255) && negb (fr_table rule =? 253) &&
   (100 <? fr_table rule)).

Definition rule_hidden (d : device) (rule : fib_rule) : bool :=
  if rule_names_vpn d (fr_iifname rule) || rule_names_vpn d (fr_oifname rule) then true else splits_uids d rule.

Definition fib_rule_fill_entry (d : device) (uid : Z) (rule : option fib_rule) (skb : option bytes)
    : option fill_data :=
  if negb (guarded HOOK_FIB_RULE_FILL d uid) then None
  else match rule with
       | None => None
       | Some rule => if negb (rule_hidden d rule) then None else Some (start_filter skb)
       end.

Definition fib_rule_fill_ret (uid : Z) (data : fill_data) (skb : bytes) (retval : Z) (st : stats_state)
    : fill_end :=
  if negb (fd_should_filter data) || negb (fd_skb data) then (skb, retval, st)
  else if 0 <=? retval then (skb_trim skb (fd_saved_len data), 0, record_kmod_intercept st uid 1)
  else (skb, retval, st).

(** [rt]: NULL, or the device at [rt->fib6_nh->nh_common.nhc_dev]; [dst]: NULL,
    or its device. *)
Definition rt6_is_vpn (d : device) (rt dst : option (option net_device)) : bool :=
  match rt with
  | Some dev => is_vpn_dev d dev
  | None => match dst with Some dev => is_vpn_dev d dev | None => false end
  end.

Definition rt6_fill_entry (d : device) (uid : Z) (rt dst : option (option net_device))
    (skb : option bytes) : option fill_data :=
  if negb (guarded HOOK_RT6_FILL d uid) then None
  else if rt6_is_vpn d rt dst then Some (start_filter skb) else None.

Definition rt6_fill_ret (uid : Z) (data : fill_data) (skb : bytes) (retval : Z) (st : stats_state)
    : fill_end :=
  if negb (fd_should_filter data) || negb (fd_skb data) then (skb, retval, st)
  else if 0 <=? retval then (skb_trim skb (fd_saved_len data), 0, record_kmod_intercept st uid 1)
  else (skb, retval, st).

(** [rt]: NULL, or the read of [rt->dst.dev]; the length of the buffer is read
    with [copy_from_kernel_nofault] too, [len_ok] when it succeeds. *)
Definition rt_fill_entry (d : device) (uid : Z) (rt : option (option (option net_device)))
    (len_ok : bool) (skb : option bytes) : option fill_data :=
  if negb (guarded HOOK_RT_FILL d uid) then None
  else if negb (is_vpn_dev d (rt ≫= nofault_ptr)) then None
  else Some match skb with
            | Some s => if len_ok then mk_fill_data true (Z.of_nat (length s)) true
                        else mk_fill_data false 0 true
            | None => mk_fill_data false 0 true
            end.

Definition rt_fill_ret (uid : Z) (data : fill_data) (skb : bytes) (retval : Z) (st : stats_state)
    : fill_end :=
  if negb (fd_should_filter data) || negb (fd_skb data) then (skb, retval, st)
  else if 0 <=? retval then (skb_trim skb (fd_saved_len data), 0, record_kmod_intercept st uid 1)
  else (skb, retval, st).

(** The queueing discipline's probe knows its record only afterwards: the
    interface index is 20 bytes into it ([nlmsghdr], then [tcm_family] and
    padding). *)
Record tc_fill_qdisc_data := mk_tc_data { tc_skb : bool; tc_saved_len : Z }.

Definition tc_fill_qdisc_entry (d : device) (uid : Z) (skb : option bytes) : option tc_fill_qdisc_data :=
  if negb (is_hook_active (dv_policy d) HOOK_TC_FILL_QDISC uid) then None
  else if negb (is_target d uid) then None
  else Some match skb with
            | Some s => mk_tc_data true (s32 (Z.of_nat (length s)))
            | None => mk_tc_data false 0
            end.

Definition ifindex_off : nat := 20.

(** [read_ok]: the [copy_from_kernel_nofault] of the index succeeds. *)
Definition tc_fill_qdisc_ret (d : device) (uid : Z) (data : tc_fill_qdisc_data) (read_ok : bool)
    (skb : bytes) (retval : Z) (st : stats_state) : fill_end :=
  if negb (retval =? 0) then (skb, retval, st)
  else if negb (tc_skb data) then (skb, retval, st)
  else if Z.of_nat (length skb) <? u32 (s32 (tc_saved_len data + 24)) then (skb, retval, st)
  else if negb read_ok then (skb, retval, st)
  else
    let ifindex := s32 (le_at 4 skb (Z.to_nat (tc_saved_len data) + ifindex_off)) in
    if (0 <? ifindex) && is_active_vpn_ifindex (dv_vpns d) (u32 ifindex)
    then (skb_trim skb (tc_saved_len data), retval, record_kmod_intercept st uid 1)
    else (skb, retval, st).

(** ** A dump *)

(** The object a record is written from, by the kernel function that writes it. *)
Inductive fill_object :=
  | Link (dev : option net_device)                          (* rtnl_fill_ifinfo *)
  | Addr6 (ifa : option (option (option net_device)))       (* inet6_fill_ifaddr *)
  | Addr4 (ifa : option (option (option net_device)))       (* inet_fill_ifaddr *)
  | FibRoute (fri : option (option (option fib_info)))      (* fib_dump_info *)
  | Rule (rule : option fib_rule)                           (* fib_nl_fill_rule *)
  | Route6 (rt dst : option (option net_device))            (* rt6_fill_node *)
  | Route4 (rt : option (option (option net_device))).      (* rt_fill_info *)

Definition fill_entry (d : device) (uid : Z) (o : fill_object) (skb : option bytes) : option fill_data :=
  match o with
  | Link dev => rtnl_fill_entry d uid dev skb
  | Addr6 ifa => inet6_fill_entry d uid ifa skb
  | Addr4 ifa => inet_fill_entry d uid ifa skb
  | FibRoute fri => fib_dump_entry d uid fri skb
  | Rule rule => fib_rule_fill_entry d uid rule skb
  | Route6 rt dst => rt6_fill_entry d uid rt dst skb
  | Route4 rt => rt_fill_entry d uid rt true skb
  end.

Definition fill_ret (uid : Z) (o : fill_object) : fill_data → bytes → Z → stats_state → fill_end :=
  match o with
  | Link _ => rtnl_fill_ret uid
  | Addr6 _ => inet6_fill_ret uid
  | Addr4 _ => inet_fill_ret uid
  | FibRoute _ => fib_dump_ret uid
  | Rule _ => fib_rule_fill_ret uid
  | Route6 _ _ => rt6_fill_ret uid
  | Route4 _ => rt_fill_ret uid
  end.

(** A kernel function that writes one record and its probe around it. *)
Definition probed_fill (fill : fill_object → bytes → bytes * Z) (d : device) (uid : Z) (o : fill_object)
    (skb : bytes) (st : stats_state) : fill_end :=
  let '(skb', retval) := fill o skb in
  match fill_entry d uid o (Some skb) with
  | Some data => fill_ret uid o data skb' retval st
  | None => (skb', retval, st)
  end.

(** A netlink dump: the objects in order until one does not fit; the rest is
    left for the next buffer. *)
Fixpoint dump (fill : fill_object → bytes → bytes * Z) (objs : list fill_object) (skb : bytes)
    : bytes * list fill_object :=
  match objs with
  | [] => (skb, [])
  | o :: objs' =>
      let '(skb', retval) := fill o skb in
      if retval <? 0 then (skb', o :: objs') else dump fill objs' skb'
  end.

Fixpoint probed_dump (fill : fill_object → bytes → bytes * Z) (d : device) (uid : Z)
    (objs : list fill_object) (skb : bytes) (st : stats_state) : bytes * list fill_object * stats_state :=
  match objs with
  | [] => (skb, [], st)
  | o :: objs' =>
      let '(skb', retval, st') := probed_fill fill d uid o skb st in
      if retval <? 0 then (skb', o :: objs', st') else probed_dump fill d uid objs' skb' st'
  end.

(** ** What is hidden *)

Definition object_hook (o : fill_object) : vpnhide_hook_idx :=
  match o with
  | Link _ => HOOK_RTNL_FILL
  | Addr6 _ => HOOK_INET6_FILL
  | Addr4 _ => HOOK_INET_FILL
  | FibRoute _ => HOOK_FIB_DUMP
  | Rule _ => HOOK_FIB_RULE_FILL
  | Route6 _ _ => HOOK_RT6_FILL
  | Route4 _ => HOOK_RT_FILL
  end.

(** The interface a route leaves by, as far as the kernel's structures can be
    read: that of its next-hop object, of the first member when that is a group
    with members, or without such an object that of its first hop. *)
Definition hop_dev (hop : nexthop) : option net_device :=
  match hop with mk_nexthop _ _ (Some (Some (mk_nh_info dev))) => mjoin dev | _ => None end.

Definition route_dev (fi : fib_info) : option net_device :=
  match fi with
  | mk_fib_info (Some (Some (mk_nexthop (Some true) group _))) _ _ =>
      match group with
      | Some (Some (mk_nh_group (Some num) (Some (Some first)))) => if 0 <? num then hop_dev first else None
      | _ => None
      end
  | mk_fib_info (Some (Some hop)) _ _ => hop_dev hop
  | mk_fib_info _ (Some num) dev => if 0 <? num then mjoin dev else None
  | _ => None
  end.

Lemma hop_dev_spec hop : (info ← nexthop_info hop; nofault_ptr (nhi_dev info)) = hop_dev hop.
Proof. by destruct hop as [? ? [[[[|]]|]|]]. Qed.

Lemma route_dev_spec fi : vpnhide_get_fib_info_dev (Some fi) = route_dev fi.
Proof.
  unfold vpnhide_get_fib_info_dev, route_dev.
  destruct fi as [[[[[[]|] grp info]|]|] nhs dev]; cbn [fi_nh fi_fib_nhs fi_nh0_dev nofault_ptr default id];
    rewrite ?hop_dev_spec; try by destruct nhs as [num|], dev.
  destruct grp as [[[[num|] first]|]|]; try done. cbn [nofault_ptr default id mbind option_bind group_dev].
  destruct first as [[hop|]|]; cbn [nofault_ptr default id]; rewrite ?hop_dev_spec; by destruct (0 <? num).
Qed.

(** The interface a record names; a rule names none. *)
Definition object_dev (o : fill_object) : option net_device :=
  match o with
  | Link dev => dev
  | Addr6 ifa | Addr4 ifa => mjoin (mjoin ifa)
  | FibRoute fri => mjoin (mjoin fri) ≫= route_dev
  | Rule _ => None
  | Route6 rt dst => if rt is Some dev then dev else mjoin dst
  | Route4 rt => rt ≫= nofault_ptr
  end.

(** A rule gives a VPN away when one of its two names is a VPN's, or when it sends
    an application or a target to a table above 100 that is none of the system's. *)
Definition rule_vpn (d : device) (rule : fib_rule) : bool :=
  existsb (is_active_vpn_ifname (dv_vpns d)) [fr_iifname rule; fr_oifname rule] ||
  (bool_decide (fr_end rule ≠ UINT32_MAX) && bool_decide (fr_table rule ∉ [253; 254; 255]) && (100 <? fr_table rule) &&
   existsb (λ u, (10000 <=? u) || is_target d u) [fr_start rule; fr_end rule]).

Lemma rule_names_vpn_spec d name : rule_names_vpn d name = is_active_vpn_ifname (dv_vpns d) name.
Proof.
  unfold rule_names_vpn, is_active_vpn_ifname. destruct name as [|c name]; [done|]. cbn [head cstr].
  destruct (decide (c = x00)) as [->|Hc]; [done|]. by rewrite !(bool_decide_eq_false_2 (_ = x00)), bool_decide_eq_false_2 by congruence.
Qed.

Lemma rule_vpn_spec d rule : rule_hidden d rule = rule_vpn d rule.
Proof.
  unfold rule_hidden, rule_vpn, splits_uids. cbn [existsb]. rewrite !rule_names_vpn_spec, !orb_false_r. cbv zeta.
  destruct (_ || _); [done|]. cbn [orb].
  apply eq_bool_prop_intro. rewrite !Is_true_true.
  rewrite !andb_true_iff, !orb_true_iff, !negb_true_iff, !bool_decide_eq_true, !Z.eqb_neq, !Z.leb_le, !not_elem_of_cons.
  pose proof (not_elem_of_nil (fr_table rule)). tauto.
Qed.

Definition object_vpn (d : device) (o : fill_object) : bool :=
  match o with
  | Rule (Some rule) => rule_vpn d rule
  | _ => is_vpn_dev d (object_dev o)
  end.

Definition hidden (d : device) (uid : Z) (o : fill_object) : bool :=
  guarded (object_hook o) d uid && object_vpn d o.

Definition visible (d : device) (uid : Z) (o : fill_object) : Prop := hidden d uid o = false.

#[global] Instance visible_dec d uid o : Decision (visible d uid o).
Proof. unfold visible. apply _. Defined.

(** The probes on links and addresses drop a record whatever the fill
    returned; the others only when it succeeded. *)
Definition trims_always (o : fill_object) : bool :=
  match o with Link _ | Addr6 _ | Addr4 _ => true | _ => false end.

(** What the kernel's record functions promise: a record is appended, and one
    that does not fit leaves the buffer as it was. *)
Class FillLaws (fill : fill_object → bytes → bytes * Z) := {
  fill_appends o skb : ∃ record, (fill o skb).1 = skb ++ record;
  fill_cancels o skb : (fill o skb).2 < 0 → (fill o skb).1 = skb
}.

Lemma fill_entry_hidden d uid o skb :
  fill_entry d uid o (Some skb) =
  if hidden d uid o then Some (start_filter (Some skb)) else None.
Proof.
  destruct o as [dev|ifa|ifa|fri|rule|rt dst|rt]; unfold hidden; simpl.
  - unfold rtnl_fill_entry. by destruct (guarded _ _ _), (is_vpn_dev d dev).
  - unfold inet6_fill_entry. destruct (guarded _ _ _); [|done].
    destruct ifa as [[[dev|]|]|]; simpl; try done. by destruct (is_active_vpn_ifindex _ _).
  - unfold inet_fill_entry. destruct (guarded _ _ _); [|done].
    destruct ifa as [[[dev|]|]|]; simpl; try done. by destruct (is_active_vpn_ifindex _ _).
  - unfold fib_dump_entry. destruct (guarded _ _ _); [|done].
    destruct fri as [[[fi|]|]|]; try done. cbn [mjoin option_join mbind option_bind]. by rewrite route_dev_spec.
  - unfold fib_rule_fill_entry. destruct (guarded _ _ _), rule as [rule|]; simpl; try done.
    rewrite rule_vpn_spec. by destruct (rule_vpn d rule).
  - unfold rt6_fill_entry, rt6_is_vpn. by destruct (guarded _ _ _), rt, dst; simpl.
  - unfold rt_fill_entry. by destruct (guarded _ _ _), (is_vpn_dev d _).
Qed.

Lemma fill_ret_start uid o skb skb' retval st :
  fill_ret uid o (start_filter (Some skb)) skb' retval st =
  if trims_always o || (0 <=? retval)
  then (take (length skb) skb', 0, record_kmod_intercept st uid 1) else (skb', retval, st).
Proof.
  destruct o; simpl; unfold rtnl_fill_ret, inet6_fill_ret, inet_fill_ret, fib_dump_ret,
    fib_rule_fill_ret, rt6_fill_ret, rt_fill_ret, skb_trim; simpl; rewrite ?Nat2Z.id; done.
Qed.

Section dump.
Context (fill : fill_object → bytes → bytes * Z) `{!FillLaws fill} (d : device) (uid : Z).

(** The three ways a probed fill can end. *)
Lemma probed_fill_cases o skb st :
  (hidden d uid o = false ∧ probed_fill fill d uid o skb st = (fill o skb, st)) ∨
  (hidden d uid o = true ∧ (trims_always o = true ∨ 0 <= (fill o skb).2) ∧
   probed_fill fill d uid o skb st = (skb, 0, record_kmod_intercept st uid 1)) ∨
  (hidden d uid o = true ∧ trims_always o = false ∧ (fill o skb).2 < 0 ∧
   probed_fill fill d uid o skb st = (skb, (fill o skb).2, st)).
Proof.
  pose proof (fill_appends o skb) as [r Hr]. pose proof (fill_cancels o skb) as Hc.
  unfold probed_fill. destruct (fill o skb) as [skb' retval]. simpl in *. subst skb'.
  rewrite fill_entry_hidden. destruct (hidden d uid o); [right|by left].
  rewrite fill_ret_start. destruct (trims_always o) eqn:Ht; simpl.
  - left. by rewrite take_app_length; auto.
  - destruct (Z.leb_spec 0 retval).
    + left. by rewrite take_app_length; auto.
    + right. by rewrite Hc.
Qed.

Lemma probed_dump_consumed objs skb st :
  let '(skb', rest, _) := probed_dump fill d uid objs skb st in
  ∃ consumed, objs = consumed ++ rest ∧
    dump fill (filter (visible d uid) consumed) skb = (skb', []).
Proof.
  revert skb st. induction objs as [|o objs IH]; intros skb st; [by exists []|]. cbn [probed_dump].
  destruct (probed_fill_cases o skb st) as [[Hv ->]|[(Hh & _ & ->)|(Hh & _ & Hneg & ->)]].
  - pose proof (fill_cancels o skb) as Hc. destruct (fill o skb) as [skb' retval] eqn:Hf. simpl in *.
    destruct (Z.ltb_spec retval 0).
    + exists []. by rewrite Hc.
    + specialize (IH skb' st). destruct (probed_dump _ _ _ _ _ _) as [[s rest] st'].
      destruct IH as (consumed & -> & Hd). exists (o :: consumed). split; [done|].
      rewrite filter_cons_True by done. cbn [dump]. rewrite Hf, (proj2 (Z.ltb_ge retval 0)) by lia. done.
  - specialize (IH skb (record_kmod_intercept st uid 1)).
    destruct (probed_dump _ _ _ _ _ _) as [[s rest] st']. destruct IH as (consumed & -> & Hd).
    exists (o :: consumed). split; [done|]. rewrite filter_cons_False; [done|].
    unfold visible. by rewrite Hh.
  - rewrite (proj2 (Z.ltb_lt _ 0)) by lia. by exists [].
Qed.

Lemma probed_dump_visible objs skb st :
  (∀ o, o ∈ objs → hidden d uid o = true → trims_always o = true ∨ ∀ s, 0 <= (fill o s).2) →
  let '(skb', rest, _) := probed_dump fill d uid objs skb st in
  dump fill (filter (visible d uid) objs) skb = (skb', filter (visible d uid) rest).
Proof.
  revert skb st. induction objs as [|o objs IH]; intros skb st Hfit; [done|]. cbn [probed_dump].
  destruct (probed_fill_cases o skb st) as [[Hv ->]|[(Hh & _ & ->)|(Hh & Ht & Hneg & ->)]].
  - destruct (fill o skb) as [skb' retval] eqn:Hf. rewrite filter_cons_True by done.
    cbn [dump]. rewrite Hf. destruct (Z.ltb_spec retval 0).
    + by rewrite filter_cons_True by done.
    + apply IH. intros o' Ho'. apply Hfit. by right.
  - rewrite filter_cons_False by (unfold visible; by rewrite Hh).
    apply IH. intros o' Ho'. apply Hfit. by right.
  - destruct (Hfit o ltac:(by left) Hh) as [?|Hs]; [congruence|]. specialize (Hs skb). lia.
Qed.
End dump.

(** C13: what a target reads from a netlink dump.  The buffer of a probed dump
    is the one the kernel writes for the visible objects alone, with no byte of
    a hidden link, address, route or rule; and when every hidden object's
    record fits (or is a link's or an address's, which are dropped even when
    they do not), the dump is the dump of a system that does not have the
    hidden objects, up to where the next buffer starts. *)
Theorem netlink_dump_hides fill d uid objs skb st `{!FillLaws fill} :
  let '(skb', rest, _) := probed_dump fill d uid objs skb st in
  (∃ consumed, objs = consumed ++ rest ∧
     dump fill (filter (visible d uid) consumed) skb = (skb', [])) ∧
  ((∀ o, o ∈ objs → hidden d uid o = true → trims_always o = true ∨ ∀ s, 0 <= (fill o s).2) →
   dump fill (filter (visible d uid) objs) skb = (skb', filter (visible d uid) rest)).
Proof.
  pose proof (probed_dump_consumed fill d uid objs skb st) as H1.
  pose proof (probed_dump_visible fill d uid objs skb st) as H2.
  destruct (probed_dump _ _ _ _ _ _) as [[skb' rest] st']. by split.
Qed.

(** A record of four bytes, the index of the interface, in buffers of 8. *)
Definition small_fill (o : fill_object) (skb : bytes) : bytes * Z :=
  if (4 <? length skb)%nat then (skb, -90)
  else (skb ++ le_split 4 (if object_dev o is Some dev then nd_ifindex dev else 0), 0).

#[global] Instance small_fill_laws : FillLaws small_fill.
Proof.
  constructor; intros o skb; unfold small_fill; destruct (4 <? length skb)%nat; simpl; try done; try lia.
  - exists []. by rewrite app_nil_r.
  - by eexists.
Qed.

Definition link (i : Z) : fill_object := Link (Some (mk_net_device i [])).

Lemma netlink_dump_hides_witness :
  probed_dump small_fill target_device 10123 [link 1; link 30; link 2; link 3] [] (dv_stats target_device) =
    (le_split 4 1 ++ le_split 4 2, [link 3], record_kmod_intercept (dv_stats target_device) 10123 1) ∧
  dump small_fill (filter (visible target_device 10123) [link 1; link 30; link 2; link 3]) [] =
    (le_split 4 1 ++ le_split 4 2, filter (visible target_device 10123) [link 3]).
Proof.
  split; [vm_compute; reflexivity|].
  exact (proj2 (netlink_dump_hides small_fill target_device 10123 [link 1; link 30; link 2; link 3] []
    (dv_stats target_device)) ltac:(intros o Ho _; left;
      repeat (apply elem_of_cons in Ho as [->|Ho]; [done|]); by apply elem_of_nil in Ho)).
Defined.

(** ** Queueing disciplines *)

Lemma tc_ifindex_at s r :
  le_at 4 (s ++ r) (length s + ifindex_off) = le_at 4 r ifindex_off.
Proof. unfold le_at, slice. by rewrite drop_app_add. Qed.

(** The record of a queueing discipline is removed exactly when the fill
    returned zero and the record's interface index, read back from the buffer,
    is a VPN's; a fill that reports success with any other value keeps its
    record, whatever interface it names. *)
Theorem tc_qdisc_hidden_iff d uid s r retval st :
  guarded HOOK_TC_FILL_QDISC d uid = true → (24 <= length r)%nat →
  Z.of_nat (length (s ++ r)) < 2 ^ 31 →
  let ifindex := s32 (le_at 4 r ifindex_off) in
  ∃ data, tc_fill_qdisc_entry d uid (Some s) = Some data ∧
    tc_fill_qdisc_ret d uid data true (s ++ r) retval st =
    if (retval =? 0) && (0 <? ifindex) && is_active_vpn_ifindex (dv_vpns d) (u32 ifindex)
    then (s, 0, record_kmod_intercept st uid 1) else (s ++ r, retval, st).
Proof.
  unfold guarded. intros [Ha Ht]%andb_true_iff Hr Hlen. cbv zeta.
  rewrite length_app in Hlen.
  assert (Hs : s32 (Z.of_nat (length s)) = Z.of_nat (length s)) by (apply s32_small; lia).
  unfold tc_fill_qdisc_entry. rewrite Ha, Ht. eexists. split; [done|]. rewrite Hs.
  unfold tc_fill_qdisc_ret. cbn [tc_skb tc_saved_len negb].
  destruct (Z.eqb_spec retval 0) as [->|]; [|done]. cbn [negb andb].
  assert (Hu : u32 (s32 (Z.of_nat (length s) + 24)) = Z.of_nat (length s) + 24).
  { rewrite s32_small by lia. apply wrap_small. unfold fits. lia. }
  rewrite Hu, (proj2 (Z.ltb_ge _ _)) by (rewrite length_app; lia).
  rewrite Nat2Z.id, tc_ifindex_at. destruct (_ && _); [|done].
  unfold skb_trim. by rewrite Nat2Z.id, take_app_length.
Qed.

(** A record about interface 30. *)
Definition qdisc_record : bytes := replicate 20 x00 ++ le_split 4 30 ++ replicate 8 x00.

Lemma tc_qdisc_hidden_iff_witness :
  ∃ data, tc_fill_qdisc_entry target_device 10123 (Some [x01]) = Some data ∧
    tc_fill_qdisc_ret target_device 10123 data true ([x01] ++ qdisc_record) 33 (dv_stats target_device) =
    ([x01] ++ qdisc_record, 33, dv_stats target_device).
Proof.
  exact (tc_qdisc_hidden_iff target_device 10123 [x01] qdisc_record 33 (dv_stats target_device)
    ltac:(vm_compute; reflexivity) ltac:(apply Nat.leb_le; reflexivity) ltac:(vm_compute; reflexivity)).
Defined.
