(* ===== verification/ModuleInit.v ===== *)
(** * Loading and unloading the module

    [vpnhide_init] and [vpnhide_exit] of [kmod/main.c]: the table of probes, the
    loop that registers them (a fallback probe only where its primary is not
    registered), the control device, and what unloading releases.  The kernel's
    [register_kretprobe], [misc_register] and random numbers are arguments. *)
From Stdlib Require Import Strings.Byte Strings.String ZArith Lia.
From stdpp Require Import base gmap numbers list strings.
From S2P Require Import Prelude Abi Snapshot PolicyQuery UserMem OwnedPorts Stats PortStats UdpRate Device SockOpt.

(** ** The probes *)

Record kretprobe_reg := mk_probe {
  kr_name : string;
  kr_registered : bool;
  kr_primary_idx : Z
}.

Definition probe (name : string) (primary_idx : Z) : kretprobe_reg := mk_probe name false primary_idx.

Definition probes : list kretprobe_reg := [
  probe "dev_ioctl" (-1);
  probe "inet_ioctl" (-1);
  probe "sock_ioctl" (-1);
  probe "rtnl_fill_ifinfo" (-1);
  probe "inet6_fill_ifaddr" (-1);
  probe "inet_fill_ifaddr" (-1);
  probe "fib_route_seq_show" (-1);
  probe "fib_dump_info" (-1);
  probe "fib_nl_fill_rule" (-1);
  probe "rt6_fill_node" (-1);
  probe "rt_fill_info" (-1);
  probe "__arm64_sys_setsockopt" (-1);
  probe "__arm64_sys_getsockopt" (-1);
  probe "sk_getsockopt" 13;
  probe "sock_getsockopt" 13;
  probe "sock_common_getsockopt" 13;
  probe "ip_cmsg_recv_offset" (-1);
  probe "ip6_datagram_recv_common_ctl" (-1);
  probe "ip6_datagram_recv_ctl" 17;
  probe "__arm64_sys_connect" (-1);
  probe "__arm64_sys_bind" (-1);
  probe "security_socket_connect" 19;
  probe "inet_bind" 20;
  probe "inet_listen" (-1);
  probe "inet6_bind" (-1);
  probe "__arm64_sys_getsockname" (-1);
  probe "inet_getname" 25;
  probe "inet6_getname" 25;
  probe "__arm64_sys_bpf" (-1);
  probe "dev_seq_show" (-1);
  probe "if6_seq_show" (-1);
  probe "udp_sendmsg" (-1);
  probe "udpv6_sendmsg" (-1);
  probe "fib_trie_seq_show" (-1);
  probe "tc_fill_qdisc" (-1);
  probe "ipv6_route_seq_show" (-1)
]%string.

Definition registered (ps : list kretprobe_reg) (i : nat) : bool :=
  match ps !! i with Some p => kr_registered p | None => false end.

(** The inner loop of the [sock_getsockopt] case: the first entry named
    [sk_getsockopt]. *)
Fixpoint sk_getsockopt_registered (ps : list kretprobe_reg) : bool :=
  match ps with
  | [] => false
  | p :: ps => if String.eqb (kr_name p) "sk_getsockopt" then kr_registered p
               else sk_getsockopt_registered ps
  end.

(** The two [continue]s of the loop. *)
Definition skipped (ps : list kretprobe_reg) (p : kretprobe_reg) : bool :=
  (String.eqb (kr_name p) "sock_getsockopt" && sk_getsockopt_registered ps) ||
  ((0 <=? kr_primary_idx p) && registered ps (Z.to_nat (kr_primary_idx p))).

Definition set_registered (p : kretprobe_reg) : kretprobe_reg :=
  mk_probe (kr_name p) true (kr_primary_idx p).

Section init.
Context (register_kretprobe : string → Z).

(** One iteration at index [i]. *)
Definition register_probe (ps : list kretprobe_reg) (i : nat) : list kretprobe_reg :=
  match ps !! i with
  | None => ps
  | Some p =>
      if skipped ps p then ps
      else if register_kretprobe (kr_name p) <? 0 then ps
      else <[i := set_registered p]> ps
  end.

Definition register_probes (ps : list kretprobe_reg) : list kretprobe_reg :=
  foldl register_probe ps (seq 0 (length ps)).
End init.

(** ** The module *)

(** The global state: the device, the probes' table, the flags that say how a
    probe's arguments are laid out, the statistics session, and what the kernel
    holds for the module: the probes it runs (by index) and the control device. *)
Record module_state := mk_module {
  mo_device : device;
  mo_probes : list kretprobe_reg;
  mo_session_id : Z;
  mo_sys_setsockopt_uses_wrapper : bool;
  mo_sys_getsockopt_uses_wrapper : bool;
  mo_sys_bpf_uses_wrapper : bool;
  mo_sys_getsockname_uses_wrapper : bool;
  mo_sys_connect_uses_wrapper : bool;
  mo_sys_bind_uses_wrapper : bool;
  mo_running : list nat;
  mo_misc : bool
}.

Definition port_stats_freed : port_stats_state := mk_port_stats None 0.

(** Before loading: zeroed static data. *)
Definition unloaded_device : device := set_stats initial_device (mk_stats [] 0 0) port_stats_freed.

Definition unloaded : module_state :=
  mk_module unloaded_device probes 0 false false false false false false [] false.

(** The indexes of the registered probes. *)
Definition registered_indexes (ps : list kretprobe_reg) : list nat :=
  filter (λ i, registered ps i = true) (seq 0 (length ps)).

Definition ENOMEM_ : Z := 12.

(** The symbol names of the four system call probes are those of the wrappers. *)
Definition vpnhide_init (register_kretprobe : string → Z) (alloc : bool) (random misc_ret : Z)
    : Z * module_state :=
  if negb alloc then (- ENOMEM_, unloaded)
  else
    let session := if random =? 0 then 1 else random in
    let ps := register_probes register_kretprobe probes in
    (0, mk_module (if misc_ret =? 0 then initial_device else unloaded_device) ps session
          true true true true (registered ps 19) (registered ps 20)
          (registered_indexes ps) (misc_ret =? 0)).

(** Every registered probe is unregistered; every pointer is detached before
    it is freed; [misc_deregister] is last. *)
Definition vpnhide_exit (m : module_state) : module_state :=
  let running := filter (λ i, registered (mo_probes m) i = false) (mo_running m) in
  let d := mo_device m in
  let d := set_policy d None in
  let d := set_ports d None (dv_pending d) in
  let d := set_eventfd d None in
  let d := set_stats d (mk_stats [] (kmod_stats_capacity (dv_stats d)) (kmod_stats_sequence (dv_stats d)))
             (mk_port_stats None (pst_dropped (dv_port_stats d))) in
  let d := set_udp d (vpnhide_udp_rates_destroy (dv_udp_rates d)) in
  let d := set_vpns d None None in
  let d := set_spoof d None in
  mk_module d (mo_probes m) (mo_session_id m) (mo_sys_setsockopt_uses_wrapper m)
    (mo_sys_getsockopt_uses_wrapper m) (mo_sys_bpf_uses_wrapper m) (mo_sys_getsockname_uses_wrapper m)
    (mo_sys_connect_uses_wrapper m) (mo_sys_bind_uses_wrapper m) running false.

(** ** Registration *)

Section register.
Context (reg : string → Z).

Lemma register_probe_length ps i : length (register_probe reg ps i) = length ps.
Proof. unfold register_probe. repeat case_match; rewrite ?length_insert; done. Qed.

Lemma register_probe_other ps i j : i ≠ j → register_probe reg ps i !! j = ps !! j.
Proof. intros. unfold register_probe. repeat case_match; rewrite ?list_lookup_insert_ne; done. Qed.

Lemma register_probe_same ps i p :
  ps !! i = Some p →
  register_probe reg ps i !! i =
  Some (if skipped ps p || (reg (kr_name p) <? 0) then p else set_registered p).
Proof.
  intros Hp. unfold register_probe. rewrite Hp. destruct (skipped ps p), (reg (kr_name p) <? 0); simpl; try done.
  apply list_lookup_insert_eq. by eapply lookup_lt_Some.
Qed.

(** The table after [n] iterations: entry [i] is settled by iteration [i]. *)
Definition after (ps : list kretprobe_reg) (n : nat) : list kretprobe_reg :=
  foldl (register_probe reg) ps (seq 0 n).

Lemma register_probes_after ps : register_probes reg ps = after ps (length ps).
Proof. done. Qed.

Lemma after_S ps n : after ps (S n) = register_probe reg (after ps n) n.
Proof. unfold after. by rewrite seq_S, foldl_app. Qed.

Lemma after_length ps n : length (after ps n) = length ps.
Proof. induction n; [done|]. by rewrite after_S, register_probe_length. Qed.

Lemma after_later ps n i : (n <= i)%nat → after ps n !! i = ps !! i.
Proof.
  induction n; intros; [done|]. rewrite after_S, register_probe_other by lia. apply IHn. lia.
Qed.

Lemma after_settled ps n i : (i < n)%nat → after ps n !! i = after ps (S i) !! i.
Proof.
  induction n as [|n IH]; intros; [lia|]. destruct (decide (i = n)) as [->|]; [done|].
  rewrite after_S, register_probe_other by lia. apply IH. lia.
Qed.

Lemma after_name ps n i : kr_name <$> (after ps n !! i) = kr_name <$> (ps !! i).
Proof.
  induction n as [|n IH]; [done|]. rewrite <- IH, after_S.
  destruct (decide (n = i)) as [->|]; [|by rewrite register_probe_other].
  destruct (after ps i !! i) as [p|] eqn:Hp.
  - rewrite (register_probe_same _ _ p Hp). by destruct (_ || _).
  - unfold register_probe. by rewrite Hp, Hp.
Qed.

Lemma registered_after_later ps n i :
  (n <= i)%nat → (∀ p, p ∈ ps → kr_registered p = false) → registered (after ps n) i = false.
Proof.
  intros Hi Hf. unfold registered. rewrite after_later by done.
  destruct (ps !! i) eqn:Hp; [|done]. apply Hf. by eapply list_elem_of_lookup_2.
Qed.

Lemma registered_final ps i :
  (i < length ps)%nat → registered (register_probes reg ps) i = registered (after ps (S i)) i.
Proof. intros. unfold registered. by rewrite register_probes_after, after_settled. Qed.

(** Entry [i] of a table with nothing registered yet, when only its primary can
    make the loop skip it. *)
Lemma registration_of ps i p :
  (∀ p, p ∈ ps → kr_registered p = false) → ps !! i = Some p →
  skipped (after ps i) p =
    (0 <=? kr_primary_idx p) && registered (after ps i) (Z.to_nat (kr_primary_idx p)) →
  registered (register_probes reg ps) i =
  (0 <=? reg (kr_name p)) &&
  negb ((0 <=? kr_primary_idx p) && (kr_primary_idx p <? Z.of_nat i) &&
        registered (register_probes reg ps) (Z.to_nat (kr_primary_idx p))).
Proof.
  intros Hun Hp Hskip. pose proof (lookup_lt_Some _ _ _ Hp) as Hi.
  assert (Hq : after ps i !! i = Some p) by (rewrite after_later by lia; done).
  assert (Hu : kr_registered p = false) by (apply Hun; by eapply list_elem_of_lookup_2).
  rewrite registered_final by done. unfold registered at 1.
  rewrite after_S, (register_probe_same _ _ p Hq), Hskip.
  assert (Hsettled : registered (after ps i) (Z.to_nat (kr_primary_idx p)) =
    (Z.to_nat (kr_primary_idx p) <? i)%nat &&
    registered (register_probes reg ps) (Z.to_nat (kr_primary_idx p))).
  { destruct (Nat.ltb_spec (Z.to_nat (kr_primary_idx p)) i) as [Hlt|Hge]; simpl.
    - rewrite registered_final by lia. unfold registered. by rewrite after_settled.
    - by apply registered_after_later. }
  rewrite Hsettled, (Z.leb_antisym (reg (kr_name p)) 0). clear Hsettled Hskip.
  destruct (Z.leb_spec 0 (kr_primary_idx p)); simpl.
  - replace (Z.to_nat (kr_primary_idx p) <? i)%nat with (kr_primary_idx p <? Z.of_nat i)
      by (destruct (Z.ltb_spec (kr_primary_idx p) (Z.of_nat i)); symmetry;
          [apply Nat.ltb_lt|apply Nat.ltb_ge]; lia).
    by destruct (_ && registered _ _), (reg (kr_name p) <? 0).
  - by destruct (reg (kr_name p) <? 0).
Qed.
End register.

Lemma probes_unregistered p : p ∈ probes → kr_registered p = false.
Proof.
  intros Hp. assert (Hall : Forall (λ p, kr_registered p = false) probes) by (unfold probes; repeat constructor).
  rewrite Forall_forall in Hall. auto.
Qed.

(** Index 13 is the entry the search by name stops at. *)
Lemma sk_getsockopt_index ps :
  kr_name <$> ps = kr_name <$> probes → sk_getsockopt_registered ps = registered ps 13.
Proof.
  unfold probes. simpl. intros H.
  do 14 (destruct ps as [|[? ? ?] ps]; [discriminate H|]; simpl in H; injection H as -> H).
  done.
Qed.

Lemma after_names reg n : kr_name <$> after reg probes n = kr_name <$> probes.
Proof. apply list_eq. intros i. by rewrite !list_lookup_fmap, after_name. Qed.

(** The search by name adds nothing to the index: the one entry it concerns has
    [sk_getsockopt] as its primary. *)
Lemma sock_getsockopt_primary i p :
  probes !! i = Some p → String.eqb (kr_name p) "sock_getsockopt" = true → kr_primary_idx p = 13.
Proof.
  intros Hp. apply list_elem_of_lookup_2 in Hp.
  assert (Hall : Forall (λ p, String.eqb (kr_name p) "sock_getsockopt" = true → kr_primary_idx p = 13) probes).
  { unfold probes. repeat constructor; discriminate. }
  rewrite Forall_forall in Hall. auto.
Qed.

Lemma skipped_after reg i p :
  probes !! i = Some p →
  skipped (after reg probes i) p =
  (0 <=? kr_primary_idx p) && registered (after reg probes i) (Z.to_nat (kr_primary_idx p)).
Proof.
  intros Hp. unfold skipped.
  destruct (String.eqb (kr_name p) "sock_getsockopt") eqn:Hn; [|done].
  rewrite (sock_getsockopt_primary i p Hp Hn), sk_getsockopt_index by apply after_names.
  simpl. by destruct (registered _ _).
Qed.

(** Whether probe [i] is registered, from the entries before it. *)
Lemma registration_step reg i p :
  probes !! i = Some p →
  registered (register_probes reg probes) i =
  (0 <=? reg (kr_name p)) &&
  negb ((0 <=? kr_primary_idx p) && (kr_primary_idx p <? Z.of_nat i) &&
        registered (register_probes reg probes) (Z.to_nat (kr_primary_idx p))).
Proof.
  intros Hp. apply (registration_of reg probes); [apply probes_unregistered|done|by apply skipped_after].
Qed.

(** Which probes are registered.  A probe runs exactly when the kernel
    accepts its symbol and the entry its primary index names, if that is an
    earlier one, does not run; so a fallback and an earlier primary never run
    together, and a symbol the kernel lacks never stops the others. *)
Theorem probe_registration_exact reg i p :
  probes !! i = Some p →
  registered (register_probes reg probes) i =
  (0 <=? reg (kr_name p)) &&
  negb ((0 <=? kr_primary_idx p) && (kr_primary_idx p <? Z.of_nat i) &&
        registered (register_probes reg probes) (Z.to_nat (kr_primary_idx p))).
Proof. apply registration_step. Qed.

Lemma probe_registration_exact_witness :
  registered (register_probes (λ _, 0) probes) 21 = false ∧
  registered (register_probes (λ _, 0) probes) 21 =
  (0 <=? 0) && negb ((0 <=? 19) && (19 <? 21) && registered (register_probes (λ _, 0) probes) 19).
Proof.
  split; [vm_compute; reflexivity|].
  exact (probe_registration_exact (λ _, 0) 21 (probe "security_socket_connect" 19) eq_refl).
Defined.

(** The primary index of [sk_getsockopt] is its own, so the probe on the
    system call does not keep it from being registered.  Where the kernel has
    both symbols both probes run on every [getsockopt]: the answer is the one a
    single probe gives, but the call is counted twice. *)
Theorem getsockopt_counted_twice reg d uid data m st :
  0 <= reg "__arm64_sys_getsockopt"%string → 0 <= reg "sk_getsockopt"%string →
  0 <= sip_ipv4_mtu (get_spoof_ip (dv_spoof d)) <= 65535 →
  0 <= sip_ipv6_mtu (get_spoof_ip (dv_spoof d)) <= 65535 →
  registered (register_probes reg probes) 12 = true ∧ registered (register_probes reg probes) 13 = true ∧
  let '(m1, st1) := sock_getsockopt_ret d uid data 0 m st in
  sock_getsockopt_ret d uid data 0 m1 st1 =
  (getsockopt_rewrite d data m, record_kmod_intercept (record_kmod_intercept st uid 3) uid 3).
Proof.
  intros H12 H13 H4 H6. split_and!.
  - rewrite (registration_step reg 12 (probe "__arm64_sys_getsockopt" (-1)) eq_refl). simpl.
    by rewrite (proj2 (Z.leb_le _ _) H12).
  - rewrite (registration_step reg 13 (probe "sk_getsockopt" 13) eq_refl). simpl.
    by rewrite (proj2 (Z.leb_le _ _) H13).
  - unfold sock_getsockopt_ret. simpl. by rewrite getsockopt_rewrite_twice.
Qed.

Lemma getsockopt_counted_twice_witness :
  let m := put_bytes 100 (le_split 4 1280) (put_bytes 200 (le_split 4 4) ∅) in
  let data := mk_gdata IPPROTO_IP IP_MTU 100 200 AF_INET in
  let st := mk_stats [] 4096 0 in
  let '(m1, st1) := sock_getsockopt_ret target_device 10123 data 0 m st in
  sock_getsockopt_ret target_device 10123 data 0 m1 st1 =
    (getsockopt_rewrite target_device data m,
     record_kmod_intercept (record_kmod_intercept st 10123 3) 10123 3) ∧
  (λ e, counter sockopt_count e) <$> kmod_stats (sock_getsockopt_ret target_device 10123 data 0 m1 st1).2 = [2].
Proof.
  split; [|vm_compute; reflexivity].
  apply (getsockopt_counted_twice (λ _, 0)); simpl; lia.
Defined.

(** ** Unloading *)

Lemma filter_registered_indexes ps :
  filter (λ i, registered ps i = false) (registered_indexes ps) = [].
Proof.
  unfold registered_indexes. induction (seq 0 (length ps)) as [|i l IH]; [done|].
  destruct (registered ps i) eqn:Hi.
  - rewrite filter_cons_True by done. rewrite filter_cons_False by congruence. done.
  - rewrite filter_cons_False by congruence. done.
Qed.

Lemma udp_rates_destroyed rates : vpnhide_udp_rates_destroy rates = ∅.
Proof.
  apply map_eq. intros uid. rewrite lookup_empty. unfold vpnhide_udp_rates_destroy, vpnhide_udp_rates_prune.
  apply map_lookup_filter_None. right. intros r _. simpl. discriminate.
Qed.

(** Unloading leaves nothing behind.  Whatever the device has come to hold
    since the module was loaded, after [vpnhide_exit] the kernel runs none of
    its probes, no hook is active and nobody a target, and no snapshot, table,
    name cache, cover address or event file is still referenced. *)
Theorem exit_leaves_nothing reg alloc random misc_ret d :
  let m := (vpnhide_init reg alloc random misc_ret).2 in
  let loaded := mk_module d (mo_probes m) (mo_session_id m) (mo_sys_setsockopt_uses_wrapper m)
    (mo_sys_getsockopt_uses_wrapper m) (mo_sys_bpf_uses_wrapper m) (mo_sys_getsockname_uses_wrapper m)
    (mo_sys_connect_uses_wrapper m) (mo_sys_bind_uses_wrapper m) (mo_running m) (mo_misc m) in
  let m' := vpnhide_exit loaded in
  let d' := mo_device m' in
  mo_running m' = [] ∧ mo_misc m' = false ∧
  (∀ hook uid, is_hook_active (dv_policy d') hook uid = false ∧ is_target d' uid = false) ∧
  dv_policy d' = None ∧ dv_owned d' = None ∧ dv_eventfd d' = None ∧ kmod_stats (dv_stats d') = [] ∧
  pst_table (dv_port_stats d') = None ∧ dv_udp_rates d' = ∅ ∧ dv_vpns d' = None ∧ dv_names d' = None ∧
  dv_spoof d' = None.
Proof.
  cbv zeta. unfold vpnhide_exit. simpl. split_and!; auto using udp_rates_destroyed.
  unfold vpnhide_init. destruct alloc; [|done]. simpl. apply filter_registered_indexes.
Qed.

(** A control device that cannot be registered does not fail the load.
    [vpnhide_init] still returns 0 with every probe it registered running; the
    port counters are gone, and with no control device no policy can ever make
    a hook active. *)
Theorem misc_failure_reported_as_success reg random misc_ret :
  misc_ret ≠ 0 →
  let '(ret, m) := vpnhide_init reg true random misc_ret in
  ret = 0 ∧ mo_misc m = false ∧ mo_running m = mo_running (vpnhide_init reg true random 0).2 ∧
  pst_table (dv_port_stats (mo_device m)) = None ∧
  (∀ now uid port protocol, record_port now uid port protocol (dv_port_stats (mo_device m)) =
     dv_port_stats (mo_device m)) ∧
  ∀ hook uid, is_hook_active (dv_policy (mo_device m)) hook uid = false.
Proof.
  intros Hne. unfold vpnhide_init. simpl. rewrite (proj2 (Z.eqb_neq _ _) Hne). done.
Qed.

Lemma misc_failure_reported_as_success_witness :
  let '(ret, m) := vpnhide_init (λ _, 0) true 7 (-16) in
  ret = 0 ∧ mo_misc m = false ∧ (length (mo_running m) = 29)%nat ∧
  mo_running m = mo_running (vpnhide_init (λ _, 0) true 7 0).2.
Proof.
  pose proof (misc_failure_reported_as_success (λ _, 0) 7 (-16) ltac:(discriminate)) as (? & ? & ? & _).
  split_and!; [done|done|vm_compute; reflexivity|done].
Defined.
