(* ===== verification/PortScan.v ===== *)
(** * The daemon's scan of owned ports

    [daemon/owned_ports.c]: the daemon asks the kernel's socket diagnostics for
    the listening TCP and the bound UDP sockets of both families, keeps the
    local endpoints of applications, sorts them, removes duplicates and hands
    the list to the control device.  The model covers a whole refresh up to the
    snapshot the module then answers from.  Netlink receives are the results of
    [recv], as messages; [realloc] may fail. *)
From Stdlib Require Import Strings.Byte ZArith Lia.
From stdpp Require Import base gmap numbers list.
From S2P Require Import Prelude Abi Snapshot PolicyQuery OwnedPorts Stats Device SocketHooks SockOpt.

(** ** One endpoint *)

Record owned_port_list := mk_port_list {
  ol_items : list vpnhide_owned_port;
  ol_capacity : Z
}.

Definition empty_port_list : owned_port_list := mk_port_list [] 0.

(** [inet_diag_msg]: the source address is four words in memory order, the
    ports are in network order. *)
Record inet_diag_msg := mk_diag {
  idiag_family : Z;
  idiag_sport : Z;
  idiag_dport : Z;
  idiag_src : list Z;
  idiag_uid : Z
}.

Definition diag_local_endpoint (msg : inet_diag_msg) : option (Z * list Z) :=
  if idiag_family msg =? AF_INET then
    let addr := nth 0 (idiag_src msg) 0 in
    if negb (addr =? 0) && negb (ipv4_is_loopback addr) then None
    else Some (AF_INET, [addr; 0; 0; 0])
  else if idiag_family msg =? AF_INET6 then
    let addr := idiag_src msg in
    if ipv6_addr_any addr || ipv6_addr_loopback addr then Some (AF_INET6, addr)
    else if ipv6_addr_v4mapped addr then
      let v4 := nth 3 addr 0 in
      if negb (ipv4_is_loopback v4) then None else Some (AF_INET, [v4; 0; 0; 0])
    else None
  else None.

Section scan.
(** Whether [realloc] succeeds for a capacity. *)
Context (realloc : Z → bool).

(** [None] is [-1]. *)
Definition append_owned_port (l : owned_port_list) (uid port protocol family : Z) (address : list Z)
    : option owned_port_list :=
  if (uid <? 10000) || (port =? 0) then Some l
  else
    let count := Z.of_nat (length (ol_items l)) in
    if VPNHIDE_OWNED_PORTS_MAX <=? count then None
    else
      let item := mk_owned_port uid port protocol family address in
      if count =? ol_capacity l then
        let capacity := if nonzero (ol_capacity l) then ol_capacity l * 2 else 128 in
        if realloc capacity then Some (mk_port_list (ol_items l ++ [item]) capacity) else None
      else Some (mk_port_list (ol_items l ++ [item]) (ol_capacity l)).

(** ** One dump *)

Definition NLMSG_ERROR : Z := 2.
Definition NLMSG_DONE : Z := 3.
Definition SOCK_DIAG_BY_FAMILY : Z := 20.

(** [NLMSG_LENGTH(sizeof(struct inet_diag_msg))] *)
Definition diag_length : Z := 16 + 72.

Record nlmsg := mk_nlmsg {
  nm_seq : Z;
  nm_type : Z;
  nm_len : Z;
  nm_diag : inet_diag_msg
}.

Definition vh_proto (protocol : Z) : Z := if protocol =? IPPROTO_TCP then VH_PROTO_TCP else VH_PROTO_UDP.

(** What one buffer of messages leaves: the dump is over, or more is read. *)
Inductive scan_end :=
  | ScanMore (l : owned_port_list)
  | ScanDone (l : owned_port_list)
  | ScanFail.

Fixpoint scan_messages (protocol sequence : Z) (msgs : list nlmsg) (l : owned_port_list) : scan_end :=
  match msgs with
  | [] => ScanMore l
  | m :: msgs =>
      if negb (nm_seq m =? sequence) then scan_messages protocol sequence msgs l
      else if nm_type m =? NLMSG_DONE then ScanDone l
      else if nm_type m =? NLMSG_ERROR then ScanFail
      else if negb (nm_type m =? SOCK_DIAG_BY_FAMILY) || (nm_len m <? diag_length)
      then scan_messages protocol sequence msgs l
      else
        match diag_local_endpoint (nm_diag m) with
        | None => scan_messages protocol sequence msgs l
        | Some (family, address) =>
            if (protocol =? IPPROTO_UDP) && negb (idiag_dport (nm_diag m) =? 0)
            then scan_messages protocol sequence msgs l
            else
              match append_owned_port l (idiag_uid (nm_diag m)) (ntohs (idiag_sport (nm_diag m)))
                      (vh_proto protocol) family address with
              | None => ScanFail
              | Some l => scan_messages protocol sequence msgs l
              end
        end
  end.

(** The results of [recv]. *)
Inductive recv_result :=
  | RecvMessages (msgs : list nlmsg)
  | RecvInterrupted
  | RecvError.

(** The receives are those the kernel answers with; with none left the daemon
    waits ([None]). *)
Fixpoint dump_loop (protocol sequence : Z) (recvs : list recv_result) (l : owned_port_list)
    : option (option owned_port_list) :=
  match recvs with
  | [] => None
  | RecvInterrupted :: recvs => dump_loop protocol sequence recvs l
  | RecvError :: _ => Some None
  | RecvMessages msgs :: recvs =>
      match scan_messages protocol sequence msgs l with
      | ScanMore l => dump_loop protocol sequence recvs l
      | ScanDone l => Some (Some l)
      | ScanFail => Some None
      end
  end.

(** [sent]: [sendto] succeeds. *)
Definition dump_owned_ports_family (protocol sequence : Z) (sent : bool) (recvs : list recv_result)
    (l : owned_port_list) : option (option owned_port_list) :=
  if negb sent then Some None else dump_loop protocol sequence recvs l.

(** ** Sorting and removing duplicates *)

Fixpoint memcmp (a b : bytes) : Z :=
  match a, b with
  | x :: a, y :: b =>
      if byte_to_Z x =? byte_to_Z y then memcmp a b else byte_to_Z x - byte_to_Z y
  | _, _ => 0
  end.

(** The bytes of the four words of an address. *)
Definition address_bytes (address : list Z) : bytes := mjoin (le_split 4 <$> address).

Definition owned_port_compare (a b : vpnhide_owned_port) : Z :=
  if negb (op_uid a =? op_uid b) then (if op_uid a <? op_uid b then -1 else 1)
  else if negb (op_port a =? op_port b) then (if op_port a <? op_port b then -1 else 1)
  else if negb (op_protocol a =? op_protocol b) then op_protocol a - op_protocol b
  else if negb (op_family a =? op_family b) then op_family a - op_family b
  else memcmp (address_bytes (op_address a)) (address_bytes (op_address b)).

(** The compaction loop: [last] is the item kept last. *)
Fixpoint unique_loop (last : vpnhide_owned_port) (items : list vpnhide_owned_port)
    : list vpnhide_owned_port :=
  match items with
  | [] => []
  | e :: items =>
      if owned_port_compare last e =? 0 then unique_loop last items else e :: unique_loop e items
  end.

Definition unique_ports (items : list vpnhide_owned_port) : list vpnhide_owned_port :=
  match items with [] => [] | e :: items => e :: unique_loop e items end.

(** ** A refresh *)

(** One of the four dumps: whether its request is sent, and its receives. *)
Record dump_run := mk_dump_run { dr_sent : bool; dr_recvs : list recv_result }.

Fixpoint run_dumps (plan : list (Z * Z)) (runs : list dump_run) (l : owned_port_list)
    : option (option owned_port_list) :=
  match plan, runs with
  | (protocol, sequence) :: plan, run :: runs =>
      match dump_owned_ports_family protocol sequence (dr_sent run) (dr_recvs run) l with
      | Some (Some l) => run_dumps plan runs l
      | r => r
      end
  | _, _ => Some (Some l)
  end.

(** The protocol and sequence number of the four requests: TCP over IPv4 and
    IPv6, then UDP. *)
Definition dump_plan : list (Z * Z) :=
  [(IPPROTO_TCP, 1); (IPPROTO_TCP, 2); (IPPROTO_UDP, 3); (IPPROTO_UDP, 4)].

(** [list.items]: NULL until the first item is appended. *)
Definition items_ptr (l : owned_port_list) : Z := if ol_capacity l =? 0 then 0 else 1.

(** The return value and the device; [None] while a dump is not over. *)
Definition refresh_owned_ports {KS : KSort} (HZ now : Z) (diag_fd_ok alloc_entries alloc_snapshot : bool)
    (runs : list dump_run) (d : device) : option (bool * device) :=
  if negb diag_fd_ok then Some (false, d)
  else
    match run_dumps dump_plan runs empty_port_list with
    | None => None
    | Some None => Some (false, d)
    | Some (Some l) =>
        let items := unique_ports (ksort owned_port_compare (ol_items l)) in
        let r := ioctl_set_owned_ports HZ alloc_entries alloc_snapshot now
                   (Some (Z.of_nat (length items), 0, items_ptr l)) (Some items) d in
        Some (if ie_error r is None then true else false, ie_device r)
    end.
End scan.

(** ** What a scan finds *)

(** The endpoint one message stands for, if it is one to keep. *)
Definition message_owner (protocol : Z) (m : nlmsg) : option vpnhide_owned_port :=
  if negb (nm_type m =? SOCK_DIAG_BY_FAMILY) || (nm_len m <? diag_length) then None
  else
    '(family, address) ← diag_local_endpoint (nm_diag m);
    let port := ntohs (idiag_sport (nm_diag m)) in
    if (protocol =? IPPROTO_UDP) && negb (idiag_dport (nm_diag m) =? 0) then None
    else if (idiag_uid (nm_diag m) <? 10000) || (port =? 0) then None
    else Some (mk_owned_port (idiag_uid (nm_diag m)) port (vh_proto protocol) family address).

(** The messages of the dump numbered [sequence], up to its end. *)
Fixpoint before_done (sequence : Z) (msgs : list nlmsg) : list nlmsg :=
  match msgs with
  | [] => []
  | m :: msgs =>
      if negb (nm_seq m =? sequence) then before_done sequence msgs
      else if nm_type m =? NLMSG_DONE then [] else m :: before_done sequence msgs
  end.

Definition received (recvs : list recv_result) : list nlmsg :=
  mjoin ((λ r, if r is RecvMessages msgs then msgs else []) <$> recvs).

(** How the messages end the dump: [true] with its end, [false] with an error. *)
Fixpoint messages_end (sequence : Z) (msgs : list nlmsg) : option bool :=
  match msgs with
  | [] => None
  | m :: msgs =>
      if negb (nm_seq m =? sequence) then messages_end sequence msgs
      else if nm_type m =? NLMSG_DONE then Some true
      else if nm_type m =? NLMSG_ERROR then Some false else messages_end sequence msgs
  end.

Fixpoint recvs_end (sequence : Z) (recvs : list recv_result) : option bool :=
  match recvs with
  | [] => None
  | RecvInterrupted :: recvs => recvs_end sequence recvs
  | RecvError :: _ => Some false
  | RecvMessages msgs :: recvs =>
      match messages_end sequence msgs with None => recvs_end sequence recvs | r => r end
  end.

(** Every request was sent and its dump came to its end. *)
Definition runs_complete (runs : list dump_run) : Prop :=
  Forall2 (λ p run, dr_sent run = true ∧ recvs_end p.2 (dr_recvs run) = Some true) dump_plan runs.

Definition dump_owners (p : Z * Z) (run : dump_run) : list vpnhide_owned_port :=
  omap (message_owner p.1) (before_done p.2 (received (dr_recvs run))).

(** The endpoints of all four dumps. *)
Definition scanned (runs : list dump_run) : list vpnhide_owned_port :=
  mjoin (zip_with dump_owners dump_plan runs).

(** The source address is four 32-bit words. *)
Definition diag_wf (m : nlmsg) : Prop :=
  length (idiag_src (nm_diag m)) = 4%nat ∧ Forall (fits 32) (idiag_src (nm_diag m)).

Definition address_wf (e : vpnhide_owned_port) : Prop :=
  length (op_address e) = 4%nat ∧ Forall (fits 32) (op_address e).

(** A list that grew by appending; an item needs a buffer. *)
Definition list_ok (l : owned_port_list) : Prop := ol_items l ≠ [] → ol_capacity l ≠ 0.

Section items.
Context (realloc : Z → bool) (Hrealloc : ∀ c, realloc c = true).

(** A message that does not end the dump: its endpoint is appended. *)
Lemma scan_step protocol sequence m msgs l :
  nm_seq m = sequence → (nm_type m =? NLMSG_DONE) = false → (nm_type m =? NLMSG_ERROR) = false →
  scan_messages realloc protocol sequence (m :: msgs) l =
  match message_owner protocol m with
  | None => scan_messages realloc protocol sequence msgs l
  | Some o =>
      match append_owned_port realloc l (op_uid o) (op_port o) (op_protocol o) (op_family o) (op_address o) with
      | None => ScanFail
      | Some l => scan_messages realloc protocol sequence msgs l
      end
  end.
Proof.
  intros Hseq Hdone Herr. cbn [scan_messages]. rewrite Hdone, Herr, (proj2 (Z.eqb_eq _ _) Hseq). cbn [negb].
  unfold message_owner. destruct (negb _ || _); [done|].
  destruct (diag_local_endpoint (nm_diag m)) as [[family address]|]; [|done]. cbn [mbind option_bind].
  destruct (_ && negb (idiag_dport _ =? 0)); [done|].
  destruct ((idiag_uid _ <? 10000) || _) eqn:Hskip; [|done]. unfold append_owned_port. by rewrite Hskip.
Qed.

Lemma message_owner_valid protocol m o :
  message_owner protocol m = Some o →
  10000 <= op_uid o ∧ op_port o ≠ 0 ∧ owned_entry_valid o = true.
Proof.
  unfold message_owner. destruct (negb _ || _); [done|].
  destruct (diag_local_endpoint (nm_diag m)) as [[family address]|] eqn:He; [|done]. cbn [mbind option_bind].
  destruct (_ && negb (idiag_dport _ =? 0)); [done|].
  destruct ((idiag_uid _ <? 10000) || _) eqn:Hskip; [done|]. intros <-%(inj Some). cbn [op_uid op_port].
  apply orb_false_iff in Hskip as [Hu%Z.ltb_ge Hp%Z.eqb_neq]. split_and!; [done|done|].
  unfold owned_entry_valid. cbn [op_uid op_port op_protocol].
  rewrite (proj2 (Z.eqb_neq _ 0)) by lia. rewrite (proj2 (Z.eqb_neq _ 0) Hp).
  assert ((VH_PROTO_UDP <? vh_proto protocol) = false) as -> by (unfold vh_proto; by destruct (_ =? _)).
  cbn [orb]. rewrite negb_involutive. unfold diag_local_endpoint in He. unfold owned_port_is_local.
  destruct (idiag_family (nm_diag m) =? AF_INET).
  - destruct (negb _ && negb _) eqn:Hl; [done|]. simplify_eq. cbn [op_family op_address].
    apply andb_false_iff in Hl as [Hl%negb_false_iff|Hl%negb_false_iff]; by rewrite Hl, ?orb_true_r.
  - destruct (idiag_family (nm_diag m) =? AF_INET6); [|done].
    destruct (ipv6_addr_any _ || _) eqn:Hany; [by simplify_eq|].
    destruct (ipv6_addr_v4mapped _); [|done].
    destruct (negb (ipv4_is_loopback _)) eqn:Hl; [done|]. simplify_eq. cbn [op_family op_address].
    apply negb_false_iff in Hl. by rewrite Hl, orb_true_r.
Qed.

(** Appending a kept endpoint succeeds as long as there is room. *)
Lemma append_owner l o :
  10000 <= op_uid o → op_port o ≠ 0 → list_ok l →
  (length (ol_items l) < Z.to_nat VPNHIDE_OWNED_PORTS_MAX)%nat →
  ∃ l', append_owned_port realloc l (op_uid o) (op_port o) (op_protocol o) (op_family o) (op_address o) =
    Some l' ∧ list_ok l' ∧ ol_items l' = ol_items l ++ [o].
Proof.
  intros Hu Hp Hok Hlt. unfold append_owned_port.
  rewrite (proj2 (Z.ltb_ge _ _) Hu), (proj2 (Z.eqb_neq _ _) Hp), (proj2 (Z.leb_gt _ _)) by lia.
  cbn [orb]. rewrite Hrealloc. destruct o as [u po pr f a]; cbn [op_uid op_port op_protocol op_family op_address].
  destruct (Z.eqb_spec (Z.of_nat (length (ol_items l))) (ol_capacity l)) as [Hc|Hc];
    (eexists; split_and!; [done| |done]); intros _; cbn [ol_capacity].
  - unfold nonzero. destruct (Z.eqb_spec (ol_capacity l) 0); simpl; lia.
  - unfold list_ok in Hok. destruct (ol_items l) eqn:E; cbn [length] in *; [|by apply Hok].
    lia.
Qed.

Lemma scan_messages_spec protocol sequence msgs l :
  let owners := omap (message_owner protocol) (before_done sequence msgs) in
  list_ok l → (length (ol_items l) + length owners <= Z.to_nat VPNHIDE_OWNED_PORTS_MAX)%nat →
  messages_end sequence msgs ≠ Some false →
  ∃ l', list_ok l' ∧ ol_items l' = ol_items l ++ owners ∧
    scan_messages realloc protocol sequence msgs l =
    (if messages_end sequence msgs is Some _ then ScanDone l' else ScanMore l').
Proof.
  revert l. induction msgs as [|m msgs IH]; intros l; cbv zeta.
  { intros Hok _ _. exists l. rewrite app_nil_r. done. }
  cbn [before_done messages_end]. destruct (nm_seq m =? sequence) eqn:Hseq; cbn [negb].
  2:{ cbn [scan_messages]. rewrite Hseq. apply IH. }
  destruct (nm_type m =? NLMSG_DONE) eqn:Hdone.
  { intros Hok _ _. exists l. cbn [scan_messages]. rewrite Hseq, Hdone, app_nil_r. done. }
  destruct (nm_type m =? NLMSG_ERROR) eqn:Herr; [done|]. apply Z.eqb_eq in Hseq.
  rewrite (scan_step _ _ _ _ _ Hseq Hdone Herr). cbn [omap list_omap].
  destruct (message_owner protocol m) as [o|] eqn:Ho; [|apply IH]. intros Hok Hlen Hend.
  destruct (message_owner_valid _ _ _ Ho) as (Hu & Hp & _).
  destruct (append_owner l o Hu Hp Hok) as (l1 & -> & Hok1 & Hi1); [simpl in Hlen; lia|].
  destruct (IH l1 Hok1) as (l' & Hok' & Hi' & ->); [|done|].
  { rewrite Hi1, length_app. simpl in *. lia. }
  exists l'. split_and!; [done| |done]. by rewrite Hi', Hi1, <- app_assoc.
Qed.
Lemma before_done_app sequence msgs rest :
  messages_end sequence msgs ≠ Some false →
  before_done sequence (msgs ++ rest) =
  before_done sequence msgs ++ (if messages_end sequence msgs is Some _ then [] else before_done sequence rest).
Proof.
  induction msgs as [|m msgs IH]; [done|]. cbn [before_done messages_end app].
  destruct (negb _); [done|]. destruct (nm_type m =? NLMSG_DONE); [done|].
  destruct (nm_type m =? NLMSG_ERROR); [done|]. intros Hend. by rewrite IH.
Qed.

Lemma dump_loop_spec protocol sequence recvs l :
  let owners := omap (message_owner protocol) (before_done sequence (received recvs)) in
  list_ok l → (length (ol_items l) + length owners <= Z.to_nat VPNHIDE_OWNED_PORTS_MAX)%nat →
  recvs_end sequence recvs = Some true →
  ∃ l', dump_loop realloc protocol sequence recvs l = Some (Some l') ∧ list_ok l' ∧
    ol_items l' = ol_items l ++ owners.
Proof.
  revert l. induction recvs as [|r recvs IH]; intros l; cbv zeta; [done|].
  destruct r as [msgs| |]; cbn [recvs_end dump_loop]; [|apply IH|done].
  intros Hok Hlen Hend. change (received (RecvMessages msgs :: recvs)) with (msgs ++ received recvs) in *.
  assert (Hne : messages_end sequence msgs ≠ Some false) by (intros E; by rewrite E in Hend).
  rewrite before_done_app, omap_app in Hlen |- * by done. rewrite length_app in Hlen.
  destruct (scan_messages_spec protocol sequence msgs l Hok) as (l1 & Hok1 & Hi1 & ->); [lia|done|].
  destruct (messages_end sequence msgs) as [b|].
  - exists l1. by rewrite app_nil_r.
  - destruct (IH l1 Hok1) as (l' & -> & Hok' & Hi'); [rewrite Hi1, length_app; lia|done|].
    exists l'. by rewrite Hi', Hi1, <- app_assoc.
Qed.

Lemma run_dumps_spec plan runs l :
  let owners := mjoin (zip_with dump_owners plan runs) in
  list_ok l → (length (ol_items l) + length owners <= Z.to_nat VPNHIDE_OWNED_PORTS_MAX)%nat →
  Forall2 (λ p run, dr_sent run = true ∧ recvs_end p.2 (dr_recvs run) = Some true) plan runs →
  ∃ l', run_dumps realloc plan runs l = Some (Some l') ∧ list_ok l' ∧ ol_items l' = ol_items l ++ owners.
Proof.
  cbv zeta. intros Hok Hlen Hall. revert l Hok Hlen.
  induction Hall as [|[protocol sequence] run plan runs [Hsent Hend] Hall IH]; intros l Hok Hlen.
  { exists l. by rewrite app_nil_r. }
  cbn [run_dumps]. unfold dump_owned_ports_family. rewrite Hsent. cbn [negb].
  change (mjoin (zip_with dump_owners ((protocol, sequence) :: plan) (run :: runs)))
    with (dump_owners (protocol, sequence) run ++ mjoin (zip_with dump_owners plan runs)) in *.
  rewrite length_app in Hlen.
  destruct (dump_loop_spec protocol sequence (dr_recvs run) l Hok) as (l1 & -> & Hok1 & Hi1);
    [unfold dump_owners in Hlen; cbn [fst snd] in Hlen; lia|done|].
  change (omap _ _) with (dump_owners (protocol, sequence) run) in Hi1.
  destruct (IH l1 Hok1) as (l' & -> & Hok' & Hi'); [rewrite Hi1, length_app; lia|].
  exists l'. by rewrite Hi', Hi1, <- app_assoc.
Qed.
End items.

(** ** Duplicates *)

Lemma byte_to_Z_inj x y : byte_to_Z x = byte_to_Z y → x = y.
Proof. intros E. rewrite <- (byte_of_to x), <- (byte_of_to y). by rewrite E. Qed.

Lemma memcmp_eq a b : length a = length b → memcmp a b = 0 → a = b.
Proof.
  revert b. induction a as [|x a IH]; intros [|y b]; try done. cbn [length memcmp]. intros Hl.
  destruct (Z.eqb_spec (byte_to_Z x) (byte_to_Z y)) as [E|]; [|lia]. intros Hc.
  f_equal; [by apply byte_to_Z_inj|apply IH; [lia|done]].
Qed.

Lemma address_bytes_inj a b :
  length a = length b → Forall (fits 32) a → Forall (fits 32) b → address_bytes a = address_bytes b → a = b.
Proof.
  revert b. induction a as [|x a IH]; intros [|y b]; try done. intros Hl Ha Hb.
  apply Forall_cons in Ha as [Hx Ha]. apply Forall_cons in Hb as [Hy Hb].
  change (address_bytes (x :: a)) with (le_split 4 x ++ address_bytes a).
  change (address_bytes (y :: b)) with (le_split 4 y ++ address_bytes b).
  intros [Hxy Hab]%app_inj_1; [|by rewrite !length_le_split]. f_equal.
  - rewrite <- (le_combine_split_small 4 x Hx), <- (le_combine_split_small 4 y Hy). by rewrite Hxy.
  - apply IH; try done. by injection Hl.
Qed.

Lemma address_bytes_length a : length (address_bytes a) = (4 * length a)%nat.
Proof.
  induction a as [|x a IH]; [done|]. change (address_bytes (x :: a)) with (le_split 4 x ++ address_bytes a).
  rewrite length_app, length_le_split, IH. simpl. lia.
Qed.

Lemma owned_port_compare_eq a b :
  address_wf a → address_wf b → owned_port_compare a b = 0 → a = b.
Proof.
  intros [Hla Ha] [Hlb Hb]. unfold owned_port_compare.
  destruct (Z.eqb_spec (op_uid a) (op_uid b)); cbn [negb]; [|destruct (_ <? _); lia].
  destruct (Z.eqb_spec (op_port a) (op_port b)); cbn [negb]; [|destruct (_ <? _); lia].
  destruct (Z.eqb_spec (op_protocol a) (op_protocol b)); cbn [negb]; [|lia].
  destruct (Z.eqb_spec (op_family a) (op_family b)); cbn [negb]; [|lia].
  intros Hm%memcmp_eq; [|by rewrite !address_bytes_length, Hla, Hlb].
  apply address_bytes_inj in Hm; try done; [|by rewrite Hla, Hlb]. destruct a, b; simpl in *; congruence.
Qed.

Lemma unique_loop_elem last items x :
  address_wf last → Forall address_wf items →
  x = last ∨ x ∈ unique_loop last items ↔ x = last ∨ x ∈ items.
Proof.
  revert last. induction items as [|e items IH]; intros last Hl Hall; [done|].
  apply Forall_cons in Hall as [He Hall]. cbn [unique_loop].
  destruct (Z.eqb_spec (owned_port_compare last e) 0) as [Hc|Hc].
  - apply owned_port_compare_eq in Hc as <-; [|done|done]. rewrite IH by done. set_solver.
  - specialize (IH e He Hall). set_solver.
Qed.

Lemma unique_ports_elem items x : Forall address_wf items → x ∈ unique_ports items ↔ x ∈ items.
Proof.
  intros Hall. destruct items as [|e items]; [done|]. apply Forall_cons in Hall as [He Hall].
  pose proof (unique_loop_elem e items x He Hall). set_solver.
Qed.

Lemma unique_loop_length last items : (length (unique_loop last items) <= length items)%nat.
Proof. revert last. induction items as [|e items IH]; intros last; [done|]. simpl. case_match; simpl; [specialize (IH last)|specialize (IH e)]; lia. Qed.

Lemma unique_ports_length items : (length (unique_ports items) <= length items)%nat.
Proof. destruct items as [|e items]; [done|]. simpl. pose proof (unique_loop_length e items). lia. Qed.


Lemma message_owner_address protocol m o :
  diag_wf m → message_owner protocol m = Some o → address_wf o.
Proof.
  intros [Hl Hf]. unfold message_owner. destruct (negb _ || _); [done|].
  destruct (diag_local_endpoint (nm_diag m)) as [[family address]|] eqn:He; [|done]. cbn [mbind option_bind].
  destruct (_ && _); [done|]. destruct (_ || _); [done|]. intros <-%(inj Some). unfold address_wf. cbn [op_address].
  destruct (idiag_src (nm_diag m)) as [|w0 [|w1 [|w2 [|w3 [|]]]]] eqn:Hs; try discriminate Hl.
  rewrite !Forall_cons in Hf. destruct Hf as (H0 & H1 & H2 & H3 & _).
  assert (Hz : fits 32 0) by (unfold fits; lia).
  unfold diag_local_endpoint in He. rewrite Hs in He. cbn [nth] in He.
  destruct (idiag_family (nm_diag m) =? AF_INET).
  - destruct (_ && _); [done|]. simplify_eq. split; [done|]. by repeat (constructor; [assumption|]).
  - destruct (idiag_family (nm_diag m) =? AF_INET6); [|done]. destruct (_ || _).
    + simplify_eq. split; [done|]. by repeat (constructor; [assumption|]).
    + destruct (ipv6_addr_v4mapped _); [|done]. destruct (negb _); [done|]. simplify_eq.
      split; [done|]. by repeat (constructor; [assumption|]).
Qed.

(** Every message of every dump is well-formed. *)
Definition runs_wf (runs : list dump_run) : Prop :=
  Forall (λ run, Forall diag_wf (received (dr_recvs run))) runs.

Lemma before_done_sub sequence msgs m : m ∈ before_done sequence msgs → m ∈ msgs.
Proof.
  induction msgs as [|m' msgs IH]; [done|]. cbn [before_done]. rewrite elem_of_cons.
  destruct (negb _); [auto|]. destruct (_ =? _); [by intros ?%elem_of_nil|]. rewrite elem_of_cons. tauto.
Qed.

Lemma scanned_elem runs o :
  o ∈ scanned runs →
  ∃ protocol run m, run ∈ runs ∧ m ∈ received (dr_recvs run) ∧ message_owner protocol m = Some o.
Proof.
  unfold scanned. rewrite list_elem_of_join. intros (os & Ho & Hos).
  apply elem_of_lookup_zip_with in Hos as (i & [protocol sequence] & run & -> & _ & Hrun).
  apply list_elem_of_omap in Ho as (m & Hm & Ho).
  exists protocol, run, m. split_and!; [by eapply list_elem_of_lookup_2|by eapply before_done_sub|done].
Qed.

Lemma scanned_wf runs :
  runs_wf runs → Forall address_wf (scanned runs) ∧ Forall (λ e, owned_entry_valid e = true) (scanned runs).
Proof.
  intros Hwf. rewrite !Forall_forall.
  split; intros o (protocol & run & m & Hrun & Hm & Ho)%scanned_elem.
  - unfold runs_wf in Hwf. rewrite Forall_forall in Hwf. specialize (Hwf run Hrun).
    rewrite Forall_forall in Hwf. by eapply message_owner_address, Ho; auto.
  - by apply message_owner_valid in Ho as (_ & _ & ?).
Qed.

(** ** Endpoints, declaratively *)

(** The endpoints on the device itself a socket message can name: the IPv4
    wildcard and 127.0.0.0/8, the IPv6 wildcard and ::1, and 127.0.0.0/8 mapped
    into IPv6.  The mapped wildcard ::ffff:0.0.0.0 is not among them
    ([mapped_wildcard_forgotten]).  Words are in memory order, so the first byte of
    an IPv4 address is the lowest. *)
Inductive local_endpoint (msg : inet_diag_msg) : Z → list Z → Prop :=
  | V4Wildcard : idiag_family msg = 2 → head (idiag_src msg) = Some 0 → local_endpoint msg 2 [0; 0; 0; 0]
  | V4Loopback a : idiag_family msg = 2 → head (idiag_src msg) = Some a → a mod 256 = 127 →
      local_endpoint msg 2 [a; 0; 0; 0]
  | V6Wildcard : idiag_family msg = 10 → idiag_src msg = [0; 0; 0; 0] → local_endpoint msg 10 [0; 0; 0; 0]
  | V6Loopback : idiag_family msg = 10 → idiag_src msg = [0; 0; 0; 0x01000000] →
      local_endpoint msg 10 [0; 0; 0; 0x01000000]
  | V4Mapped a : idiag_family msg = 10 → idiag_src msg = [0; 0; 0xffff0000; a] → a mod 256 = 127 →
      local_endpoint msg 2 [a; 0; 0; 0].

(** The message is a socket of an application on such an endpoint; a UDP socket
    counts while it is not connected. *)
Definition names_endpoint (protocol : Z) (m : nlmsg) (o : vpnhide_owned_port) : Prop :=
  nm_type m = SOCK_DIAG_BY_FAMILY ∧ diag_length <= nm_len m ∧
  10000 <= op_uid o ∧ op_uid o = idiag_uid (nm_diag m) ∧
  op_port o ≠ 0 ∧ op_port o = ntohs (idiag_sport (nm_diag m)) ∧
  op_protocol o = (if protocol =? 6 then VH_PROTO_TCP else VH_PROTO_UDP) ∧
  (protocol = 17 → idiag_dport (nm_diag m) = 0) ∧
  local_endpoint (nm_diag m) (op_family o) (op_address o).

Lemma loopback_mod a : ipv4_is_loopback a = true ↔ a mod 256 = 127.
Proof.
  unfold ipv4_is_loopback. change 0xff with (Z.ones 8). rewrite Z.land_ones, Z.eqb_eq by lia. done.
Qed.

Lemma diag_local_spec msg family address :
  length (idiag_src msg) = 4%nat →
  diag_local_endpoint msg = Some (family, address) ↔ local_endpoint msg family address.
Proof.
  intros Hl. destruct (idiag_src msg) as [|a [|b [|c [|e [|]]]]] eqn:Hs; try discriminate Hl.
  unfold diag_local_endpoint, ipv6_addr_any, ipv6_addr_loopback, ipv6_addr_v4mapped. rewrite Hs. cbn [nth take].
  unfold AF_INET, AF_INET6. split.
  - destruct (Z.eqb_spec (idiag_family msg) 2) as [Hf|Hf].
    + destruct (Z.eqb_spec a 0) as [->|Ha]; cbn [negb andb].
      { intros [= <- <-]. apply V4Wildcard; [done|by rewrite Hs]. }
      destruct (ipv4_is_loopback a) eqn:Hlb; [|done]. intros [= <- <-].
      apply V4Loopback; [done|by rewrite Hs|by apply loopback_mod].
    + destruct (Z.eqb_spec (idiag_family msg) 10) as [Hf6|Hf6]; [|done].
      case_bool_decide as H0; cbn [orb]; [intros [= <- <-]; injection H0 as -> -> -> ->; by apply V6Wildcard|].
      case_bool_decide as H1; [intros [= <- <-]; injection H1 as -> -> -> ->; by apply V6Loopback|].
      case_bool_decide as H2; [|done]. injection H2 as -> -> ->.
      destruct (ipv4_is_loopback e) eqn:Hlb; [|done]. intros [= <- <-].
      apply V4Mapped; [done|by rewrite Hs|by apply loopback_mod].
  - intros [Hf Hh|x Hf Hh Hm|Hf Hv|Hf Hv|x Hf Hv Hm]; rewrite Hf; rewrite Hs in *; simplify_eq/=; try done.
    + apply loopback_mod in Hm. by rewrite Hm, andb_false_r.
    + apply loopback_mod in Hm. by rewrite Hm.
Qed.

Lemma message_owner_spec protocol m o :
  length (idiag_src (nm_diag m)) = 4%nat → message_owner protocol m = Some o ↔ names_endpoint protocol m o.
Proof.
  intros Hl. unfold message_owner, names_endpoint, vh_proto, IPPROTO_TCP, IPPROTO_UDP.
  destruct (Z.eqb_spec (nm_type m) SOCK_DIAG_BY_FAMILY) as [Ht|Ht]; cbn [negb orb]; [|split; [done|tauto]].
  destruct (Z.ltb_spec (nm_len m) diag_length); [split; [done|lia]|].
  pose proof (diag_local_spec (nm_diag m)) as Hd. destruct (diag_local_endpoint (nm_diag m)) as [[family address]|].
  2:{ split; [done|]. intros (_ & _ & _ & _ & _ & _ & _ & _ & He). by apply Hd in He. }
  cbn [mbind option_bind].
  destruct (Z.eqb_spec protocol 17) as [Hp|Hp], (Z.eqb_spec (idiag_dport (nm_diag m)) 0) as [Hdp|Hdp]; cbn [negb andb];
    try (split; [done|]; intros (_ & _ & _ & _ & _ & _ & _ & Hu & _); by destruct Hdp; apply Hu);
    (destruct (Z.ltb_spec (idiag_uid (nm_diag m)) 10000);
      [split; [done|]; intros (_ & _ & ? & E & _); lia|]);
    (destruct (Z.eqb_spec (ntohs (idiag_sport (nm_diag m))) 0);
      [split; [done|]; intros (_ & _ & _ & _ & Hn & E & _); by rewrite E in Hn|]); cbn [orb];
    (split; [intros <-%(inj Some); cbn [op_uid op_port op_protocol op_family op_address]; split_and!; try done; by apply Hd|]);
    intros (_ & _ & _ & Hu & _ & Hpo & Hpr & _ & He); apply (Hd _ _ Hl) in He; destruct o; simpl in *; congruence.
Qed.

(** [o] is an endpoint one of the four dumps named before its end: TCP over IPv4
    and IPv6, then UDP. *)
Definition dumped (runs : list dump_run) (o : vpnhide_owned_port) : Prop :=
  ∃ i protocol sequence run m, [(6, 1); (6, 2); (17, 3); (17, 4)] !! i = Some (protocol, sequence) ∧
    runs !! i = Some run ∧ m ∈ before_done sequence (received (dr_recvs run)) ∧ names_endpoint protocol m o.

Lemma scanned_dumped runs o : runs_wf runs → o ∈ scanned runs ↔ dumped runs o.
Proof.
  intros Hwf. unfold scanned, dumped. rewrite list_elem_of_join. unfold runs_wf in Hwf. rewrite Forall_forall in Hwf.
  assert (Hm : ∀ run m sequence i, runs !! i = Some run → m ∈ before_done sequence (received (dr_recvs run)) →
    length (idiag_src (nm_diag m)) = 4%nat).
  { intros run m sequence i Hr Hm%before_done_sub. specialize (Hwf run (list_elem_of_lookup_2 _ _ _ Hr)).
    rewrite Forall_forall in Hwf. by destruct (Hwf m Hm). }
  split.
  - intros (os & Ho & Hos). apply elem_of_lookup_zip_with in Hos as (i & [protocol sequence] & run & -> & Hi & Hrun).
    apply list_elem_of_omap in Ho as (m & Hin & Ho). exists i, protocol, sequence, run, m.
    split_and!; [done|done|done|]. apply message_owner_spec; [|done]. by eapply Hm.
  - intros (i & protocol & sequence & run & m & Hi & Hrun & Hin & Ho).
    exists (dump_owners (protocol, sequence) run). split.
    + apply list_elem_of_omap. exists m. split; [done|]. apply message_owner_spec; [by eapply Hm|done].
    + apply elem_of_lookup_zip_with. by exists i, (protocol, sequence), run.
Qed.

(** C26: a refresh tells the module exactly what the kernel's socket tables
    say.  When the four dumps come to their end and name at most 65536 endpoints,
    repetitions counted (beyond that the daemon gives the refresh up), the refresh
    succeeds, and until it expires the snapshot of the module contains precisely
    the local endpoints of applications that a message of a dump named before its
    end: listeners and unconnected UDP sockets on a wildcard or loopback address,
    but for the IPv4 wildcard mapped into IPv6, which the daemon leaves out.
    Sorting and removing duplicates lose none and invent none. *)
Theorem owned_scan_exact {KS : KSort} {HKS : KSortLaws KS} HZ now realloc runs d :
  (∀ c, realloc c = true) → runs_complete runs → runs_wf runs →
  (length (scanned runs) <= Z.to_nat VPNHIDE_OWNED_PORTS_MAX)%nat →
  ∃ d' b, refresh_owned_ports realloc HZ now true true true runs d = Some (true, d') ∧
    dv_owned d' = Some b ∧ os_expires b = u64 (now + 120 * HZ) ∧
    ∀ w, op_uid w ≠ 0 → owned_snapshot_contains (os_buckets b) w = true ↔ dumped runs w.
Proof.
  intros Hre Hall Hwf Hlen. destruct (scanned_wf runs Hwf) as [Haddr Hvalid].
  destruct (run_dumps_spec realloc Hre dump_plan runs empty_port_list) as (l & Hrun & Hok & Hi);
    [by intros []|exact Hlen|done|]. fold (scanned runs) in Hi. simpl in Hi.
  set (sorted := ksort owned_port_compare (ol_items l)).
  assert (Hperm : sorted ≡ₚ scanned runs) by (unfold sorted; rewrite Hi; apply ksort_perm).
  assert (Helem : ∀ w, w ∈ unique_ports sorted ↔ w ∈ scanned runs).
  { intros w. rewrite unique_ports_elem by (by rewrite Hperm). by rewrite Hperm. }
  pose proof (unique_ports_length sorted) as Hul. rewrite (Permutation_length Hperm) in Hul.
  set (items := unique_ports sorted) in *. set (count := Z.of_nat (length items)).
  assert (Hmax : 0 <= VPNHIDE_OWNED_PORTS_MAX) by done.
  assert (Hcount : 0 <= count <= VPNHIDE_OWNED_PORTS_MAX) by (unfold count; lia).
  assert (Hptr : count ≠ 0 → items_ptr l ≠ 0).
  { intros Hc. unfold items_ptr. destruct (Z.eqb_spec (ol_capacity l) 0) as [E|]; [|done].
    exfalso. apply (Hok ltac:(intros Hn; rewrite Hn in Hi; rewrite <- Hi in Hul; unfold count in Hc; simpl in Hul; lia) E). }
  assert (Hv : Forall (λ e, owned_entry_valid e = true) items).
  { rewrite Forall_forall in Hvalid |- *. intros e He. by apply Hvalid, Helem. }
  destruct (replace_owned_ports_total HZ now count (items_ptr l) items Hcount Hptr Hv) as [b Hb].
  destruct (replace_owned_ports_spec HZ now count (items_ptr l) items b Hcount eq_refl Hptr Hb)
    as (Hexp & _ & _ & Hin).
  exists (set_ports d (Some b) (dv_pending d)), b. split_and!; [|done|done|].
  - unfold refresh_owned_ports. simpl negb. cbv iota. rewrite Hrun. fold sorted items count.
    unfold ioctl_set_owned_ports. by rewrite Hb.
  - intros w Hw. by rewrite Hin, Helem, scanned_dumped.
Qed.

(** An application listens on loopback, twice in the table, and on the IPv4
    wildcard; a system service does as well. *)
Definition example_diag (family sport uid : Z) (src : list Z) : nlmsg :=
  mk_nlmsg 1 SOCK_DIAG_BY_FAMILY diag_length (mk_diag family sport 0 src uid).
Definition done_msg (sequence : Z) : nlmsg :=
  mk_nlmsg sequence NLMSG_DONE 20 (mk_diag 0 0 0 [0; 0; 0; 0] 0).
Definition example_runs : list dump_run :=
  [mk_dump_run true [RecvMessages [example_diag AF_INET 0x901f 10123 [0x0100007f; 0; 0; 0];
                                   example_diag AF_INET 0x911f 10123 [0; 0; 0; 0];
                                   example_diag AF_INET 0x911f 1000 [0; 0; 0; 0]];
                     RecvInterrupted;
                     RecvMessages [example_diag AF_INET 0x901f 10123 [0x0100007f; 0; 0; 0]; done_msg 1]];
   mk_dump_run true [RecvMessages [done_msg 2]];
   mk_dump_run true [RecvMessages [done_msg 3]];
   mk_dump_run true [RecvMessages [done_msg 4]]].

Lemma owned_scan_exact_witness :
  let w := mk_owned_port 10123 8081 VH_PROTO_TCP AF_INET [0; 0; 0; 0] in
  ∃ d' b, @refresh_owned_ports (λ _, true) merge_ksort 250 1000 true true true example_runs initial_device =
    Some (true, d') ∧ dv_owned d' = Some b ∧ owned_snapshot_contains (os_buckets b) w = true.
Proof.
  destruct (@owned_scan_exact merge_ksort merge_ksort_laws 250 1000 (λ _, true) example_runs initial_device)
    as (d' & b & Hr & Hd & _ & Hw).
  - done.
  - repeat constructor.
  - unfold runs_wf, diag_wf, fits. repeat constructor; discriminate.
  - apply Nat.leb_le. vm_compute. reflexivity.
  - exists d', b. split; [exact Hr|]. split; [exact Hd|]. apply Hw; [discriminate|].
    exists 0%nat, 6, 1. do 2 eexists. split; [reflexivity|]. split; [reflexivity|]. split.
    + vm_compute. right. left.
    + split_and!; try (vm_compute; congruence). by apply V4Wildcard.
Defined.

(** The daemon and the module disagree on an IPv4 wildcard bound through
    an IPv6 socket.  The module records a socket bound to ::ffff:0.0.0.0 as an
    owned IPv4 wildcard, but no message about such a socket is an endpoint the
    scan keeps: once the short-lived record of the bind expires, the
    application's own port is no longer its own. *)
Theorem mapped_wildcard_forgotten uid sk msg :
  sk_family sk = AF_INET6 → sk_type sk = SOCK_STREAM → inet_num sk ≠ 0 →
  sk_v6_rcv_saddr sk = [0; 0; 0xffff0000; 0] →
  idiag_family msg = AF_INET6 → idiag_src msg = sk_v6_rcv_saddr sk →
  owned_port_from_sock uid (Some sk) =
    Some (mk_owned_port uid (inet_num sk) VH_PROTO_TCP AF_INET [0; 0; 0; 0]) ∧
  diag_local_endpoint msg = None.
Proof.
  intros Hf Ht Hn Ha Hmf Hms. split.
  - unfold owned_port_from_sock. cbn [mbind option_bind]. rewrite Ht, Hf, Ha. simpl.
    by rewrite (proj2 (Z.eqb_neq _ _) Hn).
  - unfold diag_local_endpoint. by rewrite Hmf, Hms, Ha.
Qed.

Lemma mapped_wildcard_forgotten_witness :
  let sk := mk_sock SOCK_STREAM AF_INET6 8080 0 [0; 0; 0xffff0000; 0] in
  owned_port_from_sock 10123 (Some sk) = Some (mk_owned_port 10123 8080 VH_PROTO_TCP AF_INET [0; 0; 0; 0]) ∧
  diag_local_endpoint (mk_diag AF_INET6 0x901f 0 [0; 0; 0xffff0000; 0] 10123) = None.
Proof. apply mapped_wildcard_forgotten; done. Defined.

(** A dual-stack listener of UID 10123 on [::]:8080, as the scan reports it. *)
Definition dual_stack_runs : list dump_run :=
  [mk_dump_run true [RecvMessages [done_msg 1]];
   mk_dump_run true [RecvMessages [mk_nlmsg 2 SOCK_DIAG_BY_FAMILY diag_length
     (mk_diag AF_INET6 0x901f 0 [0; 0; 0; 0] 10123); done_msg 2]];
   mk_dump_run true [RecvMessages [done_msg 3]];
   mk_dump_run true [RecvMessages [done_msg 4]]].

(** A server that listens on the IPv6 wildcard accepts IPv4 connections
    too, but it is owned only as an IPv6 endpoint.  With the listener recorded
    both by the probe and by a complete scan, the application's own connection
    to [::1] passes while the one to 127.0.0.1, same port, is refused. *)
Theorem dual_stack_listener_refused :
  let sk := mk_sock SOCK_STREAM AF_INET6 8080 0 [0; 0; 0; 0] in
  let pending := (inet_owner_ret 250 (Some example_snapshot) 1000 true (sk, 10123) 0 empty_pending_table).1 in
  match @refresh_owned_ports (λ _, true) merge_ksort 250 1000 true true true dual_stack_runs initial_device with
  | Some (true, d') =>
      direct_connect_should_block (Some example_snapshot) (dv_owned d') pending 1010 10123 (Some (Some sk))
        (Some (SaInet6 0x901f [0; 0; 0; Z.shiftl 1 24])) = None ∧
      direct_connect_should_block (Some example_snapshot) (dv_owned d') pending 1010 10123 (Some (Some sk))
        (Some (SaInet 0x901f 0x0100007f)) = Some (8080, VH_PROTO_TCP)
  | _ => False
  end.
Proof. vm_compute. split; reflexivity. Qed.
