(* ===== verification/Cover.v ===== *)
(** * The daemon's choice of a cover interface

    [daemon/network.c]: the daemon walks the interface addresses of the system,
    tells the module which interfaces are VPNs, and picks the uplink whose
    addresses, MTU and index the module shows instead.  System calls are
    arguments: what the kernel reports about an interface is a record, and a
    textual address is represented by the address [inet_ntop] printed ([None]
    is the text "none").  The update is modelled up to the module's state. *)
From Stdlib Require Import Strings.Byte Strings.String ZArith Lia.
From stdpp Require Import base gmap numbers list.
From S2P Require Import Prelude Abi Snapshot PolicyQuery Userspace OwnedPorts Stats Device CharDev SockOpt Names Iface.

(** ** One interface *)

(** [buf] without the trailing newlines, carriage returns and blanks. *)
Fixpoint trim_end (rev_buf : bytes) : bytes :=
  match rev_buf with
  | c :: rest => if bool_decide (c ∈ [x0a; x0d; x20]) then trim_end rest else rev_buf
  | [] => []
  end.

(** [content] is what [read] returns of the [operstate] file, at most 31
    bytes; [None] when it cannot be opened or read. *)
Definition is_interface_operstate_up (content : option bytes) : bool :=
  match content with
  | None | Some [] => false
  | Some buf =>
      let s := reverse (trim_end (reverse buf)) in
      strcmp_eq s (lit "up") || strcmp_eq s (lit "unknown")
  end.

(** [hwaddr] is the result of the socket and its [SIOCGIFHWADDR]. *)
Definition interface_arphrd (ifname : bytes) (hwaddr : option Z) : Z :=
  if bool_decide (ifname = []) then 0 else default 0 hwaddr.

(** The outcomes of the calls of one egress test. *)
Record egress_calls := mk_egress {
  eg_socket : bool;
  eg_bind : bool;
  eg_connect : bool;
  eg_name : option bytes;    (* the local address [getsockname] reports *)
  eg_mtu : option Z          (* [IP_MTU] or [IPV6_MTU] *)
}.

(** The local address and the MTU when the interface has a route out. *)
Definition test_interface_egress (af : Z) (e : egress_calls) : option (bytes * Z) :=
  if negb (eg_socket e) then None
  else if negb (eg_bind e) then None
  else if negb ((af =? AF_INET) || (af =? AF_INET6)) then None
  else if negb (eg_connect e) then None
  else match eg_name e with
       | None => None
       | Some addr =>
           if (af =? AF_INET6) && is_fe80 addr then None
           else Some (addr, match eg_mtu e with Some mtu => if 0 <? mtu then mtu else 0 | None => 0 end)
       end.

(** An entry of [getifaddrs]: [ifa_addr] is NULL, not IPv6, or an IPv6 address. *)
Record ifaddrs := mk_ifaddrs {
  ifa_name : bytes;
  ifa_loopback : bool;
  ifa_pointopoint : bool;
  ifa_up : bool;
  ifa_addr : option (option bytes)
}.

(** What the kernel answers about an interface by name. *)
Record netenv := mk_netenv {
  ne_hwaddr : bytes → option Z;
  ne_index : bytes → Z;
  ne_operstate : bytes → option bytes;
  ne_egress : bytes → Z → egress_calls
}.

Record iface_info := mk_iface_info {
  ii_name : bytes;
  ii_ipv4 : option bytes;
  ii_ipv6 : option bytes;
  ii_linklocal : option bytes;
  ii_ipv4_mtu : Z;
  ii_ipv6_mtu : Z
}.

(** ** The walk *)

Section walk.
Context (env : netenv) (prefixes : vpnhide_iface_ioctl_data).

Definition ifa_is_vpn (ifa : ifaddrs) : bool :=
  vpnhide_daemon_is_vpn_interface (Some (ifa_name ifa)) (ifa_pointopoint ifa)
    (interface_arphrd (ifa_name ifa) (ne_hwaddr env (ifa_name ifa)))
    (daemon_is_vpn_ifname (ifa_name ifa) (Some prefixes)).

(** [strncpy(dst, name, 15)] into a zeroed or terminated field of 16. *)
Definition name_field (name : bytes) : bytes := strncpy 15 name ++ [x00].

(** The list of VPNs grows unless the index is there or the list is full. *)
Definition add_vpn (name : bytes) (vpns : list vpnhide_active_vpn) : list vpnhide_active_vpn :=
  let vpn_idx := ne_index env name in
  if 0 <? vpn_idx then
    let dup := existsb (λ v, av_ifindex v =? vpn_idx) vpns in
    if negb dup && (Z.of_nat (length vpns) <? MAX_ACTIVE_VPNS)
    then vpns ++ [mk_active_vpn vpn_idx (name_field name)] else vpns
  else vpns.

(** A new slot: both egress tests are run. *)
Definition new_iface (name : bytes) : iface_info :=
  let v4 := test_interface_egress AF_INET (ne_egress env name AF_INET) in
  let v6 := test_interface_egress AF_INET6 (ne_egress env name AF_INET6) in
  mk_iface_info (take 15 name) (fst <$> v4) (fst <$> v6) None (default 0 (snd <$> v4)) (default 0 (snd <$> v6)).

Definition set_linklocal (addr : bytes) (i : iface_info) : iface_info :=
  mk_iface_info (ii_name i) (ii_ipv4 i) (ii_ipv6 i) (Some addr) (ii_ipv4_mtu i) (ii_ipv6_mtu i).

Fixpoint find_slot (name : bytes) (infos : list iface_info) (i : nat) : option nat :=
  match infos with
  | [] => None
  | info :: infos => if bool_decide (ii_name info = name) then Some i else find_slot name infos (S i)
  end.

(** The entry of an operational candidate: its slot, and its link-local
    address if this is one. *)
Definition visit_candidate (ifa : ifaddrs) (addr : option bytes) (infos : list iface_info) : list iface_info :=
  let '(infos, idx) :=
    match find_slot (ifa_name ifa) infos 0 with
    | Some i => (infos, Some i)
    | None => if (length infos <? 32)%nat then (infos ++ [new_iface (ifa_name ifa)], Some (length infos))
              else (infos, None)
    end in
  match idx, addr with
  | Some i, Some addr => if is_fe80 addr then alter (set_linklocal addr) i infos else infos
  | _, _ => infos
  end.

Definition visit (s : list vpnhide_active_vpn * list iface_info) (ifa : ifaddrs)
    : list vpnhide_active_vpn * list iface_info :=
  let '(vpns, infos) := s in
  if ifa_loopback ifa then s
  else if ifa_is_vpn ifa then (add_vpn (ifa_name ifa) vpns, infos)
  else if negb (ifa_up ifa) then s
  else match ifa_addr ifa with
       | None => s
       | Some addr =>
           if negb (vpnhide_daemon_is_cover_candidate (Some (ifa_name ifa))) then s
           else if negb (is_interface_operstate_up (ne_operstate env (ifa_name ifa))) then s
           else (vpns, visit_candidate ifa addr infos)
       end.

Definition walk (ifas : list ifaddrs) : list vpnhide_active_vpn * list iface_info := foldl visit ([], []) ifas.
End walk.

(** ** The choice *)

Definition base_score (name : bytes) : Z :=
  if has_prefix name (lit "eth") then 100000
  else if has_prefix name (lit "wlan") || has_prefix name (lit "ap") then 50000
  else if vpnhide_daemon_is_cellular_uplink (Some name) then 10000
  else 1000.

(** [None]: no route out, the interface is ignored. *)
Definition iface_score (info : iface_info) : option Z :=
  match ii_ipv4 info, ii_ipv6 info with
  | None, None => None
  | v4, v6 => Some (base_score (ii_name info) + (if v4 is Some _ then 5000 else 0) +
                    (if v6 is Some _ then 5000 else 0))
  end.

Record cover_choice := mk_choice {
  cc_score : Z;
  cc_ifname : bytes;
  cc_ipv4 : option bytes;
  cc_ipv6 : option bytes;
  cc_linklocal : option bytes;
  cc_ipv4_mtu : Z;
  cc_ipv6_mtu : Z
}.

Definition no_choice : cover_choice := mk_choice (-1) [] None None None 0 0.

(** A better interface replaces the addresses, but an MTU or a link-local
    address only if it has one of its own. *)
Definition consider (c : cover_choice) (info : iface_info) : cover_choice :=
  match iface_score info with
  | None => c
  | Some score =>
      if cc_score c <? score then
        mk_choice score (ii_name info) (ii_ipv4 info) (ii_ipv6 info)
          (if ii_linklocal info is Some a then Some a else cc_linklocal c)
          (if ii_ipv4 info is Some _ then ii_ipv4_mtu info else cc_ipv4_mtu c)
          (if ii_ipv6 info is Some _ then ii_ipv6_mtu info else cc_ipv6_mtu c)
      else c
  end.

Definition choose (infos : list iface_info) : cover_choice := foldl consider no_choice infos.

(** ** Publishing *)

(** What was published last; the MTUs start at [UINT_MAX]. *)
Record published := mk_published {
  pb_ipv4 : option bytes;
  pb_ipv6 : option bytes;
  pb_linklocal : option bytes;
  pb_ipv4_mtu : Z;
  pb_ipv6_mtu : Z
}.

#[global] Instance published_eq_dec : EqDecision published.
Proof. solve_decision. Defined.

Definition initial_published : published := mk_published None None None UINT32_MAX UINT32_MAX.

Definition published_of (c : cover_choice) : published :=
  mk_published (cc_ipv4 c) (cc_ipv6 c) (cc_linklocal c) (cc_ipv4_mtu c) (cc_ipv6_mtu c).

Definition flag {A} (o : option A) : Z := if o is Some _ then 1 else 0.

(** The [inet_pton] of a text [inet_ntop] wrote. *)
Definition spoof_of (c : cover_choice) : vpnhide_spoof_ip :=
  mk_spoof_ip (if cc_ipv4 c is Some a then le_combine a else 0)
    (default (replicate 16 x00) (cc_ipv6 c)) (default (replicate 16 x00) (cc_linklocal c))
    (flag (cc_ipv4 c)) (flag (cc_ipv6 c)) (flag (cc_linklocal c)) 0 (cc_ipv4_mtu c) (cc_ipv6_mtu c).

(** The outcomes of the module's allocations. *)
Record publish_allocs := mk_publish_allocs {
  pa_prefixes : bool;
  pa_spoof : bool;
  pa_write : bool;
  pa_data : bool;
  pa_vpns : bool;
  pa_cache : bool
}.

Section publish.
Context (ipv6_is_linklocal : bytes → bool)
  (scan3 : bytes → option (Z * bytes * Z)) (scan2 : bytes → option (Z * Z))
  (env : netenv) (al : publish_allocs).

Definition succeeded (r : ioctl_end) : bool := if ie_error r is None then true else false.

Definition publish_spoof (c : cover_choice) (last : published) (d : device) : bool * published * device :=
  if bool_decide (published_of c = last) then (true, last, d)
  else
    let r := ioctl_set_spoof_ip ipv6_is_linklocal (pa_spoof al) (Some (spoof_of c)) d in
    if succeeded r then (true, published_of c, ie_device r) else (false, last, ie_device r).

(** [write(fd, text, len)] *)
Definition write_device (text : bytes) (d : device) : bool * device :=
  match vpnhide_dev_write scan3 scan2 (pa_write al) (Z.of_nat (length text)) (Some text) d with
  | Ok (_, d) => (true, d)
  | Err _ => (false, d)
  end.

Definition publish_cover (c : cover_choice) (d : device) : bool * device :=
  if bool_decide (cc_ifname c = []) then
    let r := ioctl_set_cover_iface (Some 0) d in
    let '(ok, d) := write_device (lit "cover_iface:none" ++ [x0a]) (ie_device r) in
    (succeeded r && ok, d)
  else
    let ifindex := ne_index env (cc_ifname c) in
    if 0 <? ifindex then
      let r := ioctl_set_cover_iface (Some ifindex) d in
      let '(ok, d) := write_device (lit "cover_iface:" ++ cc_ifname c ++ [x0a]) (ie_device r) in
      (succeeded r && ok, d)
    else (false, d).

(** The array of [MAX_ACTIVE_VPNS] entries, zeroed beyond [count]. *)
Definition vpn_table (vpns : list vpnhide_active_vpn) : vpnhide_vpn_ifindexes :=
  mk_vpn_ifindexes (Z.of_nat (length vpns))
    (vpns ++ replicate (Z.to_nat MAX_ACTIVE_VPNS - length vpns) (mk_active_vpn 0 (replicate 16 x00))).

Definition publish_vpns (vpns : list vpnhide_active_vpn) (d : device) : bool * device :=
  let r := ioctl_set_vpn_ifindexes (pa_data al) (pa_vpns al) (pa_cache al) (Some (vpn_table vpns)) d in
  (succeeded r, ie_device r).

Definition no_prefixes : vpnhide_iface_ioctl_data := mk_iface_data 0 [].

(** [VH_GET_IFACE_PREFIXES] into a zeroed structure. *)
Definition configured_prefixes (d : device) : vpnhide_iface_ioctl_data :=
  match ie_out (ioctl_get_iface_prefixes (pa_prefixes al) true d) with
  | OutIfaces (Some p) => p
  | _ => no_prefixes
  end.

(** [ifas]: the addresses, [None] when [getifaddrs] fails. *)
Definition update_spoof_ip (ifas : option (list ifaddrs)) (last : published) (d : device)
    : bool * published * device :=
  match ifas with
  | None => (false, last, d)
  | Some ifas =>
      let '(vpns, infos) := walk env (configured_prefixes d) ifas in
      let c := choose infos in
      let '(ok1, last, d) := publish_spoof c last d in
      let '(ok2, d) := publish_cover c d in
      let '(ok3, d) := publish_vpns vpns d in
      (ok1 && ok2 && ok3, last, d)
  end.
End publish.

(** ** The walk, by what it promises *)

Section walked.
Context (env : netenv) (prefixes : vpnhide_iface_ioctl_data).

(** An operational uplink that may provide the cover. *)
Definition candidate (ifa : ifaddrs) : Prop :=
  ifa_loopback ifa = false ∧ ifa_is_vpn env prefixes ifa = false ∧ ifa_up ifa = true ∧
  vpnhide_daemon_is_cover_candidate (Some (ifa_name ifa)) = true ∧
  is_interface_operstate_up (ne_operstate env (ifa_name ifa)) = true ∧ is_Some (ifa_addr ifa).

(** The interfaces to hide: those the walk takes for VPNs, if they have an index. *)
Definition is_vpn_index (ifas : list ifaddrs) (i : Z) : Prop :=
  0 < i ∧ ∃ ifa, ifa ∈ ifas ∧ ifa_loopback ifa = false ∧ ifa_is_vpn env prefixes ifa = true ∧
    ne_index env (ifa_name ifa) = i.

(** The walk as an invariant over the entries seen so far. *)
Record walk_inv (seen : list ifaddrs) (s : list vpnhide_active_vpn * list iface_info) : Prop := {
  wi_nodup : NoDup (av_ifindex <$> s.1);
  wi_bound : (length s.1 <= Z.to_nat MAX_ACTIVE_VPNS)%nat;
  wi_sound : ∀ i, i ∈ av_ifindex <$> s.1 → is_vpn_index seen i;
  wi_complete : ∀ i, is_vpn_index seen i → i ∈ av_ifindex <$> s.1 ∨ length s.1 = Z.to_nat MAX_ACTIVE_VPNS;
  wi_infos : ∀ info, info ∈ s.2 → ∃ ifa, ifa ∈ seen ∧ candidate ifa ∧ ii_name info = take 15 (ifa_name ifa)
}.

Lemma is_vpn_index_app seen ifa i :
  is_vpn_index (seen ++ [ifa]) i ↔
  is_vpn_index seen i ∨
  (0 < i ∧ ifa_loopback ifa = false ∧ ifa_is_vpn env prefixes ifa = true ∧ ne_index env (ifa_name ifa) = i).
Proof.
  unfold is_vpn_index. split.
  - intros (Hi & x & [Hx| ->%list_elem_of_singleton]%elem_of_app & ?); [left|right]; eauto.
  - intros [(Hi & x & Hx & ?)|(Hi & ?)]; (split; [done|]); [exists x|exists ifa];
      rewrite elem_of_app, list_elem_of_singleton; auto.
Qed.

Lemma existsb_index vpns i :
  existsb (λ v, av_ifindex v =? i) vpns = true ↔ i ∈ av_ifindex <$> vpns.
Proof.
  rewrite list_elem_of_fmap, List.existsb_exists. split.
  - intros (v & Hv & E%Z.eqb_eq). exists v. by rewrite list_elem_of_In.
  - intros (v & -> & Hv). exists v. by rewrite <- list_elem_of_In, Z.eqb_refl.
Qed.

(** An entry that names no VPN leaves the list of VPNs as it is. *)
Lemma walk_inv_other seen ifa vpns infos infos' :
  walk_inv seen (vpns, infos) →
  (ifa_loopback ifa = true ∨ ifa_is_vpn env prefixes ifa = false) →
  (∀ info, info ∈ infos' → (∃ info', info' ∈ infos ∧ ii_name info' = ii_name info) ∨
     (candidate ifa ∧ ii_name info = take 15 (ifa_name ifa))) →
  walk_inv (seen ++ [ifa]) (vpns, infos').
Proof.
  intros [H1 H2 H3 H4 H5] Hno Hinfos. split; simpl in *; try done.
  - intros i Hi. apply is_vpn_index_app. auto.
  - intros i [Hi|(_ & Hl & Hv & _)]%is_vpn_index_app; [auto|]. destruct Hno; congruence.
  - intros info Hin. destruct (Hinfos info Hin) as [(info' & Hi' & <-)|[Hc Hn]].
    + destruct (H5 info' Hi') as (x & Hx & ?). exists x. rewrite elem_of_app. auto.
    + exists ifa. rewrite elem_of_app, list_elem_of_singleton. auto.
Qed.

Lemma walk_inv_vpn seen ifa vpns infos :
  walk_inv seen (vpns, infos) → ifa_loopback ifa = false → ifa_is_vpn env prefixes ifa = true →
  walk_inv (seen ++ [ifa]) (add_vpn env (ifa_name ifa) vpns, infos).
Proof.
  intros [H1 H2 H3 H4 H5] Hl Hv. simpl in *.
  assert (Hinfos : ∀ info, info ∈ infos → ∃ x, x ∈ seen ++ [ifa] ∧ candidate x ∧ ii_name info = take 15 (ifa_name x)).
  { intros info Hin. destruct (H5 info Hin) as (x & Hx & ?). exists x. rewrite elem_of_app. auto. }
  unfold add_vpn. destruct (Z.ltb_spec 0 (ne_index env (ifa_name ifa))) as [Hpos|Hneg].
  2:{ split; simpl; try done; intros i.
      - intros Hi. apply is_vpn_index_app. auto.
      - intros [Hi|(Hi & _ & _ & <-)]%is_vpn_index_app; [auto|lia]. }
  destruct (existsb _ vpns) eqn:Hdup; cbn [negb andb].
  { apply existsb_index in Hdup. split; simpl; try done; intros i.
    - intros Hi. apply is_vpn_index_app. auto.
    - intros [Hi|(_ & _ & _ & <-)]%is_vpn_index_app; auto. }
  apply not_true_iff_false in Hdup. rewrite existsb_index in Hdup.
  destruct (Z.ltb_spec (Z.of_nat (length vpns)) MAX_ACTIVE_VPNS) as [Hlt|Hge].
  - split; simpl; rewrite ?fmap_app, ?length_app; simpl; try done; try lia.
    + apply NoDup_app. split_and!; [done| |apply NoDup_singleton].
      intros i Hi ->%list_elem_of_singleton. done.
    + intros i [Hi| ->%list_elem_of_singleton]%elem_of_app; apply is_vpn_index_app; auto.
    + intros i [Hi|(_ & _ & _ & <-)]%is_vpn_index_app; rewrite elem_of_app, list_elem_of_singleton; [|auto].
      destruct (H4 i Hi); [auto|lia].
  - split; simpl; try done; intros i.
    + intros Hi. apply is_vpn_index_app. auto.
    + intros _. right. lia.
Qed.

Lemma visit_candidate_names ifa addr infos info :
  info ∈ visit_candidate env ifa addr infos →
  (∃ info', info' ∈ infos ∧ ii_name info' = ii_name info) ∨ ii_name info = take 15 (ifa_name ifa).
Proof.
  unfold visit_candidate.
  assert (Halter : ∀ a (i : nat) (l : list iface_info), info ∈ alter (set_linklocal a) i l → ∃ info', info' ∈ l ∧ ii_name info' = ii_name info).
  { intros a i l [j Hj]%list_elem_of_lookup. destruct (decide (i = j)) as [->|].
    - rewrite list_lookup_alter_eq in Hj. destruct (l !! j) as [x|] eqn:Hx; [|done]. simpl in Hj. simplify_eq.
      exists x. split; [by eapply list_elem_of_lookup_2|done].
    - rewrite list_lookup_alter_ne in Hj by done. exists info. split; [by eapply list_elem_of_lookup_2|done]. }
  assert (Hnew : ∀ x, x ∈ infos ++ [new_iface env (ifa_name ifa)] →
    (∃ info', info' ∈ infos ∧ ii_name info' = ii_name x) ∨ ii_name x = take 15 (ifa_name ifa)).
  { intros x [Hx| ->%list_elem_of_singleton]%elem_of_app; [left; eauto|by right]. }
  destruct (find_slot _ _ _) as [i|]; [|destruct (_ <? _)%nat]; (destruct addr as [a|]; [destruct (is_fe80 a)|]);
    intros Hin; try (left; by eauto); try (by apply Hnew); try (left; by apply Halter in Hin).
  apply Halter in Hin as (x & Hx & E). destruct (Hnew x Hx) as [(y & Hy & E')|E']; [left|right]; [exists y|];
    split_and?; congruence.
Qed.

Lemma walk_inv_visit seen s ifa :
  walk_inv seen s → walk_inv (seen ++ [ifa]) (visit env prefixes s ifa).
Proof.
  destruct s as [vpns infos]. intros Hinv. unfold visit.
  assert (Hsame : ∀ info : iface_info, info ∈ infos → (∃ info', info' ∈ infos ∧ ii_name info' = ii_name info) ∨
    (candidate ifa ∧ ii_name info = take 15 (ifa_name ifa))) by eauto.
  destruct (ifa_loopback ifa) eqn:Hl; [by eapply walk_inv_other; eauto|].
  destruct (ifa_is_vpn env prefixes ifa) eqn:Hv; [by apply walk_inv_vpn|].
  destruct (ifa_up ifa) eqn:Hup; cbn [negb]; [|by eapply walk_inv_other; eauto].
  destruct (ifa_addr ifa) as [addr|] eqn:Ha; [|by eapply walk_inv_other; eauto].
  destruct (vpnhide_daemon_is_cover_candidate _) eqn:Hc; cbn [negb]; [|by eapply walk_inv_other; eauto].
  destruct (is_interface_operstate_up _) eqn:Ho; cbn [negb]; [|by eapply walk_inv_other; eauto].
  eapply walk_inv_other; [done|by right|]. intros info Hin.
  destruct (visit_candidate_names _ _ _ _ Hin); [by left|right]. split; [|done]. split_and!; eauto.
Qed.

Lemma walk_spec ifas : walk_inv ifas (walk env prefixes ifas).
Proof.
  unfold walk. induction ifas as [|ifa ifas IH] using rev_ind.
  - split; simpl; try done; try lia; try (by intros ? ?%elem_of_nil); [apply NoDup_nil_2|].
    intros i (_ & x & []%elem_of_nil & _).
  - rewrite foldl_app. simpl. by apply walk_inv_visit.
Qed.
End walked.

(** ** Routes *)

(** The daemon has a route out of an interface for a family when it can open a
    socket, bind it to the interface and connect it, and the kernel then reports
    [addr] as its own address, which for IPv6 must not be link-local. *)
Definition egress_address (env : netenv) (name : bytes) (af : Z) (addr : bytes) : Prop :=
  let e := ne_egress env name af in
  eg_socket e = true ∧ eg_bind e = true ∧ eg_connect e = true ∧ eg_name e = Some addr ∧
  (af = AF_INET6 → is_fe80 addr = false).

Definition has_route (env : netenv) (name : bytes) : Prop :=
  ∃ af addr, (af = AF_INET ∨ af = AF_INET6) ∧ egress_address env name af addr.

Lemma egress_spec env name af addr :
  af = AF_INET ∨ af = AF_INET6 →
  fst <$> test_interface_egress af (ne_egress env name af) = Some addr ↔ egress_address env name af addr.
Proof.
  intros Haf. unfold test_interface_egress, egress_address.
  assert ((af =? AF_INET) || (af =? AF_INET6) = true) as -> by (destruct Haf as [-> | ->]; done).
  destruct (ne_egress env name af) as [so bi co [nm|] mtu]; cbn [eg_socket eg_bind eg_connect eg_name eg_mtu].
  2:{ destruct so, bi, co; cbn [negb]; split; try done; by intros (_ & _ & _ & ? & _). }
  destruct so, bi, co; cbn [negb]; try (split; [done|]; by intros (? & ? & ? & _)).
  destruct (Z.eqb_spec af AF_INET6) as [->|Hne]; cbn [andb].
  - destruct (is_fe80 nm) eqn:E; cbn.
    + split; [done|]. intros (_ & _ & _ & [= <-] & H). by rewrite H in E.
    + split; [intros [= <-]; split_and!; done|]. by intros (_ & _ & _ & [= <-] & _).
  - cbn. split; [intros [= <-]; split_and!; done|]. by intros (_ & _ & _ & [= <-] & _).
Qed.

(** How the daemon ranks an uplink: by the kind its name says, and five thousand
    for each family it has a route for. *)
Definition uplink_rank (env : netenv) (name : bytes) (rank : Z) : Prop :=
  ∃ v4 v6 : bool, (v4 = true ↔ ∃ a, egress_address env name AF_INET a) ∧
    (v6 = true ↔ ∃ a, egress_address env name AF_INET6 a) ∧
    rank = (if has_prefix name (lit "eth") then 100000
            else if has_prefix name (lit "wlan") || has_prefix name (lit "ap") then 50000
            else if vpnhide_daemon_is_cellular_uplink (Some name) then 10000 else 1000) +
           (if v4 then 5000 else 0) + (if v6 then 5000 else 0).

Lemma uplink_rank_unique env name r r' : uplink_rank env name r → uplink_rank env name r' → r = r'.
Proof.
  intros (a & b & Ha & Hb & ->) (a' & b' & Ha' & Hb' & ->).
  assert (a = a') as -> by (apply eq_true_iff_eq; by rewrite Ha, Ha').
  assert (b = b') as -> by (apply eq_true_iff_eq; by rewrite Hb, Hb'). done.
Qed.

(** ** The slots of the walk *)

(** A slot but for its link-local address and MTUs. *)
Definition core (i : iface_info) : bytes * option bytes * option bytes := (ii_name i, ii_ipv4 i, ii_ipv6 i).

Lemma find_slot_None name infos i : find_slot name infos i = None ↔ name ∉ ii_name <$> infos.
Proof.
  revert i. induction infos as [|info infos IH]; intros i; cbn [find_slot fmap list_fmap].
  - split; [|done]. intros _. apply not_elem_of_nil.
  - rewrite not_elem_of_cons. case_bool_decide as H; [|rewrite IH; naive_solver]. split; [done|naive_solver].
Qed.

Lemma visit_candidate_core env ifa addr infos :
  core <$> visit_candidate env ifa addr infos =
  core <$> (if decide (ifa_name ifa ∈ ii_name <$> infos) then infos
            else if (length infos <? 32)%nat then infos ++ [new_iface env (ifa_name ifa)] else infos).
Proof.
  unfold visit_candidate.
  assert (Halter : ∀ a (i : nat) (l : list iface_info), core <$> alter (set_linklocal a) i l = core <$> l).
  { intros a i l. revert i. induction l as [|x l IH]; intros [|i]; [done..|]. cbn. f_equal. apply IH. }
  destruct (find_slot _ _ _) as [i|] eqn:E.
  - rewrite decide_True; [destruct addr as [a|]; [destruct (is_fe80 a)|]; rewrite ?Halter; done|].
    destruct (decide (ifa_name ifa ∈ ii_name <$> infos)) as [|Hn]; [done|]. apply (find_slot_None _ _ 0) in Hn. congruence.
  - apply find_slot_None in E. rewrite decide_False by done.
    destruct (_ <? _)%nat; (destruct addr as [a|]; [destruct (is_fe80 a)|]); rewrite ?Halter; done.
Qed.

Section slots.
Context (env : netenv) (prefixes : vpnhide_iface_ioctl_data).

(** The slots hold the test results of distinct candidates, of every one of them
    while there is room. *)
Record slots_inv (seen : list ifaddrs) (infos : list iface_info) : Prop := {
  si_nodup : NoDup (ii_name <$> infos);
  si_bound : (length infos <= 32)%nat;
  si_sound : ∀ info, info ∈ infos →
    ∃ ifa, ifa ∈ seen ∧ candidate env prefixes ifa ∧ core info = core (new_iface env (ifa_name ifa));
  si_complete : ∀ ifa, ifa ∈ seen → candidate env prefixes ifa →
    ifa_name ifa ∈ ii_name <$> infos ∨ length infos = 32%nat
}.

Lemma core_names (infos infos' : list iface_info) : core <$> infos = core <$> infos' → ii_name <$> infos = ii_name <$> infos'.
Proof.
  intros H. apply (f_equal (fmap (λ c, c.1.1))) in H. by rewrite <- !list_fmap_compose in H.
Qed.

(** The invariant is about the cores. *)
Lemma slots_inv_core seen (infos infos' : list iface_info) :
  core <$> infos' = core <$> infos → slots_inv seen infos → slots_inv seen infos'.
Proof.
  intros Hc [H1 H2 H3 H4]. pose proof (core_names _ _ Hc) as Hn.
  assert (length infos' = length infos) as Hl by (by rewrite <- (length_fmap core infos'), Hc, length_fmap).
  split; rewrite ?Hn, ?Hl; try done. intros info Hin.
  assert (core info ∈ core <$> infos) as (x & Hx & Hxin)%list_elem_of_fmap by (rewrite <- Hc; by apply list_elem_of_fmap_2).
  rewrite Hx. auto.
Qed.

Lemma slots_inv_skip seen ifa infos :
  ¬ candidate env prefixes ifa → slots_inv seen infos → slots_inv (seen ++ [ifa]) infos.
Proof.
  intros Hno [H1 H2 H3 H4]. split; try done.
  - intros info Hin. destruct (H3 info Hin) as (x & Hx & ?). exists x. rewrite elem_of_app. auto.
  - intros x [Hx| ->%list_elem_of_singleton]%elem_of_app Hc; [auto|done].
Qed.

Lemma slots_inv_candidate seen ifa addr infos :
  (length (ifa_name ifa) <= 15)%nat → candidate env prefixes ifa → slots_inv seen infos →
  slots_inv (seen ++ [ifa]) (visit_candidate env ifa addr infos).
Proof.
  intros Hshort Hc [H1 H2 H3 H4]. apply slots_inv_core with (1 := visit_candidate_core env ifa addr infos).
  assert (Hs : ∀ info, info ∈ infos → ∃ x, x ∈ seen ++ [ifa] ∧ candidate env prefixes x ∧
    core info = core (new_iface env (ifa_name x))).
  { intros info Hin. destruct (H3 info Hin) as (x & Hx & ?). exists x. rewrite elem_of_app. auto. }
  case_decide as Hd; [|destruct (Nat.ltb_spec (length infos) 32) as [Hlt|Hge]].
  - split; try done. intros x [Hx| ->%list_elem_of_singleton]%elem_of_app Hcx; [auto|by left].
  - assert (ii_name (new_iface env (ifa_name ifa)) = ifa_name ifa) as Hn by (cbn; by apply take_ge).
    split; rewrite ?fmap_app, ?length_app; cbn [length fmap list_fmap]; rewrite ?Hn; [|lia|..].
    + apply NoDup_app. split_and!; [done| |apply NoDup_singleton]. by intros n Hin ->%list_elem_of_singleton.
    + intros info [Hin| ->%list_elem_of_singleton]%elem_of_app; [auto|].
      exists ifa. rewrite elem_of_app, list_elem_of_singleton. auto.
    + intros x [Hx| ->%list_elem_of_singleton]%elem_of_app Hcx; rewrite elem_of_app, list_elem_of_singleton; [|auto].
      destruct (H4 x Hx Hcx); [auto|lia].
  - split; try done. intros x _ _. right. lia.
Qed.

Lemma walk_slots ifas :
  Forall (λ ifa, (length (ifa_name ifa) <= 15)%nat) ifas → slots_inv ifas (walk env prefixes ifas).2.
Proof.
  unfold walk. induction ifas as [|ifa ifas IH] using rev_ind; intros Hs.
  { split; simpl; try lia; [apply NoDup_nil_2|by intros ? ?%elem_of_nil|by intros ? ?%elem_of_nil]. }
  apply Forall_app in Hs as [Hs H1]. rewrite Forall_singleton in H1. specialize (IH Hs).
  rewrite foldl_app. cbn [foldl]. destruct (foldl (visit env prefixes) ([], []) ifas) as [vpns infos]. cbn [snd] in IH.
  unfold visit.
  destruct (ifa_loopback ifa) eqn:E1; [apply slots_inv_skip; [|done]; intros (? & _); congruence|].
  destruct (ifa_is_vpn env prefixes ifa) eqn:E2; [apply slots_inv_skip; [|done]; intros (_ & ? & _); congruence|].
  destruct (ifa_up ifa) eqn:E3; cbn [negb]; [|apply slots_inv_skip; [|done]; intros (_ & _ & ? & _); congruence].
  destruct (ifa_addr ifa) as [addr|] eqn:E4;
    [|apply slots_inv_skip; [|done]; intros (_ & _ & _ & _ & _ & [? ?]); congruence].
  destruct (vpnhide_daemon_is_cover_candidate _) eqn:E5; cbn [negb];
    [|apply slots_inv_skip; [|done]; intros (_ & _ & _ & ? & _); congruence].
  destruct (is_interface_operstate_up _) eqn:E6; cbn [negb];
    [|apply slots_inv_skip; [|done]; intros (_ & _ & _ & _ & ? & _); congruence].
  apply slots_inv_candidate; [done| |done]. split_and!; eauto.
Qed.

(** The score of a slot is the rank of its interface, and it has none exactly when
    there is no route out. *)
Lemma score_rank name info :
  (length name <= 15)%nat → core info = core (new_iface env name) →
  (∀ score, iface_score info = Some score → has_route env name ∧ uplink_rank env name score) ∧
  (iface_score info = None → ¬ has_route env name) ∧
  (∀ a, ii_ipv4 info = Some a ↔ egress_address env name AF_INET a) ∧
  (∀ a, ii_ipv6 info = Some a ↔ egress_address env name AF_INET6 a) ∧ ii_name info = name.
Proof.
  intros Hs [= Hn H4 H6]. rewrite take_ge in Hn by done.
  assert (E4 : ∀ a, ii_ipv4 info = Some a ↔ egress_address env name AF_INET a).
  { intros a. rewrite H4. apply egress_spec. by left. }
  assert (E6 : ∀ a, ii_ipv6 info = Some a ↔ egress_address env name AF_INET6 a).
  { intros a. rewrite H6. apply egress_spec. by right. }
  clear H4 H6. split_and!; [| |done|done|done]; unfold iface_score.
  - intros score. assert (Hr : ∀ v4 v6 : bool, (v4 = true ↔ is_Some (ii_ipv4 info)) → (v6 = true ↔ is_Some (ii_ipv6 info)) →
      uplink_rank env name (base_score (ii_name info) + (if v4 then 5000 else 0) + (if v6 then 5000 else 0))).
    { intros v4 v6 Hv4 Hv6. exists v4, v6. rewrite Hn. split_and!; [| |done].
      - rewrite Hv4. split; [intros [a Ha]|intros [a Ha]]; exists a; by apply E4.
      - rewrite Hv6. split; [intros [a Ha]|intros [a Ha]]; exists a; by apply E6. }
    destruct (ii_ipv4 info) as [a4|] eqn:I4; [|destruct (ii_ipv6 info) as [a6|] eqn:I6]; [| |done].
    + intros [= <-]. split; [exists AF_INET, a4; split; [by left|]; by apply E4|].
      destruct (ii_ipv6 info) as [a6|]; [apply (Hr true true)|apply (Hr true false)]; split; eauto;
        [done|by intros [? ?]].
    + intros [= <-]. split; [exists AF_INET6, a6; split; [by right|]; by apply E6|].
      apply (Hr false true); split; eauto; [done|by intros [? ?]].
  - destruct (ii_ipv4 info) as [a4|] eqn:I4; [done|]. destruct (ii_ipv6 info) as [a6|] eqn:I6; [done|].
    intros _ (af & addr & [-> | ->] & H); [apply E4 in H|apply E6 in H]; done.
Qed.
End slots.

(** ** The choice, by what it promises *)

Lemma iface_score_pos info score : iface_score info = Some score → 0 <= score.
Proof.
  assert (Hb : 0 <= base_score (ii_name info)) by (unfold base_score; repeat case_match; lia).
  unfold iface_score. destruct (ii_ipv4 info), (ii_ipv6 info); intros [= <-]; lia.
Qed.

(** The chosen interface has the best score, and the addresses are its own. *)
Lemma choose_spec infos :
  let c := choose infos in
  (∀ info score, info ∈ infos → iface_score info = Some score → score <= cc_score c) ∧
  ((c = no_choice ∧ ∀ info, info ∈ infos → iface_score info = None) ∨
   ∃ info, info ∈ infos ∧ iface_score info = Some (cc_score c) ∧ cc_ifname c = ii_name info ∧
     cc_ipv4 c = ii_ipv4 info ∧ cc_ipv6 c = ii_ipv6 info).
Proof.
  cbv zeta. unfold choose. induction infos as [|info infos [Hmax Hsome]] using rev_ind.
  { split; [by intros ? ? ?%elem_of_nil|left]. split; [done|]. by intros ? ?%elem_of_nil. }
  rewrite foldl_app. cbn [foldl]. set (c := foldl consider no_choice infos) in *. unfold consider.
  destruct (iface_score info) as [score|] eqn:Hs.
  2:{ split.
      - intros x sc [Hx| ->%list_elem_of_singleton]%elem_of_app Hsc; [eauto|congruence].
      - destruct Hsome as [[Hc Hn]|(x & Hx & ?)]; [left|right].
        + split; [done|]. intros x [Hx| ->%list_elem_of_singleton]%elem_of_app; auto.
        + exists x. rewrite elem_of_app. auto. }
  destruct (Z.ltb_spec (cc_score c) score) as [Hlt|Hge].
  - split; cbn [cc_score cc_ifname cc_ipv4 cc_ipv6].
    + intros x sc [Hx| ->%list_elem_of_singleton]%elem_of_app Hsc; [specialize (Hmax x sc Hx Hsc); lia|].
      rewrite Hs in Hsc. simplify_eq. lia.
    + right. exists info. rewrite elem_of_app, list_elem_of_singleton. auto.
  - split.
    + intros x sc [Hx| ->%list_elem_of_singleton]%elem_of_app Hsc; [eauto|]. rewrite Hs in Hsc. by simplify_eq.
    + destruct Hsome as [[Hc Hn]|(x & Hx & ?)].
      * apply iface_score_pos in Hs. rewrite Hc in Hge. simpl in Hge. lia.
      * right. exists x. rewrite elem_of_app. auto.
Qed.

(** ** Writes leave the rest alone *)

Lemma write_command_keeps scan3 scan2 kbuf d :
  let d' := write_command scan3 scan2 kbuf d in
  dv_cover_ifindex d' = dv_cover_ifindex d ∧ dv_vpns d' = dv_vpns d ∧ dv_spoof d' = dv_spoof d.
Proof.
  cbv zeta. unfold write_command. destruct (strncmp_eq 6 _ _).
  { by destruct (java_lines _ _ _ _ _ _) as [buf st]. }
  destruct (strncmp_eq 7 _ _); [done|]. destruct (strcmp_eq _ _); [done|]. by destruct (strncmp_eq 12 _ _).
Qed.

Section published.
Context (ll : bytes → bool) (scan3 : bytes → option (Z * bytes * Z)) (scan2 : bytes → option (Z * Z))
  (env : netenv) (al : publish_allocs).

Lemma write_device_keeps text d :
  let d' := (write_device scan3 scan2 al text d).2 in
  dv_cover_ifindex d' = dv_cover_ifindex d ∧ dv_vpns d' = dv_vpns d ∧ dv_spoof d' = dv_spoof d.
Proof.
  cbv zeta. unfold write_device, vpnhide_dev_write. destruct (_ <? _); [done|].
  destruct (negb _); [done|]. simpl. by apply write_command_keeps.
Qed.

Lemma publish_cover_index c d d' :
  publish_cover scan3 scan2 env al c d = (true, d') →
  dv_vpns d' = dv_vpns d ∧ dv_spoof d' = dv_spoof d ∧
  dv_cover_ifindex d' = (if bool_decide (cc_ifname c = []) then 0 else s32 (ne_index env (cc_ifname c))) ∧
  (cc_ifname c ≠ [] → 0 < ne_index env (cc_ifname c)).
Proof.
  unfold publish_cover. case_bool_decide as Hn.
  - pose proof (write_device_keeps (lit "cover_iface:none" ++ [x0a]) (ie_device (ioctl_set_cover_iface (Some 0) d)))
      as (H1 & H2 & H3).
    destruct (write_device _ _ _ _ _) as [ok d1]. intros [= _ <-]. simpl in *. by rewrite H1.
  - destruct (Z.ltb_spec 0 (ne_index env (cc_ifname c))) as [Hpos|]; [|done].
    set (i := ne_index env (cc_ifname c)) in *.
    pose proof (write_device_keeps (lit "cover_iface:" ++ cc_ifname c ++ [x0a])
      (ie_device (ioctl_set_cover_iface (Some i) d))) as (H1 & H2 & H3).
    destruct (write_device _ _ _ _ _) as [ok d1]. intros [= _ <-]. simpl in *. by rewrite H1.
Qed.

(** What a successful update leaves in the module. *)
Lemma update_published ifas last d last' d' :
  update_spoof_ip ll scan3 scan2 env al (Some ifas) last d = (true, last', d') →
  let w := walk env (configured_prefixes al d) ifas in
  let c := choose w.2 in
  dv_vpns d' = Some (vpn_table w.1) ∧
  dv_cover_ifindex d' = (if bool_decide (cc_ifname c = []) then 0 else s32 (ne_index env (cc_ifname c))) ∧
  (cc_ifname c ≠ [] → 0 < ne_index env (cc_ifname c)) ∧
  last' = published_of c ∧
  (last ≠ published_of c → dv_spoof d' = Some (sanitize_spoof_ip ll (spoof_of c))).
Proof.
  unfold update_spoof_ip. destruct (walk _ _ _) as [vpns infos]. cbv zeta. cbn [fst snd].
  set (c := choose infos). destruct (publish_spoof _ _ _ _ _) as [[ok1 last1] d1] eqn:H1.
  destruct (publish_cover _ _ _ _ _ _) as [ok2 d2] eqn:H2.
  destruct (publish_vpns _ _ _) as [ok3 d3] eqn:H3.
  intros [= [[-> ->]%andb_true_iff ->]%andb_true_iff <- <-].
  apply publish_cover_index in H2 as (Hv & Hs & Hi & Hpos).
  unfold publish_vpns in H3. injection H3 as Hok <-.
  assert (Hset : ie_device (ioctl_set_vpn_ifindexes (pa_data al) (pa_vpns al) (pa_cache al) (Some (vpn_table vpns)) d2) =
    bump_generation (set_vpns d2 (Some (vpn_table vpns))
      (vh_rebuild_name_cache (pa_cache al) (vpn_table vpns) (dv_names d2)))).
  { unfold ioctl_set_vpn_ifindexes in *. destruct (negb (pa_data al)); [done|].
    destruct (_ || _); [done|]. by destruct (negb (pa_vpns al)). }
  rewrite Hset. cbn. split_and!; [done|done|done| |].
  - unfold publish_spoof in H1. destruct (bool_decide_reflect (published_of c = last)) as [He|He]; [by simplify_eq|]. by destruct (succeeded _); simplify_eq.
  - intros Hne. rewrite Hs. unfold publish_spoof in H1. destruct (bool_decide_reflect (published_of c = last)) as [He|He]; [done|].
    unfold ioctl_set_spoof_ip in H1. destruct (negb _); simpl in H1; by simplify_eq.
Qed.
End published.

Lemma vpn_table_index vpns i :
  is_active_vpn_ifindex (Some (vpn_table vpns)) i = true ↔ i ∈ av_ifindex <$> vpns.
Proof.
  unfold is_active_vpn_ifindex, vpn_table. cbn [vi_count vi_vpns].
  rewrite Nat2Z.id, take_app_length. apply existsb_index.
Qed.

(** C27: after an update the module hides exactly the VPN interfaces of the
    system.  No index is hidden that does not belong to an interface the walk
    takes for a VPN, and when those are at most sixteen every one of them is
    hidden; the seventeenth would not be. *)
Theorem update_hides_vpns ll scan3 scan2 env al ifas last d last' d' :
  update_spoof_ip ll scan3 scan2 env al (Some ifas) last d = (true, last', d') →
  let vpn := is_vpn_index env (configured_prefixes al d) ifas in
  (∀ i, is_active_vpn_ifindex (dv_vpns d') i = true → vpn i) ∧
  ∀ all, (∀ i, vpn i → i ∈ all) → (length all <= Z.to_nat MAX_ACTIVE_VPNS)%nat →
    ∀ i, vpn i → is_active_vpn_ifindex (dv_vpns d') i = true.
Proof.
  intros (-> & _)%update_published. cbv zeta.
  pose proof (walk_spec env (configured_prefixes al d) ifas) as [Hnd Hb Hsound Hcomplete _].
  set (vpns := (walk _ _ _).1) in *. split.
  - intros i Hi%vpn_table_index. auto.
  - intros all Hall Hlen i Hi. apply vpn_table_index. destruct (Hcomplete i Hi) as [|Hfull]; [done|].
    destruct (decide (i ∈ av_ifindex <$> vpns)) as [|Hn]; [done|]. exfalso.
    assert (Hsub : (i :: (av_ifindex <$> vpns)) ⊆+ all).
    { apply NoDup_submseteq; [by apply NoDup_cons|]. intros j [->|Hj]%elem_of_cons; auto. }
    apply submseteq_length in Hsub. simpl in Hsub. rewrite length_fmap in Hsub. lia.
Qed.


(** A phone on mobile data and Wi-Fi with one tunnel: rmnet0 has IPv4, IPv6 and
    a link-local address, wlan0 only IPv4. *)
Definition fe80_1 : bytes := [xfe; x80] ++ replicate 13 x00 ++ [x01].
Definition global_v6 : bytes := [x20; x01] ++ replicate 13 x00 ++ [x05].
Definition example_egress (name : bytes) (af : Z) : egress_calls :=
  if bool_decide (name = lit "rmnet0") then
    if af =? AF_INET then mk_egress true true true (Some [x0a; x01; x01; x01]) (Some 1500)
    else mk_egress true true true (Some global_v6) (Some 1400)
  else if bool_decide (name = lit "wlan0") then
    if af =? AF_INET then mk_egress true true true (Some [xc0; xa8; x00; x02]) (Some 1500)
    else mk_egress true true false None None
  else mk_egress false false false None None.
Definition example_env : netenv :=
  mk_netenv (λ _, Some 1)
    (λ name, if bool_decide (name = lit "rmnet0") then 10
             else if bool_decide (name = lit "wlan0") then 20
             else if bool_decide (name = lit "tun0") then 30 else 0)
    (λ _, Some (lit "up" ++ [x0a])) example_egress.
Definition example_ifas : list ifaddrs :=
  [mk_ifaddrs (lit "lo") true false true (Some None);
   mk_ifaddrs (lit "rmnet0") false true true (Some (Some fe80_1));
   mk_ifaddrs (lit "wlan0") false false true (Some None);
   mk_ifaddrs (lit "tun0") false true true (Some None)].
Definition all_allocs : publish_allocs := mk_publish_allocs true true true true true true.
Definition example_update : bool * published * device :=
  update_spoof_ip is_fe80 (λ _, None) (λ _, None) example_env all_allocs (Some example_ifas)
    initial_published initial_device.

Lemma example_update_ok : example_update.1.1 = true.
Proof. vm_compute. reflexivity. Qed.

Lemma update_hides_vpns_witness :
  is_active_vpn_ifindex (dv_vpns example_update.2) 30 = true ∧
  ∀ i, is_active_vpn_ifindex (dv_vpns example_update.2) i = true →
    is_vpn_index example_env (configured_prefixes all_allocs initial_device) example_ifas i.
Proof.
  split; [vm_compute; reflexivity|].
  refine (proj1 (update_hides_vpns is_fe80 (λ _, None) (λ _, None) example_env all_allocs example_ifas
    initial_published initial_device example_update.1.2 example_update.2 _)).
  fold example_update. rewrite <- example_update_ok. by destruct example_update as [[? ?] ?].
Defined.


(** The cover can mix two interfaces.  When the interface with the better
    score has no link-local address, the one of an interface seen before it
    stays in the published cover: here the cover interface is wlan0, without
    IPv6, yet the module shows the link-local address of rmnet0.  (The MTU left
    over in the same way is dropped by the module's own check.) *)
Theorem cover_mixes_interfaces :
  let d := example_update.2 in
  example_update.1.1 = true ∧ dv_cover_ifindex d = ne_index example_env (lit "wlan0") ∧
  match dv_spoof d with
  | Some sip => sip_ipv4_addr sip = le_combine [xc0; xa8; x00; x02] ∧ sip_has_ipv6 sip = 0 ∧
      sip_has_ipv6_linklocal sip = 1 ∧ sip_ipv6_linklocal_addr sip = fe80_1 ∧ sip_ipv6_mtu sip = 0
  | None => False
  end.
Proof. vm_compute. split_and!; reflexivity. Qed.

(** ** Access points *)


Lemma ap_is_vpn env prefixes ifa :
  has_prefix (ifa_name ifa) (lit "ap") = true → ifa_is_vpn env prefixes ifa = true.
Proof.
  intros Hp. assert (Hname : ∃ rest, ifa_name ifa = x61 :: x70 :: rest).
  { unfold has_prefix in Hp. destruct (ifa_name ifa) as [|a [|b rest]]; [done| |].
    - destruct a; done.
    - exists rest. destruct a; try done; destruct b; done. }
  destruct Hname as [rest Hn]. unfold ifa_is_vpn, vpnhide_daemon_is_vpn_interface, daemon_is_vpn_ifname.
  rewrite Hn. destruct rest as [|c rest]; [done|].
  cbn -[vpnhide_iface_contains_ci vpnhide_iface_starts_with_then_digits_ci]. done.
Qed.

(** An access point never provides the cover.  The score the daemon gives
    to names that begin with "ap" is never used: every such interface is taken
    for a VPN by its name and hidden, so none is among the interfaces scored. *)
Theorem access_point_never_scored env prefixes ifas info :
  info ∈ (walk env prefixes ifas).2 → has_prefix (ii_name info) (lit "ap") = false.
Proof.
  intros Hin. pose proof (walk_spec env prefixes ifas) as [_ _ _ _ Hinfos].
  destruct (Hinfos info Hin) as (ifa & _ & (_ & Hv & _) & Hn).
  destruct (has_prefix (ii_name info) (lit "ap")) eqn:Hp; [|done]. exfalso.
  assert (has_prefix (ifa_name ifa) (lit "ap") = true) as Hp'.
  { rewrite Hn in Hp. by destruct (ifa_name ifa) as [|a [|b rest]]. }
  apply (ap_is_vpn env prefixes) in Hp'. congruence.
Qed.

Lemma access_point_never_scored_witness :
  ∃ info, info ∈ (walk example_env no_prefixes (mk_ifaddrs (lit "ap0") false false true (Some None) :: example_ifas)).2 ∧
    has_prefix (ii_name info) (lit "ap") = false.
Proof.
  assert (H : is_Some (head (walk example_env no_prefixes
    (mk_ifaddrs (lit "ap0") false false true (Some None) :: example_ifas)).2)) by (vm_compute; eauto).
  destruct H as [info Hi]. exists info.
  assert (Hin : info ∈ (walk example_env no_prefixes
    (mk_ifaddrs (lit "ap0") false false true (Some None) :: example_ifas)).2).
  { apply list_elem_of_lookup. exists O. by rewrite <- head_lookup. }
  split; [done|]. by eapply access_point_never_scored.
Defined.
