(* ===== verification/FileHiding.v ===== *)
(** * Hiding the files of VPN interfaces

    [daemon/file_hiding.c]: with the list of active VPNs the daemon has an
    external tool hide their paths under /sys and /proc, either SUSFS, whose
    registrations it caches by path and file identity, or NoMount.  The file
    system ([stat], [realpath]), the tools and the configuration text are
    arguments; what a sync does to them is the list of tool runs. *)
From Stdlib Require Import Strings.Byte Strings.String ZArith Lia.
From stdpp Require Import base gmap numbers list.
From S2P Require Import Prelude Abi Userspace Device.

(** ** Searching the configuration text *)

Fixpoint starts_with (s needle : bytes) : bool :=
  match needle, s with
  | [], _ => true
  | c :: needle, d :: s => bool_decide (c = d) && starts_with s needle
  | _ :: _, [] => false
  end.

(** [strstr] as an offset into the buffer from [from]. *)
Fixpoint strstr_from (s needle : bytes) (at_ : nat) : option nat :=
  if starts_with s needle then Some at_
  else match s with [] => None | _ :: s => strstr_from s needle (S at_) end.

Definition strstr (buf needle : bytes) (from : nat) : option nat := strstr_from (drop from buf) needle from.

(** A JSON key between double quotes. *)
Definition quoted (s : string) : bytes := [x22] ++ lit s ++ [x22].

Definition strchr (buf : bytes) (c : byte) (from : nat) : option nat := strstr buf [c] from.

Definition is_blank (c : byte) : bool := bool_decide (c ∈ [x20; x09]).
Definition is_space (c : byte) : bool := bool_decide (c ∈ [x20; x09; x0a; x0b; x0c; x0d]).

(** Past the characters that satisfy [p]. *)
Fixpoint skip (p : byte → bool) (s : bytes) : bytes :=
  match s with [] => [] | c :: rest => if p c then skip p rest else s end.

(** ** strtoull with base 0 *)

Definition digit_value (c : byte) : Z :=
  let z := byte_to_Z c in
  if (48 <=? z) && (z <=? 57) then z - 48
  else if (97 <=? z) && (z <=? 122) then z - 87
  else if (65 <=? z) && (z <=? 90) then z - 55 else 36.

(** The digits of a base at the front, as a number: [None] when there is none. *)
Fixpoint digits (base : Z) (s : bytes) (acc : option Z) : option Z :=
  match s with
  | [] => acc
  | c :: s => if digit_value c <? base then digits base s (Some (default 0 acc * base + digit_value c)) else acc
  end.

(** The magnitude after the sign: 0x with a hexadecimal digit, 0 for octal,
    else decimal. *)
Definition unsigned_value (s : bytes) : option Z :=
  match s with
  | c0 :: c1 :: rest =>
      if bool_decide (c0 = x30) && bool_decide (c1 ∈ [x78; x58]) then
        match digits 16 rest None with Some v => Some v | None => Some 0 end
      else if bool_decide (c0 = x30) then digits 8 s None
      else digits 10 s None
  | _ => digits 10 s None
  end.

Definition ULLONG_MAX : Z := 2 ^ 64 - 1.

(** The value; [None] when no conversion is done ([end] is the start). *)
Definition strtoull0 (s : bytes) : option Z :=
  let s := skip is_space s in
  let '(neg, s) :=
    match s with
    | c :: rest => if bool_decide (c = x2d) then (true, rest)
                   else if bool_decide (c = x2b) then (false, rest) else (false, s)
    | [] => (false, s)
    end in
  v ← unsigned_value s;
  Some (if ULLONG_MAX <? v then ULLONG_MAX else if neg : bool then u64 (- v) else v).

(** ** State *)

Record susfs_registered_path := mk_registered {
  sr_path : bytes;
  sr_dev : Z;
  sr_ino : Z;
  sr_valid : bool
}.

Definition SUSFS_MAX_PATHS : nat := 128.

Record file_hiding := mk_file_hiding {
  fh_registered : list susfs_registered_path;
  fh_enabled : bool;
  fh_nomount : bool
}.

Definition initial_file_hiding : file_hiding :=
  mk_file_hiding (replicate SUSFS_MAX_PATHS (mk_registered [] 0 0 false)) true false.

(** ** The switches *)

(** The parts of [globalConfig] that come before [apps]. *)
Definition before (pos : nat) (apps : option nat) : bool :=
  match apps with None => true | Some a => (pos <? a)%nat end.

(** The flag of [useNoMountForFileHiding] from its key at [pos]. *)
Definition nomount_flag (buf : bytes) (pos : nat) : option bool :=
  colon ← strchr buf x3a pos;
  Some (starts_with (skip is_blank (drop (S colon) buf)) (lit "true")).

(** The value of [kernelHookMask] from its key at [pos]. *)
Definition mask_value (buf : bytes) (pos : nat) : option Z :=
  colon ← strchr buf x3a pos; strtoull0 (drop (S colon) buf).

(** [config]: no configuration path; otherwise the text read, [None] when the
    file cannot be opened.  At most 131071 bytes of it are looked at, up to the
    first NUL. *)
Definition susfs_refresh_enabled (config : option (option bytes)) (s : file_hiding) : file_hiding :=
  let keep nomount := mk_file_hiding (fh_registered s) (fh_enabled s) nomount in
  match config with
  | None => mk_file_hiding (fh_registered s) true false
  | Some None => keep false
  | Some (Some text) =>
      let buf := cstr (take (Z.to_nat 131071) text) in
      match strstr buf (quoted "globalConfig") 0 with
      | None => keep false
      | Some global =>
          let apps := strstr buf (quoted "apps") global in
          let nomount :=
            match strstr buf (quoted "useNoMountForFileHiding") global with
            | Some n => if before n apps then default false (nomount_flag buf n) else false
            | None => false
            end in
          match strstr buf (quoted "kernelHookMask") global with
          | None => keep nomount
          | Some mask =>
              if (if apps is Some a then (a <? mask)%nat else false) then keep nomount
              else match mask_value buf mask with
                   | None => keep nomount
                   | Some value =>
                       mk_file_hiding (fh_registered s) (Z.testbit value 18 && negb nomount) nomount
                   end
          end
      end
  end.

(** ** Running a tool *)

(** What one round of the wait loop sees: the child is gone, still runs (with
    the clock read after), or [waitpid] fails. *)
Inductive wait_round :=
  | Reaped (exited : bool) (status : Z)
  | StillRunning (now : Z)
  | WaitInterrupted
  | WaitFailed (errno : Z).

(** 0 or a negative error; [None] while the child is awaited. *)
Fixpoint wait_loop (deadline : Z) (rounds : list wait_round) : option Z :=
  match rounds with
  | [] => None
  | Reaped exited status :: _ => Some (if exited && (status =? 0) then 0 else -5)
  | WaitInterrupted :: rounds => wait_loop deadline rounds
  | WaitFailed errno :: _ => Some (- errno)
  | StillRunning now :: rounds => if deadline <=? now then Some (-110) else wait_loop deadline rounds
  end.

(** A run of the tool: not found, [fork] fails, or the rounds of its wait. *)
Inductive tool_run :=
  | NoTool
  | ForkFails (errno : Z)
  | Forked (start : Z) (rounds : list wait_round).

Definition run_tool (r : tool_run) : option Z :=
  match r with
  | NoTool => Some (-2)
  | ForkFails errno => Some (- errno)
  | Forked start rounds => wait_loop (u64 (start + 2000)) rounds
  end.

(** [susfs_find_tool] and [nomount_find_tool]: the first candidate that can be
    executed, kept from then on in the variable [cached]. *)
Definition find_tool (cached : option nat) (executable : list bool) : option nat :=
  match cached with
  | Some tool => Some tool
  | None => (λ '(i, _), i) <$> list_find (λ b : bool, b = true) executable
  end.

Definition susfs_find_tool (cached : option nat) (first second : bool) : option nat :=
  find_tool cached [first; second].
Definition nomount_find_tool (cached : option nat) (first : bool) : option nat := find_tool cached [first].

(** [susfs_log_error]: the time of the last message and whether one is written. *)
Definition SUSFS_RETRY_LOG_MS : Z := 60 * 1000.
Definition susfs_log_error (last_log now : Z) : Z * bool :=
  if negb (last_log =? 0) && (u64 (now - last_log) <? SUSFS_RETRY_LOG_MS) then (last_log, false) else (now, true).

(** Messages asked for at the times [ts]: when they are written. *)
Fixpoint logged (last_log : Z) (ts : list Z) : list Z :=
  match ts with
  | [] => []
  | now :: ts =>
      let '(last_log, written) := susfs_log_error last_log now in
      (if written : bool then [now] else []) ++ logged last_log ts
  end.

(** ** The cache of registrations *)

Record file_id := mk_file_id { st_dev : Z; st_ino : Z }.

Definition entry_path_is (path : bytes) (e : susfs_registered_path) : bool :=
  sr_valid e && bool_decide (sr_path e = path).

Definition entry_is (path : bytes) (st : file_id) (e : susfs_registered_path) : bool :=
  sr_valid e && (sr_dev e =? st_dev st) && (sr_ino e =? st_ino st) && bool_decide (sr_path e = path).

Definition susfs_path_registered (path : bytes) (st : file_id) (cache : list susfs_registered_path) : bool :=
  existsb (entry_is path st) cache.

Definition susfs_forget_path (path : bytes) (cache : list susfs_registered_path)
    : list susfs_registered_path :=
  (λ e, if entry_path_is path e then mk_registered (sr_path e) (sr_dev e) (sr_ino e) false else e) <$> cache.

(** The first invalid entry is taken; a full cache stays as it is. *)
Fixpoint susfs_remember_path (path : bytes) (st : file_id) (cache : list susfs_registered_path)
    : list susfs_registered_path :=
  match cache with
  | [] => []
  | e :: cache =>
      if negb (sr_valid e) then mk_registered (take 4095 path) (st_dev st) (st_ino st) true :: cache
      else e :: susfs_remember_path path st cache
  end.

Definition susfs_add_path_loop (runs : bytes → tool_run) (path : bytes) : option Z := run_tool (runs path).

(** [stat]: the identity of a path; [runs]: how the tool runs on it.  The result
    is the cache and the paths the tool was run on. *)
Definition susfs_register_path (stat : bytes → option file_id) (runs : bytes → tool_run) (path : bytes)
    (cache : list susfs_registered_path) : list susfs_registered_path * list bytes :=
  if bool_decide (path = []) then (cache, [])
  else match stat path with
       | None => (susfs_forget_path path cache, [])
       | Some st =>
           if susfs_path_registered path st cache then (cache, [])
           else if bool_decide (susfs_add_path_loop runs path = Some 0) then (susfs_remember_path path st cache, [path])
           else (cache, [path])
       end.

(** ** A sync *)

Definition conf_paths (ifname : bytes) : list bytes :=
  [lit "/proc/sys/net/ipv4/conf/" ++ ifname; lit "/proc/sys/net/ipv6/conf/" ++ ifname;
   lit "/proc/sys/net/ipv4/neigh/" ++ ifname; lit "/proc/sys/net/ipv6/neigh/" ++ ifname;
   lit "/proc/net/dev_snmp6/" ++ ifname].

Definition class_path (ifname : bytes) : bytes := lit "/sys/class/net/" ++ ifname.

Section sync.
Context (stat : bytes → option file_id) (realpath : bytes → option bytes) (runs : bytes → tool_run).

(** One path after another. *)
Definition register_all (paths : list bytes) (cache : list susfs_registered_path)
    : list susfs_registered_path * list bytes :=
  foldl (λ '(cache, ran) path, let '(cache, r) := susfs_register_path stat runs path cache in (cache, ran ++ r))
    (cache, []) paths.

Definition susfs_sync_interface (ifname : bytes) (cache : list susfs_registered_path)
    : list susfs_registered_path * list bytes :=
  if bool_decide (ifname = []) then (cache, [])
  else
    let path := class_path ifname in
    register_all (path :: option_list (realpath path) ++ conf_paths ifname) cache.

Definition sync_names (vpns : vpnhide_vpn_ifindexes) : list bytes :=
  (λ v, cstr (av_name v)) <$> take (Z.to_nat (Z.min (vi_count vpns) MAX_ACTIVE_VPNS)) (vi_vpns vpns).

Definition susfs_sync_interfaces (vpns : vpnhide_vpn_ifindexes) (s : file_hiding) : file_hiding * list bytes :=
  if negb (fh_enabled s) then (s, [])
  else
    let '(cache, ran) :=
      foldl (λ '(cache, ran) name, let '(cache, r) := susfs_sync_interface name cache in (cache, ran ++ r))
        (fh_registered s, []) (sync_names vpns) in
    (mk_file_hiding cache (fh_enabled s) (fh_nomount s), ran).

(** [nomount_run_rule]; its result is ignored. *)
Definition nomount_run_rule (path : bytes) : option Z := run_tool (runs path).

(** NoMount keeps no record: every path is given to it each time. *)
Definition nomount_sync_interface (ifname : bytes) : list bytes :=
  if bool_decide (ifname = []) then [] else class_path ifname :: conf_paths ifname.

Definition file_hiding_sync_interfaces (config : option (option bytes)) (vpns : option vpnhide_vpn_ifindexes)
    (s : file_hiding) : file_hiding * list bytes :=
  match vpns with
  | None => (s, [])
  | Some vpns =>
      let s := susfs_refresh_enabled config s in
      if fh_nomount s then (s, mjoin (nomount_sync_interface <$> sync_names vpns))
      else susfs_sync_interfaces vpns s
  end.
End sync.

(** ** Messages *)

Lemma logged_spaced last_log ts :
  0 < last_log → Sorted (λ a b, a <= b) (last_log :: ts) → Forall (λ t, t < 2 ^ 63) ts →
  Sorted (λ a b, a + SUSFS_RETRY_LOG_MS <= b) (last_log :: logged last_log ts).
Proof.
  intros Hp Hs Hb. apply Sorted_StronglySorted in Hs; [|intros ? ? ?; lia]. revert last_log Hp Hs.
  induction ts as [|now ts IH]; intros last_log Hp Hs; [repeat constructor|].
  apply StronglySorted_inv in Hs as [Hs Hle]. apply Forall_cons in Hle as [Hle Hle']. apply Forall_cons in Hb as [Hn Hb].
  cbn [logged]. unfold susfs_log_error. rewrite (proj2 (Z.eqb_neq last_log 0)) by lia. cbn [negb andb].
  unfold u64. rewrite wrap_small by (unfold fits; lia).
  destruct (Z.ltb_spec (now - last_log) SUSFS_RETRY_LOG_MS) as [Hlt|Hge]; cbn [app].
  - apply IH; [done|done|]. apply StronglySorted_inv in Hs as [Hs _]. by constructor.
  - constructor; [|constructor; lia]. apply IH; [done|lia|done].
Qed.

(** However often the tool fails, the daemon writes at most one message about it
    per minute. *)
Theorem error_messages_spaced ts :
  Sorted (λ a b, a <= b) ts → Forall (λ t, 0 < t < 2 ^ 63) ts →
  Sorted (λ a b, a + SUSFS_RETRY_LOG_MS <= b) (logged 0 ts).
Proof.
  destruct ts as [|t ts]; intros Hs Hb; [constructor|]. apply Forall_cons in Hb as [Ht Hb].
  cbn [logged susfs_log_error Z.eqb negb andb app]. apply logged_spaced; [lia|done|].
  eapply Forall_impl; [exact Hb|]. simpl. lia.
Qed.

Lemma error_messages_spaced_witness :
  Sorted (λ a b, a + SUSFS_RETRY_LOG_MS <= b) (logged 0 [1000; 1500; 61000; 61001]) ∧
  logged 0 [1000; 1500; 61000; 61001] = [1000; 61000].
Proof.
  split; [|reflexivity]. apply error_messages_spaced; repeat constructor; lia.
Defined.

(** ** Properties of the cache *)

Definition valid_entries (cache : list susfs_registered_path) : nat := length (filter (λ e, sr_valid e = true) cache).
Definition free_entries (cache : list susfs_registered_path) : nat := length (filter (λ e, sr_valid e = false) cache).

Lemma remember_registered path st cache :
  (length path <= 4095)%nat → (0 < free_entries cache)%nat →
  susfs_path_registered path st (susfs_remember_path path st cache) = true.
Proof.
  intros Hl. unfold free_entries. induction cache as [|e cache IH]; [simpl; lia|].
  cbn [susfs_remember_path]. destruct (sr_valid e) eqn:Hv; cbn [negb].
  - rewrite filter_cons_False by congruence. intros Hf. unfold susfs_path_registered in *. simpl.
    by rewrite IH, orb_true_r.
  - intros _. unfold susfs_path_registered. simpl. unfold entry_is. simpl.
    by rewrite !Z.eqb_refl, bool_decide_eq_true_2 by (by apply take_ge).
Qed.

Lemma remember_keeps path st path' st' cache :
  susfs_path_registered path' st' cache = true →
  susfs_path_registered path' st' (susfs_remember_path path st cache) = true.
Proof.
  unfold susfs_path_registered. induction cache as [|e cache IH]; [done|]. cbn [susfs_remember_path existsb].
  destruct (sr_valid e) eqn:Hv; cbn [negb existsb].
  - intros [->|H]%orb_true_iff; [done|]. by rewrite IH, orb_true_r.
  - unfold entry_is at 1. rewrite Hv. cbn [andb orb]. intros ->. by rewrite orb_true_r.
Qed.

Lemma remember_free path st cache :
  (free_entries cache <= S (free_entries (susfs_remember_path path st cache)))%nat.
Proof.
  unfold free_entries. induction cache as [|e cache IH]; [simpl; lia|]. cbn [susfs_remember_path].
  destruct (sr_valid e) eqn:Hv; cbn [negb].
  - rewrite !filter_cons_False by congruence. done.
  - rewrite filter_cons_True by done. rewrite filter_cons_False by (simpl; congruence). simpl. lia.
Qed.

Lemma forget_keeps path path' st' cache :
  path ≠ path' → susfs_path_registered path' st' cache = true →
  susfs_path_registered path' st' (susfs_forget_path path cache) = true.
Proof.
  intros Hne. unfold susfs_path_registered, susfs_forget_path.
  induction cache as [|e cache IH]; [done|]. cbn [fmap list_fmap existsb].
  intros [He|H]%orb_true_iff; [|by rewrite IH, orb_true_r].
  unfold entry_path_is. destruct (sr_valid e && _) eqn:Hp; [|by rewrite He].
  apply andb_true_iff in Hp as [_ Hp%bool_decide_eq_true]. unfold entry_is in He.
  apply andb_true_iff in He as [_ He%bool_decide_eq_true]. congruence.
Qed.

Lemma forget_free path cache : (free_entries cache <= free_entries (susfs_forget_path path cache))%nat.
Proof.
  unfold free_entries, susfs_forget_path. induction cache as [|e cache IH]; [done|]. cbn [fmap list_fmap].
  destruct (entry_path_is path e) eqn:Hp.
  - unfold entry_path_is in Hp. apply andb_true_iff in Hp as [Hv _].
    rewrite filter_cons_False by congruence. rewrite filter_cons_True by done. simpl. lia.
  - destruct (sr_valid e) eqn:Hv; [rewrite !filter_cons_False by congruence|rewrite !filter_cons_True by done];
      simpl; lia.
Qed.

Section once.
Context (stat : bytes → option file_id) (runs : bytes → tool_run)
  (Htool : ∀ path, run_tool (runs path) = Some 0).

Definition settled (cache : list susfs_registered_path) (path : bytes) : Prop :=
  path = [] ∨ match stat path with
              | Some st => susfs_path_registered path st cache = true
              | None => susfs_forget_path path cache = cache
              end.

Lemma forget_idempotent path cache :
  susfs_forget_path path (susfs_forget_path path cache) = susfs_forget_path path cache.
Proof.
  unfold susfs_forget_path. rewrite <- list_fmap_compose. apply list_fmap_ext. intros i e _. simpl.
  destruct (entry_path_is path e) eqn:Hp; [|by rewrite Hp]. done.
Qed.

(** Forgetting a path is final as long as it does not reappear. *)
Lemma forget_remember path path' st cache :
  path ≠ path' → (length path' <= 4095)%nat → susfs_forget_path path cache = cache →
  susfs_forget_path path (susfs_remember_path path' st cache) = susfs_remember_path path' st cache.
Proof.
  intros Hne Hl. induction cache as [|e cache IH]; [done|]. cbn [susfs_forget_path fmap list_fmap].
  intros [= He Hc]. cbn [susfs_remember_path]. destruct (sr_valid e) eqn:Hv; cbn [negb].
  - unfold susfs_forget_path in *. cbn [fmap list_fmap]. by rewrite He, IH.
  - unfold susfs_forget_path in *. cbn [fmap list_fmap]. f_equal; [|done].
    unfold entry_path_is. simpl. rewrite take_ge by done. by rewrite bool_decide_eq_false_2 by congruence.
Qed.

Lemma forget_commutes path path' cache :
  susfs_forget_path path cache = cache →
  susfs_forget_path path (susfs_forget_path path' cache) = susfs_forget_path path' cache.
Proof.
  induction cache as [|e cache IH]; [done|]. unfold susfs_forget_path in *. cbn [fmap list_fmap].
  intros [= He Hc]. rewrite (IH Hc). f_equal. destruct (entry_path_is path' e); [done|done].
Qed.

Lemma register_settles path cache :
  (length path <= 4095)%nat → (0 < free_entries cache)%nat →
  let c := (susfs_register_path stat runs path cache).1 in
  settled c path ∧ (free_entries cache <= S (free_entries c))%nat.
Proof.
  intros Hl Hf. cbv zeta. unfold susfs_register_path, settled. case_bool_decide; [auto|].
  destruct (stat path) as [st|].
  - destruct (susfs_path_registered path st cache) eqn:Hr; [auto|].
    unfold susfs_add_path_loop. rewrite Htool, bool_decide_eq_true_2 by done. cbn [fst].
    split; [right; by apply remember_registered|apply remember_free].
  - cbn [fst]. split; [right; apply forget_idempotent|]. pose proof (forget_free path cache). lia.
Qed.

Lemma register_keeps_settled path path' cache :
  (length path <= 4095)%nat → settled cache path' →
  settled (susfs_register_path stat runs path cache).1 path'.
Proof.
  intros Hl [->|Hs]; [by left|]. unfold susfs_register_path. case_bool_decide; [by right|].
  destruct (decide (path = path')) as [->|Hne].
  - right. destruct (stat path') as [st|]; [by rewrite Hs|]. cbn [fst]. apply forget_idempotent.
  - right. destruct (stat path) as [st|].
    + destruct (susfs_path_registered path st cache); [done|]. destruct (bool_decide _); [|done]. cbn [fst].
      destruct (stat path'); [by apply remember_keeps|by apply forget_remember].
    + cbn [fst]. destruct (stat path'); [by apply forget_keeps|by apply forget_commutes].
Qed.

Lemma register_settled path cache : settled cache path → susfs_register_path stat runs path cache = (cache, []).
Proof.
  unfold susfs_register_path. intros [->|Hs]; [done|]. case_bool_decide; [done|].
  destruct (stat path) as [st|]; by rewrite Hs.
Qed.
End once.

Section sync_twice.
Context (stat : bytes → option file_id) (runs : bytes → tool_run)
  (Htool : ∀ path, run_tool (runs path) = Some 0).

Lemma register_all_snoc paths path cache :
  register_all stat runs (paths ++ [path]) cache =
  let '(c, ran) := register_all stat runs paths cache in
  let '(c, r) := susfs_register_path stat runs path c in (c, ran ++ r).
Proof. unfold register_all. rewrite foldl_app. by destruct (foldl _ _ paths). Qed.

Lemma register_all_settles paths cache :
  Forall (λ p, (length p <= 4095)%nat) paths → (length paths <= free_entries cache)%nat →
  let c := (register_all stat runs paths cache).1 in
  Forall (settled stat c) paths ∧ (free_entries cache <= free_entries c + length paths)%nat.
Proof.
  cbv zeta. induction paths as [|path paths IH] using rev_ind; intros Hl Hf; [simpl; auto with lia|].
  apply Forall_app in Hl as [Hl Hp]. rewrite Forall_singleton in Hp. rewrite length_app in Hf. cbn [length] in Hf.
  destruct IH as [IHs IHf]; [done|lia|]. rewrite register_all_snoc.
  destruct (register_all stat runs paths cache) as [c ran]. cbn [fst] in *.
  destruct (register_settles stat runs Htool path c Hp) as [Hs Hfree]; [lia|].
  pose proof (λ p, register_keeps_settled stat runs path p c Hp) as Hkeep.
  destruct (susfs_register_path stat runs path c) as [c' r]. cbn [fst] in *. split.
  - apply Forall_app. split; [|by apply Forall_singleton]. by eapply Forall_impl.
  - rewrite length_app. simpl. lia.
Qed.

Lemma register_all_settled paths cache :
  Forall (settled stat cache) paths → register_all stat runs paths cache = (cache, []).
Proof.
  induction paths as [|path paths IH] using rev_ind; [done|]. intros [Hs Hp]%Forall_app. rewrite Forall_singleton in Hp.
  by rewrite register_all_snoc, IH, register_settled.
Qed.
End sync_twice.

(** Each object is registered once.  When the tool works and the cache has
    room for the paths of an interface, a second sync finds all of them
    registered: it runs no tool and leaves the cache as it is. *)
Theorem second_sync_runs_nothing stat realpath runs ifname cache :
  (∀ path, run_tool (runs path) = Some 0) →
  (∀ path real, realpath path = Some real → (length real <= 4095)%nat) →
  (length ifname <= 15)%nat → (7 <= free_entries cache)%nat →
  let c := (susfs_sync_interface stat realpath runs ifname cache).1 in
  susfs_sync_interface stat realpath runs ifname c = (c, []).
Proof.
  intros Htool Hreal Hname Hfree. cbv zeta. unfold susfs_sync_interface. case_bool_decide; [done|].
  set (paths := class_path ifname :: option_list (realpath (class_path ifname)) ++ conf_paths ifname).
  assert (Hl : Forall (λ p, (length p <= 4095)%nat) paths).
  { unfold paths. apply Forall_cons. split; [unfold class_path; rewrite length_app; simpl; lia|].
    apply Forall_app. split.
    - destruct (realpath (class_path ifname)) eqn:E; [|apply Forall_nil_2].
      apply Forall_singleton. exact (Hreal _ _ E).
    - unfold conf_paths. repeat (apply Forall_cons_2; [rewrite length_app; simpl; lia|]). apply Forall_nil_2. }
  assert (Hn : (length paths <= 7)%nat).
  { unfold paths. simpl. rewrite length_app. destruct (realpath _); simpl; lia. }
  destruct (register_all_settles stat runs Htool paths cache Hl) as [Hs _]; [lia|].
  by apply register_all_settled.
Qed.

(** tun0 as it is recreated: the [k]-th object has inode [k]. *)
Definition inode (k : nat) (path : bytes) : option file_id := Some (mk_file_id 1 (Z.of_nat k)).
Definition device_path (path : bytes) : option bytes := Some (lit "/sys/devices/virtual/net/tun0").
Definition tool_works (path : bytes) : tool_run := Forked 0 [Reaped true 0].
Definition tun0 : bytes := lit "tun0".

Lemma second_sync_runs_nothing_witness :
  let c := (susfs_sync_interface (inode 5) device_path tool_works tun0 (fh_registered initial_file_hiding)).1 in
  valid_entries c = 7%nat ∧ susfs_sync_interface (inode 5) device_path tool_works tun0 c = (c, []).
Proof.
  split; [vm_compute; reflexivity|]. apply second_sync_runs_nothing.
  - done.
  - intros path real [= <-]. simpl. lia.
  - simpl. lia.
  - vm_compute. lia.
Defined.

(** The cache after a VPN has been brought up [n] times. *)
Definition after_reconnects (n : nat) : list susfs_registered_path :=
  foldl (λ cache k, (susfs_sync_interface (inode k) device_path tool_works tun0 cache).1)
    (fh_registered initial_file_hiding) (seq 0 n).

(** The entries of an object that has been replaced are never given up:
    only interfaces that are up are looked at, and their paths exist.  Nineteen
    reconnections of one VPN fill the cache of 128; from then on an unchanged
    file system no longer means an idle sync, and every one of them runs the
    tool again on paths that are hidden already. *)
Theorem reconnects_fill_cache :
  let cache := after_reconnects 19 in
  valid_entries (after_reconnects 18) = 126%nat ∧ valid_entries cache = 128%nat ∧
  length (filter (λ e, sr_path e = class_path tun0) cache) = 19%nat ∧
  susfs_sync_interface (inode 18) device_path tool_works tun0 cache = (cache, conf_paths tun0).
Proof. vm_compute. split_and!; reflexivity. Qed.
