(* ===== verification/StatsJson.v ===== *)
(** * Serving the statistics history

    [write_stats_json], [initialize_session_id] and [serve_stats_client] of
    [daemon/stats.c]: the text a client of the statistics socket is sent.  The
    printing code with its running commas is shown to produce the rendering of
    one JSON tree built from the ring's points, oldest first. *)
From Stdlib Require Import Strings.Byte Strings.String ZArith Lia.
From stdpp Require Import base gmap numbers list.
From S2P Require Import Prelude Abi Snapshot Userspace Stats PortStats Device CharDev StatsRing.

(** ** Printing *)

(** A word between double quotes, as a key with its colon. *)
Definition quote (s : bytes) : bytes := [x22] ++ s ++ [x22].
Definition key (name : string) : bytes := quote (lit name) ++ lit ":".
Definition fmt_bool (b : bool) : bytes := if b then lit "true" else lit "false".

(** The fourteen counters in the order they are printed. *)
Definition counter_names : list (string * stats_counter) :=
  [("ioctl", ioctl_count); ("netlink", netlink_count); ("proc", proc_count); ("sockopt", sockopt_count);
   ("connect", connect_count); ("getname", getname_count); ("port", port_count);
   ("java_pm", java_pm_count); ("java_um", java_um_count); ("java_nc", java_nc_count);
   ("java_ni", java_ni_count); ("java_net", java_net_count); ("java_lp", java_lp_count);
   ("java_cs", java_cs_count)]%string.

Definition write_port (port : vpnhide_port_stats) : bytes :=
  lit "{" ++ key "port" ++ fmt_u (vps_port port) ++ lit "," ++ key "protocol" ++
  quote (if vps_protocol port =? VH_PROTO_UDP then lit "udp" else lit "tcp") ++ lit "," ++
  key "count" ++ fmt_u (vps_count port) ++ lit "}".

(** The loop over a point's ports: those of one UID, a comma before every one
    but the first printed. *)
Fixpoint write_ports (uid : Z) (ports : list vpnhide_port_stats) (first_port : bool) : bytes :=
  match ports with
  | [] => []
  | port :: ports =>
      if negb (vps_uid port =? uid) then write_ports uid ports first_port
      else (if first_port then [] else lit ",") ++ write_port port ++ write_ports uid ports false
  end.

Definition write_uid (ports : list vpnhide_port_stats) (s : vpnhide_uid_stats) : bytes :=
  lit "{" ++ key "uid" ++ fmt_u (st_uid s) ++
  mjoin ((λ '(name, c), lit "," ++ key name ++ fmt_u (counter c s)) <$> counter_names) ++
  lit "," ++ key "ports" ++ lit "[" ++ write_ports (st_uid s) ports true ++ lit "]}".

(** [for (i = 0; ...) { if (i) fputc(',', out); ... }] *)
Definition write_list {A} (write : A → bytes) (xs : list A) : bytes :=
  mjoin (imap (λ i x, (if (i =? 0)%nat then [] else lit ",") ++ write x) xs).

Definition write_point (p : daemon_stats_point) : bytes :=
  lit "{" ++ key "timestampMs" ++ fmt_u (pt_timestamp_ms p) ++ lit "," ++ key "gap" ++ fmt_bool (pt_gap p) ++
  lit "," ++ key "uids" ++ lit "[" ++ write_list (write_uid (pt_ports p)) (pt_entries p) ++ lit "]}".

Definition oldest_timestamp (r : daemon_stats_ring) : Z :=
  if (rg_count r =? 0)%nat then 0 else pt_timestamp_ms (point_at r (rg_head r)).

Definition newest_timestamp (r : daemon_stats_ring) : Z :=
  if (rg_count r =? 0)%nat then 0
  else pt_timestamp_ms (point_at r ((rg_head r + rg_count r - 1) mod STATS_RING_POINTS)%nat).

Definition write_stats_json (r : daemon_stats_ring) : bytes :=
  lit "{" ++ key "sessionId" ++
  quote (if bool_decide (cstr (rg_session_id r) = []) then lit "unknown" else cstr (rg_session_id r)) ++
  lit "," ++ key "sequence" ++ fmt_u (rg_latest_sequence r) ++
  lit "," ++ key "resolutionSec" ++ fmt_u STATS_RESOLUTION_SEC ++
  lit "," ++ key "retentionSec" ++ fmt_u STATS_RETENTION_SEC ++
  lit "," ++ key "dropped" ++
  fmt_bool (nonzero (rg_dropped_intervals r) || nonzero (rg_dropped_port_entries r)) ++
  lit "," ++ key "droppedIntervals" ++ fmt_u (rg_dropped_intervals r) ++
  lit "," ++ key "droppedPortEntries" ++ fmt_u (rg_dropped_port_entries r) ++
  lit "," ++ key "oldestTimestampMs" ++ fmt_u (oldest_timestamp r) ++
  lit "," ++ key "newestTimestampMs" ++ fmt_u (newest_timestamp r) ++
  lit "," ++ key "points" ++ lit "[" ++
  write_list (λ n, write_point (point_at r ((rg_head r + n) mod STATS_RING_POINTS)%nat)) (seq 0 (rg_count r)) ++
  lit "]}" ++ nl.

(** ** The session *)

Definition hex_digit (n : Z) : byte := byte_of_Z (if n <? 10 then 48 + n else 87 + n).

(** ["%016llx"] *)
Definition fmt_016llx (x : Z) : bytes :=
  (λ i, hex_digit (Z.shiftr x (4 * (15 - Z.of_nat i)) mod 16)) <$> seq 0 16.

Definition SESSION_ID_SIZE : nat := 128.

(** [fgets] of the first line, at most 79 characters, up to the first line end. *)
Fixpoint boot_line (s : bytes) : bytes :=
  match s with
  | [] => []
  | c :: s => if bool_decide (c ∈ [x00; x0a; x0d]) then [] else c :: boot_line s
  end.

(** [boot]: the boot id file, [None] when it cannot be read; [session]: the
    value of [VH_GET_STATS_SESSION], [None] when the ioctl fails. *)
Definition initialize_session_id (boot : option bytes) (session : option Z) : bytes :=
  let boot_id := match boot with Some (_ :: _ as s) => boot_line (take 79 s) | _ => lit "unknown" end in
  take (SESSION_ID_SIZE - 1)
    (match session with Some s => boot_id ++ lit "-" ++ fmt_016llx s | None => boot_id end).

(** ** A client *)

(** [peer]: the credentials of the client ([None] when they cannot be read or
    nothing was accepted); [command]: what it sent; [out_ok]: [fdopen]
    succeeds.  The ring and the answer. *)
Definition serve_stats_client (peer : option Z) (allowed_uid : Z) (command : bytes) (out_ok : bool)
    (r : daemon_stats_ring) : daemon_stats_ring * option bytes :=
  match peer with
  | None => (r, None)
  | Some uid =>
      if negb (uid =? allowed_uid) && negb (uid =? 0) then (r, None)
      else
        let command := take 63 command in
        if bool_decide (command = []) then (r, None)
        else if negb out_ok then (r, None)
        else
          let r := if strncmp_eq 13 (command ++ [x00]) (lit "CLEAR_HISTORY") then clear_stats_ring r else r in
          (r, Some (write_stats_json r))
  end.

(** ** The tree *)

#[warnings="-register-all"]
Inductive tree :=
  | TNum (n : Z)
  | TText (s : bytes)
  | TBool (b : bool)
  | TList (ts : list tree)
  | TObject (fields : list (string * tree)).

(** Items with commas between them. *)
Fixpoint commas (items : list bytes) : bytes :=
  match items with
  | [] => []
  | [x] => x
  | x :: items => x ++ lit "," ++ commas items
  end.

Fixpoint render (t : tree) : bytes :=
  match t with
  | TNum n => fmt_u n
  | TText s => quote s
  | TBool b => fmt_bool b
  | TList ts => lit "[" ++ commas (render <$> ts) ++ lit "]"
  | TObject fields => lit "{" ++ commas ((λ '(name, t), key name ++ render t) <$> fields) ++ lit "}"
  end.

Definition num (name : string) (n : Z) : string * tree := (name, TNum n).
Definition text_ (name : string) (s : bytes) : string * tree := (name, TText s).
Definition bool_ (name : string) (b : bool) : string * tree := (name, TBool b).
Definition items (name : string) (ts : list tree) : string * tree := (name, TList ts).

Definition port_tree (p : vpnhide_port_stats) : tree :=
  TObject [num "port" (vps_port p);
           text_ "protocol" (if vps_protocol p =? VH_PROTO_UDP then lit "udp" else lit "tcp");
           num "count" (vps_count p)].

Definition uid_tree (ports : list vpnhide_port_stats) (s : vpnhide_uid_stats) : tree :=
  TObject (num "uid" (st_uid s) :: ((λ '(name, c), num name (counter c s)) <$> counter_names) ++
    [items "ports" (port_tree <$> filter (λ p, vps_uid p = st_uid s) ports)]).

Definition point_tree (p : daemon_stats_point) : tree :=
  TObject [num "timestampMs" (pt_timestamp_ms p); bool_ "gap" (pt_gap p);
           items "uids" (uid_tree (pt_ports p) <$> pt_entries p)].

Definition stats_tree (r : daemon_stats_ring) : tree :=
  let view := ring_view r in
  TObject [text_ "sessionId" (if bool_decide (cstr (rg_session_id r) = []) then lit "unknown"
                              else cstr (rg_session_id r));
           num "sequence" (rg_latest_sequence r);
           num "resolutionSec" STATS_RESOLUTION_SEC;
           num "retentionSec" STATS_RETENTION_SEC;
           bool_ "dropped" (nonzero (rg_dropped_intervals r) || nonzero (rg_dropped_port_entries r));
           num "droppedIntervals" (rg_dropped_intervals r);
           num "droppedPortEntries" (rg_dropped_port_entries r);
           num "oldestTimestampMs" (from_option pt_timestamp_ms 0 (head view));
           num "newestTimestampMs" (from_option pt_timestamp_ms 0 (last view));
           items "points" (point_tree <$> view)].

(** ** The commas *)

Lemma commas_cons x items :
  commas (x :: items) = x ++ mjoin ((λ y, lit "," ++ y) <$> items).
Proof.
  revert x. induction items as [|y items IH]; intros x; [by rewrite app_nil_r|].
  change (commas (x :: y :: items)) with (x ++ lit "," ++ commas (y :: items)). by rewrite IH.
Qed.

Lemma imap_commas {A} (f : A → bytes) (k : nat) xs :
  (0 < k)%nat →
  mjoin (imap (λ i x, (if (k + i =? 0)%nat then [] else lit ",") ++ f x) xs) =
  mjoin ((λ y, lit "," ++ y) <$> (f <$> xs)).
Proof.
  revert k. induction xs as [|x xs IH]; intros k Hk; [done|]. rewrite imap_cons. cbn [fmap list_fmap].
  rewrite (proj2 (Nat.eqb_neq (k + 0) 0)) by lia.
  rewrite !mjoin_cons. f_equal. rewrite <- (IH (S k)) by lia. f_equal. apply imap_ext. intros i y _. simpl. by replace (k + S i)%nat with (S (k + i)) by lia.
Qed.

(** The index that decides about a comma prints the items with commas between. *)
Lemma write_list_commas {A} (f : A → bytes) xs : write_list f xs = commas (f <$> xs).
Proof.
  unfold write_list. destruct xs as [|x xs]; [done|]. rewrite imap_cons. cbn [fmap list_fmap].
  rewrite commas_cons, mjoin_cons. cbn [Nat.eqb app]. f_equal.
  exact (imap_commas f 1 xs ltac:(lia)).
Qed.

(** So does the flag of the port loop. *)
Lemma write_ports_commas uid ports first_port :
  write_ports uid ports first_port =
  let shown := write_port <$> filter (λ p, vps_uid p = uid) ports in
  if first_port then commas shown else mjoin ((λ y, lit "," ++ y) <$> shown).
Proof.
  revert first_port. induction ports as [|p ports IH]; intros first_port; [by destruct first_port|].
  cbn [write_ports]. destruct (Z.eqb_spec (vps_uid p) uid) as [E|E]; cbn [negb].
  - rewrite filter_cons_True by done. rewrite IH. cbv zeta. cbn [fmap list_fmap].
    destruct first_port; [by rewrite commas_cons|].
    rewrite mjoin_cons. by rewrite <- app_assoc.
  - rewrite filter_cons_False by done. apply IH.
Qed.

(** Both sides as one flat concatenation. *)
Ltac flatten :=
  cbn [render fmap list_fmap num text_ bool_ items commas mjoin list_join app]; rewrite <- ?app_assoc.

Lemma write_port_tree p : write_port p = render (port_tree p).
Proof. unfold write_port, port_tree. by flatten. Qed.

Lemma fmap_ext_all {A B} (f g : A → B) (xs : list A) : (∀ x, f x = g x) → f <$> xs = g <$> xs.
Proof. intros H. apply list_fmap_ext. auto. Qed.

Lemma write_uid_tree ports s : write_uid ports s = render (uid_tree ports s).
Proof.
  unfold write_uid, uid_tree. rewrite write_ports_commas. cbv zeta. unfold counter_names. flatten.
  rewrite <- list_fmap_compose, (fmap_ext_all write_port (render ∘ port_tree)) by apply write_port_tree. done.
Qed.

Lemma write_point_tree p : write_point p = render (point_tree p).
Proof.
  unfold write_point, point_tree. rewrite write_list_commas. flatten.
  by rewrite <- list_fmap_compose, (fmap_ext_all (write_uid (pt_ports p)) (render ∘ uid_tree (pt_ports p)))
    by apply write_uid_tree.
Qed.

Lemma oldest_head r :
  ring_wf r → oldest_timestamp r = from_option pt_timestamp_ms 0 (head (ring_view r)).
Proof.
  intros (_ & Hh & _). unfold oldest_timestamp. destruct (rg_count r) as [|n] eqn:Hc.
  - unfold ring_view. by rewrite Hc.
  - rewrite head_lookup, view_lookup by lia. simpl. unfold slot. by rewrite Nat.add_0_r, Nat.mod_small.
Qed.

Lemma newest_last r : newest_timestamp r = from_option pt_timestamp_ms 0 (last (ring_view r)).
Proof.
  unfold newest_timestamp. destruct (rg_count r) as [|n] eqn:Hc.
  - unfold ring_view. by rewrite Hc.
  - rewrite last_lookup, length_view, Hc. cbn [Nat.pred]. rewrite view_lookup by lia. simpl. unfold slot.
    by replace (rg_head r + S n - 1)%nat with (rg_head r + n)%nat by lia.
Qed.

Lemma write_points_tree r :
  write_list (λ n, write_point (point_at r ((rg_head r + n) mod STATS_RING_POINTS)%nat)) (seq 0 (rg_count r)) =
  commas (render <$> (point_tree <$> ring_view r)).
Proof.
  rewrite write_list_commas. unfold ring_view. rewrite <- !list_fmap_compose. f_equal.
  apply fmap_ext_all. intros n. apply write_point_tree.
Qed.

Lemma stats_json_text r : ring_wf r → write_stats_json r = render (stats_tree r) ++ nl.
Proof.
  intros Hwf. unfold write_stats_json, stats_tree. rewrite write_points_tree, oldest_head, newest_last by done.
  by flatten.
Qed.

(** The text a client reads is one JSON document: the rendering of the tree
    whose points are the ring's, oldest first, each UID with its own ports.
    The running commas of the printing loops separate the items exactly. *)
Theorem stats_json_renders_history r :
  ring_wf r → write_stats_json r = render (stats_tree r) ++ nl.
Proof. apply stats_json_text. Qed.

(** A history with one point. *)
Definition example_ring : daemon_stats_ring :=
  store_point (mk_point 1000 false [mk_uid_stats 10123 (replicate 14 2)] [mk_vps 10123 443 VH_PROTO_TCP 2]) zero_ring.

Lemma stats_json_renders_history_witness :
  write_stats_json example_ring = render (stats_tree example_ring) ++ nl ∧
  head (ring_view example_ring) =
    Some (mk_point 1000 false [mk_uid_stats 10123 (replicate 14 2)] [mk_vps 10123 443 VH_PROTO_TCP 2]).
Proof.
  split; [apply stats_json_renders_history|vm_compute; reflexivity].
  unfold ring_wf. split_and!; [vm_compute; reflexivity|apply Nat.ltb_lt; vm_compute; reflexivity|
    apply Nat.leb_le; vm_compute; reflexivity].
Defined.

(** Only the application the daemon was started for and root are answered:
    any other client neither reads the history nor clears it.  A client that is
    answered after a clear command reads an empty history. *)
Theorem stats_client_access peer allowed_uid command out_ok r :
  let '(r', answer) := serve_stats_client peer allowed_uid command out_ok r in
  (peer ≠ Some allowed_uid → peer ≠ Some 0 → r' = r ∧ answer = None) ∧
  (answer = None → r' = r) ∧
  (∀ text, answer = Some text → text = write_stats_json r' ∧ (r' = r ∨ ring_view r' = [])).
Proof.
  unfold serve_stats_client. destruct peer as [uid|]; [|done].
  destruct (negb (uid =? allowed_uid) && negb (uid =? 0)) eqn:Hdeny; [done|].
  assert (Hin : Some uid ≠ Some allowed_uid → Some uid ≠ Some 0 → False).
  { intros Ha H0. rewrite (proj2 (Z.eqb_neq uid allowed_uid)), (proj2 (Z.eqb_neq uid 0)) in Hdeny by congruence. done. }
  destruct (bool_decide _); [split_and!; naive_solver|]. destruct out_ok; cbn [negb]; [|split_and!; naive_solver].
  split_and!; [naive_solver|done|]. intros text <-%(inj Some). split; [done|].
  destruct (strncmp_eq _ _ _); [by right|by left].
Qed.
