(* ===== verification/DaemonLoop.v ===== *)
(** * The daemon's main loop

    One round of the loop of [daemon/main.c]: the time to sleep, the events
    [poll] reports and the timers decide which of the daemon's jobs run, and
    when the next one is due; with [drain_config_events] and [reload_policy] of
    [daemon/config_watch.c].  The jobs themselves are modelled elsewhere; here
    they are the actions of a round.  Every read of the monotonic clock is an
    argument of its own; milliseconds since boot stay below 2^63. *)
From Stdlib Require Import Strings.Byte Strings.String ZArith Lia.
From stdpp Require Import base gmap numbers list.
From S2P Require Import Prelude Abi Userspace StatsRing.

(** ** Watching the configuration *)

Definition IN_ATTRIB : Z := 0x4.
Definition IN_CLOSE_WRITE : Z := 0x8.
Definition IN_MOVED_TO : Z := 0x80.
Definition IN_CREATE : Z := 0x100.

(** An inotify event: an empty name is [len == 0]. *)
Record inotify_event := mk_event { ev_mask : Z; ev_name : bytes }.

(** What follows the last slash. *)
Fixpoint base_name (path acc : bytes) : bytes :=
  match path with
  | [] => acc
  | c :: path => if bool_decide (c = x2f) then base_name path path else base_name path acc
  end.

Definition config_name (config : bytes) : bytes := base_name config config.

Definition event_matches (config : bytes) (e : inotify_event) : bool :=
  negb (bool_decide (ev_name e = [])) && strcmp_eq (ev_name e) (config_name config) &&
  negb (Z.land (ev_mask e) (Z.lor (Z.lor IN_CLOSE_WRITE IN_MOVED_TO) (Z.lor IN_CREATE IN_ATTRIB)) =? 0).

(** The calls of a reload: is the file readable, the result of [fork], whether
    [execl] replaces the child, whether [waitpid] gets its status. *)
Record reload_calls := mk_reload_calls {
  rc_access : bytes → bool;
  rc_fork : Z;
  rc_exec : bool;
  rc_wait : bool
}.

(** The paths of [reload_policy]: nothing to do, no child, a child that did not
    report success, success. *)
Inductive reload_end := NotTried | ForkFailed | ReloadFailed | Reloaded.

Section reload.
(** What a program does to the state of the system [D], by its arguments, and its
    exit status ([None]: it did not exit by itself). *)
Context {D : Type} (run : list bytes → D → option Z * D).

(** [execl(ctl, ctl, "load", config, NULL); _exit(127);] *)
Definition reload_child (executed : bool) (ctl config : bytes) (d : D) : option Z * D :=
  if executed then run [ctl; lit "load"; config] d else (Some 127, d).

Definition reload_policy (ctl config : option bytes) (c : reload_calls) (d : D) : reload_end * D :=
  match ctl, config with
  | Some ctl, Some config =>
      if negb (rc_access c config) then (NotTried, d)
      else if rc_fork c <? 0 then (ForkFailed, d)
      else
        let '(status, d) := reload_child (rc_exec c) ctl config d in
        (if rc_wait c && bool_decide (status = Some 0) then Reloaded else ReloadFailed, d)
  | _, _ => (NotTried, d)
  end.

(** [reads] are the successful reads, each a buffer of events. *)
Definition drain_config_events (reads : list (list inotify_event)) (config : bytes) (ctl : option bytes)
    (c : reload_calls) (d : D) : reload_end * D :=
  let changed := foldl (λ changed buffer, foldl (λ changed e, changed || event_matches config e) changed buffer)
                   false reads in
  if changed then reload_policy ctl (Some config) c d else (NotTried, d).
End reload.

(** ** The loop *)

Definition IFACE_RESCAN_INTERVAL_MS : Z := 10000.

Record loop_state := mk_loop {
  lp_next_update_time : Z;
  lp_next_iface_rescan : Z;
  lp_update_pending : bool;
  lp_retry_count : Z;
  lp_next_stats_sample : Z;
  lp_owned_ports_due : Z;
  lp_next_owned_ports_reconcile : Z
}.

(** The reads of the clock in one round, in the order of the code. *)
Record clock_reads := mk_clock {
  ck_pending : Z;         (* before poll: the pending update, *)
  ck_iface : Z;           (* the rescan, *)
  ck_stats : Z;           (* the sample, *)
  ck_owned : Z;           (* the owned ports *)
  ck_rescan : Z;          (* is a rescan due? *)
  ck_rescan_next : Z;
  ck_config : Z;          (* after configuration events *)
  ck_port : Z;            (* after port events *)
  ck_diag : Z;            (* after socket events *)
  ck_sample : Z;          (* is a sample due? *)
  ck_catch_up : nat → Z;  (* the condition of the catch-up loop *)
  ck_due : Z;             (* is a refresh of owned ports due? *)
  ck_reconcile : Z;
  ck_refreshed : Z;
  ck_update : Z;          (* is the pending update due? *)
  ck_updated : Z;         (* after the update *)
  ck_failed : Z;
  ck_follow_up : Z
}.

(** The start of the loop, with the three reads of the clock that set its
    deadlines. *)
Definition start_loop (t_rescan t_sample t_reconcile : Z) : loop_state :=
  mk_loop 0 (t_rescan + IFACE_RESCAN_INTERVAL_MS) false 0 (t_sample + STATS_RESOLUTION_SEC * 1000) 0
    (t_reconcile + 60000).
Definition initial_loop (t : Z) : loop_state := start_loop t t t.

(** [now >= deadline ? 0 : (int)(deadline - now)] *)
Definition time_left (now deadline : Z) : Z := if deadline <=? now then 0 else s32 (deadline - now).

(** [if (poll_timeout < 0 || timeout < poll_timeout) poll_timeout = timeout;] *)
Definition earlier (poll_timeout timeout : Z) : Z :=
  if (poll_timeout <? 0) || (timeout <? poll_timeout) then timeout else poll_timeout.

Definition owned_deadline (s : loop_state) : Z :=
  if lp_owned_ports_due s =? 0 then lp_next_owned_ports_reconcile s else lp_owned_ports_due s.

Definition poll_timeout (s : loop_state) (ck : clock_reads) : Z :=
  let timeout := if lp_update_pending s then time_left (ck_pending ck) (lp_next_update_time s) else -1 in
  let timeout := earlier timeout (time_left (ck_iface ck) (lp_next_iface_rescan s)) in
  let timeout := earlier timeout (time_left (ck_stats ck) (lp_next_stats_sample s)) in
  earlier timeout (time_left (ck_owned ck) (owned_deadline s)).

(** Which descriptors [poll] reports. *)
Record poll_events := mk_poll {
  pe_netlink : bool;
  pe_config : bool;
  pe_stats : bool;
  pe_port : bool;
  pe_diag : bool
}.

Inductive action :=
  | DrainConfig       (* drain_config_events *)
  | ServeClient       (* serve_stats_client *)
  | SampleStats       (* sample_stats *)
  | RefreshPorts      (* refresh_owned_ports *)
  | UpdateSpoofIp.    (* update_spoof_ip *)

#[global] Instance action_eq_dec : EqDecision action.
Proof. solve_decision. Defined.

(** [do next += 60000; while (next <= daemon_get_time_ms());] from round [k]. *)
Fixpoint catch_up (fuel : nat) (reads : nat → Z) (k : nat) (next : Z) : option Z :=
  match fuel with
  | O => None
  | S fuel =>
      let next := next + STATS_RESOLUTION_SEC * 1000 in
      if next <=? reads k then catch_up fuel reads (S k) next else Some next
  end.

(** The events before the timers: the new due time of the owned ports. *)
Definition owned_due_after (s : loop_state) (ck : clock_reads) (ev : poll_events) : Z :=
  let due := lp_owned_ports_due s in
  let due := if pe_config ev then ck_config ck + 100 else due in
  let due := if pe_port ev then ck_port ck + 75 else due in
  if pe_diag ev then ck_diag ck + 25 else due.

(** The follow-ups after an update: two of them after a netlink event. *)
Definition follow_up (netlink_event : bool) (ck : clock_reads) (next : Z) (pending : bool) (retry : Z)
    : Z * bool * Z :=
  if netlink_event then (ck_follow_up ck + 1000, true, 2)
  else if 0 <? retry then
    let retry := retry - 1 in
    if retry =? 1 then (ck_follow_up ck + 2000, true, retry) else (next, pending, retry)
  else (next, pending, retry).

(** What is due in a round. *)
Definition rescan_due (s : loop_state) (ck : clock_reads) : bool := lp_next_iface_rescan s <=? ck_rescan ck.
Definition sample_due (s : loop_state) (ck : clock_reads) : bool := lp_next_stats_sample s <=? ck_sample ck.
Definition refresh_due (s : loop_state) (ck : clock_reads) (ev : poll_events) : bool :=
  let due := owned_due_after s ck ev in
  (negb (due =? 0) && (due <=? ck_due ck)) || (lp_next_owned_ports_reconcile s <=? ck_reconcile ck).
Definition update_fires (s : loop_state) (ck : clock_reads) : bool :=
  lp_update_pending s && (lp_next_update_time s <=? ck_update ck).
Definition triggered (s : loop_state) (ck : clock_reads) (ev : poll_events) : bool :=
  pe_netlink ev || rescan_due s ck || update_fires s ck.

(** The next rescan: set when it is due, set again after the update, and sooner
    when the update failed. *)
Definition next_rescan (s : loop_state) (ck : clock_reads) (ev : poll_events) (publish_ok : bool) : Z :=
  let next := if rescan_due s ck then ck_rescan_next ck + IFACE_RESCAN_INTERVAL_MS else lp_next_iface_rescan s in
  if triggered s ck ev then
    let next := if rescan_due s ck then ck_updated ck + IFACE_RESCAN_INTERVAL_MS else next in
    if publish_ok then next else ck_failed ck + 1000
  else next.

Definition next_follow_up (s : loop_state) (ck : clock_reads) (ev : poll_events) : Z * bool * Z :=
  let pending := if update_fires s ck then false else lp_update_pending s in
  if triggered s ck ev then follow_up (pe_netlink ev) ck (lp_next_update_time s) pending (lp_retry_count s)
  else (lp_next_update_time s, pending, lp_retry_count s).

Definition when (b : bool) (a : action) : list action := if b then [a] else [].

(** The jobs of a round, in order. *)
Definition round_actions (s : loop_state) (ck : clock_reads) (ev : poll_events) : list action :=
  when (pe_config ev) DrainConfig ++ when (pe_stats ev) ServeClient ++ when (sample_due s ck) SampleStats ++
  when (refresh_due s ck ev) RefreshPorts ++ when (triggered s ck ev) UpdateSpoofIp.

(** A round in which [poll] did not fail: the new state and what was done.
    [publish_ok] is the result of the update. *)
Definition loop_round (fuel : nat) (s : loop_state) (ck : clock_reads) (ev : poll_events) (publish_ok : bool)
    : option (loop_state * list action) :=
  next_sample ← (if sample_due s ck then catch_up fuel (ck_catch_up ck) 0 (lp_next_stats_sample s)
                 else Some (lp_next_stats_sample s));
  let refresh := refresh_due s ck ev in
  let '(next_update, pending, retry) := next_follow_up s ck ev in
  Some (mk_loop next_update (next_rescan s ck ev publish_ok) pending retry next_sample
          (if refresh then 0 else owned_due_after s ck ev)
          (if refresh then ck_refreshed ck + 60000 else lp_next_owned_ports_reconcile s),
        round_actions s ck ev).

(** ** Sleeping *)

(** The deadlines with the clock read each of them is compared with. *)
Definition deadlines (s : loop_state) (ck : clock_reads) : list (Z * Z) :=
  (if lp_update_pending s then [(ck_pending ck, lp_next_update_time s)] else []) ++
  [(ck_iface ck, lp_next_iface_rescan s); (ck_stats ck, lp_next_stats_sample s); (ck_owned ck, owned_deadline s)].

Lemma time_left_spec now deadline :
  deadline - now < 2 ^ 31 → time_left now deadline = Z.max 0 (deadline - now).
Proof.
  intros. unfold time_left. destruct (Z.leb_spec deadline now); [lia|]. rewrite s32_small by lia. lia.
Qed.

Lemma earlier_bound a b :
  0 <= b → 0 <= earlier a b ∧ earlier a b <= b ∧ (0 <= a → earlier a b <= a).
Proof. intros. unfold earlier. destruct (Z.ltb_spec a 0), (Z.ltb_spec b a); simpl; lia. Qed.

(** The daemon never sleeps past a deadline: the timeout it gives to [poll]
    is not negative (so it never waits for ever) and at most what is left to
    each of its deadlines. *)
Theorem poll_never_oversleeps s ck :
  Forall (λ '(now, deadline), deadline - now < 2 ^ 31) (deadlines s ck) →
  0 <= poll_timeout s ck ∧
  Forall (λ '(now, deadline), poll_timeout s ck <= Z.max 0 (deadline - now)) (deadlines s ck).
Proof.
  unfold deadlines, poll_timeout. intros Hd.
  apply Forall_app in Hd as [Hp Hd]. rewrite !Forall_cons in Hd. destruct Hd as (Hi & Hs & Ho & _).
  set (p := if lp_update_pending s then _ else _).
  rewrite (time_left_spec _ _ Hi), (time_left_spec _ _ Hs), (time_left_spec _ _ Ho).
  destruct (earlier_bound p (Z.max 0 (lp_next_iface_rescan s - ck_iface ck))) as (H1 & H1' & H1''); [lia|].
  set (e1 := earlier p _) in *.
  destruct (earlier_bound e1 (Z.max 0 (lp_next_stats_sample s - ck_stats ck))) as (H2 & H2' & H2''); [lia|].
  set (e2 := earlier e1 _) in *.
  destruct (earlier_bound e2 (Z.max 0 (owned_deadline s - ck_owned ck))) as (H3 & H3' & H3''); [lia|].
  split; [lia|]. apply Forall_app. split; [|repeat (apply Forall_cons; split; [lia|]); apply Forall_nil_2].
  unfold p in *. destruct (lp_update_pending s); [|apply Forall_nil_2]. rewrite Forall_singleton in Hp |- *.
  rewrite time_left_spec in H1'' by done. lia.
Qed.

(** A round whose reads of the clock all give [t]. *)
Definition clock_at (t : Z) : clock_reads :=
  mk_clock t t t t t t t t t t (λ _, t) t t t t t t t.

Lemma poll_never_oversleeps_witness :
  poll_timeout (initial_loop 5000) (clock_at 6000) = 9000 ∧
  0 <= poll_timeout (initial_loop 5000) (clock_at 6000) ∧
  Forall (λ '(now, deadline), poll_timeout (initial_loop 5000) (clock_at 6000) <= Z.max 0 (deadline - now))
    (deadlines (initial_loop 5000) (clock_at 6000)).
Proof.
  split; [reflexivity|]. apply poll_never_oversleeps.
  unfold deadlines. simpl. repeat (apply Forall_cons; split; [vm_compute; reflexivity|]). apply Forall_nil_2.
Defined.

(** ** Samples *)

Definition period : Z := STATS_RESOLUTION_SEC * 1000.

Lemma catch_up_spec fuel reads k next n :
  catch_up fuel reads k next = Some n →
  ∃ j, (k <= j)%nat ∧ n = next + period * (Z.of_nat (j - k) + 1) ∧ reads j < n ∧
    (j = k ∨ n - period <= reads (pred j)).
Proof.
  revert k next. induction fuel as [|fuel IH]; intros k next; [done|]. cbn [catch_up]. fold period.
  destruct (Z.leb_spec (next + period) (reads k)) as [Hle|Hlt].
  - intros (j & Hj & -> & Hr & Hlast)%IH. exists j. split_and!; [lia| |done|].
    + replace (Z.of_nat (j - k)) with (Z.of_nat (j - S k) + 1) by lia. lia.
    + right. destruct Hlast as [->|Hlast]; [|done]. simpl. rewrite Nat.sub_diag. lia.
  - intros <-%(inj Some). exists k. rewrite Nat.sub_diag. split_and!; [done|lia|done|by left].
Qed.

Lemma catch_up_total fuel reads k next limit :
  (∀ i, reads i <= limit) → limit < next + period * Z.of_nat fuel → (0 < fuel)%nat →
  is_Some (catch_up fuel reads k next).
Proof.
  intros Hreads. revert k next. induction fuel as [|fuel IH]; intros k next Hlim Hf; [lia|].
  cbn [catch_up]. fold period. destruct (Z.leb_spec (next + period) (reads k)) as [Hle|]; [|eauto].
  pose proof (Hreads k). destruct fuel as [|fuel]; [lia|]. apply IH; lia.
Qed.

(** The deadline of the owned ports once the events of a round are seen: the last
    event in the order of the code decides, else the deadline stands. *)
Lemma owned_due_cases s ck ev :
  owned_due_after s ck ev =
    if pe_diag ev then ck_diag ck + 25 else if pe_port ev then ck_port ck + 75
    else if pe_config ev then ck_config ck + 100 else lp_owned_ports_due s.
Proof. unfold owned_due_after. by destruct (pe_diag ev), (pe_port ev), (pe_config ev). Qed.

(** A round ends. *)
Lemma loop_round_total fuel s ck ev ok limit :
  (∀ i, ck_catch_up ck i <= limit) → limit < lp_next_stats_sample s + period * Z.of_nat fuel → (0 < fuel)%nat →
  ∃ s', loop_round fuel s ck ev ok = Some (s', round_actions s ck ev).
Proof.
  intros Hreads Hlim Hf. unfold loop_round.
  assert (is_Some (if sample_due s ck then catch_up fuel (ck_catch_up ck) 0 (lp_next_stats_sample s)
    else Some (lp_next_stats_sample s))) as [n ->].
  { destruct (sample_due s ck); [|eauto]. by eapply catch_up_total. }
  cbn [mbind option_bind]. destruct (next_follow_up s ck ev) as [[next pending] retry]. by eexists.
Qed.


(** Port events asked for a refresh 75 ms ahead; the round after that deadline
    makes it, long before the minute is over. *)
Definition refresh_asked : loop_state := mk_loop 0 10000 false 0 60000 1075 60000.


(** ** Follow-ups *)

(** Updates still owed because of an earlier netlink event. *)
Definition follow_budget (s : loop_state) : nat :=
  if lp_update_pending s then Z.to_nat (Z.max 1 (lp_retry_count s)) else 0.

Definition follow_inv (s : loop_state) : Prop :=
  0 <= lp_retry_count s <= 2 ∧ (lp_retry_count s = 2 → lp_update_pending s = true).

(** A round's reads, events and outcome. *)
Record round_input := mk_round { ri_clock : clock_reads; ri_events : poll_events; ri_ok : bool }.

Definition count (b : bool) : nat := if b then 1 else 0.

(** The state after the rounds, the updates they made and the rescans among them. *)
Fixpoint run_rounds (fuel : nat) (s : loop_state) (rounds : list round_input) : option (loop_state * nat * nat) :=
  match rounds with
  | [] => Some (s, 0%nat, 0%nat)
  | r :: rounds =>
      '(s', _) ← loop_round fuel s (ri_clock r) (ri_events r) (ri_ok r);
      '(s'', updates, rescans) ← run_rounds fuel s' rounds;
      Some (s'', (count (triggered s (ri_clock r) (ri_events r)) + updates)%nat,
            (count (rescan_due s (ri_clock r)) + rescans)%nat)
  end.

Lemma round_budget fuel s ck ev ok s' acts :
  follow_inv s → pe_netlink ev = false → loop_round fuel s ck ev ok = Some (s', acts) →
  follow_inv s' ∧
  (count (triggered s ck ev) + follow_budget s' <= follow_budget s + count (rescan_due s ck))%nat.
Proof.
  intros [Hr H2] Hn. unfold loop_round. destruct (if sample_due s ck then _ else _) as [n|]; [|done].
  cbn [mbind option_bind]. destruct (next_follow_up s ck ev) as [[next pending] retry] eqn:Hf.
  intros [= <- _]. unfold follow_inv, follow_budget. cbn [lp_retry_count lp_update_pending].
  unfold next_follow_up, triggered in *. rewrite Hn in *. cbn [orb] in *.
  unfold update_fires in *. destruct (lp_update_pending s) eqn:Hp; cbn [andb] in *.
  - destruct (rescan_due s ck), (lp_next_update_time s <=? ck_update ck); cbn [orb follow_up] in Hf;
      try (destruct (Z.ltb_spec 0 (lp_retry_count s)); [destruct (Z.eqb_spec (lp_retry_count s - 1) 1)|]);
      simplify_eq; cbn [count orb]; split; try lia; split; try lia; done || lia.
  - assert (lp_retry_count s ≠ 2) by (intros E; by specialize (H2 E)).
    destruct (rescan_due s ck), (lp_next_update_time s <=? ck_update ck); cbn [orb follow_up] in Hf;
      try (destruct (Z.ltb_spec 0 (lp_retry_count s)); [destruct (Z.eqb_spec (lp_retry_count s - 1) 1)|]);
      simplify_eq; cbn [count orb]; split; try lia; split; try lia; done || lia.
Qed.

Lemma run_rounds_budget fuel s rounds s' updates rescans :
  follow_inv s → Forall (λ r, pe_netlink (ri_events r) = false) rounds →
  run_rounds fuel s rounds = Some (s', updates, rescans) →
  (updates + follow_budget s' <= follow_budget s + rescans)%nat.
Proof.
  revert s updates rescans. induction rounds as [|r rounds IH]; intros s updates rescans Hinv Hnl.
  { intros [= <- <- <-]. lia. }
  apply Forall_cons in Hnl as [Hn Hnl]. cbn [run_rounds].
  destruct (loop_round fuel s (ri_clock r) (ri_events r) (ri_ok r)) as [[s1 acts]|] eqn:Hr; [|done].
  cbn [mbind option_bind]. destruct (run_rounds fuel s1 rounds) as [[[s2 u] k]|] eqn:Hrest; [|done].
  cbn [mbind option_bind]. intros [= <- <- <-].
  destruct (round_budget _ _ _ _ _ _ _ Hinv Hn Hr) as [Hinv1 Hb]. specialize (IH _ _ _ Hinv1 Hnl Hrest). lia.
Qed.

(** A netlink event is followed up twice and no more: in the rounds after
    it, until the next event, at most two updates are made besides those of the
    periodic rescans. *)
Theorem follow_ups_bounded fuel s0 ck ev ok s acts rounds s' updates rescans :
  pe_netlink ev = true → loop_round fuel s0 ck ev ok = Some (s, acts) →
  Forall (λ r, pe_netlink (ri_events r) = false) rounds →
  run_rounds fuel s rounds = Some (s', updates, rescans) →
  (updates <= 2 + rescans)%nat.
Proof.
  intros Hn Hround Hnl Hrun.
  assert (Hs : lp_update_pending s = true ∧ lp_retry_count s = 2).
  { unfold loop_round in Hround. destruct (if sample_due s0 ck then _ else _); [|done].
    cbn [mbind option_bind] in Hround. unfold next_follow_up, triggered in Hround. rewrite Hn in Hround.
    cbn [orb follow_up] in Hround. by injection Hround as <- _. }
  destruct Hs as [Hp Hr].
  pose proof (run_rounds_budget fuel s rounds s' updates rescans) as Hb.
  assert (Hi : follow_inv s) by (split; [lia|done]). specialize (Hb Hi Hnl Hrun).
  unfold follow_budget at 2 in Hb. rewrite Hp, Hr in Hb. simpl in Hb. lia.
Qed.

Definition quiet_rounds : list round_input :=
  (λ t, mk_round (clock_at t) (mk_poll false false false false false) true) <$> [1100; 2000; 3100; 5000; 9000].

Lemma follow_ups_bounded_witness :
  match loop_round 2 (initial_loop 0) (clock_at 100) (mk_poll true false false false false) true with
  | Some (s, _) =>
      match run_rounds 2 s quiet_rounds with
      | Some (_, updates, rescans) => updates = 2%nat ∧ rescans = 0%nat ∧ (updates <= 2 + rescans)%nat
      | None => False
      end
  | None => False
  end.
Proof.
  destruct (loop_round 2 (initial_loop 0) (clock_at 100) (mk_poll true false false false false) true)
    as [[s acts]|] eqn:Hr; [|by vm_compute in Hr].
  destruct (run_rounds 2 s quiet_rounds) as [[[s' updates] rescans]|] eqn:Hrun.
  - pose proof (follow_ups_bounded 2 (initial_loop 0) (clock_at 100) (mk_poll true false false false false) true
      s acts quiet_rounds s' updates rescans eq_refl Hr ltac:(repeat constructor) Hrun) as Hle.
    vm_compute in Hr. injection Hr as <- <-. vm_compute in Hrun. injection Hrun as <- <- <-. done.
  - vm_compute in Hr. injection Hr as <- <-. by vm_compute in Hrun.
Defined.

(** ** Configuration events *)

Lemma drain_changed reads config :
  foldl (λ changed buffer, foldl (λ changed e, changed || event_matches config e) changed buffer) false reads =
  existsb (event_matches config) (mjoin reads).
Proof.
  assert (Hinner : ∀ buffer b, foldl (λ changed e, changed || event_matches config e) b buffer =
    b || existsb (event_matches config) buffer).
  { induction buffer as [|e buffer IH]; intros b; [by rewrite orb_false_r|]. simpl. by rewrite IH, orb_assoc. }
  assert (Houter : ∀ reads b, foldl (λ changed buffer,
      foldl (λ changed e, changed || event_matches config e) changed buffer) b reads =
    b || existsb (event_matches config) (mjoin reads)).
  { induction reads0 as [|buffer reads0 IH]; intros b; [by rewrite orb_false_r|]. simpl.
    rewrite IH, Hinner, existsb_app. by rewrite orb_assoc. }
  by rewrite Houter.
Qed.

(** The tool is run on the configuration exactly when one of the events names the
    configuration file itself with a change of its contents or attributes, however
    many events and reads there were; the reload succeeds exactly when moreover the
    tool and the path are known, the file can be read, the calls succeed and the
    tool exits with status 0; and without a matching event nothing changes. *)
Theorem config_reloaded_iff {D} (run : list bytes → D → option Z * D) reads config ctl c d :
  ((drain_config_events run reads config ctl c d).1 = Reloaded ↔
   (∃ e, e ∈ mjoin reads ∧ event_matches config e = true) ∧
   ∃ tool, ctl = Some tool ∧ rc_access c config = true ∧ 0 <= rc_fork c ∧ rc_exec c = true ∧ rc_wait c = true ∧
     (run [tool; lit "load"; config] d).1 = Some 0) ∧
  ((∀ e, e ∈ mjoin reads → event_matches config e = false) → drain_config_events run reads config ctl c d = (NotTried, d)).
Proof.
  unfold drain_config_events. rewrite drain_changed. split.
  - assert (Hex : existsb (event_matches config) (mjoin reads) = true ↔
      ∃ e, e ∈ mjoin reads ∧ event_matches config e = true).
    { rewrite existsb_exists. setoid_rewrite list_elem_of_In. done. }
    destruct (existsb _ _); [|split; [done|]; intros [H _]; by apply Hex in H].
    unfold reload_policy, reload_child. destruct ctl as [tool|]; [|split; [done|]; intros (_ & ? & [=] & _)].
    destruct (rc_access c config); cbn [negb]; [|split; [done|]; by intros (_ & ? & _ & ? & _)].
    destruct (Z.ltb_spec (rc_fork c) 0); [split; [done|]; intros (_ & ? & _ & _ & ? & _); lia|].
    destruct (rc_exec c); [|split; [by destruct (rc_wait c)|]; by intros (_ & ? & _ & _ & _ & ? & _)].
    destruct (run [tool; lit "load"; config] d) as [status d'] eqn:E. cbn [fst].
    destruct (rc_wait c); cbn [andb]; [|split; [done|]; by intros (_ & ? & _ & _ & _ & _ & ? & _)].
    case_bool_decide as Hs; subst; split; try done.
    + intros _. split; [by apply Hex|]. exists tool. by rewrite E.
    + intros (_ & t & [= <-] & _ & _ & _ & _ & Hr). by rewrite E in Hr.
  - intros Hno. destruct (existsb _ _) eqn:E; [|done]. apply existsb_exists in E as (e & He & Hm).
    rewrite Hno in Hm; [done|by apply list_elem_of_In].
Qed.

(** A reload that gets as far as running the tool leaves what the tool leaves. *)
Lemma drain_runs_tool {D} (run : list bytes → D → option Z * D) reads config tool c d e d' :
  e ∈ mjoin reads → event_matches config e = true → rc_access c config = true → 0 <= rc_fork c →
  rc_exec c = true → rc_wait c = true → run [tool; lit "load"; config] d = (Some 0, d') →
  drain_config_events run reads config (Some tool) c d = (Reloaded, d').
Proof.
  intros He Hm Ha Hf Hx Hw Hr. unfold drain_config_events. rewrite drain_changed.
  assert (existsb (event_matches config) (mjoin reads) = true) as ->
    by (apply existsb_exists; exists e; by rewrite <- list_elem_of_In).
  unfold reload_policy, reload_child. rewrite Ha, Hx, Hw, Hr. cbn [negb andb].
  destruct (Z.ltb_spec (rc_fork c) 0); [lia|]. done.
Qed.
