(* ===== verification/KCore.v ===== *)
(** * The in-tree variant: core

    [kpatch/security/vpnhide/core.c] is the module's [kmod/main.c] carried over
    to a subsystem that is compiled into the kernel.  Most of it repeats the
    module statement by statement; modelled here is what it writes differently:
    the size checks of a payload, the copies of interface names, the counters
    an intercepted call is counted under, the handling of the control device
    and the start.  The state is the module's, except for the UDP buckets,
    which count whole tokens ([KSocket]). *)
From Stdlib Require Import Strings.Byte ZArith Lia.
From stdpp Require Import base gmap numbers list.
From S2P Require Import Prelude Abi Snapshot PolicyQuery Userspace PolicyResolve Ctl RoundTrip OwnedPorts Stats PortStats UdpRate Device CharDev SockOpt Names Iface Cover.

#[local] Open Scope Z_scope.

(** ** State *)

(** [struct vh_udp_uid_rate]: [tokens] is an [int], [last_regen] a [ktime_t]. *)
Record vh_udp_uid_rate := mk_udp_rate {
  ur_tokens : Z;
  ur_last_regen : Z
}.

Record kp_device := mk_kp {
  kp_dev : device;
  kp_rates : gmap Z vh_udp_uid_rate
}.

Definition kp_set (d : device) (k : kp_device) : kp_device := mk_kp d (kp_rates k).

(** After [vpnhide_init]: both generations start at 0. *)
Definition kp_initial : kp_device :=
  mk_kp (set_java (set_generation initial_device 0) (dv_java_stats initial_device)
           (dv_java_status initial_device) 0) ∅.

(** ** Payloads *)

(** The overflow check is a division and the bound a subtraction, both on
    [size_t]. *)
Definition kp_policy_section_validate (section : vpnhide_policy_section_v3)
    (element_size cursor total_size : Z) : result Z :=
  if negb (sec_offset section =? cursor) ||
     (nonzero (sec_count section) && (SIZE_MAX / sec_count section <? element_size))
  then Err EINVAL
  else
    let bytes := u64 (sec_count section * element_size) in
    if u64 (total_size - cursor) <? bytes then Err EINVAL else Ok (u64 (cursor + bytes)).

Definition kp_policy_v3_layout (p : vpnhide_policy_payload_v3) (payload_size : Z) : result unit :=
  if (payload_size <? Z.of_nat sizeof_payload_v3) ||
     (VPNHIDE_POLICY_MAX_BYTES <? payload_size) ||
     negb (p3_total_size p =? payload_size) ||
     (MAX_IFACE_PREFIXES <? p3_iface_count p)
  then Err EINVAL else
  cursor ← kp_policy_section_validate (p3_kmod_uids p) (Z.of_nat sizeof_u32)
             (Z.of_nat sizeof_payload_v3) payload_size;
  cursor ← kp_policy_section_validate (p3_lsposed_uids p) (Z.of_nat sizeof_u32)
             cursor payload_size;
  cursor ← kp_policy_section_validate (p3_port_targets p) (Z.of_nat sizeof_port_target_v3)
             cursor payload_size;
  cursor ← kp_policy_section_validate (p3_port_rules p) (Z.of_nat sizeof_port_rule_v3)
             cursor payload_size;
  cursor ← kp_policy_section_validate (p3_app_hook_masks p) (Z.of_nat sizeof_app_hook_mask_v3)
             cursor payload_size;
  require (cursor =? payload_size) EINVAL.

Section payloads.
Context {KS : KSort}.

(** The copies, the checks of the records and the sorting are the module's. *)
Definition kp_policy_snapshot_from_v3 (alloc : bool) (payload : bytes)
    : result vpnhide_policy_snapshot :=
  let p := decode_payload_v3 payload in
  _ ← kp_policy_v3_layout p (Z.of_nat (length payload));
  _ ← require alloc ENOMEM;
  policy_v3_finish (policy_v3_copy p payload).

Definition kp_policy_snapshot_from_v4 (alloc_v3 alloc : bool) (payload : bytes)
    : result vpnhide_policy_snapshot :=
  let p := decode_payload_v4 payload in
  let payload_size := Z.of_nat (length payload) in
  if (payload_size <? Z.of_nat sizeof_payload_v4) ||
     negb (p4_total_size p =? payload_size) || nonzero (p4_reserved p) ||
     (VPNHIDE_MATCH_EXCLUDE <? p4_kmod_match_mode p) ||
     (VPNHIDE_MATCH_EXCLUDE <? p4_lsposed_match_mode p) ||
     (VPNHIDE_MATCH_EXCLUDE <? p4_port_match_mode p)
  then Err EINVAL else
  if (sec_offset (p4_kmod_uids p) <? Z.of_nat sizeof_payload_v4) ||
     (sec_offset (p4_lsposed_uids p) <? Z.of_nat sizeof_payload_v4) ||
     (sec_offset (p4_port_targets p) <? Z.of_nat sizeof_payload_v4) ||
     (sec_offset (p4_port_rules p) <? Z.of_nat sizeof_payload_v4) ||
     (sec_offset (p4_app_hook_masks p) <? Z.of_nat sizeof_payload_v4)
  then Err EINVAL else
  if negb alloc_v3 then Err ENOMEM else
  s ← kp_policy_snapshot_from_v3 alloc (v3_of_v4 p payload);
  Ok (with_match_modes (p4_kmod_match_mode p) (p4_lsposed_match_mode p)
        (p4_port_match_mode p) s).
End payloads.

(** ** Statistics *)

(** The [type] argument is the index of the hook. *)
Definition kp_intercept_counter (type : Z) : stats_counter :=
  if (type =? hook_bit HOOK_SETSOCKOPT) || (type =? hook_bit HOOK_GETSOCKOPT) then sockopt_count
  else if bool_decide (type ∈ hook_bit <$> [HOOK_RTNL_FILL; HOOK_INET6_FILL; HOOK_INET_FILL; HOOK_FIB_DUMP;
                                            HOOK_RT6_FILL; HOOK_RT_FILL]) then netlink_count
  else if (type =? hook_bit HOOK_GETDENTS64) ||
          ((hook_bit HOOK_OPENAT <=? type) && (type <=? hook_bit HOOK_READLINKAT)) then proc_count
  else if (type =? hook_bit HOOK_CONNECT) || (type =? hook_bit HOOK_BIND) then connect_count
  else if (type =? 32) || (type =? 6) then port_count
  else if (type =? hook_bit HOOK_GETNAME_INET) || (type =? hook_bit HOOK_GETNAME_INET6) then getname_count
  else ioctl_count.

(** [HOOK_PORT] has no bit in a mask. *)
Definition HOOK_PORT : Z := 32.

Definition kp_record_kmod_intercept (st : stats_state) (uid type : Z) : stats_state :=
  if core_uid uid then st else stats_add st true uid (Some (kp_intercept_counter type)) 1.

Definition kp_record_hook (st : stats_state) (uid : Z) (hook : vpnhide_hook_idx) : stats_state :=
  kp_record_kmod_intercept st uid (hook_bit hook).

Definition kp_record_port_intercept (now uid port protocol : Z) (st : stats_state * port_stats_state)
    : stats_state * port_stats_state :=
  (kp_record_kmod_intercept st.1 uid HOOK_PORT, record_port now uid port protocol st.2).

Definition vpnhide_record_java_stat (st : stats_state) (uid : Z) (hook : bytes) (count : Z) : stats_state :=
  stats_add st (negb (core_uid uid)) uid (java_counter hook) count.

(** The merge and the carrying over are the module's, under other names. *)
Definition intercept_stats_reconcile : bool → vpnhide_policy_snapshot → stats_state → result stats_state :=
  kmod_stats_reconcile.

(** ** Matching a UID *)

(** The search takes its middle from a sum of [int]s, where the module adds half
    of the difference.  [None]: an access outside the table or no end. *)
Fixpoint kp_uid_search (uids : list Z) (uid : Z) (fuel : nat) (lo hi : Z) : option bool :=
  match fuel with
  | O => None
  | S fuel =>
      if lo <=? hi then
        let mid := Z.shiftr (s32 (lo + hi)) 1 in
        u ← if 0 <=? mid then uids !! Z.to_nat mid else None;
        if u =? uid then Some true
        else if u <? uid then kp_uid_search uids uid fuel (mid + 1) hi
        else kp_uid_search uids uid fuel lo (mid - 1)
      else Some false
  end.

Definition kp_uid_matches_mode (uids : list Z) (mode uid : Z) : option bool :=
  if (uid =? 0) || (uid =? 1000) || (uid mod 100000 <? 10000) then Some false
  else
    found ← if (0 <? length uids)%nat
            then kp_uid_search uids uid (S (length uids)) 0 (s32 (Z.of_nat (length uids) - 1))
            else Some false;
    Some (if mode =? VPNHIDE_MATCH_EXCLUDE then negb found else found).

(** ** Interface names *)

(** [strscpy(dst, src, 16)] into zeroed memory. *)
Definition strscpy_zeroed (src : bytes) : bytes :=
  let s := take 15 (cstr src) in s ++ replicate (16 - length s) x00.

(** [strscpy(dst, src, 16)] over [old]: the rest of the buffer stays. *)
Definition strscpy_over (src old : bytes) : bytes :=
  let s := take 15 (cstr src) in s ++ [x00] ++ drop (S (length s)) old.

Definition MAX_VPNS : nat := Z.to_nat MAX_ACTIVE_VPNS.

(** The table built for [VH_SET_VPN_IFINDEXES], zero beyond [count]. *)
Definition kp_active_vpns (idata : vpnhide_vpn_ifindexes) : vpnhide_vpn_ifindexes :=
  let count := Z.min (vi_count idata) MAX_ACTIVE_VPNS in
  let vpns := (λ v, mk_active_vpn (av_ifindex v) (strscpy_zeroed (av_name v))) <$>
                take (Z.to_nat count) (vi_vpns idata) in
  mk_vpn_ifindexes count (vpns ++ replicate (MAX_VPNS - length vpns) (mk_active_vpn 0 (replicate 16 x00))).

(** The hash is of the caller's name, the name a copy of at most 15 bytes. *)
Definition kp_rebuild_name_cache (alloc : bool) (idata : vpnhide_vpn_ifindexes)
    (old : option vh_vpn_name_cache) : option vh_vpn_name_cache :=
  if negb alloc then old
  else
    let vpns := take (Z.to_nat (Z.min (vi_count idata) MAX_ACTIVE_VPNS)) (vi_vpns idata) in
    Some (mk_name_cache ((λ v, fnv1a_name (av_name v) 16) <$> vpns)
            ((λ v, strscpy_zeroed (av_name v)) <$> vpns)).

Definition kp_is_vpn_name_cached (c : option vh_vpn_name_cache) (name : bytes) (len : nat) : bool :=
  let h := fnv1a_name name len in
  match c with
  | None => false
  | Some c => existsb (λ '(h', n), (h' =? h) && strncmp_eq 16 n name) (zip (nc_hashes c) (nc_names c))
  end.

(** No check for an empty name here; the callers make it. *)
Definition kp_is_active_vpn_ifname (vpns : option vpnhide_vpn_ifindexes) (name : bytes) : bool :=
  match vpns with
  | None => false
  | Some v => existsb (λ e, strncmp_eq 16 (av_name e) name) (take (Z.to_nat (vi_count v)) (vi_vpns v))
  end.

Definition vpnhide_should_hide_ifname (d : device) (uid : Z) (ifname : option bytes) : bool :=
  match ifname with
  | None => false
  | Some name =>
      if bool_decide (cstr name = []) then false
      else if negb (is_target d uid) then false else kp_is_active_vpn_ifname (dv_vpns d) name
  end.

(** ** Publishing *)

Definition kp_udp_rates_prune (snapshot : option vpnhide_policy_snapshot) (rates : gmap Z vh_udp_uid_rate)
    : gmap Z vh_udp_uid_rate :=
  filter (λ p, keep_rate snapshot p.1 = true) rates.

Definition kp_bump_generation (k : kp_device) : kp_device := kp_set (bump_generation (kp_dev k)) k.

Definition kp_publish_locked (alloc : bool) (snapshot : vpnhide_policy_snapshot)
    (expected_generation : Z) (k : kp_device) : result kp_device :=
  let d := kp_dev k in
  if nonzero expected_generation && negb (expected_generation =? u64 (dv_generation d))
  then Err EAGAIN
  else
    st ← intercept_stats_reconcile alloc snapshot (dv_stats d);
    let d := set_policy d (Some snapshot) in
    let d := set_ports d None empty_pending_table in
    let d := set_stats d st (dv_port_stats d) in
    Ok (mk_kp d (kp_udp_rates_prune (Some snapshot) (kp_rates k))).

Definition kp_publish_policy_snapshot (alloc : bool) (snapshot : vpnhide_policy_snapshot)
    (expected_generation : Z) (k : kp_device) : result kp_device :=
  k ← kp_publish_locked alloc snapshot expected_generation k;
  Ok (kp_bump_generation k).

Section apply.
Context {KS : KSort}.

Definition kp_apply_policy_v3 (alloc_snapshot alloc_stats : bool) (payload : bytes)
    (expected_generation : Z) (k : kp_device) : result kp_device :=
  s ← kp_policy_snapshot_from_v3 alloc_snapshot payload;
  kp_publish_policy_snapshot alloc_stats s expected_generation k.

Definition kp_apply_policy_v4 (alloc_v3 alloc_snapshot alloc_stats : bool) (payload : bytes)
    (expected_generation : Z) (k : kp_device) : result kp_device :=
  s ← kp_policy_snapshot_from_v4 alloc_v3 alloc_snapshot payload;
  kp_publish_policy_snapshot alloc_stats s expected_generation k.

(** The translation of the version 2 payload is the module's. *)
Definition kp_apply_policy (alloc_v3 alloc_snapshot alloc_stats : bool)
    (p : vpnhide_policy_payload) (expected_generation : Z) (k : kp_device) : result kp_device :=
  if count_bad (p2_kmod_count p) VPNHIDE_LEGACY_TARGET_UIDS ||
     count_bad (p2_lsposed_count p) VPNHIDE_LEGACY_TARGET_UIDS ||
     count_bad (p2_port_count p) VPNHIDE_LEGACY_TARGET_UIDS ||
     count_bad (if_count (p2_ifaces p)) MAX_IFACE_PREFIXES ||
     count_bad (p2_mask_count p) VPNHIDE_LEGACY_TARGET_UIDS
  then Err EINVAL
  else if existsb legacy_target_bad (take (Z.to_nat (p2_port_count p)) (p2_ports p))
  then Err EINVAL
  else if negb alloc_v3 then Err ENOMEM
  else kp_apply_policy_v3 alloc_snapshot alloc_stats (legacy_payload_v3 p) expected_generation k.
End apply.

(** ** ioctls *)

Record kp_end := mk_kp_end {
  ke_error : option errno;
  ke_out : ioctl_out;
  ke_device : kp_device
}.

Definition kp_fail (e : errno) (k : kp_device) : kp_end := mk_kp_end (Some e) OutNone k.
Definition kp_done (out : ioctl_out) (k : kp_device) : kp_end := mk_kp_end None out k.
Definition kp_commit (r : result kp_device) (k : kp_device) : kp_end :=
  match r with Ok k' => kp_done OutNone k' | Err e => kp_fail e k end.

(** A command whose code is the module's. *)
Definition shared (f : device → ioctl_end) (k : kp_device) : kp_end :=
  let r := f (kp_dev k) in mk_kp_end (ie_error r) (ie_out r) (kp_set (ie_device r) k).

Section ioctl.
Context {KS : KSort} (HZ : Z).

(** [VH_SET_POLICY] *)
Definition kp_ioctl_set_policy (al : allocs) (request : option vpnhide_policy_ioctl)
    (mem : bytes) (k : kp_device) : kp_end :=
  match request with
  | None => kp_fail EFAULT k
  | Some rq =>
      if rq_payload_ptr rq =? 0 then kp_fail EINVAL k
      else
        let v2 := rq_abi_version rq =? VPNHIDE_POLICY_ABI_VERSION_V2 in
        let v3 := rq_abi_version rq =? VPNHIDE_POLICY_ABI_VERSION_V3 in
        let v4 := rq_abi_version rq =? VPNHIDE_POLICY_ABI_VERSION_V4 in
        if negb (v2 || v3 || v4) then kp_fail EPROTONOSUPPORT k
        else if (v2 && negb (rq_payload_size rq =? sizeof_payload_v2)) ||
                (v3 && size_bad (rq_payload_size rq) (Z.of_nat sizeof_payload_v3)) ||
                (v4 && size_bad (rq_payload_size rq) (Z.of_nat sizeof_payload_v4))
        then kp_fail EINVAL k
        else if negb (al_payload al) then kp_fail ENOMEM k
        else
          match copy_from_user mem (rq_payload_size rq) with
          | None => kp_fail EFAULT k
          | Some b =>
              let expected := rq_expected_generation rq in
              if v4 then kp_commit (kp_apply_policy_v4 (al_v3 al) (al_snapshot al) (al_stats al) b
                                      expected k) k
              else if v3 then kp_commit (kp_apply_policy_v3 (al_snapshot al) (al_stats al) b
                                           expected k) k
              else kp_commit (kp_apply_policy (al_v3 al) (al_snapshot al) (al_stats al)
                                (decode_payload_v2 b) expected k) k
          end
  end.

(** [VH_SET_VPN_IFINDEXES]: the request is on the stack. *)
Definition kp_ioctl_set_vpn_ifindexes (alloc_vpns alloc_cache : bool)
    (idata : option vpnhide_vpn_ifindexes) (k : kp_device) : kp_end :=
  match idata with
  | None => kp_fail EFAULT k
  | Some idata =>
      if (vi_count idata <? 0) || (MAX_ACTIVE_VPNS <? vi_count idata) then kp_fail EINVAL k
      else if negb alloc_vpns then kp_fail ENOMEM k
      else
        let d := set_vpns (kp_dev k) (Some (kp_active_vpns idata))
                   (kp_rebuild_name_cache alloc_cache idata (dv_names (kp_dev k))) in
        kp_done OutNone (kp_set (bump_generation d) k)
  end.

(** [VH_SET_SPOOF_IP]: [update_spoof_ip] tests for fe80::/10 itself. *)
Definition kp_ioctl_set_spoof_ip (alloc : bool) (sip : option vpnhide_spoof_ip) : kp_device → kp_end :=
  shared (ioctl_set_spoof_ip is_fe80 alloc sip).

(** [VH_GET_IFACE_PREFIXES]: the reply is on the stack. *)
Definition kp_ioctl_get_iface_prefixes (copy_out : bool) (k : kp_device) : kp_end :=
  if negb copy_out then kp_fail EFAULT k
  else kp_done (OutIfaces (iface_prefixes <$> dv_policy (kp_dev k))) k.

(** [VH_GET_STATS_SESSION] has no case. *)
Definition kp_handle_vpnhide_ioctl (capable copy_out : bool) (now : Z) (cmd : vh_ioctl) (k : kp_device)
    : kp_end :=
  if negb capable then kp_fail EPERM k
  else
    match cmd with
    | VH_SET_POLICY al request mem => kp_ioctl_set_policy al request mem k
    | VH_GET_TARGETS alloc => shared (ioctl_get_targets alloc copy_out false) k
    | VH_SET_VPN_IFINDEXES _ b c idata => kp_ioctl_set_vpn_ifindexes b c idata k
    | VH_SET_SPOOF_IP alloc sip => kp_ioctl_set_spoof_ip alloc sip k
    | VH_SET_COVER_IFACE i => shared (ioctl_set_cover_iface i) k
    | VH_GET_JAVA_HOOK_MASK =>
        shared (ioctl_get_word copy_out (vpnhide_java_hooks_mask (dv_policy (kp_dev k)))) k
    | VH_GET_APP_HOOK_MASKS alloc => shared (ioctl_get_app_hook_masks alloc copy_out) k
    | VH_GET_STATS alloc first request => shared (ioctl_get_stats alloc copy_out first request) k
    | VH_GET_STATS_V2 a b uids ports request =>
        shared (ioctl_get_stats_v2 HZ a b copy_out now uids ports request) k
    | VH_CLEAR_STATS alloc => shared (ioctl_clear_stats alloc) k
    | VH_GET_ACTIVE_HOOKS =>
        shared (ioctl_get_word copy_out (vpnhide_active_hooks_mask (dv_policy (kp_dev k)))) k
    | VH_GET_LSPOSED_TARGETS alloc => shared (ioctl_get_targets alloc copy_out true) k
    | VH_GET_IFACE_PREFIXES _ => kp_ioctl_get_iface_prefixes copy_out k
    | VH_GET_JAVA_STATS => shared (ioctl_get_text copy_out (dv_java_stats (kp_dev k))) k
    | VH_GET_HOOK_STATUS => shared (ioctl_get_text copy_out (dv_java_status (kp_dev k))) k
    | VH_GET_VERSION => shared (ioctl_get_word copy_out VPNHIDE_VERSION_CODE) k
    | VH_SET_PORT_EVENTFD fd => shared (ioctl_set_port_eventfd fd) k
    | VH_SET_OWNED_PORTS a b update entries => shared (ioctl_set_owned_ports HZ a b now update entries) k
    | VH_GET_STATS_SESSION _ | VH_UNKNOWN => kp_fail ENOTTY k
    end.
End ioctl.

(** ** The text interface *)

Section write.
Context (scan3 : bytes → option (Z * bytes * Z)) (scan2 : bytes → option (Z * Z)).

Definition kp_cover_name (val old : bytes) : bytes :=
  if bool_decide (val = []) || strcmp_eq val (lit "none") then <[0%nat := x00]> old
  else strscpy_over val old.

(** The lines of a report are read as in the module, with
    [vpnhide_record_java_stat]. *)
Definition kp_write_command (kbuf : bytes) (d : device) : device :=
  if strncmp_eq 6 kbuf (lit "stats:") then
    let buf := strncpy 4095 (drop 6 kbuf) ++ [x00] in
    let '(buf, st) := java_lines scan3 scan2 4096 buf 0 (dv_stats d) in
    set_stats (set_java d buf (dv_java_status d) (dv_java_clear_generation d)) st (dv_port_stats d)
  else if strncmp_eq 7 kbuf (lit "status:") then
    set_java d (dv_java_stats d) (strncpy 255 (drop 7 kbuf) ++ [x00]) (dv_java_clear_generation d)
  else if strcmp_eq kbuf (lit "clear_stats") then
    bump_generation (set_java d (<[0%nat := x00]> (dv_java_stats d)) (dv_java_status d)
                       (atomic_inc (dv_java_clear_generation d)))
  else if strncmp_eq 12 kbuf (lit "cover_iface:") then
    let val := chomp (cstr (drop 12 kbuf)) in
    bump_generation (set_cover d (dv_cover_ifindex d) (kp_cover_name val (dv_cover_ifname d)))
  else d.

Definition kp_dev_write (alloc : bool) (count : Z) (buf : option bytes) (k : kp_device)
    : result (Z * kp_device) :=
  if 4096 <? count then Err EINVAL
  else if negb alloc then Err ENOMEM
  else match buf with
       | None => Err EFAULT
       | Some b => Ok (count, kp_set (kp_write_command (take (Z.to_nat count) b ++ [x00]) (kp_dev k)) k)
       end.
End write.

(** ** Start and end *)

Definition kp_without_ports (k : kp_device) : kp_device :=
  kp_set (set_stats (kp_dev k) (dv_stats (kp_dev k)) (mk_port_stats None 0)) k.

(** [misc_ret]: the answer of [misc_register].  The result, whether the control
    device exists, and the state. *)
Definition kp_vpnhide_init (alloc : bool) (misc_ret : Z) : Z * bool * kp_device :=
  if negb alloc then (-12, false, kp_without_ports kp_initial)
  else if negb (misc_ret =? 0) then (misc_ret, false, kp_without_ports kp_initial)
  else (0, true, kp_initial).

Definition kp_vpnhide_exit (k : kp_device) : kp_device :=
  let d := kp_dev k in
  let d := set_vpns d None None in
  let d := set_spoof d None in
  let d := set_policy d None in
  let d := set_ports d None (dv_pending d) in
  let d := set_eventfd d None in
  let d := set_stats d (mk_stats [] (kmod_stats_capacity (dv_stats d)) (kmod_stats_sequence (dv_stats d)))
             (mk_port_stats None (pst_dropped (dv_port_stats d))) in
  mk_kp d (kp_udp_rates_prune None (kp_rates k)).

(** ** UIDs are matched alike *)

Lemma kp_search_agrees uids uid fuel lo hi :
  0 <= lo → hi < 2 ^ 30 → hi < Z.of_nat (length uids) → lo <= hi + 1 → hi - lo + 1 < Z.of_nat fuel →
  kp_uid_search uids uid fuel lo hi =
  match bsearch_loop id uids uid fuel lo hi with BsFound _ => Some true | BsMissing _ => Some false | BsFault => None end.
Proof.
  revert lo hi. induction fuel as [|fuel IH]; intros lo hi H0 Hhi Hl Hle Hf; [done|]. cbn [kp_uid_search bsearch_loop].
  destruct (Z.leb_spec lo hi) as [Hlh|]; [|done].
  assert (Z.shiftr (s32 (lo + hi)) 1 = lo + Z.shiftr (hi - lo) 1) as ->.
  { rewrite s32_small by lia. rewrite !Z.shiftr_div_pow2 by lia. change (2 ^ 1) with 2.
    replace (lo + hi) with ((hi - lo) + lo * 2) by lia. rewrite Z.div_add by lia. lia. }
  pose proof (mid_bounds lo hi Hlh) as Hm. set (mid := lo + Z.shiftr (hi - lo) 1) in *. clearbody mid.
  rewrite (proj2 (Z.leb_le 0 mid)) by lia.
  destruct (uids !! Z.to_nat mid) as [u|]; [|done]. cbn [mbind option_bind]. change (id u) with u.
  destruct (u =? uid); [done|]. destruct (u <? uid); apply IH; lia.
Qed.

(** The sum does not overflow for a set that fits into a policy, and the answer
    is then the module's. *)
Lemma kp_uid_matches_agrees uids mode uid :
  Z.of_nat (length uids) < 2 ^ 30 →
  kp_uid_matches_mode uids mode uid = Some (vpnhide_uid_matches_mode uids mode uid).
Proof.
  intros Hl. unfold kp_uid_matches_mode, vpnhide_uid_matches_mode. destruct (_ || _); [done|].
  assert (Hs : (if (0 <? length uids)%nat
    then kp_uid_search uids uid (S (length uids)) 0 (s32 (Z.of_nat (length uids) - 1)) else Some false) =
    Some (if bs_find id uids uid is Some _ then true else false)).
  { destruct uids as [|u uids]; [done|]. set (us := u :: uids) in *. change (0 <? length us)%nat with true. cbv iota.
    assert (0 < length us)%nat by (unfold us; simpl; lia).
    rewrite s32_small, kp_search_agrees by lia. unfold bs_find.
    pose proof (bsearch_no_fault id us uid ltac:(lia)) as Hnf.
    assert (Hb : bsearch id us uid = bsearch_loop id us uid (S (length us)) 0 (Z.of_nat (length us) - 1)).
    { unfold bsearch. by rewrite s32_small by lia. }
    rewrite <- Hb. destruct (bsearch id us uid) as [i|lo|] eqn:E; [|done|done].
    pose proof (bsearch_found id us uid i E) as [x ->]. done. }
  by rewrite Hs.
Qed.

(** ** Payloads are judged alike *)

Lemma kp_section_agrees sec size cursor total :
  fits 32 (sec_count sec) → 0 < size <= 64 → 0 <= cursor <= total → total < 2 ^ 63 →
  kp_policy_section_validate sec size cursor total = policy_section_validate sec size cursor total.
Proof.
  unfold fits. intros Hc Hs Hcur Ht. unfold kp_policy_section_validate, policy_section_validate, check_mul, check_add.
  destruct (Z.eqb_spec (sec_offset sec) cursor) as [He|He]; [|done]. cbn [negb orb].
  assert (Hb : 0 <= sec_count sec * size <= 2 ^ 38) by nia. unfold SIZE_MAX.
  replace (nonzero (sec_count sec) && _) with false.
  2: { symmetry. unfold nonzero. destruct (Z.eqb_spec (sec_count sec) 0) as [|Hn]; [done|]. cbn [negb andb].
       apply Z.ltb_ge. transitivity ((2 ^ 64 - 1) / 2 ^ 32); [apply (Z.le_trans _ 64); [lia|vm_compute; discriminate]|].
       apply Z.div_le_compat_l; lia. }
  unfold u64. rewrite (wrap_small 64 (sec_count sec * size)), (wrap_small 64 (total - cursor)),
    (wrap_small 64 (cursor + sec_count sec * size)) by (unfold fits; lia).
  rewrite (proj2 (Z.leb_le (sec_count sec * size) _)) by lia.
  rewrite (proj2 (Z.leb_le (cursor + _) _)) by lia.
  destruct (Z.ltb_spec (total - cursor) (sec_count sec * size)), (Z.ltb_spec total (cursor + sec_count sec * size));
    try lia; done.
Qed.

Lemma section_cursor sec size cursor total cursor' :
  fits 32 (sec_count sec) → 0 < size → 0 <= cursor →
  policy_section_validate sec size cursor total = Ok cursor' → 0 <= cursor' <= total.
Proof. intros Hf Hs Hc (_ & -> & _ & _ & ?)%policy_section_validate_Ok. unfold fits in Hf. nia. Qed.

(** One section of the layout, checked alike by both. *)
Ltac next_section :=
  rewrite kp_section_agrees by (assumption || lia);
  destruct (policy_section_validate _ _ _ _) as [?|?] eqn:?; [cbn [mbind result_bind]|done];
  match goal with H : policy_section_validate _ _ _ _ = Ok _ |- _ =>
    apply section_cursor in H; [|assumption || lia..] end.

Lemma kp_layout_agrees p size :
  Forall section_fits (v3_sections p) → kp_policy_v3_layout p size = policy_v3_layout p size.
Proof.
  intros Hf. unfold kp_policy_v3_layout, policy_v3_layout. destruct (_ || _) eqn:Hg; [done|].
  rewrite !orb_false_iff in Hg. destruct Hg as [[[H1 H2] _] _]. apply Z.ltb_ge in H1, H2.
  assert (Hmax : size < 2 ^ 63) by (unfold VPNHIDE_POLICY_MAX_BYTES in H2; lia).
  repeat (apply Forall_cons in Hf as [[_ ?] Hf]).
  unfold sizeof_payload_v3, sizeof_u32, sizeof_port_target_v3, sizeof_port_rule_v3, sizeof_app_hook_mask_v3 in *.
  do 5 next_section. done.
Qed.

(** C15: the two kernels accept the same policies.  Whatever the bytes of a
    payload, the in-tree checks, written with a division and a subtraction,
    and the module's, written with overflow builtins, give the same snapshot or
    the same error. *)
Theorem kp_payloads_agree {KS : KSort} alloc_v3 alloc payload :
  kp_policy_snapshot_from_v3 alloc payload = policy_snapshot_from_v3 alloc payload ∧
  kp_policy_snapshot_from_v4 alloc_v3 alloc payload = policy_snapshot_from_v4 alloc_v3 alloc payload.
Proof.
  assert (Hv3 : ∀ b, kp_policy_snapshot_from_v3 alloc b = policy_snapshot_from_v3 alloc b).
  { intros b. unfold kp_policy_snapshot_from_v3, policy_snapshot_from_v3.
    by rewrite kp_layout_agrees by apply decode_sections_fit. }
  split; [apply Hv3|]. unfold kp_policy_snapshot_from_v4, policy_snapshot_from_v4. by rewrite Hv3.
Qed.

(** ** The control device behaves alike *)

(** Equal up to what a client of the control device is not told: the
    generations, the UDP buckets and what follows the NUL of the cover name. *)
Record dev_equiv (d d' : device) : Prop := {
  de_policy : dv_policy d = dv_policy d';
  de_owned : dv_owned d = dv_owned d';
  de_pending : dv_pending d = dv_pending d';
  de_stats : dv_stats d = dv_stats d';
  de_port_stats : dv_port_stats d = dv_port_stats d';
  de_spoof : dv_spoof d = dv_spoof d';
  de_vpns : dv_vpns d = dv_vpns d';
  de_names : dv_names d = dv_names d';
  de_cover_ifindex : dv_cover_ifindex d = dv_cover_ifindex d';
  de_cover_ifname : cstr (dv_cover_ifname d) = cstr (dv_cover_ifname d');
  de_java_stats : dv_java_stats d = dv_java_stats d';
  de_java_status : dv_java_status d = dv_java_status d';
  de_eventfd : dv_eventfd d = dv_eventfd d'
}.

#[export] Instance dev_equiv_equivalence : Equivalence dev_equiv.
Proof.
  split; [by constructor|intros ?? []; by constructor|intros ??? [] []; constructor; congruence].
Qed.

(** Two answers a client cannot tell apart. *)
Definition end_equiv (r r' : ioctl_end) : Prop :=
  ie_error r = ie_error r' ∧ ie_out r = ie_out r' ∧ dev_equiv (ie_device r) (ie_device r').

(** Split the devices; the fields they share become equal variables. *)
Ltac equiv_devices :=
  intros d d' H; destruct d, d', H; simpl in *; subst.

Ltac equiv_answer :=
  unfold end_equiv, fail, done_; simpl; repeat (case_match; simplify_eq/=); split_and!; try done; by constructor.

#[export] Instance get_targets_proper a c l : Proper (dev_equiv ==> end_equiv) (ioctl_get_targets a c l).
Proof. equiv_devices. unfold ioctl_get_targets. equiv_answer. Qed.

#[export] Instance set_spoof_ip_proper ll a sip : Proper (dev_equiv ==> end_equiv) (ioctl_set_spoof_ip ll a sip).
Proof. equiv_devices. unfold ioctl_set_spoof_ip. equiv_answer. Qed.

#[export] Instance set_cover_iface_proper i : Proper (dev_equiv ==> end_equiv) (ioctl_set_cover_iface i).
Proof. equiv_devices. unfold ioctl_set_cover_iface. equiv_answer. Qed.

#[export] Instance get_iface_prefixes_proper a c : Proper (dev_equiv ==> end_equiv) (ioctl_get_iface_prefixes a c).
Proof. equiv_devices. unfold ioctl_get_iface_prefixes. equiv_answer. Qed.

#[export] Instance set_vpn_ifindexes_proper a b c idata :
  Proper (dev_equiv ==> end_equiv) (ioctl_set_vpn_ifindexes a b c idata).
Proof. equiv_devices. unfold ioctl_set_vpn_ifindexes. equiv_answer. Qed.

#[export] Instance get_app_hook_masks_proper a c : Proper (dev_equiv ==> end_equiv) (ioctl_get_app_hook_masks a c).
Proof. equiv_devices. unfold ioctl_get_app_hook_masks. equiv_answer. Qed.

#[export] Instance get_word_proper c w : Proper (dev_equiv ==> end_equiv) (ioctl_get_word c w).
Proof. equiv_devices. unfold ioctl_get_word. equiv_answer. Qed.

#[export] Instance get_stats_proper a c f r : Proper (dev_equiv ==> end_equiv) (ioctl_get_stats a c f r).
Proof. equiv_devices. unfold ioctl_get_stats. equiv_answer. Qed.

#[export] Instance get_stats_v2_proper HZ a b c now fu fp r :
  Proper (dev_equiv ==> end_equiv) (ioctl_get_stats_v2 HZ a b c now fu fp r).
Proof. equiv_devices. unfold ioctl_get_stats_v2. equiv_answer. Qed.

#[export] Instance clear_stats_proper a : Proper (dev_equiv ==> end_equiv) (ioctl_clear_stats a).
Proof. equiv_devices. unfold ioctl_clear_stats. equiv_answer. Qed.

#[export] Instance get_text_proper c t : Proper (dev_equiv ==> end_equiv) (ioctl_get_text c t).
Proof. equiv_devices. unfold ioctl_get_text. equiv_answer. Qed.

#[export] Instance set_port_eventfd_proper fd : Proper (dev_equiv ==> end_equiv) (ioctl_set_port_eventfd fd).
Proof. equiv_devices. unfold ioctl_set_port_eventfd. equiv_answer. Qed.

#[export] Instance set_owned_ports_proper HZ a b now u e :
  Proper (dev_equiv ==> end_equiv) (ioctl_set_owned_ports HZ a b now u e).
Proof. equiv_devices. unfold ioctl_set_owned_ports. equiv_answer. Qed.

(** An in-tree answer and the module's. *)
Definition alike (r : kp_end) (r' : ioctl_end) : Prop :=
  ke_error r = ie_error r' ∧ ke_out r = ie_out r' ∧ dev_equiv (kp_dev (ke_device r)) (ie_device r').

Lemma shared_alike f k d :
  Proper (dev_equiv ==> end_equiv) f → dev_equiv (kp_dev k) d → alike (shared f k) (f d).
Proof. intros Hf H. exact (Hf _ _ H). Qed.

Lemma kp_publish_alike alloc s k d :
  dev_equiv (kp_dev k) d →
  match kp_publish_policy_snapshot alloc s 0 k, publish_policy_snapshot alloc s 0 d with
  | Ok k', Ok d' => dev_equiv (kp_dev k') d'
  | Err e, Err e' => e = e'
  | _, _ => False
  end.
Proof.
  intros H. unfold kp_publish_policy_snapshot, publish_policy_snapshot, kp_publish_locked, publish_locked. simpl.
  unfold intercept_stats_reconcile. rewrite (de_stats _ _ H).
  destruct (kmod_stats_reconcile alloc s (dv_stats d)) as [st|e]; simpl; [|done].
  destruct H. constructor; simpl; congruence || done.
Qed.

Lemma kp_commit_alike alloc (parsed : result vpnhide_policy_snapshot) k d :
  dev_equiv (kp_dev k) d →
  alike (kp_commit (s ← parsed; kp_publish_policy_snapshot alloc s 0 k) k)
        (commit (s ← parsed; publish_policy_snapshot alloc s 0 d) d).
Proof.
  intros H. destruct parsed as [s|e]; [|done]. cbn [mbind result_bind].
  pose proof (kp_publish_alike alloc s k d H) as Hp.
  destruct (kp_publish_policy_snapshot _ _ _ _), (publish_policy_snapshot _ _ _ _); try done.
  unfold kp_commit, commit, alike, kp_fail, fail. simpl. by subst.
Qed.

Lemma kp_set_policy_alike {KS : KSort} al request mem k d :
  dev_equiv (kp_dev k) d → (∀ rq, request = Some rq → rq_expected_generation rq = 0) →
  alike (kp_ioctl_set_policy al request mem k) (ioctl_set_policy al request mem d).
Proof.
  intros H Hg. destruct request as [rq|]; [|done]. specialize (Hg rq eq_refl).
  assert (Hv3 : ∀ a b, alike
    (kp_commit (kp_apply_policy_v3 (al_snapshot al) a b 0 k) k)
    (commit (vpnhide_apply_policy_v3 (al_snapshot al) a b 0 d) d)).
  { intros a b. unfold kp_apply_policy_v3, vpnhide_apply_policy_v3.
    rewrite (proj1 (kp_payloads_agree true (al_snapshot al) b)). by apply kp_commit_alike. }
  unfold kp_ioctl_set_policy, ioctl_set_policy. rewrite Hg.
  repeat (case_match; [done|]). case_match; [|done]. cbv zeta. case_match; [|case_match; [apply Hv3|]].
  - unfold kp_apply_policy_v4, vpnhide_apply_policy_v4. rewrite (proj2 (kp_payloads_agree _ _ _)).
    by apply kp_commit_alike.
  - unfold kp_apply_policy, vpnhide_apply_policy. do 3 (case_match; [done|]). apply Hv3.
Qed.

(** ** Names as the daemon sends them *)

Lemma strscpy_zeroed_cached v : strscpy_zeroed (av_name v) = cached_name v.
Proof.
  unfold strscpy_zeroed, cached_name, strncpy.
  set (s := take 15 (cstr (av_name v))). assert (length s <= 15)%nat by (unfold s; rewrite length_take; lia).
  replace (16 - length s)%nat with (15 - length s + 1)%nat by lia.
  by rewrite replicate_add, app_assoc.
Qed.

Lemma cached_name_idemp i v : cached_name (mk_active_vpn i (cached_name v)) = cached_name v.
Proof.
  unfold cached_name at 1, strncpy. cbn [av_name]. rewrite cstr_cached_name, take_take, Nat.min_id. done.
Qed.

(** On a request in normal form the tables are the module's. *)
Lemma kp_name_cache_normal alloc idata old :
  kp_active_vpns idata = idata → 0 <= vi_count idata →
  kp_rebuild_name_cache alloc idata old = vh_rebuild_name_cache alloc idata old.
Proof.
  intros Hn H0. unfold kp_rebuild_name_cache, vh_rebuild_name_cache. destruct (negb alloc); [done|]. cbv zeta.
  assert (Hc : (if vi_count idata <? MAX_ACTIVE_VPNS then vi_count idata else MAX_ACTIVE_VPNS) =
    Z.min (vi_count idata) MAX_ACTIVE_VPNS) by (destruct (Z.ltb_spec (vi_count idata) MAX_ACTIVE_VPNS); lia).
  rewrite Hc. set (vpns := take _ (vi_vpns idata)).
  assert (Hv : Forall (λ v, cached_name v = av_name v) vpns).
  { apply Forall_forall. intros v Hin. unfold vpns in Hin. rewrite <- Hn in Hin. unfold kp_active_vpns in Hin.
    cbn [vi_vpns vi_count] in Hin. rewrite Z.min_l in Hin by lia.
    apply elem_of_take in Hin as (i & Hi & Hlt).
    set (head := (λ v, _) <$> take _ (vi_vpns idata)) in *.
    destruct (decide (i < length head)%nat) as [Hl|Hl].
    - rewrite lookup_app_l in Hi by done. apply list_lookup_fmap_Some in Hi as (w & -> & _). simpl.
      rewrite strscpy_zeroed_cached. apply cached_name_idemp.
    - rewrite lookup_app_r in Hi by lia. apply lookup_replicate in Hi as [-> _]. reflexivity. }
  f_equal. f_equal.
  - rewrite <- list_fmap_compose. apply list_fmap_ext. intros i v Hi. simpl.
    by rewrite (Forall_lookup_1 _ _ _ _ Hv Hi).
  - apply list_fmap_ext. intros. apply strscpy_zeroed_cached.
Qed.

Lemma cstr_insert_nul old : cstr (<[0%nat := x00]> old) = [].
Proof. by destruct old. Qed.

Lemma cover_names_alike val old old' :
  cstr (kp_cover_name val old) = cstr (cover_name val old').
Proof.
  unfold kp_cover_name, cover_name. destruct (_ || _); [by rewrite !cstr_insert_nul|].
  pose proof (cstr_cached_name (mk_active_vpn 0 val)) as Hc. unfold cached_name in Hc. simpl in Hc. rewrite Hc.
  unfold strscpy_over. apply cstr_app_nul, Forall_take, cstr_no_nul.
Qed.

(** ** Clients *)

(** What a client of the control device does: a command, or a line of text. *)
Inductive client_op :=
  | Ioctl (capable copy_out : bool) (now : Z) (cmd : vh_ioctl)
  | Text (alloc : bool) (count : Z) (buf : option bytes).

(** What it gets back. *)
Definition client_reply : Type := (option errno * ioctl_out) + result Z.

Section client.
Context {KS : KSort} (HZ : Z).
Context (scan3 : bytes → option (Z * bytes * Z)) (scan2 : bytes → option (Z * Z)).

Definition module_op (op : client_op) (d : device) : client_reply * device :=
  match op with
  | Ioctl capable copy_out now cmd =>
      let r := handle_vpnhide_ioctl HZ is_fe80 capable copy_out now cmd d in
      (inl (ie_error r, ie_out r), ie_device r)
  | Text alloc count buf =>
      match vpnhide_dev_write scan3 scan2 alloc count buf d with
      | Ok (n, d') => (inr (Ok n), d')
      | Err e => (inr (Err e), d)
      end
  end.

Definition kp_op (op : client_op) (k : kp_device) : client_reply * kp_device :=
  match op with
  | Ioctl capable copy_out now cmd =>
      let r := kp_handle_vpnhide_ioctl HZ capable copy_out now cmd k in
      (inl (ke_error r, ke_out r), ke_device r)
  | Text alloc count buf =>
      match kp_dev_write scan3 scan2 alloc count buf k with
      | Ok (n, k') => (inr (Ok n), k')
      | Err e => (inr (Err e), k)
      end
  end.

(** What the control tool and the daemon send, the daemon's session query apart:
    no expected generation, a zeroed VPN table with terminated names; the
    allocations the in-tree code does not make succeed in the module. *)
Definition portable (cmd : vh_ioctl) : Prop :=
  match cmd with
  | VH_SET_POLICY _ request _ => ∀ rq, request = Some rq → rq_expected_generation rq = 0
  | VH_SET_VPN_IFINDEXES alloc_data _ _ idata =>
      alloc_data = true ∧ ∀ t, idata = Some t → kp_active_vpns t = t
  | VH_GET_IFACE_PREFIXES alloc => alloc = true
  | VH_GET_STATS_SESSION _ | VH_UNKNOWN => False
  | _ => True
  end.

Definition portable_op (op : client_op) : Prop :=
  match op with Ioctl _ _ _ cmd => portable cmd | Text _ _ _ => True end.

(** The replies to a sequence of operations. *)
Fixpoint replies {S} (step : client_op → S → client_reply * S) (ops : list client_op) (s : S)
    : list client_reply :=
  match ops with
  | [] => []
  | op :: ops => let '(r, s') := step op s in r :: replies step ops s'
  end.

Lemma kp_set_vpns_alike b c idata k d :
  dev_equiv (kp_dev k) d → (∀ t, idata = Some t → kp_active_vpns t = t) →
  alike (kp_ioctl_set_vpn_ifindexes b c idata k) (ioctl_set_vpn_ifindexes true b c idata d).
Proof.
  intros H Hn. unfold kp_ioctl_set_vpn_ifindexes, ioctl_set_vpn_ifindexes. cbn [negb].
  destruct idata as [t|]; [|done]. specialize (Hn t eq_refl).
  destruct (_ || _) eqn:Hb; [done|]. destruct b; [|done]. cbn [negb].
  apply orb_false_iff in Hb as [Hb _]. apply Z.ltb_ge in Hb.
  split; [done|]. split; [done|]. unfold kp_done, done_. simpl.
  rewrite Hn, kp_name_cache_normal, (de_names _ _ H) by done. destruct H. by constructor.
Qed.

Lemma kp_ioctl_alike capable copy_out now cmd k d :
  dev_equiv (kp_dev k) d → portable cmd →
  alike (kp_handle_vpnhide_ioctl HZ capable copy_out now cmd k)
        (handle_vpnhide_ioctl HZ is_fe80 capable copy_out now cmd d).
Proof.
  intros H Hp. unfold kp_handle_vpnhide_ioctl, handle_vpnhide_ioctl. destruct capable; [|done]. cbn [negb].
  destruct cmd; simpl in Hp; try done;
    rewrite ?(de_policy _ _ H), ?(de_java_stats _ _ H), ?(de_java_status _ _ H);
    try (apply shared_alike; [apply _|done]).
  - by apply kp_set_policy_alike.
  - subst. unfold kp_ioctl_get_iface_prefixes, ioctl_get_iface_prefixes. destruct copy_out; [|done].
    split; [done|]. simpl. by rewrite (de_policy _ _ H).
  - destruct Hp as [-> Hp]. by apply kp_set_vpns_alike.
Qed.

Lemma kp_write_alike kbuf d d' :
  dev_equiv d d' → dev_equiv (kp_write_command scan3 scan2 kbuf d) (write_command scan3 scan2 kbuf d').
Proof.
  intros H. unfold kp_write_command, write_command.
  rewrite (de_stats _ _ H), (de_java_stats _ _ H). repeat case_match; try done;
    destruct H; constructor; simpl; try done. apply cover_names_alike.
Qed.

Lemma kp_op_alike op k d :
  dev_equiv (kp_dev k) d → portable_op op →
  (kp_op op k).1 = (module_op op d).1 ∧ dev_equiv (kp_dev (kp_op op k).2) (module_op op d).2.
Proof.
  intros H Hp. destruct op as [capable copy_out now cmd|alloc count buf]; simpl.
  - destruct (kp_ioctl_alike capable copy_out now cmd k d H Hp) as (-> & -> & ?). done.
  - unfold kp_dev_write, vpnhide_dev_write. repeat case_match; simplify_eq/=; try done.
    split; [done|]. by apply kp_write_alike.
Qed.
End client.

(** Any sequence of portable ioctls and text writes gets the same replies from the
    in-tree variant as from the module, from the start on.  What the variant writes
    differently are the policy, the VPN table, the prefixes and the text commands;
    the other commands share the module's functions.  Reads are not among the
    operations: the two generations differ. *)
Theorem kp_replies_agree {KS : KSort} HZ scan3 scan2 ops :
  Forall portable_op ops →
  replies (kp_op HZ scan3 scan2) ops kp_initial = replies (module_op HZ scan3 scan2) ops initial_device.
Proof.
  intros Hops. assert (H : dev_equiv (kp_dev kp_initial) initial_device) by by constructor.
  revert H. generalize kp_initial initial_device. induction Hops as [|op ops Hop _ IH]; intros k d H; [done|].
  simpl. destruct (kp_op_alike HZ scan3 scan2 op k d H Hop) as [Hr Hd].
  destruct (kp_op _ _ _ op k) as [r k'], (module_op _ _ _ op d) as [r' d']. simpl in *.
  rewrite Hr. f_equal. by apply IH.
Qed.

(** The daemon's table is portable. *)
Lemma vpn_table_portable vpns :
  (length vpns <= MAX_VPNS)%nat → Forall (λ v, cached_name v = av_name v) vpns →
  kp_active_vpns (vpn_table vpns) = vpn_table vpns.
Proof.
  intros Hl Hn. assert (Hm : Z.of_nat (length vpns) <= MAX_ACTIVE_VPNS) by (unfold MAX_VPNS, MAX_ACTIVE_VPNS in *; lia).
  unfold kp_active_vpns, vpn_table. cbn [vi_count vi_vpns].
  rewrite Z.min_l, Nat2Z.id, take_app_length by done.
  assert (E : (λ v, mk_active_vpn (av_ifindex v) (strscpy_zeroed (av_name v))) <$> vpns = vpns).
  { rewrite <- (list_fmap_id vpns) at 2. apply list_fmap_ext. intros i v Hi.
    rewrite strscpy_zeroed_cached, (Forall_lookup_1 _ _ _ _ Hn Hi). by destruct v. }
  rewrite E. done.
Qed.

(** A session: a policy, the VPN table, the cover name and a query. *)
Definition example_session : list client_op := [
  Ioctl true true 0 (VH_SET_POLICY (mk_allocs true true true true) (Some (mk_policy_ioctl 4 644 4096 0))
                       (payload_of example_snapshot));
  Ioctl true true 0 (VH_SET_VPN_IFINDEXES true true true
                       (Some (vpn_table [mk_active_vpn 30 (name_field (lit "tun0"))])));
  Text true 18 (Some (lit "cover_iface:wlan0" ++ [newline]));
  Ioctl true true 0 (VH_GET_TARGETS true)].

Lemma kp_replies_agree_witness :
  replies (kp_op (KS := merge_ksort) 250 (λ _, None) (λ _, None)) example_session kp_initial =
  replies (module_op (KS := merge_ksort) 250 (λ _, None) (λ _, None)) example_session initial_device ∧
  last (replies (kp_op (KS := merge_ksort) 250 (λ _, None) (λ _, None)) example_session kp_initial) =
    Some (inl (None, OutUids [10123; 10200])).
Proof.
  split; [|vm_compute; reflexivity].
  apply (kp_replies_agree (KS := merge_ksort) 250 (λ _, None) (λ _, None) example_session).
  apply Forall_cons. split; [intros rq [= <-]; reflexivity|].
  apply Forall_cons. split; [split; [reflexivity|intros t [= <-]; vm_compute; reflexivity]|].
  repeat constructor.
Defined.

(** A start that fails says so and leaves no counters behind; otherwise the
    control device exists and its state is the initial one. *)
Lemma kp_init_outcome alloc misc_ret :
  let '(ret, misc, k) := kp_vpnhide_init alloc misc_ret in
  (ret = 0 ↔ misc = true) ∧
  (misc = true → k = kp_initial) ∧ (misc = false → pst_table (dv_port_stats (kp_dev k)) = None).
Proof.
  unfold kp_vpnhide_init. destruct alloc; cbn [negb]; [|split_and!; done].
  destruct (Z.eqb_spec misc_ret 0); cbn [negb]; split_and!; done.
Qed.
