(* ===== verification/KSocket.v ===== *)
(** * The in-tree variant: socket hooks

    [kpatch/security/vpnhide/hook_socket.c]: functions the patched network
    stack calls before or after its own handlers.  Where the module has to work
    on the caller's memory from outside, these see the socket itself: a
    [setsockopt] is refused or answered before the kernel's handler, a result
    is overwritten after it. *)
From Stdlib Require Import Strings.Byte ZArith Lia.
From stdpp Require Import base gmap numbers list.
From S2P Require Import Prelude Abi Snapshot PolicyQuery UserMem OwnedPorts Stats PortStats UdpRate Device SocketHooks SockOpt Names PktInfo KCore.

#[local] Open Scope Z_scope.

(** [BIT(31)] of [sk_mark]: set on sockets that probe the path. *)
Definition VH_SK_PROBE_MARK : Z := BIT 31.
Definition SOL_UDP : Z := 17.
Definition SOL_TCP : Z := 6.

(** The fields of a socket the hooks read and write. *)
Record kp_sock := mk_kp_sock {
  ks_sock : sock;
  ks_protocol : Z;
  ks_mark : Z;
  ks_pmtudisc : Z;
  ks_pmtudisc6 : Z;
  ks_gso_size : Z;
  ks_bound_dev_if : Z
}.

Definition set_mark (v : Z) (s : kp_sock) : kp_sock :=
  mk_kp_sock (ks_sock s) (ks_protocol s) v (ks_pmtudisc s) (ks_pmtudisc6 s) (ks_gso_size s) (ks_bound_dev_if s).
Definition set_pmtudisc (v : Z) (s : kp_sock) : kp_sock :=
  mk_kp_sock (ks_sock s) (ks_protocol s) (ks_mark s) v (ks_pmtudisc6 s) (ks_gso_size s) (ks_bound_dev_if s).
Definition set_pmtudisc6 (v : Z) (s : kp_sock) : kp_sock :=
  mk_kp_sock (ks_sock s) (ks_protocol s) (ks_mark s) (ks_pmtudisc s) v (ks_gso_size s) (ks_bound_dev_if s).
Definition set_gso_size (v : Z) (s : kp_sock) : kp_sock :=
  mk_kp_sock (ks_sock s) (ks_protocol s) (ks_mark s) (ks_pmtudisc s) (ks_pmtudisc6 s) v (ks_bound_dev_if s).

Definition probe_marked (s : kp_sock) : kp_sock := set_mark (Z.lor (ks_mark s) VH_SK_PROBE_MARK) s.

(** ** setsockopt *)

Section setsockopt.
Context (d : device) (uid : Z).

(** What the hook returns (0: the kernel's handler runs; 1: done; negative: the
    error of the call), the socket and the counters. *)
Definition sockopt_end : Type := Z * kp_sock * stats_state.

Definition counted (st : stats_state) : stats_state := kp_record_hook st uid HOOK_SETSOCKOPT.

Definition kp_set_bindtodevice (optval optlen : Z) (m : umem) (s : kp_sock) (st : stats_state) : sockopt_end :=
  if optlen =? 0 then (0, s, st)
  else
    let n := Z.min optlen (IFNAMSIZ - 1) in
    match copy_in m optval (Z.to_nat n) with
    | None => (0, s, st)
    | Some bs =>
        let devname := bs ++ replicate (Z.to_nat (IFNAMSIZ - n)) x00 in
        if negb (bool_decide (head devname = Some x00)) && kp_is_active_vpn_ifname (dv_vpns d) devname
        then (NEG_ENODEV, s, counted st) else (0, s, st)
    end.

Definition kp_set_bindtoifindex (optval optlen : Z) (m : umem) (s : kp_sock) (st : stats_state) : sockopt_end :=
  if negb (optlen =? sizeof_int) then (0, s, st)
  else
    match get_int m optval with
    | None => (0, s, st)
    | Some ifindex =>
        if negb (ifindex =? 0) && is_active_vpn_ifindex (dv_vpns d) (u32 ifindex)
        then (NEG_ENODEV, s, counted st) else (0, s, st)
    end.

(** The mark is cleared here; the handler that runs next sets the value. *)
Definition kp_set_mark (s : kp_sock) (st : stats_state) : sockopt_end :=
  let probe_bit := Z.land (ks_mark s) VH_SK_PROBE_MARK in
  if negb (ks_mark s =? probe_bit) then (0, set_mark probe_bit s, counted st) else (0, s, st).

Definition vpnhide_setsockopt_sock (so : option kp_sock) (level optname optval optlen : Z) (m : umem)
    (st : stats_state) : Z * option kp_sock * stats_state :=
  match so with
  | None => (0, None, st)
  | Some s =>
      let '(ret, s, st) :=
        if negb (is_hook_active (dv_policy d) HOOK_SETSOCKOPT uid) then (0, s, st)
        else if negb (is_target d uid) then (0, s, st)
        else if level =? SOL_SOCKET then
          if optname =? SO_BINDTODEVICE then kp_set_bindtodevice optval optlen m s st
          else if optname =? SO_BINDTOIFINDEX then kp_set_bindtoifindex optval optlen m s st
          else if optname =? SO_MARK then kp_set_mark s st
          else (0, s, st)  (* SO_TIMESTAMPING: the flags are computed and dropped *)
        else if level =? SOL_IP then
          if optname =? IP_MTU_DISCOVER then
            if negb (sk_family (ks_sock s) =? AF_INET) || negb (optlen =? sizeof_int) then (0, s, st)
            else (1, probe_marked (set_pmtudisc IP_PMTUDISC_DONT s), counted st)
          else (0, s, st)
        else if level =? SOL_IPV6 then
          if optname =? IPV6_MTU_DISCOVER then
            if negb (sk_family (ks_sock s) =? AF_INET6) || negb (optlen =? sizeof_int) then (0, s, st)
            else (1, probe_marked (set_pmtudisc6 IP_PMTUDISC_DONT s), counted st)
          else (0, s, st)
        else if level =? SOL_UDP then
          if optname =? UDP_SEGMENT then
            if negb (ks_protocol s =? IPPROTO_UDP) || negb (sk_type (ks_sock s) =? SOCK_DGRAM) ||
               negb (optlen =? sizeof_int) then (0, s, st)
            else (1, probe_marked (set_gso_size 0 s), counted st)
          else (0, s, st)
        else (0, s, st) in
      (ret, Some s, st)
  end.

(** The wrapper: [Some r] when the call ends here with [r]. *)
Definition vpnhide_setsockopt (file : option (option kp_sock)) (level optname optval optlen : Z) (m : umem)
    (st : stats_state) : option Z * option kp_sock * stats_state :=
  match file with
  | None | Some None => (None, None, st)
  | Some (Some s) =>
      let '(r, s, st) := vpnhide_setsockopt_sock (Some s) level optname optval optlen m st in
      (if r =? 0 then None else Some r, s, st)
  end.
End setsockopt.

(** ** getsockopt *)

Section getsockopt.
(** [sizeof(struct tcp_info)] of the kernel at hand. *)
Context (sizeof_tcp_info : Z) (d : device) (uid : Z).

Definition got (ok : bool) (st : stats_state) : stats_state :=
  if ok then kp_record_hook st uid HOOK_GETSOCKOPT else st.

(** [if (len >= sizeof(int)) if (!copy_to_user(optval, &v, sizeof(int))) record] *)
Definition kp_put_result (m : umem) (optval len v : Z) (st : stats_state) : umem * stats_state :=
  if sizeof_int <=? len then let '(m, ok) := put_int m optval v in (m, got ok st) else (m, st).

Definition kp_get_bindtodevice (m : umem) (optval optlen : Z) (st : stats_state) : umem * stats_state :=
  let '(m, ok) := put_int m optlen 1 in
  if negb ok then (m, st) else ((copy_out m optval [x00]).1, got true st).

Definition kp_get_tcp_info (m : umem) (optval len family : Z) (st : stats_state) : umem * stats_state :=
  if len <? 24 then (m, st)
  else
    let n := Z.min len sizeof_tcp_info in
    match copy_in m optval (Z.to_nat n) with
    | None => (m, st)
    | Some info =>
        let mss := u32 (cover_mss (get_spoof_ip (dv_spoof d)) family) in
        let info := take 16 info ++ le_split 4 mss ++ le_split 4 mss ++ drop 24 info in
        let '(m, ok) := copy_out m optval info in (m, got ok st)
    end.

Definition vpnhide_getsockopt_post (so : option kp_sock) (level optname optval optlen : Z) (m : umem)
    (st : stats_state) : umem * stats_state :=
  match so with
  | None => (m, st)
  | Some s =>
      if (optval =? 0) || (optlen =? 0) then (m, st)
      else if negb (is_hook_active (dv_policy d) HOOK_GETSOCKOPT uid) then (m, st)
      else if negb (is_target d uid) then (m, st)
      else
        match get_int m optlen with
        | None => (m, st)
        | Some len =>
            let sip := get_spoof_ip (dv_spoof d) in
            let family := sk_family (ks_sock s) in
            if level =? SOL_SOCKET then
              if optname =? SO_BINDTODEVICE then kp_get_bindtodevice m optval optlen st
              else if optname =? SO_BINDTOIFINDEX then kp_put_result m optval len 0 st
              else (m, st)
            else if level =? SOL_IP then
              if optname =? IP_MTU then kp_put_result m optval len (mtu_or_default (sip_ipv4_mtu sip)) st
              else if optname =? IP_MTU_DISCOVER then kp_put_result m optval len IP_PMTUDISC_DONT st
              else (m, st)
            else if level =? SOL_IPV6 then
              if optname =? IPV6_MTU then kp_put_result m optval len (mtu_or_default (sip_ipv6_mtu sip)) st
              else (m, st)
            else if level =? SOL_TCP then
              if optname =? TCP_MAXSEG then kp_put_result m optval len (cover_mss sip family) st
              else if optname =? TCP_INFO then kp_get_tcp_info m optval len family st
              else (m, st)
            else (m, st)
        end
  end.
End getsockopt.

(** The wrapper passes on what it is given. *)
Definition vpnhide_getsockopt (sizeof_tcp_info : Z) (d : device) (uid : Z) := vpnhide_getsockopt_post sizeof_tcp_info d uid.

(** ** Packet information *)

Section pktinfo.
(** [ipv6_addr_type(addr) & IPV6_ADDR_LINKLOCAL] *)
Context (ipv6_is_linklocal : bytes → bool) (d : device) (uid : Z).

Definition vpnhide_pktinfo4_post (info : option bytes) (st : stats_state) : option bytes * stats_state :=
  match info with
  | None => (None, st)
  | Some i =>
      if negb (is_active_vpn_ifindex (dv_vpns d) (le_at 4 i 0)) then (info, st)
      else if negb (is_hook_active (dv_policy d) HOOK_GETNAME_INET uid) || negb (is_target d uid) then (info, st)
      else if dv_cover_ifindex d <=? 0 then (info, st)
      else (Some (le_split 4 (dv_cover_ifindex d) ++ drop 4 i), kp_record_hook st uid HOOK_GETNAME_INET)
  end.

Definition vpnhide_pktinfo6_post (info : option bytes) (st : stats_state) : option bytes * stats_state :=
  match info with
  | None => (None, st)
  | Some i =>
      if negb (is_active_vpn_ifindex (dv_vpns d) (le_at 4 i 16)) then (info, st)
      else if negb (is_hook_active (dv_policy d) HOOK_GETNAME_INET6 uid) || negb (is_target d uid) then (info, st)
      else if dv_cover_ifindex d <=? 0 then (info, st)
      else
        let addr := take 16 i in
        let sip := get_spoof_ip (dv_spoof d) in
        let addr :=
          if ipv6_is_linklocal addr then
            if nonzero (sip_has_ipv6_linklocal sip) then sip_ipv6_linklocal_addr sip else addr
          else if negb (ipv6_is_multicast addr) then
            if nonzero (sip_has_ipv6 sip) then sip_ipv6_addr sip else addr
          else addr in
        (Some (addr ++ le_split 4 (dv_cover_ifindex d)), kp_record_hook st uid HOOK_GETNAME_INET6)
  end.
End pktinfo.

(** ** connect *)

(** One rule of the scan, tests in the order of the source; a rule outside the
    table cannot occur in a valid snapshot. *)
Fixpoint kp_scan_rules (rules : list vpnhide_port_rule_v3) (first j : Z) (remaining : nat)
    (port protocol : Z) : option bool :=
  match remaining with
  | O => Some false
  | S remaining =>
      rule ← rules !! Z.to_nat (u32 (first + j));
      if (pr_start_port rule <=? port) && (port <=? pr_end_port rule) &&
         ((pr_protocol rule =? VH_PROTO_BOTH) || (pr_protocol rule =? protocol)) then Some true
      else if port <? pr_start_port rule then Some false
      else kp_scan_rules rules first (j + 1) remaining port protocol
  end.

Definition kp_should_block_port (policy : option vpnhide_policy_snapshot) (uid port_be protocol : Z)
    : option bool :=
  let port := ntohs port_be in
  match policy, vpnhide_find_port_target policy uid with
  | Some s, Some target =>
      if pt_mode target =? VH_PORT_POLICY_UNRESTRICTED then Some false
      else if pt_mode target =? VH_PORT_POLICY_DENY_ALL then Some true
      else kp_scan_rules (port_rules s) (pt_first_rule target) 0 (Z.to_nat (pt_rule_count target)) port protocol
  | _, _ => Some false
  end.

(** [vpnhide_active_hooks_mask() & BIT(hook)] *)
Definition globally_active (policy : option vpnhide_policy_snapshot) (hook : vpnhide_hook_idx) : bool :=
  nonzero (Z.land (vpnhide_active_hooks_mask policy) (BIT (hook_bit hook))).

Section connect.
Context (d : device) (now uid : Z).

(** The result of the hook (0: the call goes on) and the counters. *)
Definition connect_end : Type := Z * (stats_state * port_stats_state).

Definition kp_refuse_port (port_be protocol family : Z) (address : list Z)
    (st : stats_state * port_stats_state) : connect_end :=
  if default false (kp_should_block_port (dv_policy d) uid port_be protocol) &&
     negb (vpnhide_uid_owns_port (dv_owned d) (dv_pending d) now uid (ntohs port_be) protocol family address)
  then (NEG_ECONNREFUSED, kp_record_port_intercept now uid (ntohs port_be) protocol st)
  else (0, st).

Definition vpnhide_connect_pre (so : option (option sock)) (addr : sockaddr)
    (st : stats_state * port_stats_state) : connect_end :=
  if negb (globally_active (dv_policy d) HOOK_CONNECT) then (0, st)
  else if negb (is_hook_active (dv_policy d) HOOK_CONNECT uid) then (0, st)
  else
    match so with
    | Some (Some sk) =>
        let protocol := if sk_type sk =? SOCK_STREAM then VH_PROTO_TCP else VH_PROTO_UDP in
        match addr with
        | SaInet sin_port sin_addr =>
            if ipv4_is_loopback sin_addr || (sin_addr =? 0)
            then kp_refuse_port sin_port protocol AF_INET [sin_addr; 0; 0; 0] st
            else (0, st)
        | SaInet6 sin6_port a =>
            let local := ipv6_addr_loopback a || ipv6_addr_any a in
            let local :=
              if negb local && ipv6_addr_v4mapped a
              then ipv4_is_loopback (nth 3 a 0) || (nth 3 a 0 =? 0) else local in
            if local then
              let '(owner_family, owner_address) :=
                if ipv6_addr_v4mapped a then (AF_INET, [nth 3 a 0; 0; 0; 0]) else (AF_INET6, a) in
              kp_refuse_port sin6_port protocol owner_family owner_address st
            else (0, st)
        | SaOther _ => (0, st)
        end
    | _ => (0, st)
    end.

(** The wrapper: [addr] is [None] when the address cannot be moved into the
    kernel.  [Some r]: the call ends here with [r]. *)
Definition vpnhide_connect (so : option (option sock)) (addr : option sockaddr)
    (st : stats_state * port_stats_state) : option Z * (stats_state * port_stats_state) :=
  match addr with
  | None => (None, st)
  | Some addr => let '(r, st) := vpnhide_connect_pre so addr st in (if r =? 0 then None else Some r, st)
  end.
End connect.

(** ** bind and listen *)

(** Nothing is changed; the wrapper copies the address back as it is. *)
Definition vpnhide_bind_pre (addr : bytes) : Z * bytes := (0, addr).

Definition vpnhide_bind (kaddr : option bytes) (umyaddr : Z) (m : umem) : umem :=
  match kaddr with
  | None => m
  | Some kaddr => (copy_out m umyaddr (vpnhide_bind_pre kaddr).2).1
  end.

Section owner.
Context (HZ : Z) (d : device) (now uid : Z) (have_eventfd : bool).

Definition kp_inet (sk : sock) : bool := (sk_family sk =? AF_INET) || (sk_family sk =? AF_INET6).

(** [vpnhide_bind_post] for datagrams and [vpnhide_listen_post] for streams. *)
Definition kp_owner_post (type : Z) (so : option (option sock)) (error : Z) (pending : pending_table)
    : pending_table * bool :=
  match so with
  | Some (Some sk) =>
      if nonzero error || negb (kp_inet sk) || negb (sk_type sk =? type) then (pending, false)
      else vpnhide_record_bound_socket HZ (dv_policy d) pending now uid (Some sk) have_eventfd
  | _ => (pending, false)
  end.

Definition vpnhide_bind_post := kp_owner_post SOCK_DGRAM.
Definition vpnhide_listen_post := kp_owner_post SOCK_STREAM.
End owner.

(** ** getname *)

(** [(sip.has_ipv4 && sip.ipv4_addr) ? sip.ipv4_addr : 0] *)
Definition kp_target_ipv4 (sip : vpnhide_spoof_ip) : bytes :=
  if nonzero (sip_has_ipv4 sip) && nonzero (sip_ipv4_addr sip) then le_split 4 (sip_ipv4_addr sip)
  else replicate 4 x00.

(** 2001:db8::10 without a configured address, or with the wildcard. *)
Definition kp_target_ipv6 (sip : vpnhide_spoof_ip) : bytes :=
  if nonzero (sip_has_ipv6 sip) && negb (bool_decide (sip_ipv6_addr sip = replicate 16 x00))
  then sip_ipv6_addr sip else fallback_ipv6.

Section getname.
Context (d : device) (uid : Z).

(** [sk]: the interface the socket is bound to, when the socket has an [sk]. *)
Definition vpnhide_getname_post (sk : option kp_sock) (sa : bytes) (peer : Z) (st : stats_state)
    : bytes * stats_state :=
  if nonzero peer then (sa, st)
  else if negb (is_hook_active (dv_policy d) HOOK_GETNAME_INET uid) &&
          negb (is_hook_active (dv_policy d) HOOK_GETNAME_INET6 uid) then (sa, st)
  else if negb (is_target d uid) then (sa, st)
  else if match sk with
          | Some s => nonzero (ks_bound_dev_if s) &&
                      negb (is_active_vpn_ifindex (dv_vpns d) (u32 (ks_bound_dev_if s)))
          | None => false
          end then (sa, st)
  else
    let sip := get_spoof_ip (dv_spoof d) in
    let family := sa_family sa in
    if family =? AF_INET then
      if negb (is_hook_active (dv_policy d) HOOK_GETNAME_INET uid) then (sa, st)
      else if ipv4_kept (sin_addr sa) then (sa, st)
      else (take 4 sa ++ kp_target_ipv4 sip ++ drop 8 sa, kp_record_hook st uid HOOK_GETNAME_INET)
    else if family =? AF_INET6 then
      if negb (is_hook_active (dv_policy d) HOOK_GETNAME_INET6 uid) then (sa, st)
      else if ipv6_kept (sin6_addr sa) then (sa, st)
      else (take 8 sa ++ kp_target_ipv6 sip ++ drop 24 sa, kp_record_hook st uid HOOK_GETNAME_INET6)
    else (sa, st).

Definition vpnhide_getname := vpnhide_getname_post.
End getname.

(** ** Link-local destinations *)

Section linklocal.
(** [ipv6_addr_type(addr) & IPV6_ADDR_LINKLOCAL] and the name of an interface
    of the socket's namespace ([dev_get_by_index]). *)
Context (ipv6_is_linklocal : bytes → bool) (dev_name : Z → option bytes) (d : device) (uid : Z).

(** A tracked index, or the index of an interface with a tracked name. *)
Definition kp_scope_is_vpn (ifindex : Z) : bool :=
  if is_active_vpn_ifindex (dv_vpns d) ifindex then true
  else if ifindex =? 0 then false
  else match dev_name ifindex with
       | None => false
       | Some name => kp_is_active_vpn_ifname (dv_vpns d) name
       end.

Definition vpnhide_inet6_bind_ll (sin6 : bytes) (addr_len : Z) (st : stats_state) : Z * stats_state :=
  if addr_len <? sizeof_sockaddr_in6 then (0, st)
  else if negb (sa_family sin6 =? AF_INET6) then (0, st)
  else if negb (ipv6_is_linklocal (sin6_addr sin6)) then (0, st)
  else if negb (is_hook_active (dv_policy d) HOOK_INET6_BIND_LL uid) then (0, st)
  else if negb (is_target d uid) then (0, st)
  else if negb (kp_scope_is_vpn (sin6_scope_id sin6)) then (0, st)
  else (NEG_ENODEV, kp_record_hook st uid HOOK_INET6_BIND_LL).

(** [msg_name]: the destination of the message in kernel memory with its
    length, [None] also when the message is NULL; [np]: [inet6_sk] is not
    NULL. *)
Definition vpnhide_udpv6_sendmsg_ll (np : bool) (bound_dev_if : Z) (msg_name : option (bytes * Z))
    (st : stats_state) : bool * stats_state :=
  if negb (globally_active (dv_policy d) HOOK_UDPV6_SENDMSG) then (false, st)
  else if negb (is_hook_active (dv_policy d) HOOK_UDPV6_SENDMSG uid) then (false, st)
  else if negb (is_target d uid) then (false, st)
  else if negb np then (false, st)
  else
    let oifindex :=
      match msg_name with
      | Some (sa, namelen) =>
          if (sizeof_sockaddr_in6 <=? namelen) && (sa_family sa =? AF_INET6) &&
             ipv6_is_linklocal (sin6_addr sa)
          then sin6_scope_id sa else 0
      | None => 0
      end in
    let oifindex := if oifindex =? 0 then u32 bound_dev_if else oifindex in
    if negb (kp_scope_is_vpn oifindex) then (false, st)
    else (true, kp_record_hook st uid HOOK_UDPV6_SENDMSG).
End linklocal.

(** ** UDP sends *)

(** The socket, and whether the message names a destination, as in the
    module. *)
Definition vpnhide_udp_dst_is_vpn (d : device) (s : udp_send) : bool :=
  if us_msg_name s then false
  else if (if us_family s =? AF_INET6 then ipv6_addr_loopback (us_v6_daddr s)
           else ipv4_is_loopback (us_daddr s)) then false
  else match us_dst s with
       | None => false
       | Some dev => match dev with
                     | None => false
                     | Some ifindex => is_active_vpn_ifindex (dv_vpns d) ifindex
                     end
       end.

Definition VH_UDP_BUCKET_MAX : Z := 250.
Definition VH_UDP_REGEN_NS : Z := 2000000.

Definition rl_find_or_alloc (alloc : bool) (now uid : Z) (rates : gmap Z vh_udp_uid_rate)
    : option vh_udp_uid_rate :=
  match rates !! uid with
  | Some r => Some r
  | None => if alloc then Some (mk_udp_rate VH_UDP_BUCKET_MAX now) else None
  end.

(** [regen] is an [int]; the quotient and the product are unsigned 64-bit, since
    [VH_UDP_REGEN_NS] is; [tokens + regen] is an [int]. *)
Definition regenerate (now : Z) (r : vh_udp_uid_rate) : vh_udp_uid_rate :=
  let elapsed_ns := s64 (now - ur_last_regen r) in
  let regen := s32 (u64 elapsed_ns / VH_UDP_REGEN_NS) in
  if 0 <? regen then
    mk_udp_rate (Z.min (s32 (ur_tokens r + regen)) VH_UDP_BUCKET_MAX)
      (s64 (ur_last_regen r + u64 (regen * VH_UDP_REGEN_NS)))
  else r.

Section udp.
Context (d : device) (uid : Z).

(** Whether the send is dropped, and the buckets.  [ktime_get] is read when a
    bucket is made and again for the refill. *)
Definition vpnhide_udp_sendmsg (alloc : bool) (now_alloc now mark : Z) (rates : gmap Z vh_udp_uid_rate)
    (st : stats_state) : bool * gmap Z vh_udp_uid_rate * stats_state :=
  if negb (globally_active (dv_policy d) HOOK_UDP_SENDMSG) then (false, rates, st)
  else if nonzero (Z.land mark VH_SK_PROBE_MARK) then (false, rates, st)
  else if negb (is_hook_active (dv_policy d) HOOK_UDP_SENDMSG uid) then (false, rates, st)
  else if negb (is_target d uid) then (false, rates, st)
  else
    match rl_find_or_alloc alloc now_alloc uid rates with
    | None => (false, rates, st)
    | Some r =>
        let r := regenerate now r in
        if 0 <? ur_tokens r
        then (false, <[uid := mk_udp_rate (ur_tokens r - 1) (ur_last_regen r)]> rates, st)
        else (true, <[uid := r]> rates, kp_record_hook st uid HOOK_UDP_SENDMSG)
    end.

Definition NEG_EAGAIN : Z := -11.

(** [Some err]: the send fails with [err]. *)
Definition vpnhide_udp_sendmsg_pre (ipv6_is_linklocal : bytes → bool) (dev_name : Z → option bytes)
    (alloc : bool) (now_alloc now : Z) (np : bool) (s : udp_send) (k : kp_sock)
    (msg_name : option (bytes * Z)) (rates : gmap Z vh_udp_uid_rate) (st : stats_state)
    : option Z * gmap Z vh_udp_uid_rate * stats_state :=
  let '(denied, st) :=
    if us_family s =? AF_INET6
    then vpnhide_udpv6_sendmsg_ll ipv6_is_linklocal dev_name d uid np (ks_bound_dev_if k) msg_name st
    else (false, st) in
  if denied : bool then (Some NEG_ENODEV, rates, st)
  else if negb (vpnhide_udp_dst_is_vpn d (send_to s ((λ '(sa, n), (Some sa, n)) <$> msg_name)))
  then (None, rates, st)
  else
    let '(drop, rates, st) := vpnhide_udp_sendmsg alloc now_alloc now (ks_mark k) rates st in
    (if drop : bool then Some NEG_EAGAIN else None, rates, st).
End udp.

(** ** connect decides as the module does *)

Lemma kp_scan_agrees rules first j n port protocol :
  kp_scan_rules rules first j n port protocol = scan_port_rules rules first j n port protocol.
Proof.
  revert j. induction n as [|n IH]; intros j; [done|]. simpl.
  destruct (rules !! _) as [r|]; [|done]. simpl. unfold rule_covers. by rewrite IH.
Qed.

Lemma kp_should_block_agrees s uid port_be protocol :
  kp_should_block_port (Some s) uid port_be protocol = port_blocked s uid (ntohs port_be) protocol.
Proof.
  unfold kp_should_block_port, port_blocked, should_block_port. destruct (vpnhide_find_port_target _ _); [|done].
  by rewrite kp_scan_agrees.
Qed.

Lemma globally_active_spec s h : globally_active (Some s) h = Z.testbit (active_hooks_mask s) (hook_bit h).
Proof.
  rewrite <- land_bit_testbit by apply hook_bit_range. unfold globally_active, BIT, u32. simpl.
  pose proof (hook_bit_range h). rewrite wrap_small; [done|]. rewrite Z.shiftl_1_l.
  split; [lia|]. apply Z.pow_lt_mono_r; lia.
Qed.

Lemma port_hooks_on s uid :
  snapshot_wf s →
  globally_active (Some s) HOOK_CONNECT = true ∧ is_hook_active (Some s) HOOK_CONNECT uid = true.
Proof.
  intros Hwf. destruct (effective_mask_exists s Hwf uid) as [mask Hm]. split.
  - rewrite globally_active_spec. apply (wf_active s Hwf).
  - rewrite (is_hook_active_effective s Hwf _ uid mask Hm).
    apply (effective_mask_port_hooks s Hwf uid mask Hm).
Qed.

Lemma kp_counts_port now uid port protocol st :
  kp_record_port_intercept now uid port protocol st = record_port_intercept now uid port protocol st.
Proof. reflexivity. Qed.

Section connect_facts.
Context (d : device) (s : vpnhide_policy_snapshot) (now uid : Z) (Hs : dv_policy d = Some s) (Hwf : snapshot_wf s).

Lemma kp_connect_local sk addr st :
  vpnhide_connect_pre d now uid (Some (Some sk)) addr st =
  match '(port, family, address) ← local_destination addr;
        if default false (port_blocked s uid port (proto_of sk)) &&
           negb (vpnhide_uid_owns_port (dv_owned d) (dv_pending d) now uid port (proto_of sk) family address)
        then Some port else None with
  | Some port => (NEG_ECONNREFUSED, record_port_intercept now uid port (proto_of sk) st)
  | None => (0, st)
  end.
Proof.
  unfold vpnhide_connect_pre, kp_refuse_port. rewrite Hs.
  destruct (port_hooks_on s uid Hwf) as [-> ->]. cbn [negb]. fold (proto_of sk).
  destruct addr as [p a|p a|f]; cbn [local_destination]; [| |done].
  - unfold v4_local, INADDR_ANY. rewrite kp_should_block_agrees, kp_counts_port.
    destruct (_ || _); cbn [mbind option_bind]; [|done]. by case_match.
  - destruct (ipv6_addr_v4mapped a) eqn:Em.
    + rewrite (v4mapped_not_local a Em). cbn [negb andb]. unfold v4_local, INADDR_ANY.
      rewrite kp_should_block_agrees, kp_counts_port.
      destruct (_ || _); cbn [mbind option_bind]; [|done]. by case_match.
    + rewrite andb_false_r. rewrite kp_should_block_agrees, kp_counts_port.
      destruct (_ || _); cbn [mbind option_bind]; [|done]. by case_match.
Qed.

Lemma module_connect_local sk addr :
  direct_connect_should_block (Some s) (dv_owned d) (dv_pending d) now uid (Some (Some sk)) (Some addr) =
  '(port, family, address) ← local_destination addr;
  if default false (port_blocked s uid port (proto_of sk)) &&
     negb (vpnhide_uid_owns_port (dv_owned d) (dv_pending d) now uid port (proto_of sk) family address)
  then Some (port, proto_of sk) else None.
Proof.
  unfold port_blocked. destruct (vpnhide_find_port_target (Some s) uid) as [t|] eqn:Ht.
  - rewrite (direct_connect_local _ _ _ _ _ s t) by done. done.
  - unfold direct_connect_should_block. cbn [mbind option_bind]. rewrite Ht. cbn [mbind option_bind].
    by destruct (local_destination addr) as [[[]]|].
Qed.
End connect_facts.

(** C23: under a valid policy the in-tree connect hook ends a call with
    [ECONNREFUSED], and counts it, exactly when the module's probe does. *)
Theorem kp_connect_agrees d s now uid sk addr st :
  dv_policy d = Some s → snapshot_wf s →
  vpnhide_connect d now uid (Some (Some sk)) (Some addr) st =
  match security_socket_connect_entry (Some s) (dv_owned d) (dv_pending d) now uid (Some (Some sk)) (Some addr) with
  | Some data => let '(ret, st') := security_socket_connect_ret now uid data 0 st in (Some ret, st')
  | None => (None, st)
  end.
Proof.
  intros Hs Hwf. unfold vpnhide_connect, security_socket_connect_entry.
  destruct (port_hooks_on s uid Hwf) as [_ ->]. cbn [negb].
  rewrite (kp_connect_local d s now uid Hs Hwf), module_connect_local.
  destruct (local_destination addr) as [[[port family] address]|]; cbn [mbind option_bind]; [|done].
  by destruct (default false _ && _).
Qed.

Definition policy_device : device := set_policy initial_device (Some example_snapshot).

Lemma kp_connect_agrees_witness :
  (vpnhide_connect policy_device 1000 10123 (Some (Some example_sock)) (Some example_addr)
     (mk_stats [] 0 0, mk_port_stats None 0)).1 = Some (-111).
Proof.
  rewrite (kp_connect_agrees policy_device example_snapshot 1000 10123 example_sock example_addr
    (mk_stats [] 0 0, mk_port_stats None 0) eq_refl example_snapshot_wf).
  vm_compute. reflexivity.
Defined.

(** ** The token bucket *)

(** Tokens go below zero when the [int] sum wraps. *)
Definition bucket_ok (now : Z) (r : vh_udp_uid_rate) : Prop :=
  - 2 ^ 31 <= ur_tokens r <= VH_UDP_BUCKET_MAX ∧ 0 <= ur_last_regen r <= now.

(** The nanoseconds of sending the bucket can pay for at [now]. *)
Definition bucket_worth (now : Z) (r : vh_udp_uid_rate) : Z :=
  Z.max 0 (ur_tokens r) * VH_UDP_REGEN_NS + (now - ur_last_regen r).

Lemma s32_le x : - 2 ^ 31 <= x → s32 x <= x.
Proof.
  intros Hx. unfold s32. pose proof (Z.mod_le (x + 2 ^ 31) (2 ^ 32)). lia.
Qed.

Lemma s64_small x : - 2 ^ 63 <= x < 2 ^ 63 → s64 x = x.
Proof. intros. unfold s64. rewrite Z.mod_small; lia. Qed.

Lemma regenerate_spec now r :
  bucket_ok now r → now < 2 ^ 63 →
  bucket_ok now (regenerate now r) ∧ bucket_worth now (regenerate now r) <= bucket_worth now r.
Proof.
  intros [Ht Hl] Hnow. unfold regenerate, bucket_ok, bucket_worth, VH_UDP_BUCKET_MAX, VH_UDP_REGEN_NS in *.
  assert (∃ e, e = now - ur_last_regen r) as [e He] by eauto. rewrite <- He.
  unfold u64. rewrite (s64_small e), (wrap_small 64 e) by (unfold fits; lia).
  pose proof (Z.mul_div_le e 2000000 ltac:(lia)) as Hq. pose proof (Z.div_pos e 2000000 ltac:(lia) ltac:(lia)).
  pose proof (s32_le (e / 2000000) ltac:(lia)) as Hr. pose proof (s32_range (e / 2000000)).
  set (regen := s32 (e / 2000000)) in *. clearbody regen.
  destruct (Z.ltb_spec 0 regen); cbn [ur_tokens ur_last_regen]; [|split; [split|]; lia].
  pose proof (s32_le (ur_tokens r + regen) ltac:(lia)). pose proof (s32_range (ur_tokens r + regen)).
  rewrite (wrap_small 64 (regen * 2000000)) by (unfold fits; lia).
  rewrite s64_small by lia. split; [split|]; lia.
Qed.

Section limited.
Context (d : device) (uid mark : Z).
Context (Hglobal : globally_active (dv_policy d) HOOK_UDP_SENDMSG = true)
  (Hactive : is_hook_active (dv_policy d) HOOK_UDP_SENDMSG uid = true)
  (Htarget : is_target d uid = true) (Hmark : Z.land mark VH_SK_PROBE_MARK = 0).

(** How many of a UID's sends pass; the bucket is made at the time of the
    first. *)
Fixpoint kp_sends (times : list Z) (rates : gmap Z vh_udp_uid_rate) (st : stats_state) : Z :=
  match times with
  | [] => 0
  | now :: times =>
      let '(drop, rates, st) := vpnhide_udp_sendmsg d uid true now now mark rates st in
      (if drop : bool then 0 else 1) + kp_sends times rates st
  end.

Lemma limited_send now rates st r :
  rl_find_or_alloc true now uid rates = Some r → bucket_ok now r → now < 2 ^ 63 →
  ∃ r' st', vpnhide_udp_sendmsg d uid true now now mark rates st =
      (negb (0 <? ur_tokens (regenerate now r)), <[uid := r']> rates, st') ∧
    bucket_ok now r' ∧
    bucket_worth now r' + (if 0 <? ur_tokens (regenerate now r) then VH_UDP_REGEN_NS else 0) <= bucket_worth now r.
Proof using Hglobal Hactive Htarget Hmark.
  intros Hr Hok Hnow. unfold vpnhide_udp_sendmsg. rewrite Hglobal, Hactive, Htarget, Hmark, Hr. cbn [negb nonzero Z.eqb].
  destruct (regenerate_spec now r Hok Hnow) as [[Ht Hl] Hw]. set (r1 := regenerate now r) in *.
  destruct (Z.ltb_spec 0 (ur_tokens r1)); eexists _, _; (split; [reflexivity|]);
    unfold bucket_ok, bucket_worth, VH_UDP_BUCKET_MAX, VH_UDP_REGEN_NS in *; cbn [ur_tokens ur_last_regen];
    (split; [split|]); lia.
Qed.

Lemma kp_sends_bound times rates st r now0 t_end :
  rates !! uid = Some r → bucket_ok now0 r → StronglySorted Z.le (now0 :: times) →
  Forall (λ t, t <= t_end) (now0 :: times) → t_end < 2 ^ 63 →
  kp_sends times rates st * VH_UDP_REGEN_NS <= bucket_worth now0 r + (t_end - now0).
Proof using Hglobal Hactive Htarget Hmark.
  revert rates st r now0. induction times as [|now times IH]; intros rates st r now0 Hr Hok Hs Hle Hend.
  { inversion Hle. simpl. destruct Hok. unfold bucket_worth, VH_UDP_REGEN_NS. lia. }
  inversion Hs as [|?? Hs' Hmin]; subst. inversion Hle as [|?? _ Hle']; subst.
  inversion Hmin as [|?? Hmin' _]; subst. inversion Hle' as [|?? Hnow _]; subst.
  assert (bucket_ok now r) as Hok1 by (unfold bucket_ok in *; lia).
  destruct (limited_send now rates st r) as (r' & st' & E & Hok' & Hw); [|done|lia|].
  { unfold rl_find_or_alloc. by rewrite Hr. }
  cbn [kp_sends]. rewrite E.
  specialize (IH (<[uid := r']> rates) st' r' now (lookup_insert_eq _ _ _) Hok' Hs' Hle' Hend).
  unfold bucket_worth in *. destruct (0 <? ur_tokens (regenerate now r)); cbn [negb]; lia.
Qed.

(** Also the in-tree limiter, which counts whole tokens in an [int], lets at
    most 250 packets of a UID pass over any interval, plus one per two
    milliseconds elapsed. *)
Theorem kp_udp_rate_bounded t0 times rates st t_end :
  rates !! uid = None → 0 <= t0 → StronglySorted Z.le (t0 :: times) →
  Forall (λ t, t <= t_end) (t0 :: times) → t_end < 2 ^ 63 →
  kp_sends (t0 :: times) rates st <= VH_UDP_BUCKET_MAX + (t_end - t0) / VH_UDP_REGEN_NS.
Proof using Hglobal Hactive Htarget Hmark.
  intros Hr H0 Hs Hle Hend. inversion Hle as [|?? Hle0 _]; subst.
  set (r := mk_udp_rate VH_UDP_BUCKET_MAX t0).
  assert (bucket_ok t0 r) as Hok by (unfold bucket_ok, r, VH_UDP_BUCKET_MAX; simpl; lia).
  destruct (limited_send t0 rates st r) as (r' & st' & E & Hok' & Hw); [|done|lia|].
  { unfold rl_find_or_alloc. by rewrite Hr. }
  cbn [kp_sends]. rewrite E.
  pose proof (kp_sends_bound times (<[uid := r']> rates) st' r' t0 t_end (lookup_insert_eq _ _ _) Hok' Hs Hle Hend) as Hb.
  unfold bucket_worth, VH_UDP_BUCKET_MAX, VH_UDP_REGEN_NS in *. cbn [r ur_tokens ur_last_regen] in Hw.
  set (n := kp_sends _ _ _) in *. clearbody n.
  assert ((if 0 <? ur_tokens (regenerate t0 r) then 1 else 0) + n - 250 <= (t_end - t0) / 2000000).
  { apply Z.div_le_lower_bound; [lia|]. case_match; lia. }
  case_match; cbn [negb] in *; lia.
Qed.
End limited.

Lemma kp_udp_rate_bounded_witness :
  kp_sends target_device 10123 0 [0; 1; 2000000] ∅ (dv_stats target_device) <=
  VH_UDP_BUCKET_MAX + (2000000 - 0) / VH_UDP_REGEN_NS.
Proof.
  apply (kp_udp_rate_bounded target_device 10123 0 eq_refl eq_refl eq_refl eq_refl 0 [1; 2000000] ∅
    (dv_stats target_device) 2000000).
  - reflexivity.
  - discriminate.
  - repeat constructor; discriminate.
  - repeat constructor; discriminate.
  - reflexivity.
Defined.

(** After seven weeks without a send the [int] conversion shows: an empty bucket
    gets nothing back and keeps refusing. *)
Theorem kp_idle_refill_lost :
  ∃ r, bucket_ok (2 ^ 31 * VH_UDP_REGEN_NS) r ∧ regenerate (2 ^ 31 * VH_UDP_REGEN_NS) r = r ∧
    (vpnhide_udp_sendmsg target_device 10123 true 0 (2 ^ 31 * VH_UDP_REGEN_NS) 0 {[10123 := r]}
       (dv_stats target_device)).1.1 = true.
Proof.
  exists (mk_udp_rate 0 0). split; [|split; vm_compute; reflexivity].
  vm_compute. repeat split; discriminate.
Qed.

(** ** Packet information as the module shows it *)

(** The in-tree hooks, which rewrite the record before it is copied out, show
    what the module's rewriting of the copied record shows. *)
Lemma kp_pktinfo4_agrees d uid i st :
  (vpnhide_pktinfo4_post d uid (Some i) st).1 =
  Some (default i (vh_spoof_pktinfo4 d uid HOOK_GETNAME_INET i)).
Proof.
  unfold vpnhide_pktinfo4_post, vh_spoof_pktinfo4, spoof_enabled, is_target.
  destruct (is_active_vpn_ifindex _ _); [|done]. cbn [negb andb].
  destruct (is_hook_active _ _ _); [|done]. destruct (is_target_uid_val _ _); [|done]. cbn [negb orb andb].
  destruct (Z.leb_spec (dv_cover_ifindex d) 0), (Z.ltb_spec 0 (dv_cover_ifindex d)); try lia; done.
Qed.

Lemma kp_pktinfo6_agrees ll d uid i st :
  (vpnhide_pktinfo6_post ll d uid (Some i) st).1 =
  Some (default i (vh_spoof_pktinfo6 ll d uid HOOK_GETNAME_INET6 i)).
Proof.
  unfold vpnhide_pktinfo6_post, vh_spoof_pktinfo6, spoof_enabled, is_target.
  destruct (is_active_vpn_ifindex _ _); [|done]. cbn [negb andb].
  destruct (is_hook_active _ _ _); [|done]. destruct (is_target_uid_val _ _); [|done]. cbn [negb orb andb].
  destruct (Z.leb_spec (dv_cover_ifindex d) 0), (Z.ltb_spec 0 (dv_cover_ifindex d)); try lia; done.
Qed.

(** ** Socket names *)

(** The hook of a family. *)
Definition getname_hook (family : Z) : vpnhide_hook_idx :=
  if family =? AF_INET then HOOK_GETNAME_INET else HOOK_GETNAME_INET6.

(** A socket that is not bound to a physical interface. *)
Definition not_pinned (d : device) (sk : option kp_sock) : Prop :=
  match sk with
  | Some s => ks_bound_dev_if s = 0 ∨ is_active_vpn_ifindex (dv_vpns d) (u32 (ks_bound_dev_if s)) = true
  | None => True
  end.

(** The daemon has set a cover address of the family. *)
Definition cover_set (d : device) (family : Z) : Prop :=
  let sip := get_spoof_ip (dv_spoof d) in
  if family =? AF_INET then sip_has_ipv4 sip ≠ 0 ∧ sip_ipv4_addr sip ≠ 0
  else sip_has_ipv6 sip ≠ 0 ∧ sip_ipv6_addr sip ≠ replicate 16 x00.

Lemma getname_guards d uid sk sa st family :
  full_name family sa → is_hook_active (dv_policy d) (getname_hook family) uid = true →
  is_target d uid = true → not_pinned d sk →
  vpnhide_getname_post d uid sk sa 0 st =
  if family =? AF_INET then
    if ipv4_kept (sin_addr sa) then (sa, st)
    else (take 4 sa ++ kp_target_ipv4 (get_spoof_ip (dv_spoof d)) ++ drop 8 sa, kp_record_hook st uid HOOK_GETNAME_INET)
  else
    if ipv6_kept (sin6_addr sa) then (sa, st)
    else (take 8 sa ++ kp_target_ipv6 (get_spoof_ip (dv_spoof d)) ++ drop 24 sa, kp_record_hook st uid HOOK_GETNAME_INET6).
Proof.
  intros [Hf Hl] Hh Ht Hp. unfold vpnhide_getname_post. rewrite Ht, Hf. cbn [nonzero Z.eqb negb].
  assert (match sk with
          | Some s => nonzero (ks_bound_dev_if s) &&
                      negb (is_active_vpn_ifindex (dv_vpns d) (u32 (ks_bound_dev_if s)))
          | None => false end = false) as ->.
  { destruct sk as [s|]; [|done]. destruct Hp as [->| ->]; [done|]. by rewrite andb_false_r. }
  destruct Hl as [[-> _]|[-> _]]; unfold getname_hook in Hh; simpl in Hh; rewrite Hh; simpl;
    rewrite ?andb_false_r; done.
Qed.

(** With a cover address set, a target reads the same name of a socket on
    the patched kernel as with the module. *)
Theorem kp_getname_agrees d uid sk sa st family :
  full_name family sa → is_hook_active (dv_policy d) (getname_hook family) uid = true →
  is_target d uid = true → not_pinned d sk → cover_set d family →
  (vpnhide_getname d uid sk sa 0 st).1 = getname_ret family d uid (Z.of_nat (length sa)) sa st.
Proof.
  intros Hn Hh Ht Hp Hc. unfold vpnhide_getname. rewrite (getname_guards _ _ _ _ _ family) by done.
  destruct Hn as [Hf Hl]. unfold getname_ret, inet_getname_ret, inet6_getname_ret.
  rewrite Hf, (proj2 (Z.leb_le 0 (Z.of_nat (length sa)))) by lia. unfold cover_set in Hc. cbv zeta in Hc.
  destruct Hl as [[-> _]|[-> _]]; cbn [Z.eqb AF_INET AF_INET6 andb] in *.
  - destruct (ipv4_kept _); [done|]. destruct Hc as [H1%Z.eqb_neq H2%Z.eqb_neq].
    unfold kp_target_ipv4, target_ipv4, nonzero. by rewrite H1, H2.
  - destruct (ipv6_kept _); [done|]. destruct Hc as [H1%Z.eqb_neq H2].
    unfold kp_target_ipv6, target_ipv6, nonzero. by rewrite H1, (bool_decide_eq_false_2 _ H2).
Qed.

(** 192.168.1.7 as cover. *)
Definition kp_cover_device : device :=
  set_spoof target_device (Some (mk_spoof_ip 117549248 (replicate 16 x00) (replicate 16 x00) 1 0 0 0 1500 0)).

Lemma kp_getname_agrees_witness :
  (vpnhide_getname kp_cover_device 10123 None example_sin 0 (dv_stats kp_cover_device)).1 =
    getname_ret AF_INET kp_cover_device 10123 16 example_sin (dv_stats kp_cover_device) ∧
  sin_addr (getname_ret AF_INET kp_cover_device 10123 16 example_sin (dv_stats kp_cover_device)) =
    [xc0; xa8; x01; x07].
Proof.
  split; [|vm_compute; reflexivity].
  refine (kp_getname_agrees kp_cover_device 10123 None example_sin (dv_stats kp_cover_device) AF_INET _ _ _ _ _).
  - split; [vm_compute; reflexivity|]. left. split; vm_compute; reflexivity.
  - vm_compute. reflexivity.
  - vm_compute. reflexivity.
  - exact I.
  - split; vm_compute; discriminate.
Defined.

(** Whatever is configured, the name a target reads of an unpinned socket says
    nothing about the real address: two names that differ only there read the
    same, unless they are wildcard or loopback addresses. *)
Theorem kp_getname_conceals d uid sk sa sa' st :
  full_name AF_INET sa → full_name AF_INET sa' →
  take 4 sa = take 4 sa' → drop 8 sa = drop 8 sa' →
  is_hook_active (dv_policy d) HOOK_GETNAME_INET uid = true → is_target d uid = true → not_pinned d sk →
  ipv4_kept (sin_addr sa) = false → ipv4_kept (sin_addr sa') = false →
  vpnhide_getname d uid sk sa 0 st = vpnhide_getname d uid sk sa' 0 st.
Proof.
  intros Hn Hn' E4 E8 Hh Ht Hp Hk Hk'. unfold vpnhide_getname.
  rewrite !(getname_guards _ _ _ _ _ AF_INET) by done. cbn [Z.eqb AF_INET Pos.eqb]. by rewrite Hk, Hk', E4, E8.
Qed.

(** ** Socket options *)

(** What [vpnhide_setsockopt] does first, for an active target. *)
Lemma sockopt_guards d uid s level optname optval optlen m st :
  is_hook_active (dv_policy d) HOOK_SETSOCKOPT uid = true → is_target d uid = true →
  level = SOL_SOCKET →
  vpnhide_setsockopt_sock d uid (Some s) level optname optval optlen m st =
  let '(ret, s, st) :=
    if optname =? SO_BINDTODEVICE then kp_set_bindtodevice d uid optval optlen m s st
    else if optname =? SO_BINDTOIFINDEX then kp_set_bindtoifindex d uid optval optlen m s st
    else if optname =? SO_MARK then kp_set_mark uid s st
    else (0, s, st) in (ret, Some s, st).
Proof. intros Hh Ht ->. unfold vpnhide_setsockopt_sock. by rewrite Hh, Ht. Qed.

(** A target's bind of a socket to an interface by index ends with [ENODEV],
    counted, exactly when the index is a VPN's; otherwise the kernel's handler
    gets the call and the socket is untouched. *)
Theorem kp_bindtoifindex_refused_iff d uid s optval m ifindex st :
  is_hook_active (dv_policy d) HOOK_SETSOCKOPT uid = true → is_target d uid = true →
  get_int m optval = Some ifindex → ifindex ≠ 0 →
  vpnhide_setsockopt d uid (Some (Some s)) SOL_SOCKET SO_BINDTOIFINDEX optval 4 m st =
  if is_active_vpn_ifindex (dv_vpns d) (u32 ifindex)
  then (Some NEG_ENODEV, Some s, kp_record_hook st uid HOOK_SETSOCKOPT) else (None, Some s, st).
Proof.
  intros Hh Ht Hi Hn. unfold vpnhide_setsockopt. rewrite sockopt_guards by done.
  change (SO_BINDTOIFINDEX =? SO_BINDTODEVICE) with false. rewrite Z.eqb_refl.
  unfold kp_set_bindtoifindex. change (4 =? sizeof_int) with true. cbn [negb]. rewrite Hi.
  apply Z.eqb_neq in Hn. rewrite Hn. cbn [negb andb]. by destruct (is_active_vpn_ifindex _ _).
Qed.

Lemma nonzero_probe_bit mark : 0 <= mark → Z.land (Z.lor mark VH_SK_PROBE_MARK) VH_SK_PROBE_MARK = VH_SK_PROBE_MARK.
Proof.
  intros _. apply Z.bits_inj'. intros n Hn. rewrite Z.land_spec, Z.lor_spec.
  destruct (Z.testbit mark n), (Z.testbit VH_SK_PROBE_MARK n); done.
Qed.

(** A socket on which a target has asked about the path MTU is never
    throttled: the option call succeeds without the kernel's handler, leaves
    path discovery off, and no later send of the socket is dropped. *)
Theorem probe_socket_not_throttled d uid s optval m st :
  is_hook_active (dv_policy d) HOOK_SETSOCKOPT uid = true → is_target d uid = true →
  sk_family (ks_sock s) = AF_INET → 0 <= ks_mark s →
  ∃ s' st', vpnhide_setsockopt d uid (Some (Some s)) SOL_IP IP_MTU_DISCOVER optval 4 m st = (Some 1, Some s', st') ∧
    ks_pmtudisc s' = IP_PMTUDISC_DONT ∧
    ∀ d' uid' alloc now_alloc now rates st'',
      vpnhide_udp_sendmsg d' uid' alloc now_alloc now (ks_mark s') rates st'' = (false, rates, st'').
Proof.
  intros Hh Ht Hf Hm. unfold vpnhide_setsockopt, vpnhide_setsockopt_sock. rewrite Hh, Ht, Hf.
  eexists _, _. split; [reflexivity|]. split; [reflexivity|]. intros *. unfold vpnhide_udp_sendmsg.
  destruct (negb (globally_active _ _)); [done|]. cbn [ks_mark probe_marked set_mark set_pmtudisc].
  rewrite nonzero_probe_bit by done. done.
Qed.

(** Setting a mark is meant to leave it at zero, the probe bit apart.  The hook
    clears it and lets the call go on, so the handler sets what was asked. *)
Theorem so_mark_goes_on d uid s optval optlen m st :
  (vpnhide_setsockopt d uid (Some (Some s)) SOL_SOCKET SO_MARK optval optlen m st).1.1 = None.
Proof.
  unfold vpnhide_setsockopt, vpnhide_setsockopt_sock.
  destruct (negb (is_hook_active _ _ _)); [done|]. destruct (negb (is_target _ _)); [done|].
  change (SOL_SOCKET =? SOL_SOCKET) with true. change (SO_MARK =? SO_BINDTODEVICE) with false.
  change (SO_MARK =? SO_BINDTOIFINDEX) with false. change (SO_MARK =? SO_MARK) with true. cbv iota.
  unfold kp_set_mark. by destruct (negb _).
Qed.

(** Hiding a bound interface clears the first byte of its name.  The rest of it
    stays in the caller's buffer, in both variants. *)
Theorem bound_name_tail_left sizeof_tcp_info d uid s data m st x :
  x ≠ gd_optval data → x < gd_optlen data ∨ gd_optlen data + 4 <= x →
  hide_bound_name d m data !! x = m !! x ∧
  (vpnhide_getsockopt sizeof_tcp_info d uid s SOL_SOCKET SO_BINDTODEVICE (gd_optval data) (gd_optlen data) m st).1
    !! x = m !! x.
Proof.
  intros Hx Hl.
  assert (Hint : ∀ m v, (put_int m (gd_optlen data) v).1 !! x = m !! x).
  { intros. unfold put_int, put_user. apply copy_out_lookup_ne. rewrite length_le_split. lia. }
  assert (Hnul : ∀ m, (copy_out m (gd_optval data) [x00]).1 !! x = m !! x).
  { intros. apply copy_out_lookup_ne. simpl. lia. }
  split.
  - unfold hide_bound_name. repeat (case_match; try done).
    all: match goal with H : copy_out ?m0 _ _ = (_, _) |- _ =>
           pose proof (Hnul m0) as Hm; rewrite H in Hm; simpl in Hm end; by rewrite ?Hint.
  - unfold vpnhide_getsockopt, vpnhide_getsockopt_post. destruct s as [s|]; [|done].
    do 3 (case_match; [done|]). destruct (get_int m _); [|done]. cbn [Z.eqb SOL_SOCKET SO_BINDTODEVICE Pos.eqb].
    unfold kp_get_bindtodevice. pose proof (Hint m 1) as Hm.
    destruct (put_int m _ 1) as [m1 []]; simpl in *; [|done]. by rewrite Hnul.
Qed.

Definition udp4_sock : kp_sock := mk_kp_sock (mk_sock SOCK_DGRAM AF_INET 0 0 [0; 0; 0; 0]) 17 0 1 1 0 0.

Lemma probe_socket_not_throttled_witness :
  ∃ s' st', vpnhide_setsockopt target_device 10123 (Some (Some udp4_sock)) SOL_IP IP_MTU_DISCOVER 4096 4 ∅
              (dv_stats target_device) = (Some 1, Some s', st') ∧ ks_mark s' = 2 ^ 31.
Proof.
  destruct (probe_socket_not_throttled target_device 10123 udp4_sock 4096 ∅ (dv_stats target_device))
    as (s' & st' & E & _).
  - vm_compute. reflexivity.
  - vm_compute. reflexivity.
  - reflexivity.
  - discriminate.
  - exists s', st'. split; [exact E|]. revert E. vm_compute. by intros [= <- _].
Defined.
