(* ===== verification/KNet.v ===== *)
(** * The in-tree variant: BPF statistics and netlink

    [kpatch/security/vpnhide/hook_fs.c] and [hook_netlink.c]: functions the
    patched kernel calls after a lookup in a BPF map, on the kernel's copy of a
    single value or on the caller's buffers of a batch, and before an interface
    or a routing rule is written into a netlink message. *)
From Stdlib Require Import Strings.Byte Strings.String ZArith Lia.
From stdpp Require Import base gmap numbers list.
From S2P Require Import Prelude Abi Snapshot PolicyQuery UserMem Stats Device Bpf Iface SockOpt Names Netlink Cover KCore KSocket.

#[local] Open Scope Z_scope.

(** ** BPF maps *)

Definition vh_is_wide_stats_map (map : bpf_map) : bool :=
  Bpf.has_prefix 10 (map_name map) "stats_map_" || Bpf.has_prefix 14 (map_name map) "map_netd_stats".

Definition vh_is_iface_stats_map (map : bpf_map) : bool :=
  Bpf.has_prefix 11 (map_name map) "iface_stats" || Bpf.has_prefix 15 (map_name map) "map_netd_iface_" ||
  Bpf.has_prefix 12 (map_name map) "tether_stats".

Definition vh_is_stats_map (map : option bpf_map) : bool :=
  match map with
  | None => false
  | Some map =>
      if bool_decide (cstr (map_name map) = []) then false
      else vh_is_wide_stats_map map || vh_is_iface_stats_map map ||
           Bpf.has_prefix 9 (map_name map) "uid_stats" || Bpf.has_prefix 13 (map_name map) "app_uid_stats"
  end.

Definition vh_is_vpn_stats_key (e : bpf_env) (key : bytes) : bool :=
  is_active_vpn_ifindex (be_vpns e) (key_ifaceIndex key) || is_target_uid_val (be_policy e) (key_uid key).

(** The sum starts from zeroes at both callers. *)
Definition vh_collect_vpn_traffic_sum (e : bpf_env) (map : bpf_map) : vh_stats_value :=
  foldl (λ sum vpn_idx,
    match map_lookup_elem map (le_split 4 vpn_idx) with
    | Some v => sv_add sum (load_value v)
    | None => sum
    end) zero_value (vpn_ifindexes (be_vpns e)).

Definition has_traffic (e : bpf_env) (sum : vh_stats_value) : bool :=
  nonzero (sv_rx_bytes (be_pkts_first e) sum) || nonzero (sv_tx_bytes (be_pkts_first e) sum).

(** The guards both hooks share. *)
Definition bpf_laundered (e : bpf_env) (uid : Z) : bool :=
  globally_active (be_policy e) HOOK_BPF && negb (is_target_uid_val (be_policy e) uid) &&
  is_hook_active (be_policy e) HOOK_BPF uid.

(** *** A single value *)

(** [key] and [value] are the kernel's buffers from the pointer on; [value] ends
    up with 32 bytes written. *)
Definition vpnhide_bpf_lookup_elem (e : bpf_env) (uid : Z) (map : option bpf_map) (key value : option bytes)
    : option bytes :=
  match map, key, value with
  | Some map, Some key, Some sv =>
      if negb (bpf_laundered e uid) then value
      else if vh_is_wide_stats_map map then
        if vh_is_vpn_stats_key e key then Some (store_value zero_value sv) else value
      else if vh_is_iface_stats_map map then
        let ifindex := key_ifindex key in
        if is_active_vpn_ifindex (be_vpns e) ifindex then Some (store_value zero_value sv)
        else
          let cover_idx := u32 (be_cover_ifindex e) in
          if nonzero cover_idx && (ifindex =? cover_idx) then
            let vpn_sum := vh_collect_vpn_traffic_sum e map in
            if has_traffic e vpn_sum then Some (store_value (sv_add (load_value sv) vpn_sum) sv) else value
          else value
      else value
  | _, _, _ => value
  end.

(** *** A batch *)

(** [memcpy(buf + off, bs, length)] *)
Definition write_at (off : nat) (bs buf : bytes) : bytes := take off buf ++ bs ++ drop (off + length bs) buf.

Section batch.
Context (e : bpf_env) (map : bpf_map) (wide iface : bool) (keys : bytes) (key_size value_size : nat).

(** [k] of row [i]; [keys] goes on behind the copied keys. *)
Definition kp_row_key (i : nat) : bytes := drop (i * key_size) keys.

Definition kp_hide_row (i : nat) : bool :=
  if wide then vh_is_vpn_stats_key e (kp_row_key i)
  else is_active_vpn_ifindex (be_vpns e) (key_ifindex (kp_row_key i)).

Definition kp_zero_rows (count : nat) (vals : bytes) : bytes :=
  foldl (λ vals i, if kp_hide_row i then write_at (i * value_size) (replicate value_size x00) vals else vals)
    vals (seq 0 count).

(** The first row of the cover interface. *)
Definition kp_cover_pos (count : nat) (cover_idx : Z) : option nat :=
  List.find (λ i, key_ifindex (kp_row_key i) =? cover_idx) (seq 0 count).

Definition kp_launder_cover (count : nat) (vals : bytes) : bytes :=
  if iface && (sizeof_stats_value <=? Z.of_nat value_size) then
    let vpn_sum := vh_collect_vpn_traffic_sum e map in
    let cover_idx := u32 (be_cover_ifindex e) in
    let cover_pos :=
      if nonzero cover_idx && has_traffic e vpn_sum then kp_cover_pos count cover_idx else None in
    match cover_pos with
    | Some pos =>
        let v := drop (pos * value_size) vals in
        write_at (pos * value_size) (take 32 (store_value (sv_add (load_value v) vpn_sum) v)) vals
    | None => vals
    end
  else vals.

Definition kp_batch_values (count : nat) (vals : bytes) : bytes :=
  kp_launder_cover count (kp_zero_rows count vals).
End batch.

(** [uattr] is 0 for NULL; [junk] is what follows the block of keys. *)
Definition vpnhide_bpf_lookup_batch (e : bpf_env) (uid : Z) (alloc_keys alloc_vals : bool) (junk : bytes)
    (map : option bpf_map) (attr : option bytes) (uattr : Z) (m : umem) : umem :=
  match map, attr with
  | Some map, Some attr =>
      if uattr =? 0 then m
      else if negb (bpf_laundered e uid) then m
      else
        let wide := vh_is_wide_stats_map map in
        let iface := vh_is_iface_stats_map map in
        if negb wide && negb iface then m
        else
          match get_user 4 m (uattr + off_batch_count) with
          | None => m
          | Some count =>
              if (count =? 0) || (4096 <? count) then m
              else if negb alloc_keys || negb alloc_vals then m
              else
                match copy_in m (attr_batch_keys attr) (Z.to_nat (count * map_key_size map)),
                      copy_in m (attr_batch_values attr) (Z.to_nat (count * map_value_size map)) with
                | Some keys, Some vals =>
                    (copy_out m (attr_batch_values attr)
                       (kp_batch_values e map wide iface (keys ++ junk) (Z.to_nat (map_key_size map))
                          (Z.to_nat (map_value_size map)) (Z.to_nat count) vals)).1
                | _, _ => m
                end
          end
  | _, _ => m
  end.

(** ** Netlink *)

Definition vpnhide_should_hide_dev (d : device) (uid : Z) (dev : net_device) (st : stats_state)
    : bool * stats_state :=
  if negb (globally_active (dv_policy d) HOOK_RTNL_FILL) then (false, st)
  else if negb (is_hook_active (dv_policy d) HOOK_RTNL_FILL uid) then (false, st)
  else if negb (is_target d uid) then (false, st)
  else if negb (is_active_vpn_ifindex (dv_vpns d) (u32 (nd_ifindex dev))) then (false, st)
  else (true, kp_record_hook st uid HOOK_RTNL_FILL).

(** [has_uid_range]: [VPNHIDE_FIB_RULE_HAS_UID_RANGE]. *)
Definition vpnhide_skip_fib_rule (has_uid_range : bool) (d : device) (uid : Z) (rule : fib_rule)
    (st : stats_state) : bool * stats_state :=
  if negb (globally_active (dv_policy d) HOOK_FIB_RULE_FILL) then (false, st)
  else if negb (is_hook_active (dv_policy d) HOOK_FIB_RULE_FILL uid) then (false, st)
  else if negb (is_target d uid) then (false, st)
  else
    let named name := negb (bool_decide (cstr name = [])) && kp_is_active_vpn_ifname (dv_vpns d) name in
    if named (fr_iifname rule) || named (fr_oifname rule) then
      (true, kp_record_hook st uid HOOK_FIB_RULE_FILL)
    else if has_uid_range && negb (fr_end rule =? UINT32_MAX) &&
            ((10000 <=? fr_start rule) || (10000 <=? fr_end rule) ||
             is_target d (fr_start rule) || is_target d (fr_end rule)) &&
            negb (fr_table rule =? 253) && negb (fr_table rule =? 254) && negb (fr_table rule =? 255) &&
            (100 <? fr_table rule)
    then (true, kp_record_hook st uid HOOK_FIB_RULE_FILL)
    else (false, st).

(** ** Buffers of rows *)

Section rows.
Context (n : nat).

Lemma drop_rows (rows : list bytes) i :
  Forall (λ r, length r = n) rows → drop (i * n) (mjoin rows) = mjoin (drop i rows).
Proof.
  intros Hf. revert i. induction Hf as [|r rows Hr Hf IH]; intros i; [by destruct (i * n)%nat, i|].
  destruct i as [|i]; [done|]. rewrite mjoin_cons. replace (S i * n)%nat with (length r + i * n)%nat by lia.
  rewrite drop_app_add. apply IH.
Qed.

Lemma take_rows (rows : list bytes) i :
  Forall (λ r, length r = n) rows → take (i * n) (mjoin rows) = mjoin (take i rows).
Proof.
  intros Hf. revert i. induction Hf as [|r rows Hr Hf IH]; intros i; [by destruct (i * n)%nat, i|].
  destruct i as [|i]; [done|]. rewrite mjoin_cons. replace (S i * n)%nat with (length r + i * n)%nat by lia.
  rewrite take_app_add. by rewrite IH.
Qed.

Lemma write_row (rows : list bytes) i bs :
  Forall (λ r, length r = n) rows → (i < length rows)%nat → length bs = n →
  write_at (i * n) bs (mjoin rows) = mjoin (<[i := bs]> rows).
Proof.
  intros Hf Hi Hb. unfold write_at. rewrite take_rows by done. rewrite Hb.
  replace (i * n + n)%nat with (S i * n)%nat by lia. rewrite drop_rows by done.
  rewrite insert_take_drop by done. by rewrite join_app, mjoin_cons.
Qed.

Lemma row_read (rows : list bytes) junk i r off :
  Forall (λ r, length r = n) rows → rows !! i = Some r → (off + 4 <= n)%nat →
  le_at 4 (drop (i * n) (mjoin rows ++ junk)) off = le_at 4 r off.
Proof.
  intros Hf Hi Ho. pose proof (Forall_lookup_1 _ _ _ _ Hf Hi) as Hr. simpl in Hr.
  assert (Hl : (i * n <= length (mjoin rows))%nat).
  { rewrite (length_mjoin n) by done. apply lookup_lt_Some in Hi. nia. }
  rewrite drop_app_le, drop_rows by done. rewrite (drop_S _ _ _ Hi), mjoin_cons, <- app_assoc.
  apply le_at_app_l. lia.
Qed.
End rows.

(** A loop that overwrites some rows. *)
Lemma overwrite_rows (hide : nat → bool) (z : bytes) (rows : list bytes) count n :
  Forall (λ r, length r = n) rows → length z = n → (count <= length rows)%nat →
  ∃ rows', foldl (λ vals i, if hide i then write_at (i * n) z vals else vals) (mjoin rows) (seq 0 count) = mjoin rows' ∧
    length rows' = length rows ∧ Forall (λ r, length r = n) rows' ∧
    ∀ i v, rows !! i = Some v → rows' !! i = Some (if decide (i < count)%nat then if hide i then z else v else v).
Proof.
  intros Hf Hz. induction count as [|c IH]; intros Hc.
  { exists rows. by split_and!. }
  destruct IH as (rows' & E & Hl & Hf' & Hr); [lia|]. rewrite seq_S, foldl_snoc, E. simpl.
  destruct (hide c) eqn:Eh.
  - exists (<[c := z]> rows'). rewrite (write_row n) by (done || lia). split_and!; [done|by rewrite length_insert|by apply Forall_insert|].
    intros i v Hi. destruct (decide (i = c)) as [->|Hn].
    + rewrite list_lookup_insert_eq by lia. by rewrite decide_True, Eh by lia.
    + rewrite list_lookup_insert_ne by done. rewrite (Hr i v Hi). repeat case_decide; lia || done.
  - exists rows'. split_and!; try done. intros i v Hi. rewrite (Hr i v Hi).
    destruct (decide (i = c)) as [->|Hn]; [rewrite Eh; repeat case_decide; done || lia|].
    repeat case_decide; lia || done.
Qed.

Lemma wide_not_iface map : vh_is_wide_stats_map map = true → vh_is_iface_stats_map map = false.
Proof.
  unfold vh_is_wide_stats_map, vh_is_iface_stats_map, Bpf.has_prefix. generalize (map_name map). intros name.
  rewrite orb_true_iff, !strncmp_eq_spec. intros H. rewrite !orb_false_iff, <- !not_true_iff_false, !strncmp_eq_spec.
  assert (Hh : take 10 (cstr name) = take 10 (text "stats_map_") ∨ take 10 (cstr name) = take 10 (text "map_netd_stats")).
  { destruct H as [H|H]; [left; exact H|right]. apply (f_equal (take 10)) in H. rewrite !take_take in H. exact H. }
  assert (Hk : ∀ k s, (10 <= k)%nat → take k (cstr name) = s → take 10 (cstr name) = take 10 s).
  { intros k s Hle <-. by rewrite take_take, Nat.min_l by lia. }
  split_and!; intros E; apply Hk in E; try lia; destruct Hh as [Hh|Hh]; rewrite Hh in E; vm_compute in E; discriminate.
Qed.

Lemma load_value_app v rest : length v = 32%nat → load_value (v ++ rest) = load_value v.
Proof. intros Hl. unfold load_value. by rewrite !le_at_app_l by lia. Qed.

Lemma take_store w v rest :
  length v = 32%nat → take 32 (store_value w (v ++ rest)) = store_value w v.
Proof.
  intros Hl. unfold store_value. rewrite (drop_ge v) by lia. rewrite !app_assoc, take_app_le, take_ge by (len; done).
  by rewrite app_nil_r.
Qed.

Lemma store_zero v : length v = 32%nat → store_value zero_value v = replicate 32 x00.
Proof. intros Hl. unfold store_value. rewrite drop_ge by lia. reflexivity. Qed.

Section batch_rows.
Context (e : bpf_env) (uid : Z) (map : bpf_map) (ks vs : list bytes) (key_size : nat) (junk : bytes).

(** What a lookup of one key answers. *)
Definition single (k v : bytes) : bytes :=
  default v (vpnhide_bpf_lookup_elem e uid (Some map) (Some k) (Some v)).

(** Keys and values as the kernel stores them: complete keys, one per value, at
    most one for the cover interface, which is not a VPN's. *)
Record batch_rows : Prop := {
  bw_keys : Forall (λ k, length k = key_size) ks;
  bw_vals : Forall (λ v, length v = 32%nat) vs;
  bw_same : length ks = length vs;
  bw_key_size : (4 <= key_size)%nat;
  bw_wide : vh_is_wide_stats_map map = true → (16 <= key_size)%nat;
  bw_unique : ∀ i j k k', ks !! i = Some k → ks !! j = Some k' →
    key_ifindex k = u32 (be_cover_ifindex e) → key_ifindex k' = u32 (be_cover_ifindex e) → i = j;
  bw_cover : is_active_vpn_ifindex (be_vpns e) (u32 (be_cover_ifindex e)) = false
}.

Context (Hb : batch_rows) (Hon : bpf_laundered e uid = true).

Abbreviation keys := (mjoin ks ++ junk).
Abbreviation wide := (vh_is_wide_stats_map map).
Abbreviation iface := (vh_is_iface_stats_map map).

Lemma hide_row_read i k :
  ks !! i = Some k →
  kp_hide_row e wide keys key_size i =
  if wide then vh_is_vpn_stats_key e k else is_active_vpn_ifindex (be_vpns e) (key_ifindex k).
Proof using Hb.
  intros Hi. destruct Hb. unfold kp_hide_row, vh_is_vpn_stats_key, key_ifaceIndex, key_uid, key_ifindex, kp_row_key.
  destruct wide eqn:Ew; [specialize (bw_wide0 eq_refl)|]; by rewrite !(row_read key_size ks junk i k) by (done || lia).
Qed.

Lemma cover_pos_spec cover :
  match kp_cover_pos keys key_size (length vs) cover with
  | Some pos => ∃ k, ks !! pos = Some k ∧ key_ifindex k = cover
  | None => ∀ i k, ks !! i = Some k → key_ifindex k ≠ cover
  end.
Proof using Hb.
  destruct Hb. unfold kp_cover_pos.
  assert (Hread : ∀ i k, ks !! i = Some k → key_ifindex (kp_row_key keys key_size i) = key_ifindex k).
  { intros i k Hi. unfold key_ifindex, kp_row_key. by rewrite (row_read key_size ks junk i k) by (done || lia). }
  destruct (List.find _ _) as [pos|] eqn:E.
  - apply List.find_some in E as [Hin He]. apply in_seq in Hin.
    destruct (lookup_lt_is_Some_2 ks pos) as [k Hk]; [lia|]. exists k. split; [done|].
    rewrite (Hread pos k Hk) in He. by apply Z.eqb_eq.
  - intros i k Hi He. pose proof (lookup_lt_Some _ _ _ Hi).
    pose proof (List.find_none _ _ E i) as Hn. simpl in Hn. rewrite (Hread i k Hi), He, Z.eqb_refl in Hn.
    discriminate Hn. apply in_seq. lia.
Qed.

(** A row of the result. *)
Definition cover_row (k : bytes) : bool :=
  iface && nonzero (u32 (be_cover_ifindex e)) && has_traffic e (vh_collect_vpn_traffic_sum e map) &&
  (key_ifindex k =? u32 (be_cover_ifindex e)).

Lemma single_row i k v :
  ks !! i = Some k → vs !! i = Some v → wide || iface = true →
  single k v =
  if kp_hide_row e wide keys key_size i then replicate 32 x00
  else if cover_row k then store_value (sv_add (load_value v) (vh_collect_vpn_traffic_sum e map)) v else v.
Proof using Hb Hon.
  intros Hk Hv Hkind. pose proof (Forall_lookup_1 _ _ _ _ (bw_vals Hb) Hv) as Hl. simpl in Hl.
  rewrite (hide_row_read i k Hk). unfold single, vpnhide_bpf_lookup_elem, cover_row. rewrite Hon. cbn [negb].
  destruct wide eqn:Ew.
  - rewrite (wide_not_iface map Ew). destruct (vh_is_vpn_stats_key e k); simpl; by rewrite ?store_zero.
  - simpl in Hkind. rewrite Hkind. destruct (is_active_vpn_ifindex _ _); simpl; [by rewrite store_zero|].
    destruct (nonzero _); [|done]. cbn [andb]. destruct (_ =? _); rewrite ?andb_true_r, ?andb_false_r; [|done].
    by destruct (has_traffic _ _).
Qed.

Lemma rows_single rows :
  length rows = length vs →
  (∀ i k v, ks !! i = Some k → vs !! i = Some v → rows !! i = Some (single k v)) →
  mjoin rows = mjoin (zip_with single ks vs).
Proof using Hb.
  intros Hl Hr. f_equal. apply list_eq. intros i. rewrite lookup_zip_with. pose proof (bw_same Hb).
  destruct (ks !! i) as [k|] eqn:Ek; simpl.
  - destruct (lookup_lt_is_Some_2 vs i) as [v Ev]; [apply lookup_lt_Some in Ek; lia|]. rewrite Ev. simpl. auto.
  - apply lookup_ge_None_2. apply lookup_ge_None in Ek. lia.
Qed.

(** The rows after the first loop are right, the cover row apart. *)
Lemma zeroed_rows :
  wide || iface = true →
  ∃ rows, kp_zero_rows e wide keys key_size 32 (length vs) (mjoin vs) = mjoin rows ∧
    length rows = length vs ∧ Forall (λ r, length r = 32%nat) rows ∧
    ∀ i k v, ks !! i = Some k → vs !! i = Some v → rows !! i = Some (if cover_row k then v else single k v).
Proof using Hb Hon.
  intros Hkind. unfold kp_zero_rows.
  destruct (overwrite_rows (kp_hide_row e wide keys key_size) (replicate 32 x00) vs (length vs) 32)
    as (rows & -> & Hl & Hf & Hr); [apply Hb|done|done|].
  exists rows. split_and!; try done. intros i k v Hk Hv.
  rewrite (single_row i k v Hk Hv Hkind), (Hr i v Hv), decide_True by (by eapply lookup_lt_Some).
  destruct (cover_row k) eqn:Ec; [|done]. unfold cover_row in Ec. rewrite !andb_true_iff in Ec.
  destruct Ec as [[[Ei _] _] Ec%Z.eqb_eq]. rewrite (hide_row_read i k Hk), Ec, (bw_cover Hb).
  destruct wide eqn:Ew; [|done]. by rewrite (wide_not_iface map Ew) in Ei.
Qed.

Lemma batch_values_rows :
  wide || iface = true →
  kp_batch_values e map wide iface keys key_size 32 (length vs) (mjoin vs) = mjoin (zip_with single ks vs).
Proof using Hb Hon.
  intros Hkind. unfold kp_batch_values. destruct (zeroed_rows Hkind) as (rows & -> & Hl & Hf & Hr).
  unfold kp_launder_cover. set (sum := vh_collect_vpn_traffic_sum e map). set (cover := u32 (be_cover_ifindex e)).
  assert (Hcover : ∀ k, cover_row k = iface && (nonzero cover && has_traffic e sum) && (key_ifindex k =? cover)).
  { intros k. unfold cover_row. by rewrite !andb_assoc. }
  assert (Hnone : (∀ i k, ks !! i = Some k → cover_row k = false) → mjoin rows = mjoin (zip_with single ks vs)).
  { intros Hc. apply rows_single; [done|]. intros i k v Hk Hv. by rewrite (Hr i k v Hk Hv), (Hc i k Hk). }
  destruct iface eqn:Ei; cbn [andb]; [|apply Hnone; intros; by rewrite Hcover].
  change (sizeof_stats_value <=? Z.of_nat 32) with true. cbv iota.
  destruct (nonzero cover && has_traffic e sum) eqn:Et; [|apply Hnone; intros; by rewrite Hcover].
  pose proof (cover_pos_spec cover) as Hp. destruct (kp_cover_pos _ _ _ _) as [pos|].
  2: { apply Hnone. intros i k Hk. rewrite Hcover. by apply Z.eqb_neq, (Hp i k). }
  destruct Hp as (k & Hk & Hkc). pose proof (bw_same Hb).
  destruct (lookup_lt_is_Some_2 vs pos) as [v Ev]; [apply lookup_lt_Some in Hk; lia|].
  pose proof (Forall_lookup_1 _ _ _ _ (bw_vals Hb) Ev) as Hlv. simpl in Hlv.
  assert (Hck : cover_row k = true) by (rewrite Hcover, Hkc, Z.eqb_refl; done).
  pose proof (Hr pos k v Hk Ev) as Hrow. rewrite Hck in Hrow.
  rewrite (drop_rows 32), (drop_S _ _ _ Hrow), mjoin_cons, load_value_app, take_store by done.
  rewrite (write_row 32); [|done|apply lookup_lt_Some in Hrow; lia|rewrite length_store; lia].
  apply rows_single; [by rewrite length_insert|]. intros i k' v' Hk' Hv'. destruct (decide (i = pos)) as [->|Hn].
  - assert (k' = k) as -> by congruence. assert (v' = v) as -> by congruence. rewrite list_lookup_insert_eq by (by eapply lookup_lt_Some). f_equal.
    rewrite (single_row pos k v); rewrite ?Ei; try done. rewrite Hck, (hide_row_read pos k Hk), Hkc. fold cover sum.
    assert (Hc0 : is_active_vpn_ifindex (be_vpns e) cover = false) by apply (bw_cover Hb). rewrite Hc0.
    destruct wide eqn:Ew; [by rewrite (wide_not_iface map Ew) in Ei|done].
  - rewrite list_lookup_insert_ne by done. rewrite (Hr i k' v' Hk' Hv').
    replace (cover_row k') with false; [done|]. rewrite Hcover. symmetry. apply Z.eqb_neq. intros He.
    destruct Hn. by eapply (bw_unique Hb).
Qed.
End batch_rows.

(** A page of more than 4096 rows, or one for which there is no memory, reaches the
    app as the kernel filled it: rows of VPN interfaces included, although a single
    lookup zeroes them. *)
Theorem kp_large_batch_unfiltered e uid ak av junk map attr uattr m count :
  get_user 4 m (uattr + off_batch_count) = Some count → 4096 < count ∨ ak = false ∨ av = false →
  vpnhide_bpf_lookup_batch e uid ak av junk map attr uattr m = m.
Proof.
  intros Hcount Hc. unfold vpnhide_bpf_lookup_batch. destruct map as [map|]; [|done]. destruct attr as [attr|]; [|done].
  destruct (uattr =? 0); [done|]. destruct (negb (bpf_laundered e uid)); [done|]. destruct (_ && _); [done|].
  rewrite Hcount. destruct (Z.ltb_spec 4096 count); [by rewrite orb_true_r|]. destruct (_ || _); [done|].
  destruct Hc as [?|[-> | ->]]; [lia|done|by rewrite orb_true_r].
Qed.


(** A page of an interface map: the VPN's row and the cover's. *)
Definition iface_map : bpf_map :=
  mk_bpf_map (text "iface_stats_map") 4 32 (λ k, if decide (k = le_split 4 30) then Some (le_split 8 700 ++ zeroes 24) else None).
Definition iface_env : bpf_env :=
  mk_bpf_env (Some target_snapshot) (Some (vpn_table [mk_active_vpn 30 (name_field (text "tun0"))])) 3 false.
Definition iface_keys : list bytes := [le_split 4 30; le_split 4 3].
Definition iface_vals : list bytes := [le_split 8 700 ++ zeroes 24; le_split 8 50 ++ zeroes 24].
Definition iface_attr : bytes := zeroes 16 ++ le_split 8 8192 ++ le_split 8 12288 ++ zeroes 8.
Definition iface_mem : umem :=
  put_bytes 4096 (zeroes 32 ++ le_split 4 2 ++ zeroes 4)
    (put_bytes 8192 (mjoin iface_keys) (put_bytes 12288 (mjoin iface_vals) ∅)).


(** ** Netlink as the module filters it *)

Lemma kp_names_agree d name :
  negb (bool_decide (cstr name = [])) && kp_is_active_vpn_ifname (dv_vpns d) name = is_active_vpn_ifname (dv_vpns d) name.
Proof.
  unfold kp_is_active_vpn_ifname, is_active_vpn_ifname. by destruct (bool_decide _), (dv_vpns d).
Qed.

(** The in-tree filters hide a link or a routing rule from an app exactly
    when the module's probes do and the global mask has the hook on. *)
Theorem kp_netlink_gated d uid dev rule skb st :
  (vpnhide_should_hide_dev d uid dev st).1 =
    globally_active (dv_policy d) HOOK_RTNL_FILL && bool_decide (is_Some (rtnl_fill_entry d uid (Some dev) skb)) ∧
  (vpnhide_skip_fib_rule true d uid rule st).1 =
    globally_active (dv_policy d) HOOK_FIB_RULE_FILL &&
    bool_decide (is_Some (fib_rule_fill_entry d uid (Some rule) skb)).
Proof.
  assert (Hsome : ∀ {A} (b : bool) (x : A), bool_decide (is_Some (if negb b then None else Some x)) = b).
  { intros A [] x; [by apply bool_decide_eq_true_2|]. apply bool_decide_eq_false_2. by intros [? ?]. }
  split.
  - unfold vpnhide_should_hide_dev, rtnl_fill_entry, guarded, is_vpn_dev.
    destruct (globally_active _ _), (is_hook_active _ _ _), (is_target _ _); simpl; try done. rewrite Hsome.
    by destruct (is_active_vpn_ifindex _ _).
  - unfold vpnhide_skip_fib_rule, fib_rule_fill_entry, guarded.
    destruct (globally_active _ _), (is_hook_active _ _ _), (is_target d uid); simpl; try done.
    rewrite Hsome, !kp_names_agree. unfold rule_hidden. rewrite !rule_names_vpn_spec. destruct (_ || _); [done|].
    unfold splits_uids.
    destruct (fr_end rule =? UINT32_MAX), ((10000 <=? fr_start rule) || _ || _ || _), (fr_table rule =? 253),
      (fr_table rule =? 254), (fr_table rule =? 255), (100 <? fr_table rule); done.
Qed.

(** An app's own mask turns the filter of links on while the global mask has it
    off: the module hides the VPN from the app, the patched kernel does not. *)
Definition override_device : device :=
  set_policy target_device (Some
    {| active_hooks_mask := PORT_HOOK_BITS; java_hooks_mask := 0; debug_enabled := 0; flags := 0;
       kmod_match_mode := 0; lsposed_match_mode := 0; port_match_mode := 0;
       iface_prefixes := iface_prefixes example_snapshot;
       kmod_uids := [10123]; lsposed_uids := []; port_targets := []; port_rules := [];
       app_hook_masks := [mk_app_hook_mask_v3 10123 UINT32_MAX 0 1 0 []] |}).

Theorem kp_override_without_effect :
  is_Some (rtnl_fill_entry override_device 10123 (Some (mk_net_device 30 [])) (Some [])) ∧
  (vpnhide_should_hide_dev override_device 10123 (mk_net_device 30 []) (dv_stats override_device)).1 = false.
Proof. split; [eexists|]; vm_compute; reflexivity. Qed.
