(* ===== verification/JsonObject.v ===== *)
(** * JSON objects as hash tables

    The objects of [kmod/parson.c]: parallel arrays of names, values and hashes in
    the order of insertion, and a table of cells with linear probing that leads
    from a name to its position.  The rest of the development sees an object as
    the list of its fields; here the table is shown to behave like that list. *)
From Stdlib Require Import Strings.Byte ZArith Lia.
From stdpp Require Import base gmap numbers list.
From S2P Require Import Prelude Userspace.

#[local] Open Scope Z_scope.

(** ** Outcomes *)

(** A C function of the library returns a value or fails ([NULL] or
    [JSONFailure]); [Fault] is an access outside of memory, or running out of
    fuel. *)
Inductive outcome (A : Type) :=
  | Done (a : A)
  | Failed
  | Fault.
Arguments Done {A} a.
Arguments Failed {A}.
Arguments Fault {A}.

(** A function that allocates consumes the answers of [malloc]; an exhausted list
    stands for a machine with enough memory. *)
Definition run (A : Type) : Type := list bool → outcome (A * list bool).

#[export] Instance run_ret : MRet run := λ A a mem, Done (a, mem).
#[export] Instance run_bind : MBind run := λ A B k m mem,
  match m mem with Done (a, mem) => k a mem | Failed => Failed | Fault => Fault end.

Definition failed {A} : run A := λ _, Failed.
Definition fault {A} : run A := λ _, Fault.
Definition malloc : run unit := λ mem,
  match mem with [] => Done ((), []) | true :: mem => Done ((), mem) | false :: _ => Failed end.

(** [None] is a fault. *)
Definition need {A} (x : option A) : run A := match x with Some a => mret a | None => fault end.

(** Memory pressure can make a function fail, but not answer differently. *)
Definition steady {A} (m : run A) : Prop :=
  ∀ mem a mem', m mem = Done (a, mem') → m [] = Done (a, []).

(** Neither faults nor runs out of fuel. *)
Definition safe {A} (m : run A) : Prop := ∀ mem, m mem ≠ Fault.

Lemma steady_ret {A} (a : A) : steady (mret a).
Proof. intros mem b mem'. unfold mret, run_ret. congruence. Qed.
Lemma steady_failed {A} : steady (@failed A).
Proof. by intros mem a mem'. Qed.
Lemma steady_fault {A} : steady (@fault A).
Proof. by intros mem a mem'. Qed.
Lemma steady_malloc : steady malloc.
Proof. intros [|[] mem] [] mem'; simpl; done || congruence. Qed.
Lemma steady_bind {A B} (m : run A) (k : A → run B) : steady m → (∀ a, steady (k a)) → steady (m ≫= k).
Proof.
  intros Hm Hk mem b mem'. unfold mbind, run_bind.
  destruct (m mem) as [[a mem1]| |] eqn:E; try done. intros H. rewrite (Hm _ _ _ E). by eapply Hk.
Qed.
Lemma steady_need {A} (x : option A) : steady (need x).
Proof. destruct x; [apply steady_ret|apply steady_fault]. Qed.

Lemma safe_ret {A} (a : A) : safe (mret a).
Proof. by intros mem. Qed.
Lemma safe_failed {A} : safe (@failed A).
Proof. by intros mem. Qed.
Lemma safe_malloc : safe malloc.
Proof. by intros [|[] mem]. Qed.

(** What is needed after a step is needed for its results only. *)
Lemma safe_bind {A B} (m : run A) (k : A → run B) :
  safe m → (∀ a mem mem', m mem = Done (a, mem') → safe (k a)) → safe (m ≫= k).
Proof.
  intros Hm Hk mem. unfold mbind, run_bind. pose proof (Hm mem). destruct (m mem) as [[a mem1]| |] eqn:E; try done.
  by apply (Hk a mem mem1).
Qed.
Lemma safe_need {A} (x : option A) : is_Some x → safe (need x).
Proof. intros [a ->]. apply safe_ret. Qed.

(** Succeeds with a result in [P], unless an allocation fails. *)
Definition yields {A} (m : run A) (P : A → Prop) : Prop :=
  ∀ mem, match m mem with
         | Done (a, mem') => P a ∧ (mem = [] → mem' = [])
         | Failed => mem ≠ []
         | Fault => False
         end.

Lemma yields_ret {A} (a : A) (P : A → Prop) : P a → yields (mret a) P.
Proof. by intros H mem. Qed.
Lemma yields_malloc : yields malloc (λ _, True).
Proof. by intros [|[] mem]. Qed.
Lemma yields_bind {A B} (m : run A) (k : A → run B) (P : A → Prop) (Q : B → Prop) :
  yields m P → (∀ a, P a → yields (k a) Q) → yields (m ≫= k) Q.
Proof.
  intros Hm Hk mem. unfold mbind, run_bind. specialize (Hm mem). destruct (m mem) as [[a mem1]| |]; try done.
  destruct Hm as [HP Hmem]. specialize (Hk a HP mem1). destruct (k a mem1) as [[b mem2]| |]; [|naive_solver|done].
  destruct Hk as [HQ Hmem']. auto.
Qed.
Lemma yields_weaken {A} (m : run A) (P Q : A → Prop) : yields m P → (∀ a, P a → Q a) → yields m Q.
Proof. intros Hm HPQ mem. specialize (Hm mem). destruct (m mem) as [[a mem']| |]; naive_solver. Qed.
Lemma yields_safe {A} (m : run A) P : yields m P → safe m.
Proof. intros Hm mem. specialize (Hm mem). by destruct (m mem) as [[? ?]| |]. Qed.
Lemma yields_done {A} (m : run A) P : yields m P → ∃ a, m [] = Done (a, []) ∧ P a.
Proof.
  intros Hm. specialize (Hm []). destruct (m []) as [[a mem']| |]; [|done..]. destruct Hm as [HP ->]; eauto.
Qed.
Lemma yields_result {A} (m : run A) P mem a mem' : yields m P → m mem = Done (a, mem') → P a.
Proof. intros Hm E. specialize (Hm mem). rewrite E in Hm. apply Hm. Qed.

Create HintDb runs.
#[export] Hint Resolve steady_ret steady_failed steady_fault steady_malloc steady_need safe_ret safe_failed safe_malloc : runs.
#[export] Hint Extern 2 (steady (_ ≫= _)) => apply steady_bind; [|intros] : runs.

(** ** The table *)

Definition STARTING_CAPACITY : nat := 16.

Section object.
Context {A : Type}.

(** [count] is the length of the four arrays; [None] in a cell is
    [OBJECT_INVALID_IX]. *)
Record json_object := mk_object {
  ob_cells : list (option nat);
  ob_hashes : list Z;
  ob_names : list bytes;
  ob_values : list A;
  ob_cell_ixs : list nat;
  ob_item_capacity : nat
}.

Definition ob_count (o : json_object) : nat := length (ob_names o).
Definition ob_cell_capacity (o : json_object) : nat := length (ob_cells o).

(** [unsigned long] arithmetic; the loop stops at a NUL. *)
Definition hash_string (s : bytes) (n : nat) : Z :=
  foldl (λ hash c, u64 (u64 (Z.shiftl hash 5) + hash + byte_to_Z c)) 5381 (take n (cstr s)).

(** The [unsigned int] counter of the loop that clears the cells never reaches a
    capacity of 2^32, which counts as running out of fuel; below it the cast of
    [item_capacity] to [unsigned int] changes nothing. *)
Definition json_object_init (capacity : nat) : run json_object :=
  let o := mk_object (replicate capacity None) [] [] [] [] (capacity * 7 / 10) in
  if (capacity =? 0)%nat then mret o
  else
    _ ← malloc; _ ← malloc; _ ← malloc; _ ← malloc; _ ← malloc;
    if 2 ^ 32 <=? Z.of_nat capacity then fault else mret o.

Definition json_object_make : run json_object := _ ← malloc; json_object_init 0.

(** [key_to_check_len == key_len && strncmp(key, key_to_check, key_len) == 0] *)
Definition key_matches (key : bytes) (key_len : nat) (name : bytes) : bool :=
  (length name =? key_len)%nat && strncmp_eq key_len key name.

(** The loop of [json_object_get_cell_ix] from round [i] on: the cell it returns
    ([None] for [OBJECT_INVALID_IX]) and [out_found]. *)
Fixpoint cell_loop (o : json_object) (key : bytes) (key_len : nat) (hash cell_ix : Z) (rounds : nat) (i : Z)
    : run (option nat * bool) :=
  match rounds with
  | O => mret (None, false)
  | S rounds =>
      let ix := Z.to_nat (Z.land (cell_ix + i) (Z.of_nat (ob_cell_capacity o) - 1)) in
      cell ← need (ob_cells o !! ix);
      match cell with
      | None => mret (Some ix, false)
      | Some cell =>
          hash_to_check ← need (ob_hashes o !! cell);
          if negb (hash =? hash_to_check) then cell_loop o key key_len hash cell_ix rounds (i + 1)
          else
            name ← need (ob_names o !! cell);
            if key_matches key key_len name then mret (Some ix, true)
            else cell_loop o key key_len hash cell_ix rounds (i + 1)
      end
  end.

Definition json_object_get_cell_ix (o : json_object) (key : bytes) (key_len : nat) (hash : Z)
    : run (option nat * bool) :=
  let cell_ix := Z.land hash (u64 (Z.of_nat (ob_cell_capacity o) - 1)) in
  cell_loop o key key_len hash cell_ix (ob_cell_capacity o) 0.

(** The five assignments and [count++]; a cell outside the table is a fault, and so
    is a position outside the arrays of [item_capacity] elements. *)
Definition object_append (o : json_object) (cell_ix : option nat) (hash : Z) (name : bytes) (value : A)
    : run json_object :=
  c ← need cell_ix;
  _ ← need (ob_cells o !! c);
  if (ob_item_capacity o <=? ob_count o)%nat then fault
  else mret (mk_object (<[c := Some (ob_count o)]> (ob_cells o)) (ob_hashes o ++ [hash]) (ob_names o ++ [name])
          (ob_values o ++ [value]) (ob_cell_ixs o ++ [c]) (ob_item_capacity o)).

(** [json_object_add] with [json_object_grow_and_rehash], which calls it for a
    table twice as large: two levels of fuel are enough. *)
Fixpoint object_add (fuel : nat) (o : json_object) (name : bytes) (value : A) : run json_object :=
  match fuel with
  | O => fault
  | S fuel =>
      let hash := hash_string name (length name) in
      '(cell_ix, found) ← json_object_get_cell_ix o name (length name) hash;
      if found : bool then failed
      else if (ob_item_capacity o <=? ob_count o)%nat then
        o ← (new ← json_object_init (Nat.max (ob_cell_capacity o * 2) STARTING_CAPACITY);
             foldl (λ new '(k, v), new ← new; object_add fuel new k v) (mret new)
               (zip (ob_names o) (ob_values o)));
        '(cell_ix, _) ← json_object_get_cell_ix o name (length name) hash;
        object_append o cell_ix hash name value
      else object_append o cell_ix hash name value
  end.

Definition json_object_add : json_object → bytes → A → run json_object := object_add 2.

Definition json_object_getn_value (o : json_object) (name : bytes) (name_len : nat) : run (option A) :=
  let hash := hash_string name name_len in
  '(cell_ix, found) ← json_object_get_cell_ix o name name_len hash;
  if negb found then mret None
  else
    c ← need cell_ix;
    cell ← need (ob_cells o !! c);
    item_ix ← need cell;
    v ← need (ob_values o !! item_ix);
    mret (Some v).

Definition json_object_get_name (o : json_object) (index : nat) : option bytes := ob_names o !! index.
Definition json_object_get_value_at (o : json_object) (index : nat) : option A := ob_values o !! index.

(** The fields in the order in which they were added. *)
Definition fields (o : json_object) : list (bytes * A) := zip (ob_names o) (ob_values o).
End object.
Arguments json_object : clear implicits.

(** ** Lookups *)

Definition nul_free (s : bytes) : Prop := Forall (λ b, b ≠ x00) s.
Definition name_hash (n : bytes) : Z := hash_string n (length n).

Lemma bind_mret {A B} (a : A) (k : A → run B) : (mret a ≫= k) = k a.
Proof. reflexivity. Qed.

Lemma bind_need {A B} (x : option A) a (k : A → run B) : x = Some a → (need x ≫= k) = k a.
Proof. by intros ->. Qed.

Lemma key_matches_spec key name :
  nul_free key → nul_free name → key_matches key (length key) name = bool_decide (name = key).
Proof.
  intros Hk Hn. unfold key_matches. apply eq_bool_prop_intro. rewrite !Is_true_true, andb_true_iff, bool_decide_eq_true.
  rewrite strncmp_eq_spec, !cstr_id by done. rewrite Nat.eqb_eq. split.
  - intros [Hl He]. rewrite !take_ge in He by lia. done.
  - by intros ->.
Qed.

Section table.
Context {A : Type}.
Implicit Types (o : json_object A) (key name : bytes) (d c j : nat).

(** The cell a name is looked for in round [d]. *)
Definition slot o name d : nat := Z.to_nat ((name_hash name + Z.of_nat d) mod Z.of_nat (ob_cell_capacity o)).

Definition full o c : Prop := ∃ j, ob_cells o !! c = Some (Some j).

Record object_wf o : Prop := {
  ow_hashes : ob_hashes o = name_hash <$> ob_names o;
  ow_values : length (ob_values o) = ob_count o;
  ow_ixs : length (ob_cell_ixs o) = ob_count o;
  ow_nodup : NoDup (ob_names o);
  ow_names : Forall nul_free (ob_names o);
  ow_capacity : ob_cell_capacity o = 0%nat ∨ ∃ k : nat, (4 <= k < 32)%nat ∧ ob_cell_capacity o = (2 ^ k)%nat;
  ow_items : ob_item_capacity o = (ob_cell_capacity o * 7 / 10)%nat;
  ow_count : (ob_count o <= ob_item_capacity o)%nat;
  ow_cells : ∀ c j, ob_cells o !! c = Some (Some j) ↔ ob_cell_ixs o !! j = Some c;
  ow_probe : ∀ j name c, ob_names o !! j = Some name → ob_cell_ixs o !! j = Some c →
    ∃ d, (d < ob_cell_capacity o)%nat ∧ c = slot o name d ∧ ∀ d', (d' < d)%nat → full o (slot o name d')
}.

Section lookup.
Context o (Hwf : object_wf o).

Lemma capacity_pow :
  (0 < ob_cell_capacity o)%nat → ∃ k, 4 <= k < 32 ∧ Z.of_nat (ob_cell_capacity o) = 2 ^ k.
Proof using Hwf.
  intros H0. destruct (ow_capacity o Hwf) as [E|(k & Hk & ->)]; [lia|]. exists (Z.of_nat k).
  split; [lia|]. by rewrite Nat2Z.inj_pow.
Qed.

Lemma slot_range name d : (0 < ob_cell_capacity o)%nat → (slot o name d < ob_cell_capacity o)%nat.
Proof.
  intros H0. unfold slot.
  pose proof (Z.mod_pos_bound (name_hash name + Z.of_nat d) (Z.of_nat (ob_cell_capacity o)) ltac:(lia)). lia.
Qed.

(** The index computed in a round is the slot. *)
Lemma round_slot name d :
  (0 < ob_cell_capacity o)%nat →
  Z.to_nat (Z.land (Z.land (name_hash name) (u64 (Z.of_nat (ob_cell_capacity o) - 1)) + Z.of_nat d)
              (Z.of_nat (ob_cell_capacity o) - 1)) = slot o name d.
Proof using Hwf.
  intros H0. destruct (capacity_pow H0) as (k & Hk & E). unfold slot. rewrite E.
  assert (2 ^ k < 2 ^ 32) by (apply Z.pow_lt_mono_r; lia). assert (0 < 2 ^ k) by (apply Z.pow_pos_nonneg; lia).
  unfold u64. rewrite wrap_small by (unfold fits; lia). rewrite !land_mod_pow2 by lia.
  by rewrite Zplus_mod_idemp_l.
Qed.

(** Every cell is the slot of some round. *)
Lemma slot_surj name c :
  (c < ob_cell_capacity o)%nat → ∃ d, (d < ob_cell_capacity o)%nat ∧ slot o name d = c.
Proof.
  intros Hc. set (cap := Z.of_nat (ob_cell_capacity o)).
  exists (Z.to_nat ((Z.of_nat c - name_hash name) mod cap)). unfold slot. fold cap.
  pose proof (Z.mod_pos_bound (Z.of_nat c - name_hash name) cap ltac:(lia)). split; [lia|].
  rewrite Z2Nat.id by lia. rewrite Zplus_mod_idemp_r.
  replace (name_hash name + (Z.of_nat c - name_hash name)) with (Z.of_nat c) by lia.
  rewrite Z.mod_small by lia. lia.
Qed.

(** The entry in a full cell. *)
Lemma full_entry c j :
  ob_cells o !! c = Some (Some j) →
  ∃ name, ob_names o !! j = Some name ∧ ob_hashes o !! j = Some (name_hash name) ∧ nul_free name.
Proof using Hwf.
  intros Hc. apply (ow_cells o Hwf) in Hc. apply lookup_lt_Some in Hc. rewrite (ow_ixs o Hwf) in Hc.
  destruct (lookup_lt_is_Some_2 (ob_names o) j Hc) as [name Hn]. exists name. split; [done|].
  rewrite (ow_hashes o Hwf), list_lookup_fmap, Hn. split; [done|].
  exact (Forall_lookup_1 _ _ _ _ (ow_names o Hwf) Hn).
Qed.

(** There is room: not every cell is taken. *)
Lemma has_empty : (0 < ob_cell_capacity o)%nat → ∃ c, ob_cells o !! c = Some None.
Proof using Hwf.
  intros H0. destruct (list_find (λ x, x = None) (ob_cells o)) as [[c x]|] eqn:E.
  { apply list_find_Some in E as (Hc & -> & _). eauto. }
  exfalso. apply list_find_None in E.
  assert (Hsub : seq 0 (ob_cell_capacity o) ⊆+ ob_cell_ixs o).
  { apply NoDup_submseteq; [apply NoDup_seq|]. intros c Hc. apply elem_of_seq in Hc.
    destruct (lookup_lt_is_Some_2 (ob_cells o) c) as [x Hx]; [unfold ob_cell_capacity in Hc; lia|].
    destruct x as [j|]; [|by destruct (Forall_lookup_1 _ _ _ _ E Hx)].
    apply (ow_cells o Hwf) in Hx. by eapply list_elem_of_lookup_2. }
  apply submseteq_length in Hsub. rewrite length_seq, (ow_ixs o Hwf) in Hsub.
  pose proof (ow_count o Hwf). rewrite (ow_items o Hwf) in *.
  pose proof (Nat.Div0.div_lt_upper_bound (ob_cell_capacity o * 7) 10 (ob_cell_capacity o)). lia.
Qed.

(** The rounds before [d] have met other names only. *)
Definition passed key d : Prop :=
  ∀ d', (d' < d)%nat → ∃ j name, ob_cells o !! slot o key d' = Some (Some j) ∧
    ob_names o !! j = Some name ∧ name ≠ key.

(** What a lookup answers: the position of the key, or the first empty cell on
    its way. *)
Inductive cell_answer key : option nat * bool → Prop :=
  | CellFound j c : ob_names o !! j = Some key → ob_cell_ixs o !! j = Some c → cell_answer key (Some c, true)
  | CellEmpty d : (d < ob_cell_capacity o)%nat → key ∉ ob_names o → passed key d →
      ob_cells o !! slot o key d = Some None → cell_answer key (Some (slot o key d), false)
  | CellNone : ob_cell_capacity o = 0%nat → cell_answer key (None, false).

Lemma empty_absent key d : passed key d → ob_cells o !! slot o key d = Some None → key ∉ ob_names o.
Proof using Hwf.
  intros Hp He Hin. apply list_elem_of_lookup in Hin as [j Hj].
  pose proof (lookup_lt_Some _ _ _ Hj) as Hl.
  destruct (lookup_lt_is_Some_2 (ob_cell_ixs o) j) as [c Hc]; [rewrite (ow_ixs o Hwf); exact Hl|].
  destruct (ow_probe o Hwf j key c Hj Hc) as (dj & _ & -> & Hfull).
  destruct (Nat.lt_trichotomy d dj) as [Hd|[->|Hd]].
  - destruct (Hfull d Hd) as [? ?]. congruence.
  - apply (ow_cells o Hwf) in Hc. congruence.
  - destruct (Hp dj Hd) as (j' & name & Hc' & Hn & Hne). apply (ow_cells o Hwf) in Hc.
    rewrite Hc in Hc'. simplify_eq.
Qed.

Lemma cell_loop_answer key rounds d :
  nul_free key → (0 < ob_cell_capacity o)%nat → (rounds + d = ob_cell_capacity o)%nat → passed key d →
  ∃ a, cell_loop o key (length key) (name_hash key)
         (Z.land (name_hash key) (u64 (Z.of_nat (ob_cell_capacity o) - 1))) rounds (Z.of_nat d) = mret a ∧
    cell_answer key a.
Proof using Hwf.
  intros Hk H0. revert d. induction rounds as [|rounds IH]; intros d Hr Hp.
  { exfalso. destruct (has_empty H0) as [c Hc].
    destruct (slot_surj key c) as (d' & Hd' & <-); [by eapply lookup_lt_Some|].
    destruct (Hp d') as (j & name & Hc' & _); [lia|]. congruence. }
  cbn [cell_loop]. rewrite round_slot by done.
  destruct (lookup_lt_is_Some_2 (ob_cells o) (slot o key d)) as [x Hx]; [by apply slot_range|].
  rewrite (bind_need _ _ _ Hx). destruct x as [j|].
  2: { eexists. split; [reflexivity|]. apply CellEmpty; try done; [lia|]. by eapply empty_absent. }
  destruct (full_entry _ _ Hx) as (name & Hn & Hh & Hnf). rewrite (bind_need _ _ _ Hh).
  assert (Hnext : name ≠ key → passed key (S d)).
  { intros Hne d' Hd'. destruct (decide (d' = d)) as [->|]; [eauto|]. apply Hp. lia. }
  replace (Z.of_nat d + 1) with (Z.of_nat (S d)) by lia.
  destruct (Z.eqb_spec (name_hash key) (name_hash name)) as [|Hne]; cbn [negb].
  2: { apply IH; [lia|]. apply Hnext. congruence. }
  rewrite (bind_need _ _ _ Hn), key_matches_spec by done. case_bool_decide as Heq.
  - subst name. eexists. split; [reflexivity|]. apply (CellFound _ j); [done|]. by apply (ow_cells o Hwf).
  - apply IH; [lia|]. by apply Hnext.
Qed.

Lemma get_cell_ix_answer key :
  nul_free key → ∃ a, json_object_get_cell_ix o key (length key) (name_hash key) = mret a ∧ cell_answer key a.
Proof using Hwf.
  intros Hk. unfold json_object_get_cell_ix. destruct (decide (ob_cell_capacity o = 0%nat)) as [E|E].
  - rewrite E. eexists. split; [reflexivity|]. by apply CellNone.
  - apply (cell_loop_answer key (ob_cell_capacity o) 0); [done|lia|lia|]. intros d' Hd'. lia.
Qed.
End lookup.

(** ** Insertion *)

Definition extends o key (v : A) (o' : json_object A) : Prop :=
  object_wf o' ∧ fields o' = fields o ++ [(key, v)] ∧ ob_names o' = ob_names o ++ [key] ∧
  ob_values o' = ob_values o ++ [v].

(** A free cell gets the next position. *)
Lemma append_cells o free c j :
  object_wf o → ob_cells o !! free = Some None →
  <[free := Some (ob_count o)]> (ob_cells o) !! c = Some (Some j) ↔ (ob_cell_ixs o ++ [free]) !! j = Some c.
Proof.
  intros Hwf Hfree. pose proof (ow_ixs o Hwf) as Hix. set (n := ob_count o) in *.
  destruct (decide (c = free)) as [->|Hne].
  - rewrite list_lookup_insert_eq by (by eapply lookup_lt_Some). split.
    + intros [= <-]. rewrite lookup_app_r by lia. by rewrite Hix, Nat.sub_diag.
    + intros Hj. destruct (decide (j < n)%nat) as [Hlt|Hge].
      { rewrite lookup_app_l in Hj by lia. apply (ow_cells o Hwf) in Hj. congruence. }
      pose proof (lookup_lt_Some _ _ _ Hj) as Hl. rewrite length_app in Hl. simpl in Hl. do 2 f_equal. lia.
  - rewrite list_lookup_insert_ne by done. rewrite (ow_cells o Hwf). destruct (decide (j < n)%nat).
    + by rewrite lookup_app_l by lia.
    + rewrite (lookup_ge_None_2 (ob_cell_ixs o)) by lia. rewrite lookup_app_r by lia. split; [done|].
      intros [_ ->]%list_lookup_singleton_Some. done.
Qed.

Lemma append_extends o key d v :
  object_wf o → nul_free key → passed o key d →
  (d < ob_cell_capacity o)%nat → key ∉ ob_names o → ob_cells o !! slot o key d = Some None →
  (ob_count o < ob_item_capacity o)%nat →
  ∃ o', object_append o (Some (slot o key d)) (name_hash key) key v = mret o' ∧ extends o key v o' ∧
    ob_cell_capacity o' = ob_cell_capacity o ∧ ob_item_capacity o' = ob_item_capacity o.
Proof.
  intros Hwf Hk Hp Hd Hnew Hc Hroom. unfold object_append.
  rewrite (bind_need (Some _) _ _ eq_refl), (bind_need _ _ _ Hc).
  rewrite (proj2 (Nat.leb_gt _ _) Hroom). eexists. split; [reflexivity|]. unfold extends, fields, ob_cell_capacity, ob_count. cbn [ob_cells ob_names ob_values ob_item_capacity].
  rewrite length_insert. pose proof (ow_values o Hwf) as Hv. unfold ob_count in *.
  split_and!; [|by rewrite zip_with_app by done|done..].
  set (o' := mk_object _ _ _ _ _ _). set (n := length (ob_names o)) in *.
  assert (Hslot : ∀ name d, slot o' name d = slot o name d).
  { intros. unfold slot, ob_cell_capacity, o'. simpl. by rewrite length_insert. }
  assert (Hfull : ∀ c, full o c → full o' c).
  { intros c [j Hj]. unfold full, o'. simpl. destruct (decide (c = slot o key d)) as [->|]; [congruence|].
    exists j. by rewrite list_lookup_insert_ne. }
  pose proof (ow_ixs o Hwf) as Hix. unfold ob_count in Hix. fold n in Hix.
  constructor; unfold ob_count, ob_cell_capacity; cbn [o' ob_cells ob_hashes ob_names ob_values ob_cell_ixs ob_item_capacity].
  - rewrite fmap_app, (ow_hashes o Hwf). done.
  - rewrite !length_app. simpl. lia.
  - rewrite !length_app. simpl. lia.
  - apply NoDup_app. split_and!; [apply Hwf| |apply NoDup_singleton]. intros x Hx ->%list_elem_of_singleton. done.
  - apply Forall_app. split; [apply Hwf|by repeat constructor].
  - rewrite length_insert. apply (ow_capacity o Hwf).
  - rewrite length_insert. apply (ow_items o Hwf).
  - rewrite length_app. simpl. lia.
  - intros c j. by apply append_cells.
  - intros j name c Hj Hjc. rewrite length_insert. destruct (decide (j < n)%nat) as [Hlt|Hge].
    + rewrite lookup_app_l in Hj by lia. rewrite lookup_app_l in Hjc by lia.
      destruct (ow_probe o Hwf j name c Hj Hjc) as (dj & ? & -> & Hf). exists dj. rewrite Hslot. split_and!; try done.
      intros d' Hd'. rewrite Hslot. auto.
    + assert (j = n) as ->.
      { apply lookup_lt_Some in Hj. rewrite length_app in Hj. simpl in Hj. lia. }
      rewrite lookup_app_r, Nat.sub_diag in Hj by lia. simplify_eq/=.
      rewrite lookup_app_r, Hix, Nat.sub_diag in Hjc by lia. simplify_eq/=.
      exists d. rewrite Hslot. split_and!; try done. intros d' Hd'. rewrite Hslot. apply Hfull.
      destruct (Hp d' Hd') as (j & ? & ? & _). by exists j.
Qed.

(** With room, and a new name. *)
Lemma add_room fuel o key v :
  object_wf o → nul_free key → key ∉ ob_names o → (ob_count o < ob_item_capacity o)%nat →
  ∃ o', object_add (S fuel) o key v = mret o' ∧ extends o key v o' ∧
    ob_cell_capacity o' = ob_cell_capacity o ∧ ob_item_capacity o' = ob_item_capacity o.
Proof.
  intros Hwf Hk Hnew Hroom. cbn [object_add]. fold (name_hash key).
  destruct (get_cell_ix_answer o Hwf key Hk) as (a & -> & Ha). rewrite bind_mret.
  destruct Ha as [j c Hj|d Hd _ Hp Hc|E0].
  - destruct Hnew. by eapply list_elem_of_lookup_2.
  - rewrite (proj2 (Nat.leb_gt _ _) Hroom). by apply append_extends.
  - exfalso. rewrite (ow_items o Hwf), E0 in Hroom. simpl in Hroom. lia.
Qed.

(** The empty table of a capacity. *)
Definition empty_object (capacity : nat) : json_object A :=
  mk_object (replicate capacity None) [] [] [] [] (capacity * 7 / 10).

Lemma empty_object_wf capacity :
  capacity = 0%nat ∨ (∃ k : nat, (4 <= k < 32)%nat ∧ capacity = (2 ^ k)%nat) → object_wf (empty_object capacity).
Proof.
  intros Hc. unfold empty_object.
  constructor; unfold ob_count, ob_cell_capacity; cbn [ob_cells ob_hashes ob_names ob_values ob_cell_ixs ob_item_capacity];
    rewrite ?length_replicate; try done; try constructor; try lia.
  - simpl. lia.
  - by intros [? _]%lookup_replicate.
  - done.
Qed.

Lemma init_yields capacity :
  Z.of_nat capacity < 2 ^ 32 → yields (json_object_init capacity) (λ o, o = empty_object capacity).
Proof.
  intros Hc. unfold json_object_init. destruct (_ =? _)%nat; [by apply yields_ret|].
  repeat (eapply yields_bind; [apply yields_malloc|intros _ _]). rewrite (proj2 (Z.leb_gt _ _) Hc). by apply yields_ret.
Qed.

(** Adding a list of new names to a table with room for all of them. *)
Lemma add_all fuel l o acc :
  yields acc (λ o', o' = o) → object_wf o → NoDup (ob_names o ++ l.*1) → Forall nul_free (l.*1) →
  (ob_count o + length l <= ob_item_capacity o)%nat →
  yields (foldl (λ new '(k, v), new ← new; object_add (S fuel) new k v) acc l)
    (λ o', object_wf o' ∧ ob_names o' = ob_names o ++ l.*1 ∧ ob_values o' = ob_values o ++ l.*2 ∧
           ob_item_capacity o' = ob_item_capacity o).
Proof.
  revert o acc. induction l as [|[k v] l IH]; intros o acc Hacc Hwf Hnd Hnf Hroom; cbn [foldl].
  { eapply yields_weaken; [done|]. intros ? ->. by rewrite !app_nil_r. }
  rewrite !fmap_cons in *. cbn [fst snd length] in *. inversion Hnf as [|?? Hk Hnf']; subst.
  destruct (add_room fuel o k v) as (o' & E & (Hwf' & _ & Hn' & Hv') & _ & Hi'); [done..| |lia|].
  { apply NoDup_app in Hnd as (_ & Hd & _). intros Hin. destruct (Hd k Hin). apply list_elem_of_here. }
  eapply yields_weaken.
  - apply (IH o'); [|done| |done|].
    + eapply yields_bind; [done|]. intros ? ->. rewrite E. by apply yields_ret.
    + rewrite Hn', <- app_assoc. done.
    + unfold ob_count in *. rewrite Hn', Hi', length_app. simpl. lia.
  - intros o2 (? & -> & -> & ->). rewrite Hn', Hv', <- !app_assoc. done.
Qed.

Lemma grown_capacity o :
  object_wf o → (ob_item_capacity o <= ob_count o)%nat → Z.of_nat (ob_count o) < 2 ^ 30 →
  let cap := Nat.max (ob_cell_capacity o * 2) STARTING_CAPACITY in
  (∃ k : nat, (4 <= k < 32)%nat ∧ cap = (2 ^ k)%nat) ∧ (ob_count o < cap * 7 / 10)%nat.
Proof.
  intros Hwf Hfull Hsmall cap. pose proof (ow_count o Hwf). pose proof (ow_items o Hwf) as Hi.
  assert (Hc : ob_count o = (ob_cell_capacity o * 7 / 10)%nat) by lia. rewrite Hc in *. unfold cap, STARTING_CAPACITY.
  destruct (ow_capacity o Hwf) as [->|(k & Hk & E)].
  { split; [exists 4%nat; split; [lia|done]|]. vm_compute. lia. }
  assert (16 <= ob_cell_capacity o)%nat.
  { rewrite E. change 16%nat with (2 ^ 4)%nat. apply Nat.pow_le_mono_r; lia. }
  rewrite Nat.max_l by lia. split.
  - exists (S k). split; [|rewrite E; simpl; lia]. split; [lia|].
    destruct (decide (k < 31)%nat) as [|Hk31]; [lia|]. exfalso.
    assert (2 ^ 31 <= Z.of_nat (ob_cell_capacity o)).
    { rewrite E, Nat2Z.inj_pow. apply Z.pow_le_mono_r; lia. }
    rewrite Nat2Z.inj_div, Nat2Z.inj_mul in Hsmall.
    pose proof (Z.div_le_lower_bound (Z.of_nat (ob_cell_capacity o) * Z.of_nat 7) (Z.of_nat 10) (2 ^ 30) ltac:(lia)). lia.
  - apply (Nat.lt_le_trans _ (S (ob_cell_capacity o * 7 / 10))); [lia|].
    apply Nat.div_le_lower_bound; [lia|].
    pose proof (Nat.Div0.mul_div_le (ob_cell_capacity o * 7) 10). lia.
Qed.

(** [json_object_grow_and_rehash] keeps names and values and makes room. *)
Lemma rehash_yields o :
  object_wf o → (ob_item_capacity o <= ob_count o)%nat → Z.of_nat (ob_count o) < 2 ^ 30 →
  yields (new ← json_object_init (Nat.max (ob_cell_capacity o * 2) STARTING_CAPACITY);
          foldl (λ new '(k, v), new ← new; object_add 1 new k v) (mret new) (zip (ob_names o) (ob_values o)))
    (λ o1, object_wf o1 ∧ ob_names o1 = ob_names o ∧ ob_values o1 = ob_values o ∧
           (ob_count o1 < ob_item_capacity o1)%nat).
Proof.
  intros Hwf Hfull Hsmall. destruct (grown_capacity o Hwf Hfull Hsmall) as [Hcap Hroom].
  set (cap := Nat.max _ _) in *. pose proof (ow_values o Hwf) as Hv. unfold ob_count in *.
  eapply yields_bind; [apply init_yields|].
  { destruct Hcap as (k & Hk & ->). rewrite Nat2Z.inj_pow. apply (Z.pow_lt_mono_r 2 (Z.of_nat k) 32); lia. }
  intros ? ->. eapply yields_weaken.
  - apply (add_all 0 _ (empty_object cap)); [by apply yields_ret|apply empty_object_wf; auto|..];
      rewrite ?fst_zip by lia; [apply Hwf|apply Hwf|].
    unfold ob_count. cbn [empty_object ob_names ob_item_capacity length]. rewrite length_zip_with. lia.
  - rewrite fst_zip, snd_zip by lia. simpl. intros o1 (? & Hn & ? & ->). rewrite Hn. split_and!; done || lia.
Qed.

Lemma rehash_append o o1 key v :
  object_wf o1 → nul_free key → key ∉ ob_names o → ob_names o1 = ob_names o → ob_values o1 = ob_values o →
  (ob_count o1 < ob_item_capacity o1)%nat →
  yields ('(cell_ix, _) ← json_object_get_cell_ix o1 key (length key) (name_hash key);
          object_append o1 cell_ix (name_hash key) key v) (extends o key v).
Proof.
  intros Hwf Hk Hin Hn Hv Hroom. destruct (get_cell_ix_answer o1 Hwf key Hk) as (a & -> & Ha). rewrite bind_mret.
  destruct Ha as [j c Hj|d Hd Hk1 Hp Hc|E0].
  - destruct Hin. rewrite <- Hn. by eapply list_elem_of_lookup_2.
  - destruct (append_extends o1 key d v) as (o' & -> & (? & Hf & ? & ?) & _); try done.
    apply yields_ret. split_and!; try congruence. rewrite Hf. unfold fields. congruence.
  - exfalso. rewrite (ow_items o1 Hwf), E0 in Hroom. simpl in Hroom. lia.
Qed.

(** Adding a field. *)
Lemma json_object_add_spec o key v :
  object_wf o → nul_free key → Z.of_nat (ob_count o) < 2 ^ 30 →
  if decide (key ∈ ob_names o) then json_object_add o key v = failed
  else yields (json_object_add o key v) (extends o key v).
Proof.
  intros Hwf Hk Hsmall. unfold json_object_add. case_decide as Hin.
  - cbn [object_add]. fold (name_hash key). destruct (get_cell_ix_answer o Hwf key Hk) as (a & -> & Ha).
    rewrite bind_mret. destruct Ha as [|? ? Hn|E0]; [done|done|].
    pose proof (ow_count o Hwf) as Hc. rewrite (ow_items o Hwf), E0 in Hc. simpl in Hc.
    apply list_elem_of_lookup in Hin as [j Hj%lookup_lt_Some]. unfold ob_count in Hc. lia.
  - destruct (decide (ob_count o < ob_item_capacity o)%nat) as [Hroom|Hfull].
    { destruct (add_room 1 o key v Hwf Hk Hin Hroom) as (o' & -> & He & _). by apply yields_ret. }
    remember 1%nat as f eqn:Ef. cbn [object_add]. fold (name_hash key).
    destruct (get_cell_ix_answer o Hwf key Hk) as ([cell found] & -> & Ha). rewrite bind_mret.
    assert (found = false) as -> by (inversion Ha; subst; [destruct Hin; by eapply list_elem_of_lookup_2|done..]).
    rewrite (proj2 (Nat.leb_le _ _)) by lia. subst f.
    eapply yields_bind; [apply rehash_yields; [done|lia|done]|].
    intros o1 (? & ? & ? & ?). by apply rehash_append.
Qed.
End table.

(** ** Lookup *)

Lemma assoc_found (l : JSON_Object) j k v :
  NoDup l.*1 → l !! j = Some (k, v) → json_object_get_value l k = Some v.
Proof.
  revert j. induction l as [|[k' v'] l IH]; intros j Hnd Hj; [done|]. simpl. rewrite fmap_cons in Hnd.
  inversion Hnd as [|?? Hnot Hnd']; subst. destruct j as [|j]; simplify_eq/=; [by rewrite bool_decide_eq_true_2|].
  rewrite bool_decide_eq_false_2; [by eapply IH|]. intros ->. apply Hnot, list_elem_of_fmap.
  exists (k, v). split; [done|]. by eapply list_elem_of_lookup_2.
Qed.

Lemma assoc_missing (l : JSON_Object) k : k ∉ l.*1 → json_object_get_value l k = None.
Proof.
  induction l as [|[k' v'] l IH]; intros Hk; [done|]. rewrite fmap_cons, not_elem_of_cons in Hk. simpl in *.
  destruct Hk as [Hne Hk]. rewrite bool_decide_eq_false_2 by congruence. auto.
Qed.

(** The table finds for a name what the list of fields has for it, which is
    what the rest of the program relies on. *)
Theorem object_lookup_refines (o : json_object json) name :
  object_wf o → nul_free name →
  json_object_getn_value o name (length name) = mret (json_object_get_value (fields o) name).
Proof.
  intros Hwf Hn. pose proof (ow_values o Hwf) as Hv. unfold ob_count in Hv.
  assert (Hfst : (fields o).*1 = ob_names o) by (unfold fields; apply fst_zip; lia).
  unfold json_object_getn_value. fold (name_hash name).
  destruct (get_cell_ix_answer o Hwf name Hn) as (a & -> & Ha). rewrite bind_mret.
  destruct Ha as [j c Hj Hc|d Hd Hnot Hp Hc|E0]; cbn [negb].
  - rewrite (bind_need (Some _) _ _ eq_refl). pose proof (proj2 (ow_cells o Hwf c j) Hc) as Hcell.
    rewrite (bind_need _ _ _ Hcell), (bind_need (Some _) _ _ eq_refl).
    destruct (lookup_lt_is_Some_2 (ob_values o) j) as [v Ev]; [rewrite Hv; by eapply lookup_lt_Some|].
    rewrite (bind_need _ _ _ Ev). f_equal. symmetry. apply (assoc_found _ j); [rewrite Hfst; apply Hwf|].
    unfold fields. by rewrite lookup_zip_with, Hj, Ev.
  - by rewrite assoc_missing by (rewrite Hfst; done).
  - rewrite assoc_missing; [done|]. rewrite Hfst. intros [j Hj%lookup_lt_Some]%list_elem_of_lookup.
    pose proof (ow_count o Hwf) as Hc. rewrite (ow_items o Hwf), E0 in Hc. unfold ob_count in Hc. simpl in Hc. lia.
Qed.

(** Two fields. *)
Definition example_object : json_object json :=
  match (o ← json_object_make; o ← json_object_add o (lit "version") (JBool true);
         json_object_add o (lit "apps") JNull) [] with
  | Done (o, _) => o
  | _ => empty_object 0
  end.

Lemma example_object_wf : object_wf example_object.
Proof.
  assert (H0 : object_wf (empty_object (A := json) 0)) by (apply empty_object_wf; by left).
  pose proof (json_object_add_spec (empty_object 0) (lit "version") (JBool true) H0) as H1.
  rewrite decide_False in H1 by (vm_compute; inversion 1).
  destruct (yields_done _ _ (H1 ltac:(vm_compute; repeat constructor; discriminate) eq_refl)) as (o1 & E1 & Hwf1 & _ & Hn1 & _).
  pose proof (json_object_add_spec o1 (lit "apps") JNull Hwf1) as H2. unfold ob_count in H2. rewrite Hn1 in H2.
  rewrite decide_False in H2 by (vm_compute; inversion 1 as [|? ? ? H']; inversion H').
  destruct (yields_done _ _ (H2 ltac:(vm_compute; repeat constructor; discriminate) eq_refl)) as (o2 & E2 & Hwf2 & _).
  assert (Heq : example_object = o2); [|by rewrite Heq].
  vm_compute in E1. injection E1 as <-. vm_compute in E2. injection E2 as <-. vm_compute. reflexivity.
Qed.

(** An object is a list of fields without duplicates.  Adding a name that is
    there fails; adding a new one appends the field, also when the table has to
    grow, and keeps the table well formed. *)
Theorem object_add_refines {A} (o : json_object A) key v :
  object_wf o → nul_free key → Z.of_nat (ob_count o) < 2 ^ 30 →
  if decide (key ∈ ob_names o) then json_object_add o key v = failed
  else yields (json_object_add o key v) (extends o key v).
Proof. apply json_object_add_spec. Qed.

Lemma object_add_refines_witness :
  json_object_add example_object (lit "apps") (JBool false) = failed ∧
  yields (json_object_add example_object (lit "groups") JNull) (extends example_object (lit "groups") JNull).
Proof.
  pose proof (object_add_refines example_object (lit "apps") (JBool false) example_object_wf) as H1.
  pose proof (object_add_refines example_object (lit "groups") JNull example_object_wf) as H2.
  split.
  - apply H1; [vm_compute; repeat constructor; discriminate|reflexivity].
  - apply H2; [vm_compute; repeat constructor; discriminate|reflexivity].
Defined.

Lemma object_lookup_refines_witness :
  json_object_getn_value example_object (lit "apps") 4 = mret (Some JNull).
Proof.
  apply (object_lookup_refines example_object (lit "apps")).
  - apply example_object_wf.
  - vm_compute. repeat constructor; discriminate.
Defined.

(** ** Memory pressure *)

#[export] Hint Extern 2 (steady (if ?b then _ else _)) => destruct b : runs.
#[export] Hint Extern 2 (steady (match ?x with _ => _ end)) => destruct x : runs.

Section steady.
Context {A : Type}.

Lemma cell_loop_steady (o : json_object A) key len hash ix rounds i : steady (cell_loop o key len hash ix rounds i).
Proof. revert i. induction rounds as [|rounds IH]; intros i; cbn [cell_loop]; auto 10 with runs. Qed.
Hint Resolve cell_loop_steady : runs.

Lemma json_object_init_steady capacity : steady (@json_object_init A capacity).
Proof. unfold json_object_init. auto 10 with runs. Qed.
Hint Resolve json_object_init_steady : runs.

Lemma foldl_steady {S X} (f : run S → X → run S) (l : list X) acc :
  (∀ s x, steady s → steady (f s x)) → steady acc → steady (foldl f acc l).
Proof. intros Hf. revert acc. induction l as [|x l IH]; intros acc Ha; simpl; auto. Qed.

Lemma object_add_steady fuel (o : json_object A) key v : steady (object_add fuel o key v).
Proof.
  revert o key v. induction fuel as [|fuel IH]; intros o key v; cbn [object_add]; [apply steady_fault|].
  unfold json_object_get_cell_ix, object_append. apply steady_bind; [auto with runs|]. intros [c []]; auto with runs.
  destruct (_ <=? _)%nat; auto with runs. apply steady_bind.
  - apply steady_bind; [auto with runs|]. intros new. apply foldl_steady; [|auto with runs].
    intros s [k w] Hs. auto with runs.
  - intros o'. apply steady_bind; [auto with runs|]. intros [? ?]. auto 10 with runs.
Qed.
End steady.
#[export] Hint Resolve object_add_steady json_object_init_steady : runs.
