(* ===== verification/JsonParse.v ===== *)
(** * The JSON parser

    [kmod/parson.c], from the text of a configuration to the tree the policy
    compiler reads.  A position in the text is the rest of it, without the
    terminator: [**string] is 0 at its end.  The number conversion of the C
    library is an argument. *)
From Stdlib Require Import Strings.Byte ZArith QArith Lia.
From stdpp Require Import base gmap numbers list.
From S2P Require Import Prelude Userspace CharDev JsonObject.

#[local] Open Scope Z_scope.

(** [if ( **string == c) SKIP_CHAR(string)]: the rest after a character. *)
Definition expect (c : byte) (s : bytes) : option bytes :=
  match s with
  | b :: s => if bool_decide (b = c) then Some s else None
  | [] => None
  end.

(** ** strtod *)

(** What [strtod] returns: the number, unless it is infinite or not a number, how
    many characters it has read, and [errno]. *)
Record strtod_end := mk_strtod {
  sd_number : option Q;
  sd_length : nat;
  sd_errno : Z
}.

Class Strtod := strtod : bytes → strtod_end.

Definition ERANGE_ : Z := 34.

(** [isspace] in the C locale *)
Definition isspace (c : byte) : bool := bool_decide (c ∈ [x20; x09; x0a; x0b; x0c; x0d]).

(** A number ends before white space, a separator or a closing bracket. *)
Definition ends_number (rest : bytes) : Prop :=
  match rest with [] => True | c :: _ => isspace c = true ∨ c ∈ [","; "]"; "}"]%byte end.

(** Documented behaviour: the end is in the string, and an integer that a double
    holds exactly is read exactly. *)
Class StrtodLaws (SD : Strtod) : Prop := {
  strtod_length : ∀ s, (sd_length (strtod s) <= length s)%nat;
  strtod_integer : ∀ n rest, - 2 ^ 53 <= n <= 2 ^ 53 → ends_number rest →
    strtod (fmt_d n ++ rest) = mk_strtod (Some (inject_Z n)) (length (fmt_d n)) 0
}.

(** ** Strings *)

Definition hex_char_to_int (c : byte) : Z :=
  let n := byte_to_Z c in
  if (48 <=? n) && (n <=? 57) then n - 48
  else if (97 <=? n) && (n <=? 102) then n - 97 + 10
  else if (65 <=? n) && (n <=? 70) then n - 65 + 10
  else -1.

Definition parse_utf16_hex (s : bytes) : option Z :=
  match s with
  | a :: b :: c :: d :: _ =>
      let x1 := hex_char_to_int a in
      let x2 := hex_char_to_int b in
      let x3 := hex_char_to_int c in
      let x4 := hex_char_to_int d in
      if (x1 =? -1) || (x2 =? -1) || (x3 =? -1) || (x4 =? -1) then None
      else Some (Z.lor (Z.lor (Z.lor (Z.shiftl x1 12) (Z.shiftl x2 8)) (Z.shiftl x3 4)) x4)
  | _ => None
  end.

(** Six bits from position [k] on, with the tag of a byte of a sequence. *)
Definition utf8_byte (cp k mask tag : Z) : byte := byte_of_Z (Z.lor (Z.land (Z.shiftr cp k) mask) tag).

(** The bytes of an escape and how many characters after its [u] it has. *)
Definition parse_utf16 (s : bytes) : option (bytes * nat) :=
  cp ← parse_utf16_hex s;
  if cp <? 0x80 then Some ([byte_of_Z cp], 4%nat)
  else if cp <? 0x800 then Some ([utf8_byte cp 6 0x1F 0xC0; utf8_byte cp 0 0x3F 0x80], 4%nat)
  else if (cp <? 0xD800) || (0xDFFF <? cp) then
    Some ([utf8_byte cp 12 0x0F 0xE0; utf8_byte cp 6 0x3F 0x80; utf8_byte cp 0 0x3F 0x80], 4%nat)
  else if (0xD800 <=? cp) && (cp <=? 0xDBFF) then
    match expect "\" (drop 4 s) ≫= expect "u" with
    | Some s' =>
        trail ← parse_utf16_hex s';
        if (trail <? 0xDC00) || (0xDFFF <? trail) then None
        else
          let cp := Z.lor (Z.shiftl (Z.land (cp - 0xD800) 0x3FF) 10) (Z.land (trail - 0xDC00) 0x3FF) + 0x10000 in
          Some ([utf8_byte cp 18 0x07 0xF0; utf8_byte cp 12 0x3F 0x80; utf8_byte cp 6 0x3F 0x80;
                 utf8_byte cp 0 0x3F 0x80], 10%nat)
    | _ => None
    end
  else None.

(** The one-letter escapes. *)
Definition unescape (c : byte) : option byte :=
  match c with
  | x22 | x5c | x2f => Some c
  | "b"%byte => Some x08
  | "f"%byte => Some x0c
  | "n"%byte => Some x0a
  | "r"%byte => Some x0d
  | "t"%byte => Some x09
  | _ => None
  end.

(** A write behind [out] in a buffer of [size] bytes. *)
Definition write_out (size : nat) (out bs : bytes) : run bytes :=
  if (size <? length out + length bs)%nat then fault else mret (out ++ bs).

(** The loop of [process_string]: [rem] is what remains of [input_len], [out]
    what has been written to the buffer of [size] bytes. *)
Fixpoint process_loop (size fuel : nat) (input : bytes) (rem : nat) (out : bytes) : run bytes :=
  match fuel with
  | O => fault
  | S fuel =>
      match rem, input with
      | O, _ | _, [] => mret out
      | S rem, c :: input =>
          if bool_decide (c = "\"%byte) then
            match input with
            | e :: input =>
                if bool_decide (e = "u"%byte) then
                  match parse_utf16 input with
                  | Some (bs, n) => out ← write_out size out bs; process_loop size fuel (drop n input) (rem - 1 - n) out
                  | None => failed
                  end
                else
                  match unescape e with
                  | Some b => out ← write_out size out [b]; process_loop size fuel input (rem - 1) out
                  | None => failed
                  end
            | [] => failed
            end
          else if byte_to_Z c <? 0x20 then failed
          else out ← write_out size out [c]; process_loop size fuel input rem out
      end
  end.

(** The output buffer has a byte more than the input, for the terminator. *)
Definition process_string (input : bytes) (input_len : nat) : run bytes :=
  let initial_size := (input_len + 1)%nat in
  _ ← malloc;
  out ← process_loop initial_size (S input_len) input input_len [];
  _ ← write_out initial_size out [x00];
  _ ← malloc;
  mret out.

(** [None] is [JSONFailure]; otherwise the position behind the closing quote. *)
Fixpoint skip_to_quote (s : bytes) : option bytes :=
  match s with
  | [] => None
  | c :: s =>
      if bool_decide (c = x22) then Some s
      else if bool_decide (c = "\"%byte) then
        match s with [] => None | _ :: s => skip_to_quote s end
      else skip_to_quote s
  end.

Definition skip_quotes (s : bytes) : option bytes := s ← expect x22 s; skip_to_quote s.

Definition get_quoted_string (s : bytes) : run (bytes * bytes) :=
  match skip_quotes s with
  | None => failed
  | Some rest =>
      out ← process_string (tail s) (length s - length rest - 2);
      mret (out, rest)
  end.

(** ** Values *)

Fixpoint skip_whitespaces (s : bytes) : bytes :=
  match s with
  | c :: s' => if isspace c then skip_whitespaces s' else s
  | [] => []
  end.

Definition json_value_init {A} (v : A) : run A := _ ← malloc; mret v.

Definition parse_string_value (s : bytes) : run (json * bytes) :=
  '(str, s) ← get_quoted_string s;
  v ← json_value_init (JString str);
  mret (v, s).

Definition parse_boolean_value (s : bytes) : run (json * bytes) :=
  if bool_decide (take 4 s = lit "true") then v ← json_value_init (JBool true); mret (v, drop 4 s)
  else if bool_decide (take 5 s = lit "false") then v ← json_value_init (JBool false); mret (v, drop 5 s)
  else failed.

Definition parse_null_value (s : bytes) : run (json * bytes) :=
  if bool_decide (take 4 s = lit "null") then v ← json_value_init JNull; mret (v, drop 4 s) else failed.

Definition is_decimal (s : bytes) (length : nat) : bool :=
  let at_ i := default x00 (s !! i) in
  if (1 <? length)%nat && bool_decide (at_ 0%nat = "0"%byte) && negb (bool_decide (at_ 1%nat = "."%byte)) then false
  else if (2 <? length)%nat && bool_decide (take 2 s = lit "-0") && negb (bool_decide (at_ 2%nat = "."%byte)) then false
  else forallb (λ c, negb (bool_decide (c ∈ ["x"; "X"; x00]%byte))) (take length s).

Definition json_value_init_number (number : option Q) : run json :=
  match number with None => failed | Some q => json_value_init (JNumber q) end.

Section parser.
Context {SD : Strtod}.

Definition parse_number_value (s : bytes) : run (json * bytes) :=
  let r := strtod s in
  if (sd_errno r =? ERANGE_) && (if sd_number r is None then true else false) then failed
  else if (negb (sd_errno r =? 0) && negb (sd_errno r =? ERANGE_)) || negb (is_decimal s (sd_length r)) then failed
  else if (length s <? sd_length r)%nat then fault
  else v ← json_value_init_number (sd_number r); mret (v, drop (sd_length r) s).

(** The items and the capacity of an array under construction; the items are
    copied to the new array. *)
Definition json_array_resize (new_capacity : nat) (xs : list json) : run (list json * nat) :=
  if (new_capacity =? 0)%nat then failed
  else
    _ ← malloc;
    if (new_capacity <? length xs)%nat then fault else mret (xs, new_capacity).

Definition json_array_add (a : list json * nat) (v : json) : run (list json * nat) :=
  let '(xs, capacity) := a in
  '(xs, capacity) ←
    if (capacity <=? length xs)%nat then json_array_resize (Nat.max (capacity * 2) STARTING_CAPACITY) xs
    else mret (xs, capacity);
  if (capacity <=? length xs)%nat then fault else mret (xs ++ [v], capacity).

Definition MAX_NESTING : nat := 2048.

(** The parser; the loops of objects and arrays are functions of their own.
    Every call and every round takes fuel. *)
Fixpoint parse_value (fuel nesting : nat) (s : bytes) : run (json * bytes) :=
  match fuel with
  | O => fault
  | S fuel =>
      if (MAX_NESTING <? nesting)%nat then failed
      else
        let s := skip_whitespaces s in
        match s with
        | [] => failed
        | c :: s' =>
            if bool_decide (c = "{"%byte) then parse_object_value fuel (S nesting) s'
            else if bool_decide (c = "["%byte) then parse_array_value fuel (S nesting) s'
            else if bool_decide (c = x22) then parse_string_value s
            else if bool_decide (c ∈ ["f"; "t"]%byte) then parse_boolean_value s
            else if bool_decide (c ∈ ["-"; "0"; "1"; "2"; "3"; "4"; "5"; "6"; "7"; "8"; "9"]%byte)
            then parse_number_value s
            else if bool_decide (c = "n"%byte) then parse_null_value s
            else failed
        end
  end
with parse_object_value (fuel nesting : nat) (s : bytes) : run (json * bytes) :=
  match fuel with
  | O => fault
  | S fuel =>
      _ ← malloc;
      o ← json_object_make;
      let s := skip_whitespaces s in
      match expect "}" s with
      | Some s => mret (JObject (fields o), s)
      | None =>
          '(o, s) ← parse_members fuel nesting o s;
          match expect "}" (skip_whitespaces s) with
          | Some s => mret (JObject (fields o), s)
          | None => failed
          end
      end
  end
with parse_array_value (fuel nesting : nat) (s : bytes) : run (json * bytes) :=
  match fuel with
  | O => fault
  | S fuel =>
      _ ← malloc;
      _ ← malloc;
      let s := skip_whitespaces s in
      match expect "]" s with
      | Some s => mret (JArray [], s)
      | None =>
          '(xs, capacity, s) ← parse_elements fuel nesting ([], 0%nat) s;
          match expect "]" (skip_whitespaces s) with
          | Some s => '(xs, _) ← json_array_resize (length xs) xs; mret (JArray xs, s)
          | None => failed
          end
      end
  end
with parse_members (fuel nesting : nat) (o : json_object json) (s : bytes) : run (json_object json * bytes) :=
  match fuel with
  | O => fault
  | S fuel =>
      if bool_decide (s = []) then mret (o, s)
      else
        '(key, s) ← get_quoted_string s;
        if negb (length key =? length (cstr key))%nat then failed
        else
          match expect ":" (skip_whitespaces s) with
          | Some s =>
              '(v, s) ← parse_value fuel nesting s;
              o ← json_object_add o key v;
              let s := skip_whitespaces s in
              match expect "," s with
              | Some s =>
                  let s := skip_whitespaces s in
                  if expect "}" s is Some _ then mret (o, s) else parse_members fuel nesting o s
              | None => mret (o, s)
              end
          | None => failed
          end
  end
with parse_elements (fuel nesting : nat) (a : list json * nat) (s : bytes) : run (list json * nat * bytes) :=
  match fuel with
  | O => fault
  | S fuel =>
      if bool_decide (s = []) then mret (a, s)
      else
        '(v, s) ← parse_value fuel nesting s;
        a ← json_array_add a v;
        let s := skip_whitespaces s in
        match expect "," s with
        | Some s =>
            let s := skip_whitespaces s in
            if expect "]" s is Some _ then mret (a, s) else parse_elements fuel nesting a s
        | None => mret (a, s)
        end
  end.

(** Enough for any text, as [parse_safe] shows. *)
Definition text_fuel (s : bytes) : nat := S (3 * length s).

Definition json_parse_string (s : bytes) : run json :=
  let s := if bool_decide (take 3 s = [xef; xbb; xbf]) then drop 3 s else s in
  '(v, _) ← parse_value (text_fuel s) 0 s;
  mret v.

(** [file]: the contents, [None] when they cannot be read. *)
Definition read_file (file : option bytes) : run bytes :=
  match file with
  | None => failed
  | Some contents => _ ← malloc; if bool_decide (contents = []) then failed else mret contents
  end.

Definition json_parse_file (file : option bytes) : run json :=
  contents ← read_file file;
  json_parse_string (cstr contents).
End parser.

(** ** A conversion for integers *)

Definition is_dec (c : byte) : bool := (48 <=? byte_to_Z c) && (byte_to_Z c <=? 57).

Fixpoint read_digits (s : bytes) (acc : Z) (n : nat) : Z * nat :=
  match s with
  | c :: s => if is_dec c then read_digits s (acc * 10 + (byte_to_Z c - 48)) (S n) else (acc, n)
  | [] => (acc, n)
  end.

(** Reads a sign and digits. *)
Definition integer_strtod : Strtod := λ s,
  match expect "-" s with
  | Some s' =>
      let '(v, n) := read_digits s' 0 0 in
      if (n =? 0)%nat then mk_strtod (Some 0%Q) 0 0 else mk_strtod (Some (inject_Z (- v))) (S n) 0
  | None => let '(v, n) := read_digits s 0 0 in mk_strtod (Some (inject_Z v)) n 0
  end.

(** ** Memory pressure *)

Lemma write_out_steady size out bs : steady (write_out size out bs).
Proof. unfold write_out. auto with runs. Qed.
#[export] Hint Resolve write_out_steady : runs.

Lemma process_loop_steady size fuel input rem out : steady (process_loop size fuel input rem out).
Proof.
  revert input rem out. induction fuel as [|fuel IH]; intros input rem out; cbn [process_loop]; [auto with runs|].
  destruct rem as [|rem]; [auto with runs|]. destruct input as [|c input]; [auto with runs|]. auto 12 with runs.
Qed.
#[export] Hint Resolve process_loop_steady : runs.

Lemma get_quoted_string_steady s : steady (get_quoted_string s).
Proof. unfold get_quoted_string, process_string. auto 10 with runs. Qed.
#[export] Hint Resolve get_quoted_string_steady : runs.

Lemma json_value_init_steady {A} (v : A) : steady (json_value_init v).
Proof. unfold json_value_init. auto with runs. Qed.
#[export] Hint Resolve json_value_init_steady : runs.

Lemma scalars_steady {SD : Strtod} s :
  steady (parse_string_value s) ∧ steady (parse_boolean_value s) ∧ steady (parse_number_value s) ∧
  steady (parse_null_value s).
Proof.
  unfold parse_string_value, parse_boolean_value, parse_number_value, parse_null_value, json_value_init_number.
  split_and!; auto 10 with runs.
Qed.

Lemma json_array_add_steady a v : steady (json_array_add a v).
Proof.
  unfold json_array_add, json_array_resize. destruct a as [xs capacity]. apply steady_bind; [auto 10 with runs|].
  intros []. auto with runs.
Qed.
#[export] Hint Resolve json_array_add_steady : runs.

Lemma parser_steady {SD : Strtod} fuel :
  (∀ n s, steady (parse_value fuel n s)) ∧ (∀ n s, steady (parse_object_value fuel n s)) ∧
  (∀ n s, steady (parse_array_value fuel n s)) ∧ (∀ n o s, steady (parse_members fuel n o s)) ∧
  (∀ n a s, steady (parse_elements fuel n a s)).
Proof.
  induction fuel as [|fuel (IHv & IHo & IHa & IHm & IHe)]; [split_and!; intros; apply steady_fault|].
  split_and!; intros.
  - cbn [parse_value]. destruct (scalars_steady (skip_whitespaces s)) as (? & ? & ? & ?). auto 20 with runs.
  - cbn [parse_object_value]. unfold json_object_make. auto 20 with runs.
  - cbn [parse_array_value]. unfold json_array_resize. auto 20 with runs.
  - cbn [parse_members]. unfold json_object_add. auto 20 with runs.
  - cbn [parse_elements]. auto 20 with runs.
Qed.

(** ** Termination and safety *)

(** Does not fault, and a result is in [P]. *)
Definition ends {A} (m : run A) (P : A → Prop) : Prop :=
  ∀ mem, match m mem with Done (a, _) => P a | Failed => True | Fault => False end.

Lemma ends_ret {A} (a : A) (P : A → Prop) : P a → ends (mret a) P.
Proof. by intros H mem. Qed.
Lemma ends_failed {A} (P : A → Prop) : ends failed P.
Proof. by intros mem. Qed.
Lemma ends_bind {A B} (m : run A) (k : A → run B) P Q :
  ends m P → (∀ a, P a → ends (k a) Q) → ends (m ≫= k) Q.
Proof.
  intros Hm Hk mem. unfold mbind, run_bind. specialize (Hm mem). destruct (m mem) as [[a mem1]| |]; try done.
  exact (Hk a Hm mem1).
Qed.
Lemma ends_weaken {A} (m : run A) (P Q : A → Prop) : ends m P → (∀ a, P a → Q a) → ends m Q.
Proof. intros Hm H mem. specialize (Hm mem). destruct (m mem) as [[a ?]| |]; auto. Qed.
Lemma ends_malloc : ends malloc (λ _, True).
Proof. by intros [|[] mem]. Qed.
Lemma yields_ends {A} (m : run A) P : yields m P → ends m P.
Proof. intros Hm mem. specialize (Hm mem). destruct (m mem) as [[? ?]| |]; naive_solver. Qed.

(** Names of an object are C strings and distinct, at every level. *)
Fixpoint json_wf (v : json) : Prop :=
  match v with
  | JArray xs => foldr (λ x P, json_wf x ∧ P) True xs
  | JObject fs => NoDup fs.*1 ∧ Forall nul_free fs.*1 ∧ foldr (λ '(_, x) P, json_wf x ∧ P) True fs
  | _ => True
  end.

(** Nested arrays and objects. *)
Fixpoint depth (v : json) : nat :=
  match v with
  | JArray xs => S (foldr (λ x d, Nat.max (depth x) d) 0%nat xs)
  | JObject fs => S (foldr (λ '(_, x) d, Nat.max (depth x) d) 0%nat fs)
  | _ => 0%nat
  end.

Lemma json_wf_array xs : json_wf (JArray xs) ↔ Forall json_wf xs.
Proof. simpl. induction xs as [|x xs IH]; simpl; [by split|]. rewrite Forall_cons. tauto. Qed.

Lemma json_wf_object fs :
  json_wf (JObject fs) ↔ NoDup fs.*1 ∧ Forall nul_free fs.*1 ∧ Forall json_wf fs.*2.
Proof.
  simpl. assert (H : foldr (λ '(_, x) P, json_wf x ∧ P) True fs ↔ Forall json_wf fs.*2); [|tauto].
  induction fs as [|[k x] fs IH]; [by split|]. rewrite fmap_cons, Forall_cons. simpl. tauto.
Qed.

Lemma depth_array xs n : (depth (JArray xs) <= S n)%nat ↔ Forall (λ x, depth x <= n)%nat xs.
Proof.
  simpl. rewrite <- Nat.succ_le_mono. induction xs as [|x xs IH]; simpl; [split; [constructor|lia]|].
  rewrite Forall_cons, Nat.max_lub_iff. tauto.
Qed.

Lemma depth_object fs n : (depth (JObject fs) <= S n)%nat ↔ Forall (λ x, depth x <= n)%nat fs.*2.
Proof.
  simpl. rewrite <- Nat.succ_le_mono. induction fs as [|[k x] fs IH]; [split; [constructor|simpl; lia]|].
  rewrite fmap_cons, Forall_cons. simpl. rewrite Nat.max_lub_iff. tauto.
Qed.

Lemma skip_whitespaces_length s : (length (skip_whitespaces s) <= length s)%nat.
Proof. induction s as [|c s IH]; simpl; [done|]. destruct (isspace c); simpl; lia. Qed.

Lemma expect_length c s s' : expect c s = Some s' → length s = S (length s').
Proof. destruct s as [|b s]; simpl; [done|]. case_bool_decide; [|done]. by intros [= ->]. Qed.

Lemma skip_to_quote_length s rest : skip_to_quote s = Some rest → (length rest < length s)%nat.
Proof.
  revert s. fix IH 1. intros [|c s]; simpl; [done|]. case_bool_decide; [intros [= ->]; lia|]. case_bool_decide.
  - destruct s as [|c' s]; [done|]. intros Hs%IH. simpl. lia.
  - intros Hs%IH. lia.
Qed.

(** The closing quote is just before the rest. *)
Lemma skip_to_quote_last s rest :
  skip_to_quote s = Some rest → s !! (length s - length rest - 1)%nat = Some x22.
Proof.
  revert s. fix IH 1. intros [|c s]; simpl; [done|]. case_bool_decide as Hc.
  { intros [= ->]. replace (S (length rest) - length rest - 1)%nat with 0%nat by lia. by subst. }
  case_bool_decide.
  - destruct s as [|c' s]; [done|]. intros Hs. pose proof (skip_to_quote_length _ _ Hs). apply IH in Hs. simpl.
    by replace (S (S (length s)) - length rest - 1)%nat with (S (S (length s - length rest - 1))) by lia.
  - intros Hs. pose proof (skip_to_quote_length _ _ Hs). apply IH in Hs.
    by replace (S (length s) - length rest - 1)%nat with (S (length s - length rest - 1)) by lia.
Qed.

(** An escape does not reach over a quote. *)
Lemma parse_utf16_hex_chars s cp :
  parse_utf16_hex s = Some cp → ∃ a b c d s', s = a :: b :: c :: d :: s' ∧ Forall (λ x, x ≠ x22) [a; b; c; d].
Proof.
  destruct s as [|a [|b [|c [|d s']]]]; try done. intros H. exists a, b, c, d, s'. split; [done|].
  unfold parse_utf16_hex in H. repeat constructor; intros ->; vm_compute (hex_char_to_int x22) in H;
    rewrite ?Z.eqb_refl, ?orb_true_r in H; simpl in H; rewrite ?orb_true_r in H; done.
Qed.

Lemma parse_utf16_chars s bs n :
  parse_utf16 s = Some (bs, n) →
  Forall (λ x, x ≠ x22) (take n s) ∧ (n <= length s)%nat ∧ (length bs <= 4 <= n)%nat.
Proof.
  unfold parse_utf16. destruct (parse_utf16_hex s) as [cp|] eqn:E; simpl; [|done].
  apply parse_utf16_hex_chars in E as (a & b & c & d & s' & -> & Hf).
  assert (Hfour : Forall (λ x, x ≠ x22) (take 4 (a :: b :: c :: d :: s'))) by (simpl; rewrite take_0; done).
  destruct (_ <? _); [intros [= <- <-]; split_and!; simpl; done || lia|].
  destruct (_ <? _); [intros [= <- <-]; split_and!; simpl; done || lia|].
  destruct (_ || _); [intros [= <- <-]; split_and!; simpl; done || lia|].
  destruct (_ && _); [|done]. simpl. destruct (expect "\" (drop 0 s') ≫= expect "u") as [s2|] eqn:E2; [|done].
  destruct s' as [|c1 [|c2 s3]]; simpl in E2; try (by repeat case_bool_decide).
  case_bool_decide; simplify_eq/=. case_bool_decide; simplify_eq/=.
  destruct (parse_utf16_hex s2) as [trail|] eqn:E3; simpl; [|done].
  apply parse_utf16_hex_chars in E3 as (a2 & b2 & c2 & d2 & s' & -> & Hf2).
  destruct (_ || _); [done|]. intros [= <- <-]. split_and!; simpl; try lia.
  rewrite take_0. inversion Hf as [|?? ? Hf']; inversion Hf' as [|?? ? Hf'']; inversion Hf'' as [|?? ? Hf3]; inversion Hf3.
  repeat constructor; try done. all: inversion Hf2 as [|?? ? G1]; inversion G1 as [|?? ? G2]; inversion G2 as [|?? ? G3]; by inversion G3.
Qed.

Lemma write_out_ends size out bs : (length out + length bs <= size)%nat → ends (write_out size out bs) (λ out', out' = out ++ bs).
Proof. intros H. unfold write_out. rewrite (proj2 (Nat.ltb_ge _ _) H). by apply ends_ret. Qed.

(** The output buffer of [input_len + 1] bytes is never exceeded: escapes are
    longer than what they stand for, and none reaches over the closing quote. *)
Lemma process_loop_ends size fuel input rem out :
  (rem < fuel)%nat → (length out + rem < size)%nat → rem = 0%nat ∨ input !! rem = Some x22 →
  ends (process_loop size fuel input rem out) (λ res, length res < size)%nat.
Proof.
  revert input rem out. induction fuel as [|fuel IH]; intros input rem out Hf Hroom Hq; [lia|]. cbn [process_loop].
  destruct rem as [|rem]; [apply ends_ret; lia|]. destruct input as [|c input]; [apply ends_ret; lia|].
  destruct Hq as [|Hq]; [done|]. simpl in Hq. destruct (bool_decide (c = "\"%byte)).
  - destruct input as [|e input]; [apply ends_failed|]. case_bool_decide as Hu.
    + subst e. destruct rem as [|rem]; [done|]. simpl in Hq.
      destruct (parse_utf16 input) as [[bs n]|] eqn:Eu; [|apply ends_failed].
      apply parse_utf16_chars in Eu as (Hnq & Hn & Hb).
      assert (n <= rem)%nat.
      { destruct (decide (n <= rem)%nat) as [|Hlt]; [done|]. exfalso.
        eapply (Forall_lookup_1 _ (take n input) rem x22 Hnq); [|done]. rewrite lookup_take_lt by lia. done. }
      eapply ends_bind; [apply write_out_ends; lia|]. intros ? ->. apply IH; [lia|rewrite length_app; lia|].
      right. rewrite lookup_drop. rewrite <- Hq. f_equal. lia.
    + destruct (unescape e); [|apply ends_failed]. eapply ends_bind; [apply write_out_ends; simpl; lia|]. intros ? ->.
      apply IH; [lia|rewrite length_app; simpl; lia|].
      destruct rem as [|rem]; [by left|right]. simpl in Hq. simpl. by rewrite ?Nat.sub_0_r.
  - destruct (_ <? _); [apply ends_failed|]. eapply ends_bind; [apply write_out_ends; simpl; lia|]. intros ? ->.
    apply IH; [lia|rewrite length_app; simpl; lia|by right].
Qed.

Lemma get_quoted_string_ends s : ends (get_quoted_string s) (λ '(_, rest), (length rest + 2 <= length s)%nat).
Proof.
  unfold get_quoted_string, skip_quotes. destruct (expect x22 s) as [s1|] eqn:E; simpl; [|apply ends_failed].
  destruct (skip_to_quote s1) as [rest|] eqn:Es; [|apply ends_failed].
  pose proof (expect_length _ _ _ E) as Hl. pose proof (skip_to_quote_length _ _ Es) as Hr. apply skip_to_quote_last in Es.
  assert (Ht : tail s = s1).
  { destruct s as [|b s]; [done|]. simpl in E |- *. case_bool_decide; [by injection E|done]. }
  eapply (ends_bind _ _ (λ _, True)); [|intros out _; apply ends_ret; lia].
  unfold process_string. rewrite Ht. eapply ends_bind; [apply ends_malloc|]. intros _ _.
  eapply ends_bind; [apply process_loop_ends; simpl; [lia..|right]|].
  { rewrite <- Es. f_equal. lia. }
  intros out Ho. simpl in Ho. eapply ends_bind; [apply write_out_ends; simpl; lia|]. intros _ _.
  eapply ends_bind; [apply ends_malloc|]. intros. by apply ends_ret.
Qed.

Section safety.
Context {SD : Strtod} {SL : StrtodLaws SD}.

Lemma json_value_init_ends {A} (v : A) (P : A → Prop) : P v → ends (json_value_init v) P.
Proof. intros H. eapply ends_bind; [apply ends_malloc|]. intros. by apply ends_ret. Qed.

(** A scalar, and no more of the text than there is. *)
Definition scalar_end (s : bytes) (r : json * bytes) : Prop :=
  (length r.2 <= length s)%nat ∧ json_wf r.1 ∧ depth r.1 = 0%nat.

Lemma scalars_end s :
  ends (parse_string_value s) (scalar_end s) ∧ ends (parse_boolean_value s) (scalar_end s) ∧
  ends (parse_number_value s) (scalar_end s) ∧ ends (parse_null_value s) (scalar_end s).
Proof using SL.
  assert (Hinit : ∀ (v : json) n, json_wf v → depth v = 0%nat →
    ends (v' ← json_value_init v; mret (v', drop n s)) (scalar_end s)).
  { intros v n Hw Hd. eapply ends_bind; [by apply (json_value_init_ends v (λ v', v' = v))|].
    intros ? ->. apply ends_ret. split_and!; simpl; try done. rewrite length_drop. lia. }
  split_and!.
  - unfold parse_string_value. eapply ends_bind; [apply get_quoted_string_ends|]. intros [str rest] Hr.
    eapply ends_bind; [by apply (json_value_init_ends (JString str) (λ v, v = JString str))|].
    intros ? ->. apply ends_ret. split_and!; simpl; done || lia.
  - unfold parse_boolean_value. case_bool_decide; [by apply Hinit|]. case_bool_decide; [by apply Hinit|]. apply ends_failed.
  - unfold parse_number_value. destruct (_ && _); [apply ends_failed|]. destruct (_ || _); [apply ends_failed|].
    rewrite (proj2 (Nat.ltb_ge _ _)) by apply strtod_length. unfold json_value_init_number.
    destruct (sd_number (strtod s)) as [q|]; [by apply Hinit|]. by intros mem.
  - unfold parse_null_value. case_bool_decide; [by apply Hinit|]. apply ends_failed.
Qed.

(** What a value parsed at a nesting level is. *)
Definition value_end (nesting : nat) (s : bytes) (r : json * bytes) : Prop :=
  (length r.2 <= length s)%nat ∧ json_wf r.1 ∧ (depth r.1 + nesting <= S MAX_NESTING)%nat.

Definition values_ok (nesting : nat) (vs : list json) : Prop :=
  Forall json_wf vs ∧ Forall (λ v, depth v + nesting <= S MAX_NESTING)%nat vs.

Definition small (n : nat) : Prop := Z.of_nat n < 2 ^ 32.

Lemma values_ok_snoc nesting vs v :
  values_ok nesting vs → json_wf v → (depth v + nesting <= S MAX_NESTING)%nat → values_ok nesting (vs ++ [v]).
Proof. intros [H1 H2] Hw Hd. split; apply Forall_app; split; auto. Qed.

Definition members_end (nesting : nat) (s : bytes) (r : json_object json * bytes) : Prop :=
  (length r.2 <= length s)%nat ∧ object_wf r.1 ∧ values_ok nesting (ob_values r.1).

Definition elements_end (nesting : nat) (s : bytes) (r : list json * nat * bytes) : Prop :=
  (length r.2 <= length s)%nat ∧ values_ok nesting r.1.1 ∧ (length r.1.1 <= r.1.2)%nat.

(** The array is large enough for its items. *)
Definition array_fits (a : list json * nat) : Prop := (length a.1 <= a.2)%nat.

Lemma json_array_add_yields a v :
  array_fits a → yields (json_array_add a v) (λ a', a'.1 = a.1 ++ [v] ∧ array_fits a').
Proof.
  destruct a as [xs capacity]. unfold array_fits, json_array_add, json_array_resize, STARTING_CAPACITY. simpl. intros Hc.
  eapply (yields_bind _ _ (λ a, a.1 = xs ∧ (length xs < a.2)%nat)).
  - destruct (Nat.leb_spec capacity (length xs)); [|by apply yields_ret].
    rewrite (proj2 (Nat.eqb_neq _ 0)) by lia. eapply yields_bind; [apply yields_malloc|]. intros _ _.
    rewrite (proj2 (Nat.ltb_ge _ _)) by lia. apply yields_ret. simpl. split; [done|lia].
  - intros [ys c] [E Hlt]. simpl in E, Hlt. subst ys. rewrite (proj2 (Nat.leb_gt _ _) Hlt). apply yields_ret. simpl.
    rewrite length_app. simpl. split; [done|lia].
Qed.

Lemma strlen_nul_free key : length key = length (cstr key) → nul_free key.
Proof.
  unfold nul_free. induction key as [|c key IH]; intros Hl; [constructor|]. simpl in Hl.
  case_bool_decide; [done|]. simpl in Hl. constructor; [done|]. apply IH. lia.
Qed.

Lemma object_value_ok nesting o :
  object_wf o → values_ok (S nesting) (ob_values o) → (nesting <= MAX_NESTING)%nat →
  json_wf (JObject (fields o)) ∧ (depth (JObject (fields o)) + nesting <= S MAX_NESTING)%nat.
Proof.
  intros Hwf [Hw Hd] Hn. pose proof (ow_values o Hwf) as Hv. unfold ob_count in Hv.
  assert (Hf : (fields o).*1 = ob_names o ∧ (fields o).*2 = ob_values o).
  { unfold fields. split; [apply fst_zip|apply snd_zip]; lia. }
  rewrite json_wf_object, (proj1 Hf), (proj2 Hf). split; [split_and!; try apply Hwf; done|].
  enough (depth (JObject (fields o)) <= S (MAX_NESTING - nesting))%nat by lia.
  apply depth_object. rewrite (proj2 Hf). eapply Forall_impl; [done|]. simpl. intros. lia.
Qed.

Lemma array_value_ok nesting xs :
  values_ok (S nesting) xs → (nesting <= MAX_NESTING)%nat →
  json_wf (JArray xs) ∧ (depth (JArray xs) + nesting <= S MAX_NESTING)%nat.
Proof.
  intros [Hw Hd] Hn. rewrite json_wf_array. split; [done|].
  enough (depth (JArray xs) <= S (MAX_NESTING - nesting))%nat by lia.
  apply depth_array. eapply Forall_impl; [done|]. simpl. intros. lia.
Qed.

Lemma after_value_length s c s' (s'' : bytes) :
  expect c (skip_whitespaces s) = Some s' → (length s'' <= length (skip_whitespaces s'))%nat →
  (S (length s'') <= length s)%nat.
Proof.
  intros E%expect_length. pose proof (skip_whitespaces_length s). pose proof (skip_whitespaces_length s'). lia.
Qed.

Section step.
Context (fuel : nat).
Context (IHv : ∀ n s, (3 * length s + 1 <= fuel)%nat → small (length s) → ends (parse_value fuel n s) (value_end n s)).
Context (IHo : ∀ n s, (3 * length s + 3 <= fuel)%nat → small (length s) → (n <= MAX_NESTING)%nat →
  ends (parse_object_value fuel (S n) s) (value_end n s)).
Context (IHa : ∀ n s, (3 * length s + 3 <= fuel)%nat → small (length s) → (n <= MAX_NESTING)%nat →
  ends (parse_array_value fuel (S n) s) (value_end n s)).
Context (IHm : ∀ n o s, (3 * length s + 2 <= fuel)%nat → small (4 * ob_count o + length s) → object_wf o →
  values_ok n (ob_values o) → ends (parse_members fuel n o s) (members_end n s)).
Context (IHe : ∀ n a s, (3 * length s + 2 <= fuel)%nat → small (length s) → values_ok n a.1 → array_fits a →
  ends (parse_elements fuel n a s) (elements_end n s)).

Lemma value_step n s :
  (3 * length s + 1 <= S fuel)%nat → small (length s) → ends (parse_value (S fuel) n s) (value_end n s).
Proof using IHo IHa SL.
  intros Hf Hs. cbn [parse_value]. destruct (Nat.ltb_spec MAX_NESTING n) as [|Hn]; [apply ends_failed|].
  pose proof (skip_whitespaces_length s) as Hw. set (s1 := skip_whitespaces s) in *.
  destruct (scalars_end s1) as (H1 & H2 & H3 & H4).
  assert (Hscalar : ∀ m, ends m (scalar_end s1) → ends m (value_end n s)).
  { intros m Hm. eapply ends_weaken; [done|]. intros [v r] (? & ? & Hd). split_and!; simpl in *; try done; lia. }
  destruct s1 as [|c s'] eqn:Es; [apply ends_failed|]. simpl in Hw.
  assert (Hrest : ∀ m, ends m (value_end n s') → ends m (value_end n s)).
  { intros m Hm. eapply ends_weaken; [done|]. intros [v r] (? & ? & ?). split_and!; simpl in *; try done; lia. }
  unfold small in *.
  case_bool_decide; [apply Hrest, IHo; unfold small; lia|]. case_bool_decide; [apply Hrest, IHa; unfold small; lia|].
  repeat (case_bool_decide; [by apply Hscalar|]). apply ends_failed.
Qed.

Lemma object_step n s :
  (3 * length s + 3 <= S fuel)%nat → small (length s) → (n <= MAX_NESTING)%nat →
  ends (parse_object_value (S fuel) (S n) s) (value_end n s).
Proof using IHm.
  intros Hf Hs Hn. cbn [parse_object_value]. eapply ends_bind; [apply ends_malloc|]. intros _ _.
  eapply (ends_bind _ _ (λ o, o = empty_object 0)).
  { apply yields_ends. unfold json_object_make. eapply yields_bind; [apply yields_malloc|]. intros _ _. by apply init_yields. }
  intros ? ->. pose proof (skip_whitespaces_length s) as Hw. cbv zeta.
  assert (H0 : object_wf (empty_object (A := json) 0)) by (apply empty_object_wf; by left).
  destruct (expect "}" (skip_whitespaces s)) as [s'|] eqn:E.
  { apply ends_ret. apply expect_length in E. unfold value_end. simpl. split_and!; try done; try lia.
    apply NoDup_nil_2. }
  unfold small in *. eapply ends_bind; [apply (IHm (S n) (empty_object 0)); unfold small, ob_count; simpl; try done; try lia|].
  intros [o s1] (Hl & Hwf & Hv). simpl in *. destruct (expect "}" (skip_whitespaces s1)) as [s2|] eqn:E2; [|apply ends_failed].
  apply ends_ret. destruct (object_value_ok n o Hwf Hv Hn) as [? ?]. split_and!; try done. simpl.
  apply expect_length in E2. pose proof (skip_whitespaces_length s1). lia.
Qed.

Lemma array_step n s :
  (3 * length s + 3 <= S fuel)%nat → small (length s) → (n <= MAX_NESTING)%nat →
  ends (parse_array_value (S fuel) (S n) s) (value_end n s).
Proof using IHe.
  intros Hf Hs Hn. cbn [parse_array_value]. do 2 (eapply ends_bind; [apply ends_malloc|]; intros _ _).
  pose proof (skip_whitespaces_length s) as Hw. cbv zeta.
  destruct (expect "]" (skip_whitespaces s)) as [s'|] eqn:E.
  { apply ends_ret. apply expect_length in E. unfold value_end. simpl. split_and!; try done; lia. }
  unfold small in *. eapply ends_bind; [apply (IHe (S n) ([], 0%nat)); unfold small; simpl; try lia; [split; apply Forall_nil_2|unfold array_fits; simpl; lia]|].
  intros [[xs capacity] s1] (Hl & Hv & _). simpl in *.
  destruct (expect "]" (skip_whitespaces s1)) as [s2|] eqn:E2; [|apply ends_failed].
  unfold json_array_resize. destruct (_ =? _)%nat; [by intros mem|].
  eapply (ends_bind _ _ (λ a, a.1 = xs)); [eapply ends_bind; [apply ends_malloc|]; intros _ _; rewrite Nat.ltb_irrefl; by apply ends_ret|].
  intros [ys ?] Ey. simpl in Ey. subst ys. apply ends_ret. destruct (array_value_ok n xs Hv Hn) as [? ?].
  split_and!; try done. simpl. apply expect_length in E2. pose proof (skip_whitespaces_length s1). lia.
Qed.

Lemma elements_step n a s :
  (3 * length s + 2 <= S fuel)%nat → small (length s) → values_ok n a.1 → array_fits a →
  ends (parse_elements (S fuel) n a s) (elements_end n s).
Proof using IHv IHe.
  intros Hf Hs Hv Hc. destruct a as [xs capacity]. cbn [parse_elements]. case_bool_decide; [apply ends_ret; split_and!; simpl; done || lia|].
  unfold small in *. eapply ends_bind; [apply IHv; unfold small; lia|]. intros [v s1] (Hl & Hw & Hd). simpl in *.
  eapply (ends_bind (json_array_add (xs, capacity) v)); [apply yields_ends, json_array_add_yields, Hc|]. intros [ys c] [Ey Hc']. simpl in Ey. subst ys.
  pose proof (values_ok_snoc n xs v Hv Hw Hd) as Hv'. pose proof (skip_whitespaces_length s1) as Hw1.
  destruct (expect "," (skip_whitespaces s1)) as [s2|] eqn:E; [|apply ends_ret; split_and!; simpl; done || lia].
  pose proof (after_value_length s1 "," s2 (skip_whitespaces s2) E ltac:(lia)) as Hl2.
  destruct (expect "]" _); [apply ends_ret; split_and!; simpl; done || lia|].
  eapply ends_weaken; [apply (IHe n (xs ++ [v], c)); unfold small; try done; lia|].
  intros [[zs c'] s3] (Hl3 & Hz & Hc3). split_and!; simpl in *; done || lia.
Qed.

Lemma members_step n o s :
  (3 * length s + 2 <= S fuel)%nat → small (4 * ob_count o + length s) → object_wf o → values_ok n (ob_values o) →
  ends (parse_members (S fuel) n o s) (members_end n s).
Proof using IHv IHm.
  intros Hf Hs Hwf Hv. cbn [parse_members]. case_bool_decide; [apply ends_ret; split_and!; simpl; done || lia|].
  unfold small in *. eapply ends_bind; [apply get_quoted_string_ends|]. intros [key s1] Hk.
  destruct (Nat.eqb_spec (length key) (length (cstr key))) as [Hkey%strlen_nul_free|]; [|apply ends_failed]. cbn [negb].
  destruct (expect ":" (skip_whitespaces s1)) as [s2|] eqn:E; [|apply ends_failed].
  apply expect_length in E. pose proof (skip_whitespaces_length s1).
  eapply ends_bind; [apply IHv; unfold small; lia|]. intros [v s3] (Hl & Hw & Hd). simpl in *.
  eapply (ends_bind _ _ (λ o', extends o key v o')).
  { pose proof (json_object_add_spec o key v Hwf Hkey ltac:(lia)) as Ha. case_decide; [rewrite Ha; apply ends_failed|].
    by apply yields_ends. }
  intros o' (Hwf' & _ & Hn' & Hv'). pose proof (values_ok_snoc n _ v Hv Hw Hd) as Hok. rewrite <- Hv' in Hok.
  pose proof (skip_whitespaces_length s3) as Hw3.
  destruct (expect "," (skip_whitespaces s3)) as [s4|] eqn:E4; [|apply ends_ret; split_and!; simpl; done || lia].
  pose proof (after_value_length s3 "," s4 (skip_whitespaces s4) E4 ltac:(lia)) as Hl4.
  destruct (expect "}" _); [apply ends_ret; split_and!; simpl; done || lia|].
  eapply ends_weaken; [apply IHm; unfold small, ob_count in *; try done; [lia|]; rewrite Hn', length_app; simpl; lia|].
  intros [o2 s5] (Hl5 & Hwf2 & Hv2). split_and!; simpl in *; done || lia.
Qed.
End step.

Lemma parser_ends fuel :
  (∀ n s, (3 * length s + 1 <= fuel)%nat → small (length s) → ends (parse_value fuel n s) (value_end n s)) ∧
  (∀ n s, (3 * length s + 3 <= fuel)%nat → small (length s) → (n <= MAX_NESTING)%nat →
    ends (parse_object_value fuel (S n) s) (value_end n s)) ∧
  (∀ n s, (3 * length s + 3 <= fuel)%nat → small (length s) → (n <= MAX_NESTING)%nat →
    ends (parse_array_value fuel (S n) s) (value_end n s)) ∧
  (∀ n o s, (3 * length s + 2 <= fuel)%nat → small (4 * ob_count o + length s) → object_wf o →
    values_ok n (ob_values o) → ends (parse_members fuel n o s) (members_end n s)) ∧
  (∀ n a s, (3 * length s + 2 <= fuel)%nat → small (length s) → values_ok n a.1 → array_fits a →
    ends (parse_elements fuel n a s) (elements_end n s)).
Proof using SL.
  induction fuel as [|fuel (IHv & IHo & IHa & IHm & IHe)]; [split_and!; intros; lia|].
  split_and!; intros; auto using value_step, object_step, array_step, members_step, elements_step.
Qed.
End safety.

(** ** Decimal text *)

Lemma dec_digits_S fuel n :
  dec_digits (S fuel) n = (if n <? 10 then [] else dec_digits fuel (n / 10)) ++ [byte_of_Z (48 + n mod 10)].
Proof. reflexivity. Qed.

Lemma dec_digits_shape fuel n :
  0 <= n < 10 ^ Z.of_nat (S fuel) →
  ∃ c ds, dec_digits (S fuel) n = c :: ds ∧ Forall (λ d, is_dec d = true) (c :: ds) ∧
    (n ≠ 0 → c ≠ "0"%byte) ∧ (n = 0 → ds = []).
Proof.
  assert (Hdigit : ∀ d, 0 <= d < 10 → is_dec (byte_of_Z (48 + d)) = true ∧ (d ≠ 0 → byte_of_Z (48 + d) ≠ "0"%byte)).
  { intros d Hd. assert (byte_to_Z (byte_of_Z (48 + d)) = 48 + d) as E by (rewrite byte_to_of, Z.mod_small; lia).
    split; [unfold is_dec; rewrite E; apply andb_true_iff; split; apply Z.leb_le; lia|].
    intros Hne He. apply (f_equal byte_to_Z) in He. rewrite E in He. vm_compute (byte_to_Z "0"%byte) in He. lia. }
  revert n. induction fuel as [|fuel IH]; intros n Hn; rewrite dec_digits_S.
  - assert (n < 10) by (change (10 ^ Z.of_nat 1) with 10 in Hn; lia). rewrite (proj2 (Z.ltb_lt n 10)) by lia.
    rewrite Z.mod_small by lia. destruct (Hdigit n ltac:(lia)). eexists _, _. split_and!; [reflexivity|by repeat constructor|done|done].
  - destruct (Z.ltb_spec n 10) as [Hlt|Hge].
    { rewrite Z.mod_small by lia. destruct (Hdigit n ltac:(lia)). eexists _, _. split_and!; [reflexivity|by repeat constructor|done|done]. }
    destruct (IH (n / 10)) as (c & ds & E & Hf & Hc & _).
    { split; [apply Z.div_pos; lia|]. apply Z.div_lt_upper_bound; [lia|].
      replace (10 * 10 ^ Z.of_nat (S fuel)) with (10 ^ Z.of_nat (S (S fuel))); [lia|].
      rewrite (Nat2Z.inj_succ (S fuel)), Z.pow_succ_r by lia. done. }
    rewrite E. exists c, (ds ++ [byte_of_Z (48 + n mod 10)]).
    split_and!; [done| | |lia].
    + apply Forall_cons in Hf as [? ?]. constructor; [done|]. apply Forall_app. split; [done|].
      constructor; [apply Hdigit; apply Z.mod_pos_bound; lia|done].
    + intros _. apply Hc. pose proof (Z.div_le_lower_bound n 10 1). lia.
Qed.

Lemma is_dec_facts c : is_dec c = true → isspace c = false ∧ (c ∉ ["x"; "X"; x00]%byte) ∧
  c ∈ ["-"; "0"; "1"; "2"; "3"; "4"; "5"; "6"; "7"; "8"; "9"]%byte.
Proof. destruct c; vm_compute; intros H; try discriminate H; split_and!; try done; repeat constructor || set_solver. Qed.

Section digits.
Abbreviation place := (λ a c, a * 10 + (byte_to_Z c - 48)).

Lemma read_digits_app ds s acc k :
  Forall (λ d, is_dec d = true) ds →
  read_digits (ds ++ s) acc k = read_digits s (foldl place acc ds) (k + length ds).
Proof.
  intros Hd. revert acc k. induction Hd as [|c ds Hc _ IH]; intros acc k; simpl; [by rewrite Nat.add_0_r|].
  by rewrite Hc, IH, Nat.add_succ_r.
Qed.

Lemma dec_digits_value fuel n : 0 <= n < 10 ^ Z.of_nat (S fuel) → foldl place 0 (dec_digits (S fuel) n) = n.
Proof.
  revert n. induction fuel as [|fuel IH]; intros n Hn; rewrite dec_digits_S, foldl_app;
    (assert (Hb : byte_to_Z (byte_of_Z (48 + n mod 10)) = 48 + n mod 10)
      by (pose proof (Z.mod_pos_bound n 10 eq_refl); rewrite byte_to_of, (Z.mod_small _ 256); lia));
    cbn [foldl]; rewrite Hb; pose proof (Z.div_mod n 10); destruct (Z.ltb_spec n 10) as [Hlt|Hge]; cbn [foldl];
    try (rewrite (Z.mod_small n 10) by lia; lia).
  rewrite IH; [lia|]. split; [apply Z.div_pos; lia|]. apply Z.div_lt_upper_bound; [lia|].
  replace (10 * 10 ^ Z.of_nat (S fuel)) with (10 ^ Z.of_nat (S (S fuel))); [lia|].
  rewrite (Nat2Z.inj_succ (S fuel)), Z.pow_succ_r by lia. done.
Qed.
End digits.

(** Twenty digits are enough. *)
Lemma fmt_u_shape n :
  0 <= n <= 2 ^ 53 →
  ∃ c ds, fmt_u n = c :: ds ∧ Forall (λ d, is_dec d = true) (c :: ds) ∧ (n ≠ 0 → c ≠ "0"%byte) ∧ (n = 0 → ds = []) ∧
    foldl (λ a c, a * 10 + (byte_to_Z c - 48)) 0 (c :: ds) = n.
Proof.
  intros Hn. assert (Hb : 0 <= n < 10 ^ Z.of_nat (S 19)).
  { change (10 ^ Z.of_nat (S 19)) with 100000000000000000000. lia. }
  destruct (dec_digits_shape 19 n Hb) as (c & ds & E & Hf & Hc & Hz). exists c, ds.
  pose proof (dec_digits_value 19 n Hb) as Hv. rewrite E in Hv. by split_and!.
Qed.

Lemma ends_number_digits rest v k : ends_number rest → read_digits rest v k = (v, k).
Proof.
  destruct rest as [|c rest]; [done|]. simpl. intros Hc. enough (is_dec c = false) as -> by done.
  apply not_true_iff_false. intros Hd. destruct (is_dec_facts c Hd) as (Hs & _ & Hin). rewrite Hs in Hc.
  destruct Hc as [|Hc]; [done|]. set_solver.
Qed.

Lemma read_digits_length s acc k : (snd (read_digits s acc k) <= k + length s)%nat.
Proof.
  revert acc k. induction s as [|c s IH]; intros acc k; simpl; [lia|]. destruct (is_dec c); simpl; [|lia].
  specialize (IH (acc * 10 + (byte_to_Z c - 48)) (S k)). lia.
Qed.

Lemma read_decimal n rest :
  0 <= n <= 2 ^ 53 → ends_number rest → read_digits (fmt_u n ++ rest) 0 0 = (n, length (fmt_u n)).
Proof.
  intros Hn He. destruct (fmt_u_shape n) as (c & ds & E & Hf & _ & _ & Hv); [lia|]. rewrite E in *.
  rewrite read_digits_app by done. rewrite Hv. by apply ends_number_digits.
Qed.

#[export] Instance integer_strtod_laws : StrtodLaws integer_strtod.
Proof.
  split; unfold strtod, integer_strtod.
  - intros s. destruct (expect "-" s) as [s'|] eqn:E; [apply expect_length in E|];
      [pose proof (read_digits_length s' 0 0) as Hl; destruct (read_digits s' 0 0) as [v n]
      |pose proof (read_digits_length s 0 0) as Hl; destruct (read_digits s 0 0) as [v n]]; simpl in *; [|lia].
    destruct (_ =? _)%nat; simpl; lia.
  - intros n rest Hn He. unfold fmt_d. destruct (Z.ltb_spec n 0) as [Hneg|Hpos].
    + change (expect "-" ((x2d :: fmt_u (- n)) ++ rest)) with (Some (fmt_u (- n) ++ rest)).
      cbv iota beta. rewrite read_decimal by (done || lia).
      destruct (fmt_u_shape (- n)) as (c & ds & E & _); [lia|]. rewrite E. cbn [length Nat.eqb]. by rewrite Z.opp_involutive.
    + replace (expect "-" (fmt_u n ++ rest)) with (@None bytes).
      { by rewrite read_decimal by (done || lia). }
      destruct (fmt_u_shape n) as (c & ds & E & Hf & _); [lia|]. rewrite E. simpl.
      rewrite bool_decide_eq_false_2; [done|]. intros ->. apply Forall_cons in Hf as [Hd _]. done.
Qed.

Lemma cstr_le s : (length (cstr s) <= length s)%nat.
Proof. induction s as [|c s IH]; simpl; [lia|]. case_bool_decide; simpl; lia. Qed.

(** ** Results *)

Lemma parse_string_ends {SD : Strtod} {SL : StrtodLaws SD} s :
  small (length s) → ends (json_parse_string s) (λ v, json_wf v ∧ (depth v <= S MAX_NESTING)%nat).
Proof.
  intros Hs. assert (Hv : ∀ t, (length t <= length s)%nat → ends ('(v, _) ← parse_value (text_fuel t) 0 t; mret v)
    (λ v, json_wf v ∧ (depth v <= S MAX_NESTING)%nat)).
  { intros t Ht. destruct (parser_ends (text_fuel t)) as (Hv & _).
    eapply ends_bind; [apply (Hv 0%nat t); unfold text_fuel, small in *; lia|].
    intros [v r] (_ & Hw & Hd). simpl in *. apply ends_ret. split; [done|lia]. }
  apply Hv. destruct (bool_decide _); rewrite ?length_drop; lia.
Qed.

Lemma parse_file_good {SD : Strtod} {SL : StrtodLaws SD} contents :
  small (length contents) →
  ends (json_parse_file (Some contents)) (λ v, json_wf v ∧ (depth v <= S MAX_NESTING)%nat) ∧
  steady (json_parse_file (Some contents)).
Proof.
  intros Hs. unfold json_parse_file, read_file. split.
  - eapply (ends_bind _ _ (λ c, c = contents)).
    { eapply ends_bind; [apply ends_malloc|]. intros _ _. case_bool_decide; [apply ends_failed|by apply ends_ret]. }
    intros ? ->. apply parse_string_ends. unfold small in *. pose proof (cstr_le contents). lia.
  - apply steady_bind; [auto 10 with runs|]. intros c. apply steady_bind; [apply parser_steady|]. auto with runs.
Qed.

(** C16: whatever text of less than 2^32 bytes the file holds, and whatever
    allocations fail, the parser comes to an end without a fault: no round is
    missing, and nothing is written outside the output buffer of a string, the
    items of an array or the cells, names and values of an object.  A tree it
    returns has no object with a name twice or with a NUL in a name, nests no
    deeper than the limit, and is the tree it returns with enough memory. *)
Theorem parse_total {SD : Strtod} {SL : StrtodLaws SD} contents :
  small (length contents) →
  ends (json_parse_file (Some contents)) (λ v, json_wf v ∧ (depth v <= S MAX_NESTING)%nat) ∧
  steady (json_parse_file (Some contents)).
Proof. apply parse_file_good. Qed.

Definition sample_text : bytes := lit "[1, -20, [true, null], ]".

(** A trailing comma is accepted. *)
Definition sample_tree : json := JArray [JNumber 1; JNumber (-20); JArray [JBool true; JNull]].

Lemma parse_total_witness :
  @json_parse_file integer_strtod (Some sample_text) [] = Done (sample_tree, []) ∧ json_wf sample_tree ∧
  @json_parse_file integer_strtod (Some sample_text) [true; true; true; false] = Failed.
Proof.
  assert (Hs : small (length sample_text)) by (vm_compute; reflexivity).
  assert (E : @json_parse_file integer_strtod (Some sample_text) [] = Done (sample_tree, [])) by (vm_compute; reflexivity).
  split; [exact E|]. split; [|vm_compute; reflexivity].
  pose proof (proj1 (@parse_total integer_strtod integer_strtod_laws sample_text Hs) []) as H. rewrite E in H. apply H.
Defined.
