(* ===== verification/JsonEdit.v ===== *)
(** * Changing JSON objects and arrays

    The mutators of [kmod/parson.c].  Removing a field moves the last field into
    its place and then shifts entries of the table back over the freed cell, until
    an empty one, so that every remaining name is still found.  [attached] says
    that the value given already has a parent. *)
From Stdlib Require Import Strings.Byte ZArith Lia.
From stdpp Require Import base numbers list.
From S2P Require Import Prelude Userspace JsonObject JsonParse.

#[local] Open Scope Z_scope.

(** ** Objects *)

Section edit.
Context {A : Type}.
Implicit Types (o : json_object A) (i j k : nat).

(** [object->names[item_ix] = object->names[last_item_ix]; ...; object->count--]
    for one of the arrays *)
Definition drop_item {B} (p : nat) (l : list B) : option (list B) :=
  last_item ← last l; mret (take (length l - 1) (<[p := last_item]> l)).

(** The items without item [p], the last one in its place; its cell still leads
    somewhere. *)
Definition remove_item o (p : nat) : option (json_object A) :=
  names ← drop_item p (ob_names o);
  values ← drop_item p (ob_values o);
  ixs ← drop_item p (ob_cell_ixs o);
  hashes ← drop_item p (ob_hashes o);
  cells ← (if (p <? ob_count o - 1)%nat then
             c ← ixs !! p; _ ← ob_cells o !! c; mret (<[c := Some p]> (ob_cells o))
           else mret (ob_cells o));
  mret (mk_object cells hashes names values ixs (ob_item_capacity o)).

(** Home [k] of an entry at [j] is not between the hole [i] and [j]. *)
Definition shifts (i j k : nat) : bool :=
  ((i <? j)%nat && ((k <=? i)%nat || (j <? k)%nat)) || ((j <? i)%nat && ((k <=? i)%nat && (j <? k)%nat)).

(** [(x) & (object->cell_capacity - 1)] *)
Definition wrap_cell o (x : Z) : nat := Z.to_nat (Z.land x (u64 (Z.of_nat (ob_cell_capacity o) - 1))).

(** The loop that closes the gap: the object and the last hole. *)
Fixpoint shift_loop (rounds : nat) o (i j : nat) : run (json_object A * nat) :=
  match rounds with
  | O => mret (o, i)
  | S rounds =>
      let j := wrap_cell o (Z.of_nat j + 1) in
      cell ← need (ob_cells o !! j);
      match cell with
      | None => mret (o, i)
      | Some item =>
          hash ← need (ob_hashes o !! item);
          let k := wrap_cell o hash in
          if shifts i j k then
            _ ← need (ob_cell_ixs o !! item);
            _ ← need (ob_cells o !! i);
            shift_loop rounds
              (mk_object (<[i := Some item]> (ob_cells o)) (ob_hashes o) (ob_names o) (ob_values o)
                 (<[item := i]> (ob_cell_ixs o)) (ob_item_capacity o)) j j
          else shift_loop rounds o i j
      end
  end.

Definition json_object_remove_internal o (name : bytes) : run (json_object A) :=
  let hash := hash_string name (length name) in
  '(cell, found) ← json_object_get_cell_ix o name (length name) hash;
  if negb found then failed
  else
    c ← need cell;
    item ← need (ob_cells o !! c);
    item_ix ← need item;
    o ← need (remove_item o item_ix);
    '(o, i) ← shift_loop (ob_cell_capacity o - 1) o c c;
    _ ← need (ob_cells o !! i);
    mret (mk_object (<[i := None]> (ob_cells o)) (ob_hashes o) (ob_names o) (ob_values o) (ob_cell_ixs o) (ob_item_capacity o)).

(** [json_object_grow_and_rehash] is inside [object_add]; here it is a table of
    the larger size with the same fields. *)
Definition json_object_grow_and_rehash o : run (json_object A) :=
  new ← json_object_init (Nat.max (ob_cell_capacity o * 2) STARTING_CAPACITY);
  foldl (λ new '(k, v), new ← new; object_add 1 new k v) (mret new) (zip (ob_names o) (ob_values o)).

Definition json_object_set_value (attached : bool) o (name : bytes) (value : A) : run (json_object A) :=
  if attached then failed
  else
    let hash := hash_string name (length name) in
    '(cell_ix, found) ← json_object_get_cell_ix o name (length name) hash;
    if found : bool then
      c ← need cell_ix;
      cell ← need (ob_cells o !! c);
      item_ix ← need cell;
      _ ← need (ob_values o !! item_ix);
      mret (mk_object (ob_cells o) (ob_hashes o) (ob_names o) (<[item_ix := value]> (ob_values o)) (ob_cell_ixs o)
              (ob_item_capacity o))
    else
      '(o, cell_ix) ←
        if (ob_item_capacity o <=? ob_count o)%nat then
          o ← json_object_grow_and_rehash o;
          '(cell_ix, _) ← json_object_get_cell_ix o name (length name) hash;
          mret (o, cell_ix)
        else mret (o, cell_ix);
      _ ← malloc;
      object_append o cell_ix hash name value.

Definition json_object_clear o : json_object A :=
  mk_object (replicate (ob_cell_capacity o) None) [] [] [] [] (ob_item_capacity o).
End edit.

(** ** Cells in a circle *)

(** [u] cells after [i] *)
Definition after (cap i u : nat) : nat := if decide (i + u < cap)%nat then (i + u)%nat else (i + u - cap)%nat.

Ltac circle := unfold after in *; repeat case_decide; lia.

(** The entry at [j] with home [k] is [d] cells after it: it is shifted exactly
    when the hole lies on the way. *)
Lemma shifts_spec cap i k d :
  (i < cap)%nat → (k < cap)%nat → (d < cap)%nat → after cap k d ≠ i →
  shifts i (after cap k d) k = true ↔ ∃ d', (d' < d)%nat ∧ after cap k d' = i.
Proof.
  intros Hi Hk Hd Hne. unfold shifts. rewrite !orb_true_iff, !andb_true_iff, !orb_true_iff, !Nat.ltb_lt, !Nat.leb_le. split.
  - intros H. exists (if decide (k <= i)%nat then i - k else i + cap - k)%nat. circle.
  - intros (d' & Hd' & E). circle.
Qed.

Section table.
Context {A : Type}.
Implicit Types (o : json_object A) (name : bytes) (c i j t u : nat).

(** The home of a name. *)
Abbreviation home o name := (slot o name 0).

Lemma slot_after o name d :
  (d < ob_cell_capacity o)%nat → slot o name d = after (ob_cell_capacity o) (home o name) d.
Proof.
  intros Hd. unfold slot. set (N := Z.of_nat (ob_cell_capacity o)). rewrite Z.add_0_r.
  pose proof (Z.mod_pos_bound (name_hash name) N ltac:(lia)) as Hm.
  rewrite <- Zplus_mod_idemp_l. set (k := name_hash name mod N) in *. unfold after. case_decide as Hc.
  - rewrite Z.mod_small by lia. lia.
  - rewrite <- (Z_mod_plus_full _ (-1)), Z.mod_small by lia. lia.
Qed.

(** A table whose cell [i] leads nowhere, but is not empty. *)
Record holed o i : Prop := {
  hl_hashes : ob_hashes o = name_hash <$> ob_names o;
  hl_values : length (ob_values o) = ob_count o;
  hl_ixs : length (ob_cell_ixs o) = ob_count o;
  hl_nodup : NoDup (ob_names o);
  hl_names : Forall nul_free (ob_names o);
  hl_capacity : ∃ k : nat, (4 <= k < 32)%nat ∧ ob_cell_capacity o = (2 ^ k)%nat;
  hl_items : ob_item_capacity o = (ob_cell_capacity o * 7 / 10)%nat;
  hl_count : (ob_count o <= ob_item_capacity o)%nat;
  hl_stale : full o i;
  hl_hole : i ∉ ob_cell_ixs o;
  hl_cells : ∀ c j, c ≠ i → ob_cells o !! c = Some (Some j) ↔ ob_cell_ixs o !! j = Some c;
  hl_probe : ∀ j name c, ob_names o !! j = Some name → ob_cell_ixs o !! j = Some c →
    ∃ d, (d < ob_cell_capacity o)%nat ∧ c = slot o name d ∧ ∀ d', (d' < d)%nat → full o (slot o name d')
}.

(** The way of the entry at [c] does not lead over [i]. *)
Definition avoids o i c : Prop :=
  ∀ j name d, ob_names o !! j = Some name → ob_cell_ixs o !! j = Some c → (d < ob_cell_capacity o)%nat →
    c = slot o name d → ∀ d', (d' < d)%nat → slot o name d' ≠ i.

(** The [t] cells after [i] are taken by entries that are found without it. *)
Definition scanned o i t : Prop :=
  ∀ u, (0 < u <= t)%nat → full o (after (ob_cell_capacity o) i u) ∧ avoids o i (after (ob_cell_capacity o) i u).

Lemma wrap_cell_mod o i x :
  holed o i → wrap_cell o x = Z.to_nat (x mod Z.of_nat (ob_cell_capacity o)).
Proof.
  intros Hh. destruct (hl_capacity o i Hh) as (k & Hk & E). unfold wrap_cell. rewrite E, Nat2Z.inj_pow.
  change (Z.of_nat 2) with 2. assert (2 ^ Z.of_nat k < 2 ^ 32) by (apply Z.pow_lt_mono_r; lia).
  assert (0 < 2 ^ Z.of_nat k) by (apply Z.pow_pos_nonneg; lia).
  unfold u64. rewrite wrap_small by (unfold fits; lia). by rewrite land_mod_pow2 by lia.
Qed.

Lemma wrap_next o i c :
  holed o i → (c < ob_cell_capacity o)%nat → wrap_cell o (Z.of_nat c + 1) = after (ob_cell_capacity o) c 1.
Proof.
  intros Hh Hc. rewrite (wrap_cell_mod o i) by done. unfold after. case_decide as Hd.
  - rewrite Z.mod_small by lia. lia.
  - rewrite <- (Z_mod_plus_full _ (-1)), Z.mod_small by lia. lia.
Qed.

Lemma wrap_home o i name : holed o i → wrap_cell o (name_hash name) = home o name.
Proof. intros Hh. rewrite (wrap_cell_mod o i) by done. unfold slot. by rewrite Z.add_0_r. Qed.

(** The entry in a cell other than the hole. *)
Lemma holed_entry o i c j :
  holed o i → c ≠ i → ob_cells o !! c = Some (Some j) →
  ∃ name d, ob_names o !! j = Some name ∧ ob_hashes o !! j = Some (name_hash name) ∧ ob_cell_ixs o !! j = Some c ∧
    (d < ob_cell_capacity o)%nat ∧ c = slot o name d ∧ ∀ d', (d' < d)%nat → full o (slot o name d').
Proof.
  intros Hh Hne Hc. apply (hl_cells o i Hh) in Hc; [|done]. pose proof (lookup_lt_Some _ _ _ Hc) as Hl.
  rewrite (hl_ixs o i Hh) in Hl. destruct (lookup_lt_is_Some_2 (ob_names o) j Hl) as [name Hn].
  destruct (hl_probe o i Hh j name c Hn Hc) as (d & ? & ? & ?). exists name, d. split_and!; try done.
  by rewrite (hl_hashes o i Hh), list_lookup_fmap, Hn.
Qed.

(** Moving an entry into the hole leaves the hole where it was. *)
Definition moved o i c j : json_object A :=
  mk_object (<[i := Some j]> (ob_cells o)) (ob_hashes o) (ob_names o) (ob_values o) (<[j := i]> (ob_cell_ixs o))
    (ob_item_capacity o).

Lemma moved_holed o i c j name d d' :
  holed o i → c ≠ i → ob_cells o !! c = Some (Some j) → ob_names o !! j = Some name → c = slot o name d →
  (d < ob_cell_capacity o)%nat → (∀ d', (d' < d)%nat → full o (slot o name d')) → (d' < d)%nat → slot o name d' = i →
  holed (moved o i c j) c.
Proof.
  intros Hh Hne Hc Hn Ec Hd Hfull Hd' Ei. pose proof (hl_stale o i Hh) as [stale Hst].
  pose proof (proj1 (hl_cells o i Hh c j Hne) Hc) as Hix. pose proof (lookup_lt_Some _ _ _ Hst) as Hil.
  assert (Hslot : ∀ n e, slot (moved o i c j) n e = slot o n e).
  { intros. unfold slot, ob_cell_capacity, moved. simpl. by rewrite length_insert. }
  assert (Hf : ∀ x, full o x → full (moved o i c j) x).
  { intros x [y Hy]. unfold full, moved. simpl. destruct (decide (x = i)) as [->|].
    - exists j. by apply list_lookup_insert_eq.
    - exists y. by rewrite list_lookup_insert_ne. }
  constructor; unfold ob_count, ob_cell_capacity, moved; cbn [ob_cells ob_hashes ob_names ob_values ob_cell_ixs ob_item_capacity];
    rewrite ?length_insert; try apply Hh.
  - apply Hf. by exists j.
  - intros [m Hm]%list_elem_of_lookup. destruct (decide (m = j)) as [->|].
    + rewrite list_lookup_insert_eq in Hm by (by eapply lookup_lt_Some). congruence.
    + rewrite list_lookup_insert_ne in Hm by done. apply (hl_cells o i Hh) in Hm; [|done]. congruence.
  - intros x m Hx. destruct (decide (x = i)) as [->|Hxi].
    + rewrite list_lookup_insert_eq by done. destruct (decide (m = j)) as [->|].
      { by rewrite list_lookup_insert_eq by (by eapply lookup_lt_Some). }
      rewrite list_lookup_insert_ne by done. split; [congruence|]. intros Hm.
      destruct (hl_hole o i Hh). by eapply list_elem_of_lookup_2.
    + rewrite list_lookup_insert_ne by done. rewrite (hl_cells o i Hh) by done. destruct (decide (m = j)) as [->|].
      { rewrite list_lookup_insert_eq by (by eapply lookup_lt_Some). split; congruence. }
      by rewrite list_lookup_insert_ne.
  - intros m nm x Hm Hx. setoid_rewrite Hslot. destruct (decide (m = j)) as [->|Hmj].
    + rewrite list_lookup_insert_eq in Hx by (by eapply lookup_lt_Some). simplify_eq.
      exists d'. split_and!; [unfold ob_cell_capacity in Hd; lia|done|]. intros e He. apply Hf, Hfull. lia.
    + rewrite list_lookup_insert_ne in Hx by done. destruct (hl_probe o i Hh m nm x Hm Hx) as (e & ? & ? & He).
      exists e. split_and!; try done. intros. by apply Hf, He.
Qed.

(** At an empty cell nothing beyond it depends on the hole. *)
Lemma scanned_all o i t :
  holed o i → (i < ob_cell_capacity o)%nat → (t + 1 < ob_cell_capacity o)%nat → scanned o i t →
  ob_cells o !! after (ob_cell_capacity o) i (t + 1) = Some None → ∀ c, avoids o i c.
Proof.
  intros Hh Hi Ht Hs He c j name d Hn Hx Hd Ec d' Hd' Ei.
  assert (Hci : c ≠ i) by (intros ->; destruct (hl_hole o i Hh); by eapply list_elem_of_lookup_2).
  pose proof (slot_range o name 0 ltac:(lia)) as Hk. rewrite slot_after in Ec, Ei by lia.
  set (k := home o name) in *. set (cap := ob_cell_capacity o) in *.
  assert (Eu : c = after cap i (d - d')) by (clear -Ec Ei Hd Hd' Hk Hi; circle).
  destruct (decide (d - d' <= t)%nat) as [Hle|Hgt].
  { destruct (Hs (d - d')%nat ltac:(lia)) as [_ Hav]. fold cap in Hav. rewrite <- Eu in Hav.
    apply (Hav j name d Hn Hx Hd ltac:(by rewrite slot_after) d' Hd'). by rewrite slot_after by lia. }
  assert (Ej : after cap i (t + 1) = slot o name (d' + t + 1)).
  { rewrite slot_after by lia. fold k cap. clear -Ec Ei Hd Hd' Hk Hi Ht Hgt. circle. }
  destruct (hl_probe o i Hh j name c Hn Hx) as (e & Hel & Ee & Hfull).
  assert (e = d) as ->.
  { rewrite slot_after in Ee by done. fold k cap in Ee. clear -Ec Ee Hd Hel Hk. fold cap in Hel. circle. }
  rewrite Ej in He. destruct (decide (d' + t + 1 < d)%nat) as [Hlt|Hge].
  - destruct (Hfull _ Hlt) as [? ?]. congruence.
  - replace (d' + t + 1)%nat with d in He by lia. rewrite <- Ee in He.
    apply (hl_cells o i Hh) in Hx; [|done]. congruence.
Qed.

(** Everything but the cells. *)
Definition same_items o o' : Prop :=
  ob_hashes o' = ob_hashes o ∧ ob_names o' = ob_names o ∧ ob_values o' = ob_values o ∧
  ob_item_capacity o' = ob_item_capacity o ∧ ob_cell_capacity o' = ob_cell_capacity o.

(** The loop ends at the next empty cell, [s] cells ahead, with a hole that no
    entry depends on. *)
Lemma shift_loop_spec rounds o i t s :
  holed o i → (i < ob_cell_capacity o)%nat → (0 < s <= rounds)%nat → (t + s < ob_cell_capacity o)%nat →
  ob_cells o !! after (ob_cell_capacity o) i (t + s) = Some None → scanned o i t →
  ∃ o' i', shift_loop rounds o i (after (ob_cell_capacity o) i t) = mret (o', i') ∧ holed o' i' ∧
    (∀ c, avoids o' i' c) ∧ same_items o o'.
Proof.
  revert o i t s. induction rounds as [|rounds IH]; intros o i t s Hh Hi Hs Hts He Hsc; [lia|].
  set (cap := ob_cell_capacity o) in *. cbn [shift_loop].
  rewrite (wrap_next o i) by (done || fold cap; circle). fold cap.
  replace (after cap (after cap i t) 1) with (after cap i (t + 1)) by circle.
  set (c := after cap i (t + 1)). assert (Hc : (c < cap)%nat) by (subst c; circle).
  destruct (lookup_lt_is_Some_2 (ob_cells o) c Hc) as [[j|] Ej]; rewrite (bind_need _ _ _ Ej).
  2: { exists o, i. split_and!; try done. apply (scanned_all o i t); try done. fold cap. lia. }
  assert (Hs1 : (s ≠ 1)%nat) by (intros ->; fold c in He; congruence).
  assert (Hci : c ≠ i) by (subst c; circle).
  destruct (holed_entry o i c j Hh Hci Ej) as (name & d & Hn & Hhash & Hix & Hd & Ec & Hfull).
  rewrite (bind_need _ _ _ Hhash). cbv zeta. rewrite (wrap_home o i) by done.
  pose proof (slot_range o name 0 ltac:(fold cap; lia)) as Hk. fold cap in Hk, Hd.
  pose proof (shifts_spec cap i (home o name) d Hi Hk Hd) as Hsh. pose proof Ec as Ec'. rewrite slot_after in Ec' by done.
  fold cap in Ec'. rewrite <- Ec' in Hsh. specialize (Hsh Hci). destruct (shifts i c (home o name)).
  - destruct (proj1 Hsh eq_refl) as (d' & Hd' & Ei). apply (eq_trans (slot_after o name d' ltac:(fold cap; lia))) in Ei.
    pose proof (moved_holed o i c j name d d' Hh Hci Ej Hn Ec Hd Hfull Hd' Ei) as Hm.
    rewrite (bind_need _ _ _ Hix). destruct (hl_stale o i Hh) as [st Hst]. rewrite (bind_need _ _ _ Hst).
    change (mk_object _ _ _ _ _ _) with (moved o i c j).
    assert (Ecap : ob_cell_capacity (moved o i c j) = cap) by (unfold ob_cell_capacity, moved; simpl; by rewrite length_insert).
    destruct (IH (moved o i c j) c 0%nat (s - 1)%nat) as (o' & i' & E & Hh' & Hav & Hsame); try done; rewrite ?Ecap; try lia.
    + replace (after cap c (0 + (s - 1))) with (after cap i (t + s)) by (subst c; circle).
      unfold moved. cbn [ob_cells]. rewrite list_lookup_insert_ne; [done|]. intros Heq. rewrite Heq in Hst. congruence.
    + intros u Hu. lia.
    + rewrite Ecap in E. replace (after cap c 0) with c in E by circle. exists o', i'. split_and!; try done; [].
      unfold same_items in *. rewrite Ecap in Hsame. exact Hsame.
  - destruct (IH o i (t + 1)%nat (s - 1)%nat) as (o' & i' & E & Hrest); try done; try (fold cap; lia).
    + replace (t + 1 + (s - 1))%nat with (t + s)%nat by lia. exact He.
    + intros u Hu. destruct (decide (u <= t)%nat); [apply Hsc; lia|]. replace u with (t + 1)%nat by lia.
      fold cap c. split; [by exists j|]. intros m nm e Hm Hx He' Ee d' Hd' Ei'.
      pose proof (proj2 (hl_cells o i Hh c m Hci) Hx) as Em. assert (m = j) as -> by congruence.
      assert (nm = name) as -> by congruence.
      assert (e = d) as ->.
      { rewrite slot_after in Ee by done. clear -Ec' Ee He' Hd Hk. fold cap in Ee, He'. circle. }
      assert (false = true); [|done]. apply Hsh. exists d'. split; [done|]. rewrite slot_after in Ei' by (fold cap; lia). exact Ei'.
    + exists o', i'. split; [|done]. exact E.
Qed.

(** The freed cell becomes empty. *)
Definition closed o i : json_object A :=
  mk_object (<[i := None]> (ob_cells o)) (ob_hashes o) (ob_names o) (ob_values o) (ob_cell_ixs o) (ob_item_capacity o).

Lemma closed_wf o i : holed o i → (∀ c, avoids o i c) → object_wf (closed o i).
Proof.
  intros Hh Hav. pose proof (hl_stale o i Hh) as [st Hst]. pose proof (lookup_lt_Some _ _ _ Hst) as Hil.
  assert (Hslot : ∀ n e, slot (closed o i) n e = slot o n e).
  { intros. unfold slot, ob_cell_capacity, closed. simpl. by rewrite length_insert. }
  constructor; unfold ob_count, ob_cell_capacity, closed; cbn [ob_cells ob_hashes ob_names ob_values ob_cell_ixs ob_item_capacity];
    rewrite ?length_insert; try apply Hh.
  - right. apply Hh.
  - intros c j. destruct (decide (c = i)) as [->|Hne].
    + rewrite list_lookup_insert_eq by done. split; [done|]. intros Hj. destruct (hl_hole o i Hh).
      by eapply list_elem_of_lookup_2.
    + rewrite list_lookup_insert_ne by done. by apply Hh.
  - intros j name c Hj Hc. setoid_rewrite Hslot. destruct (hl_probe o i Hh j name c Hj Hc) as (d & Hd & Ec & Hf).
    exists d. split_and!; try done. intros d' Hd'. destruct (Hf d' Hd') as [y Hy]. exists y. cbn [ob_cells].
    rewrite list_lookup_insert_ne; [done|]. intros E. by apply (Hav c j name d Hj Hc Hd Ec d' Hd').
Qed.

(** ** The items *)

(** The item that is in place [j] after removing item [p] of [n]. *)
Definition moved_from (n p j : nat) : nat := if decide (j = p) then (n - 1)%nat else j.

Lemma drop_item_lookup {B} p (l : list B) :
  (p < length l)%nat →
  ∃ l', drop_item p l = Some l' ∧ length l' = (length l - 1)%nat ∧
    ∀ j, l' !! j = if decide (j < length l - 1)%nat then l !! moved_from (length l) p j else None.
Proof.
  intros Hp. destruct (last l) as [x|] eqn:El.
  2: { apply last_None in El. subst. simpl in Hp. lia. }
  eexists. split; [unfold drop_item; rewrite El; reflexivity|]. split; [rewrite length_take, length_insert; lia|].
  rewrite last_lookup in El. replace (Init.Nat.pred (length l)) with (length l - 1)%nat in El by lia.
  intros j. case_decide as Hj.
  - rewrite lookup_take_lt by done. unfold moved_from. case_decide as E.
    + subst j. rewrite list_lookup_insert_eq by done. done.
    + by rewrite list_lookup_insert_ne.
  - apply lookup_ge_None_2. rewrite length_take, length_insert. lia.
Qed.

Section remove.
Context o (Hwf : object_wf o) (p c : nat) (key : bytes).
Context (Hp : ob_names o !! p = Some key) (Hc : ob_cell_ixs o !! p = Some c).
Abbreviation n := (ob_count o).
Abbreviation from := (moved_from n p).

Lemma place : (p < n)%nat ∧ length (ob_values o) = n ∧ length (ob_cell_ixs o) = n ∧ length (ob_hashes o) = n.
Proof using Hwf Hp.
  split_and!; [by eapply lookup_lt_Some|apply Hwf|apply Hwf|]. rewrite (ow_hashes o Hwf), length_fmap. done.
Qed.

Lemma from_inj j j' : (j < n - 1)%nat → (j' < n - 1)%nat → from j = from j' → j = j'.
Proof using. unfold moved_from. repeat case_decide; lia. Qed.

Lemma from_range j : (j < n - 1)%nat → (from j < n)%nat ∧ from j ≠ p.
Proof using. unfold moved_from. case_decide; lia. Qed.

(** The cells after the first step. *)
Definition removed_cells : list (option nat) :=
  if decide (p < n - 1)%nat then
    match ob_cell_ixs o !! (n - 1)%nat with Some cl => <[cl := Some p]> (ob_cells o) | None => ob_cells o end
  else ob_cells o.

(** The cell of an item is unique. *)
Lemma cell_inj j j' x : ob_cell_ixs o !! j = Some x → ob_cell_ixs o !! j' = Some x → j = j'.
Proof using Hwf. intros H1 H2. apply (ow_cells o Hwf) in H1, H2. congruence. Qed.

Lemma removed_cells_spec :
  length removed_cells = ob_cell_capacity o ∧
  (∀ x, full o x → ∃ j, removed_cells !! x = Some (Some j)) ∧ removed_cells !! c = Some (Some p) ∧
  (∀ x, ob_cells o !! x = Some None → removed_cells !! x = Some None) ∧
  (∀ x j, x ≠ c → removed_cells !! x = Some (Some j) ↔ (j < n - 1)%nat ∧ ob_cell_ixs o !! from j = Some x).
Proof using Hwf Hp Hc.
  destruct place as (Hpn & _ & Hix & _). pose proof (proj2 (ow_cells o Hwf c p) Hc) as Hcp.
  unfold removed_cells. case_decide as Hlast.
  - destruct (lookup_lt_is_Some_2 (ob_cell_ixs o) (n - 1)) as [cl Hcl]; [lia|]. rewrite Hcl.
    pose proof (proj2 (ow_cells o Hwf cl (n - 1)) Hcl) as Hcln. pose proof (lookup_lt_Some _ _ _ Hcln) as Hclen.
    assert (Hne : cl ≠ c) by (intros ->; rewrite Hcp in Hcln; simplify_eq; lia).
    split_and!; [by rewrite length_insert| | | |].
    + intros x [j Hj]. destruct (decide (x = cl)) as [->|]; [rewrite list_lookup_insert_eq by done; eauto|].
      rewrite list_lookup_insert_ne by done. eauto.
    + by rewrite list_lookup_insert_ne.
    + intros x Hx. rewrite list_lookup_insert_ne; [done|]. intros ->. congruence.
    + intros x j Hxc. destruct (decide (x = cl)) as [->|Hxl].
      * rewrite list_lookup_insert_eq by done. split.
        { intros [= <-]. split; [done|]. unfold moved_from. by rewrite decide_True. }
        intros [Hj Hf]. do 2 f_equal. pose proof (cell_inj _ _ _ Hf Hcl) as E. unfold moved_from in E. case_decide; [done|lia].
      * rewrite list_lookup_insert_ne by done. rewrite (ow_cells o Hwf). split.
        { intros Hj. pose proof (lookup_lt_Some _ _ _ Hj). assert (j ≠ p) by congruence.
          assert (j ≠ (n - 1)%nat) by congruence. split; [lia|]. unfold moved_from. by rewrite decide_False. }
        intros [Hj Hf]. unfold moved_from in Hf. case_decide; [congruence|done].
  - split_and!; try done.
    intros x j Hxc. rewrite (ow_cells o Hwf). assert (Hpl : p = (n - 1)%nat) by lia. split.
    + intros Hj. pose proof (lookup_lt_Some _ _ _ Hj). assert (j ≠ p) by congruence. split; [lia|].
      unfold moved_from. by rewrite decide_False.
    + intros [Hj Hf]. unfold moved_from in Hf. rewrite decide_False in Hf by lia. done.
Qed.

Lemma remove_item_holed :
  ∃ o1, remove_item o p = Some o1 ∧ holed o1 c ∧ ob_cells o1 = removed_cells ∧
    drop_item p (ob_names o) = Some (ob_names o1) ∧ drop_item p (ob_values o) = Some (ob_values o1).
Proof using Hwf Hp Hc.
  destruct place as (Hpn & Hlv & Hli & Hlh). destruct removed_cells_spec as (Hcap & Hfull & Hstale & _ & Hcells).
  destruct (drop_item_lookup p (ob_names o) Hpn) as (names & En & Hn1 & Hn2).
  destruct (drop_item_lookup p (ob_values o)) as (values & Ev & Hv1 & Hv2); [lia|].
  destruct (drop_item_lookup p (ob_cell_ixs o)) as (ixs & Ei & Hi1 & Hi2); [lia|].
  destruct (drop_item_lookup p (ob_hashes o)) as (hashes & Eh & Hh1 & Hh2); [lia|].
  fold (ob_count o) in Hn1, Hn2. rewrite Hli in Hi1, Hi2. rewrite Hlh in Hh1, Hh2. rewrite Hlv in Hv1.
  exists (mk_object removed_cells hashes names values ixs (ob_item_capacity o)). split.
  { unfold remove_item. rewrite En, Ev, Ei, Eh. simpl. unfold removed_cells. destruct (Nat.ltb_spec p (n - 1)) as [Hl|Hl].
    - rewrite decide_True by done. specialize (Hi2 p). rewrite decide_True in Hi2 by done. unfold moved_from in Hi2.
      rewrite decide_True in Hi2 by done. rewrite Hi2. destruct (lookup_lt_is_Some_2 (ob_cell_ixs o) (n - 1)) as [cl Hcl]; [lia|].
      rewrite Hcl. simpl. rewrite (proj2 (ow_cells o Hwf cl (n - 1)) Hcl). done.
    - by rewrite decide_False by lia. }
  split; [|split_and!; done].
  assert (Hcap0 : ob_cell_capacity o ≠ 0%nat).
  { intros E. pose proof (proj2 (ow_cells o Hwf c p) Hc) as Hx. apply lookup_lt_Some in Hx. unfold ob_cell_capacity in E. lia. }
  assert (Hslot : ∀ nm e, slot (mk_object removed_cells hashes names values ixs (ob_item_capacity o)) nm e = slot o nm e).
  { intros. unfold slot, ob_cell_capacity. simpl. by rewrite Hcap. }
  constructor; unfold ob_count, ob_cell_capacity; cbn [ob_cells ob_hashes ob_names ob_values ob_cell_ixs ob_item_capacity];
    try lia; rewrite ?Hcap.
  - apply list_eq. intros j. rewrite list_lookup_fmap, Hh2, Hn2, (ow_hashes o Hwf).
    case_decide; [by rewrite list_lookup_fmap|done].
  - apply NoDup_alt. intros j j' x Hj Hj'. rewrite Hn2 in Hj, Hj'. repeat case_decide; try done.
    apply from_inj; try done. by eapply NoDup_lookup; [apply Hwf|..].
  - apply Forall_lookup. intros j x Hj. rewrite Hn2 in Hj. case_decide; [|done].
    by eapply Forall_lookup_1; [apply Hwf|].
  - destruct (ow_capacity o Hwf) as [|H]; [done|exact H].
  - apply Hwf.
  - pose proof (ow_count o Hwf). lia.
  - exists p. exact Hstale.
  - intros [j Hj]%list_elem_of_lookup. rewrite Hi2 in Hj. case_decide as Hl; [|done].
    pose proof (cell_inj _ _ _ Hj Hc). by destruct (from_range j Hl).
  - intros x j Hx. rewrite Hcells by done. rewrite Hi2. case_decide as Hl; [tauto|]. split; [tauto|done].
  - intros j nm x Hj Hx. rewrite Hn2 in Hj. rewrite Hi2 in Hx. case_decide; [|done].
    destruct (ow_probe o Hwf _ _ _ Hj Hx) as (d & Hd & Ex & Hf). exists d. setoid_rewrite Hslot. split_and!; try done.
    intros d' Hd'. apply Hfull. by apply Hf.
Qed.

(** The empty cell the loop stops at. *)
Lemma gap_ahead :
  ∃ s, (0 < s <= ob_cell_capacity o - 1)%nat ∧ removed_cells !! after (ob_cell_capacity o) c s = Some None.
Proof using Hwf Hp Hc.
  pose proof (proj2 (ow_cells o Hwf c p) Hc) as Hcp. pose proof (lookup_lt_Some _ _ _ Hcp) as Hcl.
  destruct (has_empty o Hwf) as [e He]; [unfold ob_cell_capacity; lia|]. pose proof (lookup_lt_Some _ _ _ He) as Hel.
  assert (e ≠ c) by (intros ->; congruence). fold (ob_cell_capacity o) in *.
  exists (if decide (c < e)%nat then e - c else e + ob_cell_capacity o - c)%nat. split; [case_decide; lia|].
  replace (after _ _ _) with e by circle. by apply removed_cells_spec.
Qed.

(** What is left: the other fields, the last one in the place of [p]. *)
Lemma removed_fields :
  ∃ o', json_object_remove_internal o key = mret o' ∧ object_wf o' ∧
    drop_item p (ob_names o) = Some (ob_names o') ∧ drop_item p (ob_values o) = Some (ob_values o').
Proof using Hwf Hp Hc.
  assert (Hk : nul_free key) by (by eapply Forall_lookup_1; [apply Hwf|]).
  destruct (get_cell_ix_answer o Hwf key Hk) as (a & Ea & Ha).
  assert (a = (Some c, true)) as ->.
  { destruct Ha as [j x Hj Hx|d _ Hnew _ _|E0].
    - assert (j = p) as -> by (by eapply NoDup_lookup; [apply Hwf|..]). congruence.
    - destruct Hnew. by eapply list_elem_of_lookup_2.
    - exfalso. pose proof (proj2 (ow_cells o Hwf c p) Hc) as Hx. apply lookup_lt_Some in Hx. unfold ob_cell_capacity in E0. lia. }
  destruct remove_item_holed as (o1 & E1 & Hh & Ecells & En & Ev). destruct removed_cells_spec as (Hcap & _ & Hst & _).
  assert (Hcap1 : ob_cell_capacity o1 = ob_cell_capacity o) by (unfold ob_cell_capacity in *; congruence).
  destruct gap_ahead as (s & Hs & Hgap).
  destruct (shift_loop_spec (ob_cell_capacity o1 - 1) o1 c 0 s) as (o2 & i & E2 & Hh2 & Hav & Hsame); try done;
    rewrite ?Hcap1; try lia.
  { apply lookup_lt_Some in Hst. lia. }
  { by rewrite Ecells. }
  { intros u Hu. lia. }
  destruct Hsame as (_ & Hn & Hv & _). exists (closed o2 i). split_and!; [|by apply closed_wf|by cbn; rewrite Hn|by cbn; rewrite Hv].
  unfold json_object_remove_internal. fold (name_hash key). rewrite Ea, bind_mret. cbn [negb].
  rewrite (bind_need (Some c) _ _ eq_refl), (bind_need _ _ _ (proj2 (ow_cells o Hwf c p) Hc)), (bind_need (Some p) _ _ eq_refl), E1,
    (bind_need (Some o1) _ _ eq_refl).
  replace (after _ c 0) with c in E2 by (apply lookup_lt_Some in Hst; circle). rewrite Hcap1 in E2 |- *. rewrite E2, bind_mret.
  destruct (hl_stale o2 i Hh2) as [st Hi]. by rewrite (bind_need _ _ _ Hi).
Qed.
End remove.
End table.

(** ** Objects as maps *)

Section maps.
Context {A : Type}.
Implicit Types (o : json_object A) (key k : bytes) (v w : A).

Lemma elem_of_fields o k v :
  (k, v) ∈ fields o ↔ ∃ j, ob_names o !! j = Some k ∧ ob_values o !! j = Some v.
Proof.
  unfold fields. rewrite list_elem_of_lookup. split.
  - intros [j Hj]. exists j. rewrite lookup_zip_with in Hj.
    destruct (ob_names o !! j), (ob_values o !! j); simplify_eq/=. done.
  - intros (j & Hk & Hv). exists j. by rewrite lookup_zip_with, Hk, Hv.
Qed.

(** The items after dropping one. *)
Lemma dropped_fields o o' p key :
  NoDup (ob_names o) → length (ob_values o) = ob_count o → ob_names o !! p = Some key →
  drop_item p (ob_names o) = Some (ob_names o') → drop_item p (ob_values o) = Some (ob_values o') →
  ∀ k v, (k, v) ∈ fields o' ↔ (k, v) ∈ fields o ∧ k ≠ key.
Proof.
  intros Hnd Hlv Hp En Ev k v. pose proof (lookup_lt_Some _ _ _ Hp) as Hpn. unfold ob_count in Hlv.
  destruct (drop_item_lookup p (ob_names o) Hpn) as (? & E1 & _ & Hn). rewrite En in E1. injection E1 as <-.
  destruct (drop_item_lookup p (ob_values o)) as (? & E2 & _ & Hv); [lia|]. rewrite Ev in E2. injection E2 as <-.
  rewrite Hlv in Hv. rewrite !elem_of_fields. split.
  - intros (j & Hj & Hw). rewrite Hn in Hj. rewrite Hv in Hw. case_decide as Hl; [|done]. split; [by eauto|].
    intros ->. pose proof (NoDup_lookup _ _ _ _ Hnd Hj Hp) as E. unfold moved_from in E. case_decide; lia.
  - intros [(j & Hj & Hw) Hne]. assert (j ≠ p) by (intros ->; congruence). pose proof (lookup_lt_Some _ _ _ Hj) as Hl.
    destruct (decide (j = length (ob_names o) - 1)%nat) as [->|Hlast].
    + exists p. rewrite Hn, Hv. rewrite !decide_True by lia. unfold moved_from. by rewrite decide_True.
    + exists j. rewrite Hn, Hv. rewrite !decide_True by lia. unfold moved_from. by rewrite decide_False.
Qed.

(** [json_object_set_value] with the key there. *)
Lemma set_present o key v p c :
  object_wf o → ob_names o !! p = Some key → ob_cell_ixs o !! p = Some c →
  ∃ o', json_object_set_value false o key v = mret o' ∧ object_wf o' ∧
    ob_names o' = ob_names o ∧ ob_values o' = <[p := v]> (ob_values o).
Proof.
  intros Hwf Hp Hc. assert (Hk : nul_free key) by (by eapply Forall_lookup_1; [apply Hwf|]).
  exists (mk_object (ob_cells o) (ob_hashes o) (ob_names o) (<[p := v]> (ob_values o)) (ob_cell_ixs o) (ob_item_capacity o)).
  split; [|split; [|split; reflexivity]].
  - unfold json_object_set_value. fold (name_hash key). destruct (get_cell_ix_answer o Hwf key Hk) as (a & -> & Ha).
    rewrite bind_mret. destruct Ha as [j x Hj Hx|d _ Hnew _ _|E0].
    + assert (j = p) as -> by (by eapply NoDup_lookup; [apply Hwf|..]).
      rewrite (bind_need (Some _) _ _ eq_refl), (bind_need _ _ _ (proj2 (ow_cells o Hwf x p) Hx)), (bind_need (Some _) _ _ eq_refl).
      destruct (lookup_lt_is_Some_2 (ob_values o) p) as [w Hw]; [rewrite (ow_values o Hwf); by eapply lookup_lt_Some|].
      by rewrite (bind_need _ _ _ Hw).
    + destruct Hnew. by eapply list_elem_of_lookup_2.
    + exfalso. pose proof (proj2 (ow_cells o Hwf c p) Hc) as Hx. apply lookup_lt_Some in Hx. unfold ob_cell_capacity in E0. lia.
  - destruct Hwf as [? Hv]. split; try done. cbn [ob_values]. by rewrite length_insert.
Qed.

Lemma set_new o key v :
  object_wf o → nul_free key → key ∉ ob_names o → Z.of_nat (ob_count o) < 2 ^ 30 →
  yields (json_object_set_value false o key v) (extends o key v).
Proof.
  intros Hwf Hk Hnew Hsmall. unfold json_object_set_value. fold (name_hash key).
  destruct (get_cell_ix_answer o Hwf key Hk) as (a & -> & Ha). rewrite bind_mret.
  destruct (Nat.leb_spec (ob_item_capacity o) (ob_count o)) as [Hfull|Hroom].
  - assert (Hf : ∃ cell, a = (cell, false)).
    { destruct Ha as [j c Hj| |]; [|by eexists..]. destruct Hnew. by eapply list_elem_of_lookup_2. }
    destruct Hf as [cell ->]. cbv iota.
    eapply (yields_bind _ _ (λ r, object_wf r.1 ∧ ob_names r.1 = ob_names o ∧ ob_values r.1 = ob_values o ∧
      ∀ x, yields (object_append r.1 r.2 (name_hash key) key x) (extends o key x))).
    + unfold json_object_grow_and_rehash. eapply yields_bind; [by apply rehash_yields|].
      intros o1 (Hwf1 & Hn & Hv & Hroom).
      pose proof (rehash_append o o1 key) as Happ.
      destruct (get_cell_ix_answer o1 Hwf1 key Hk) as ([cell1 found1] & E & _). rewrite E. apply yields_ret. cbn [fst snd].
      split_and!; try done. intros x. specialize (Happ x Hwf1 Hk Hnew Hn Hv Hroom). by rewrite E in Happ.
    + intros [o1 cell1] (_ & _ & _ & Happ). eapply yields_bind; [apply yields_malloc|]. intros _ _. apply Happ.
  - destruct Ha as [j c Hj|d Hd _ Hp Hc|E0].
    + destruct Hnew. by eapply list_elem_of_lookup_2.
    + rewrite bind_mret. eapply yields_bind; [apply yields_malloc|]. intros _ _.
      destruct (append_extends o key d v) as (o' & -> & He & _); [done..|]. by apply yields_ret.
    + exfalso. rewrite (ow_items o Hwf), E0 in Hroom. simpl in Hroom. lia.
Qed.
End maps.

(** ** Arrays *)

(** [None]: no such item.  The items after it move down by one. *)
Definition json_array_remove (xs : list json) (ix : nat) : option (list json) :=
  if (length xs <=? ix)%nat then None
  else mret (take ix xs ++ drop (ix + 1) xs).

Definition json_array_replace_value (attached : bool) (xs : list json) (ix : nat) (value : json) : option (list json) :=
  if attached || (length xs <=? ix)%nat then None else Some (<[ix := value]> xs).

Definition json_array_append_value (attached : bool) (a : list json * nat) (value : json) : run (list json * nat) :=
  if attached then failed else json_array_add a value.

(** The capacity is kept. *)
Definition json_array_clear (a : list json * nat) : list json * nat := ([], a.2).

(** ** Properties *)

(** Removing a field leaves exactly the other fields.  The entries that are
    shifted back over the freed cell stay reachable, and the table well formed;
    only a name that is not there is refused. *)
Theorem object_remove_refines {A} (o : json_object A) key :
  object_wf o → nul_free key →
  if decide (key ∈ ob_names o) then
    ∃ o', json_object_remove_internal o key = mret o' ∧ object_wf o' ∧ ob_count o' = (ob_count o - 1)%nat ∧
      ∀ k v, (k, v) ∈ fields o' ↔ (k, v) ∈ fields o ∧ k ≠ key
  else json_object_remove_internal o key = failed.
Proof.
  intros Hwf Hk. case_decide as Hin.
  - apply list_elem_of_lookup in Hin as [p Hp]. pose proof (lookup_lt_Some _ _ _ Hp) as Hpn.
    destruct (lookup_lt_is_Some_2 (ob_cell_ixs o) p) as [c Hc]; [by rewrite (ow_ixs o Hwf)|].
    destruct (removed_fields o Hwf p c key Hp Hc) as (o' & E & Hwf' & En & Ev). exists o'. split_and!; try done.
    + destruct (drop_item_lookup p (ob_names o) Hpn) as (? & En' & Hl & _). rewrite En in En'. by injection En' as <-.
    + eapply dropped_fields; try done; apply Hwf.
  - unfold json_object_remove_internal. fold (name_hash key). destruct (get_cell_ix_answer o Hwf key Hk) as (a & -> & Ha).
    rewrite bind_mret. destruct Ha as [j c Hj| |]; [|done..]. destruct Hin. by eapply list_elem_of_lookup_2.
Qed.

(** Setting a field is the update of a map: the name has the new value, every
    other field is as before, and the order is kept, with a new name at the
    end. *)
Theorem object_set_refines {A} (o : json_object A) key v :
  object_wf o → nul_free key → Z.of_nat (ob_count o) < 2 ^ 30 →
  yields (json_object_set_value false o key v) (λ o', object_wf o' ∧
    ob_names o' = (if decide (key ∈ ob_names o) then ob_names o else ob_names o ++ [key]) ∧
    ∀ k w, (k, w) ∈ fields o' ↔ k = key ∧ w = v ∨ k ≠ key ∧ (k, w) ∈ fields o).
Proof.
  intros Hwf Hk Hsmall. case_decide as Hin.
  - apply list_elem_of_lookup in Hin as [p Hp]. pose proof (lookup_lt_Some _ _ _ Hp) as Hpn.
    destruct (lookup_lt_is_Some_2 (ob_cell_ixs o) p) as [c Hc]; [by rewrite (ow_ixs o Hwf)|].
    destruct (set_present o key v p c Hwf Hp Hc) as (o' & -> & Hwf' & Hn & Hv). apply yields_ret. split_and!; try done.
    intros k w. rewrite !elem_of_fields, Hn, Hv. pose proof (ow_values o Hwf) as Hlv. unfold ob_count in Hlv. split.
    + intros (j & Hj & Hw). destruct (decide (j = p)) as [->|Hne].
      * rewrite list_lookup_insert_eq in Hw by lia. left. split; congruence.
      * rewrite list_lookup_insert_ne in Hw by done. right. split; [|by eauto]. intros ->.
        by apply Hne, (NoDup_lookup (ob_names o) _ _ key (ow_nodup o Hwf)).
    + intros [[-> ->]|[Hne (j & Hj & Hw)]].
      * exists p. by rewrite list_lookup_insert_eq by lia.
      * exists j. rewrite list_lookup_insert_ne; [done|]. intros ->. congruence.
  - eapply yields_weaken; [by apply set_new|]. intros o' (Hwf' & Hf & Hn & _). split_and!; try done.
    intros k w. rewrite Hf, elem_of_app, list_elem_of_singleton. split.
    + intros [Hin'|[= -> ->]]; [right|by left]. split; [|done]. intros ->.
      apply elem_of_fields in Hin' as (j & Hj & _). destruct Hin. by eapply list_elem_of_lookup_2.
    + intros [[-> ->]|[_ ?]]; auto.
Qed.

Lemma object_remove_refines_witness :
  ∃ o', json_object_remove_internal example_object (lit "version") = mret o' ∧ fields o' = [(lit "apps", JNull)] ∧
    ∀ k v, (k, v) ∈ fields o' ↔ (k, v) ∈ fields example_object ∧ k ≠ lit "version".
Proof.
  pose proof (object_remove_refines example_object (lit "version") example_object_wf
    ltac:(vm_compute; repeat constructor; discriminate)) as H.
  rewrite decide_True in H by (vm_compute; left).
  destruct H as (o' & E & _ & _ & Hf). exists o'. split; [exact E|]. split; [|exact Hf].
  assert (E' : match json_object_remove_internal example_object (lit "version") [] with
               | Done (o, _) => fields o | _ => [] end = [(lit "apps", JNull)]) by (vm_compute; reflexivity).
  rewrite E in E'. exact E'.
Defined.

Lemma object_set_refines_witness :
  yields (json_object_set_value false example_object (lit "apps") (JBool false)) (λ o', object_wf o' ∧
    ob_names o' = [lit "version"; lit "apps"] ∧
    ∀ k w, (k, w) ∈ fields o' ↔ k = lit "apps" ∧ w = JBool false ∨ k ≠ lit "apps" ∧ (k, w) ∈ fields example_object).
Proof.
  pose proof (object_set_refines example_object (lit "apps") (JBool false) example_object_wf
    ltac:(vm_compute; repeat constructor; discriminate) ltac:(vm_compute; reflexivity)) as H.
  rewrite decide_True in H by (vm_compute; right; left). exact H.
Defined.

(** Clearing keeps the table's size. *)
Lemma clear_wf {A} (o : json_object A) : object_wf o → object_wf (json_object_clear o) ∧ fields (json_object_clear o) = [].
Proof.
  intros Hwf. split; [|done]. unfold json_object_clear. rewrite (ow_items o Hwf). apply empty_object_wf, (ow_capacity o Hwf).
Qed.

(** Items are removed as from a list. *)
Lemma array_remove_delete xs ix : (ix < length xs)%nat → json_array_remove xs ix = Some (delete ix xs).
Proof.
  intros Hi. unfold json_array_remove. rewrite (proj2 (Nat.leb_gt _ _)) by done. simpl. f_equal.
  rewrite delete_take_drop. by rewrite Nat.add_1_r.
Qed.
