(* ===== verification/JsonPrint.v ===== *)
(** * The JSON serializer, and reading back what it writes

    [kmod/parson.c], from a tree to text, compact or indented.  The text is what
    the code appends to its buffer; the pass with a NULL buffer counts it, in an
    [int] whose overflow is a fault.  The printing of numbers is the C library's. *)
From Stdlib Require Import Strings.Byte ZArith QArith Lia.
From stdpp Require Import base gmap numbers list.
From S2P Require Import Prelude Userspace CharDev JsonObject JsonParse.

#[local] Open Scope Z_scope.

(** ** Numbers *)

(** [sprintf(buf, "%1.17g", num)] *)
Class FormatNumber := format_number : Q → bytes.

(** Documented behaviour: the digits of an integer that needs no exponent. *)
Class FormatNumberLaws (FN : FormatNumber) : Prop := {
  format_integer : ∀ n, - 2 ^ 53 <= n <= 2 ^ 53 → format_number (inject_Z n) = fmt_d n
}.

(** ** Text *)

Definition hex_digit (n : Z) : byte := byte_of_Z (if n <? 10 then 48 + n else 87 + n).

Section serializer.
Context {FN : FormatNumber} (escape_slashes : bool).

(** One character of a string. *)
Definition escape (c : byte) : bytes :=
  match c with
  | x22 => [x5c; x22]
  | x5c => [x5c; x5c]
  | x08 => lit "\b"
  | x0c => lit "\f"
  | x0a => lit "\n"
  | x0d => lit "\r"
  | x09 => lit "\t"
  | x2f => if escape_slashes then lit "\/" else lit "/"
  | _ =>
      if byte_to_Z c <? 0x20
      then lit "\u00" ++ [hex_digit (byte_to_Z c / 16); hex_digit (byte_to_Z c mod 16)]
      else [c]
  end.

Definition json_serialize_string (s : bytes) : bytes := [x22] ++ mjoin (escape <$> s) ++ [x22].

Definition PARSON_INDENT_STR : bytes := lit "    ".

(** [if (is_pretty) APPEND_INDENT(level)] and [if (is_pretty) APPEND_STRING("\n")] *)
Definition append_indent (pretty : bool) (level : nat) : bytes :=
  if pretty then mjoin (replicate level PARSON_INDENT_STR) else [].
Definition append_newline (pretty : bool) : bytes := if pretty then [x0a] else [].

(** The loops over items and fields are the local recursions. *)
Fixpoint json_serialize_to_buffer_r (pretty : bool) (level : nat) (v : json) : bytes :=
  match v with
  | JArray xs =>
      let items := fix items (xs : list json) : bytes :=
        match xs with
        | [] => []
        | x :: xs =>
            append_indent pretty (S level) ++ json_serialize_to_buffer_r pretty (S level) x ++
            (if xs is [] then [] else lit ",") ++ append_newline pretty ++ items xs
        end in
      lit "[" ++ (if xs is [] then [] else append_newline pretty) ++ items xs ++
      (if xs is [] then [] else append_indent pretty level) ++ lit "]"
  | JObject fs =>
      let members := fix members (fs : list (bytes * json)) : bytes :=
        match fs with
        | [] => []
        | (key, x) :: fs =>
            append_indent pretty (S level) ++ json_serialize_string (cstr key) ++ lit ":" ++
            (if pretty then lit " " else []) ++ json_serialize_to_buffer_r pretty (S level) x ++
            (if fs is [] then [] else lit ",") ++ append_newline pretty ++ members fs
        end in
      lit "{" ++ (if fs is [] then [] else append_newline pretty) ++ members fs ++
      (if fs is [] then [] else append_indent pretty level) ++ lit "}"
  | JString s => json_serialize_string s
  | JBool b => if b then lit "true" else lit "false"
  | JNumber q => format_number q
  | JNull => lit "null"
  end.

(** What a pass returns: the code counts what it appends in the [int]
    [written_total], and the sums of a call enter that of its caller.  The sums
    only grow and the last one is the length of the whole text, so one of them
    exceeds [INT_MAX], which is a fault, exactly when that length does. *)
Definition INT_MAX : Z := 2 ^ 31 - 1.
Definition written_total (pretty : bool) (v : json) : run Z :=
  let n := Z.of_nat (length (json_serialize_to_buffer_r pretty 0 v)) in
  if n <=? INT_MAX then mret n else fault.

(** The size pass: the characters and the terminator. *)
Definition json_serialization_size (pretty : bool) (v : json) : run Z :=
  res ← written_total pretty v;
  mret (res + 1).

(** [JSONFailure] when the buffer is too small; otherwise what the buffer holds. *)
Definition json_serialize_to_buffer (pretty : bool) (v : json) (buf_size_in_bytes : Z) : run bytes :=
  needed_size_in_bytes ← json_serialization_size pretty v;
  if buf_size_in_bytes <? needed_size_in_bytes then failed
  else
    _ ← written_total pretty v;
    let buf := json_serialize_to_buffer_r pretty 0 v ++ [x00] in
    if buf_size_in_bytes <? Z.of_nat (length buf) then fault else mret buf.

Definition json_serialize_to_string (pretty : bool) (v : json) : run bytes :=
  buf_size_bytes ← json_serialization_size pretty v;
  _ ← malloc;
  json_serialize_to_buffer pretty v buf_size_bytes.

(** The indented variants. *)
Definition json_serialization_size_pretty : json → run Z := json_serialization_size true.
Definition json_serialize_to_buffer_pretty : json → Z → run bytes := json_serialize_to_buffer true.
Definition json_serialize_to_string_pretty : json → run bytes := json_serialize_to_string true.
End serializer.

Lemma bind_done {A B} (m : run A) (k : A → run B) a : m [] = Done (a, []) → (m ≫= k) [] = k a [].
Proof. intros H. unfold mbind, run_bind. by rewrite H. Qed.

(** ** Strings read back *)

(** A character, a one-letter escape, or a control character in hexadecimal. *)
Inductive escaped (c : byte) : bytes → Prop :=
  | EscPlain : c ≠ x5c → c ≠ x22 → (byte_to_Z c <? 0x20) = false → escaped c [c]
  | EscLetter e : e ≠ "u"%byte → unescape e = Some c → escaped c [x5c; e]
  | EscHex h1 h2 : parse_utf16_hex ["0"; "0"; h1; h2]%byte = Some (byte_to_Z c) → byte_to_Z c < 0x80 →
      h1 ≠ x5c → h2 ≠ x5c → h1 ≠ x22 → h2 ≠ x22 →
      escaped c (x5c :: "u" :: "0" :: "0" :: h1 :: [h2])%byte.

Lemma escape_escaped slashes c : escaped c (escape slashes c).
Proof.
  destruct slashes, c;
    first [apply EscPlain; [discriminate|discriminate|reflexivity]
          |apply EscLetter; [discriminate|reflexivity]
          |apply EscHex; [vm_compute; reflexivity|vm_compute; reflexivity|vm_compute; discriminate..]].
Qed.

Lemma escape_skipped slashes c t : skip_to_quote (escape slashes c ++ t) = skip_to_quote t.
Proof.
  destruct (escape_escaped slashes c); simpl.
  - by rewrite !bool_decide_eq_false_2 by done.
  - done.
  - by rewrite !(bool_decide_eq_false_2 (h1 = _)), !(bool_decide_eq_false_2 (h2 = _)) by done.
Qed.

Lemma write_out_done size out bs :
  (length out + length bs <= size)%nat → write_out size out bs = mret (out ++ bs).
Proof. intros H. unfold write_out. by rewrite (proj2 (Nat.ltb_ge _ _) H). Qed.

Lemma escape_processed slashes c size fuel t rem out :
  (length out + 1 <= size)%nat →
  process_loop size (S fuel) (escape slashes c ++ t) (length (escape slashes c) + rem) out =
  process_loop size fuel t rem (out ++ [c]).
Proof.
  intros Hroom. pose proof (write_out_done size out [c] Hroom) as Hst.
  destruct (escape_escaped slashes c) as [Hne _ H20|e Hu He|h1 h2 Hh H80]; cbn [app length Nat.add process_loop].
  - by rewrite bool_decide_eq_false_2, H20, Hst by done.
  - rewrite bool_decide_eq_true_2, bool_decide_eq_false_2, He, Hst by done. cbn [Nat.sub]. by rewrite bind_mret, Nat.sub_0_r.
  - rewrite !bool_decide_eq_true_2 by done. unfold parse_utf16.
    change (parse_utf16_hex ("0" :: "0" :: h1 :: h2 :: t)%byte) with (parse_utf16_hex ["0"; "0"; h1; h2]%byte).
    rewrite Hh. cbn [mbind option_bind]. rewrite (proj2 (Z.ltb_lt _ _) H80), byte_of_to, Hst, bind_mret. simpl.
    by rewrite drop_0, ?Nat.sub_0_r.
Qed.

Lemma length_escape slashes c : (1 <= length (escape slashes c))%nat.
Proof. destruct (escape_escaped slashes c); simpl; lia. Qed.

Lemma escapes_skipped slashes s t : skip_to_quote (mjoin (escape slashes <$> s) ++ x22 :: t) = Some t.
Proof.
  induction s as [|c s IH]; simpl; [done|]. rewrite <- app_assoc, escape_skipped. apply IH.
Qed.

Lemma escapes_processed slashes s size fuel t out :
  (length (mjoin (escape slashes <$> s)) < fuel)%nat → (length out + length s <= size)%nat →
  process_loop size fuel (mjoin (escape slashes <$> s) ++ t) (length (mjoin (escape slashes <$> s))) out =
  mret (out ++ s).
Proof.
  revert fuel out. induction s as [|c s IH]; intros fuel out Hf Hroom.
  { destruct fuel; [simpl in Hf; lia|]. simpl. by rewrite app_nil_r. }
  rewrite fmap_cons, mjoin_cons in *. rewrite length_app in Hf. simpl in Hroom.
  pose proof (length_escape slashes c). destruct fuel as [|fuel]; [lia|].
  rewrite length_app, <- app_assoc, escape_processed, IH by (rewrite ?length_app; simpl; lia). by rewrite <- app_assoc.
Qed.

Lemma escapes_longer slashes s : (length s <= length (mjoin (escape slashes <$> s)))%nat.
Proof.
  induction s as [|c s IH]; [simpl; lia|]. rewrite fmap_cons, mjoin_cons, length_app. simpl.
  pose proof (length_escape slashes c). lia.
Qed.

Lemma string_processed slashes s rest :
  process_string (mjoin (escape slashes <$> s) ++ rest) (length (mjoin (escape slashes <$> s))) [] = Done (s, []).
Proof.
  pose proof (escapes_longer slashes s). unfold process_string. rewrite (bind_done malloc _ () eq_refl).
  rewrite escapes_processed, bind_mret by (simpl; lia). cbn [app]. by rewrite write_out_done by (simpl; lia).
Qed.

Lemma string_read_back slashes s rest :
  get_quoted_string (json_serialize_string slashes s ++ rest) [] = Done ((s, rest), []).
Proof.
  unfold get_quoted_string, skip_quotes, json_serialize_string. simpl.
  rewrite <- app_assoc. simpl. rewrite escapes_skipped. simpl.
  replace (S (length (mjoin (escape slashes <$> s) ++ x22 :: rest)) - length rest - 2)%nat
    with (length (mjoin (escape slashes <$> s))) by (rewrite length_app; simpl; lia).
  by rewrite (bind_done _ _ _ (string_processed slashes s _)).
Qed.

(** ** White space *)

Definition spaces (ws : bytes) : Prop := Forall (λ c, isspace c = true) ws.

Lemma skip_spaces ws s : spaces ws → skip_whitespaces (ws ++ s) = skip_whitespaces s.
Proof. induction 1 as [|c ws Hc _ IH]; simpl; [done|]. by rewrite Hc. Qed.

Lemma skip_solid ws c s : spaces ws → isspace c = false → skip_whitespaces (ws ++ c :: s) = c :: s.
Proof. intros Hw Hc. rewrite skip_spaces by done. simpl. by rewrite Hc. Qed.

Lemma indent_spaces pretty level : spaces (append_indent pretty level).
Proof.
  unfold append_indent, spaces. destruct pretty; [|constructor].
  induction level as [|level IH]; [constructor|]. simpl replicate. rewrite mjoin_cons. apply Forall_app. split; [|done].
  by repeat constructor.
Qed.

Lemma newline_spaces pretty : spaces (append_newline pretty).
Proof. destruct pretty; by repeat constructor. Qed.

Lemma spaces_app a b : spaces a → spaces b → spaces (a ++ b).
Proof. intros. by apply Forall_app. Qed.
Create HintDb spaces.
#[local] Hint Resolve indent_spaces newline_spaces spaces_app Forall_nil_2 : spaces.

(** Spaces and then a delimiter end a number. *)
Lemma ends_number_spaces ws c s : spaces ws → c ∈ [","; "]"; "}"]%byte → ends_number (ws ++ c :: s).
Proof. intros Hw Hc. destruct Hw as [|w ws Hw]; simpl; auto. Qed.

(** ** Numbers read back *)

Section numbers.
Context {SD : Strtod} {SL : StrtodLaws SD}.

(** A sign or a digit, digits, and no superfluous zero. *)
Lemma fmt_d_shape n :
  - 2 ^ 53 <= n <= 2 ^ 53 →
  (∃ c ds, fmt_d n = c :: ds ∧ isspace c = false ∧
    c ∈ ["-"; "0"; "1"; "2"; "3"; "4"; "5"; "6"; "7"; "8"; "9"]%byte) ∧
  ∀ rest, is_decimal (fmt_d n ++ rest) (length (fmt_d n)) = true.
Proof using.
  intros Hn. assert (Hx : ∀ ds, Forall (λ d, is_dec d = true) ds →
    forallb (λ c, negb (bool_decide (c ∈ ["x"; "X"; x00]%byte))) ds = true).
  { intros ds Hf. apply forallb_forall. intros c Hc. apply list_elem_of_In in Hc.
    rewrite Forall_forall in Hf. destruct (is_dec_facts c (Hf c Hc)) as (_ & H & _). by rewrite bool_decide_eq_false_2. }
  unfold fmt_d. destruct (Z.ltb_spec n 0) as [Hneg|Hpos].
  - destruct (fmt_u_shape (- n)) as (c & ds & E & Hf & Hc & _); [lia|]. rewrite E. split.
    { eexists _, _. split_and!; [reflexivity|done|repeat constructor]. }
    intros rest. unfold is_decimal. cbn [app lookup list_lookup default take length].
    rewrite (bool_decide_eq_false_2 (x2d = "0"%byte)) by done. rewrite andb_false_r. cbn [andb].
    rewrite (bool_decide_eq_false_2 ([x2d; c] = lit "-0")).
    2: { intros [= Heq]. by apply Hc; [lia|]. }
    rewrite andb_false_r. cbn [andb]. rewrite take_app_length. exact (Hx (c :: ds) Hf).
  - destruct (fmt_u_shape n) as (c & ds & E & Hf & Hc & Hz & _); [lia|]. rewrite E.
    pose proof Hf as Hf'. apply Forall_cons in Hf' as [Hd _]. destruct (is_dec_facts c Hd) as (Hs & _ & Hin). split.
    { eexists _, _. split_and!; [reflexivity|done|done]. }
    intros rest. unfold is_decimal. cbn [app lookup list_lookup default take length].
    destruct (decide (n = 0)) as [->|Hn0].
    + rewrite Hz by done. simpl. rewrite Hz in Hf by done. by apply (Hx [c]).
    + rewrite (bool_decide_eq_false_2 (c = "0"%byte)) by auto. rewrite andb_false_r. cbn [andb].
      rewrite (bool_decide_eq_false_2 (_ = lit "-0")), andb_false_r. 2: { destruct ds; simpl; intros [= -> ?]; done. }
      cbn [andb]. rewrite take_app_length. by apply (Hx (c :: ds)).
Qed.

Lemma number_read_back n rest :
  - 2 ^ 53 <= n <= 2 ^ 53 → ends_number rest →
  parse_number_value (fmt_d n ++ rest) [] = Done ((JNumber (inject_Z n), rest), []).
Proof using SL.
  intros Hn He. unfold parse_number_value. rewrite strtod_integer by done. cbn [sd_number sd_length sd_errno].
  rewrite (proj2 (fmt_d_shape n Hn)). rewrite andb_false_r. cbn [Z.eqb negb andb orb].
  rewrite (proj2 (Nat.ltb_ge _ _)) by (rewrite length_app; lia). by rewrite drop_app_length.
Qed.
End numbers.

(** ** Values read back *)

Lemma json_ind' (P : json → Prop) :
  P JNull → (∀ b, P (JBool b)) → (∀ q, P (JNumber q)) → (∀ s, P (JString s)) →
  (∀ xs, Forall P xs → P (JArray xs)) → (∀ fs, Forall P fs.*2 → P (JObject fs)) → ∀ v, P v.
Proof.
  intros Hn Hb Hq Hs Ha Ho. fix IH 1. intros [|b|q|s|xs|fs]; [exact Hn|apply Hb|apply Hq|apply Hs|apply Ha|apply Ho].
  - induction xs as [|x xs IHxs]; constructor; [apply IH|apply IHxs].
  - induction fs as [|[k x] fs IHfs]; constructor; [apply IH|apply IHfs].
Qed.

(** The numbers of a tree are integers a double holds exactly. *)
Fixpoint integral (v : json) : Prop :=
  match v with
  | JNumber q => ∃ n, q = inject_Z n ∧ - 2 ^ 53 <= n <= 2 ^ 53
  | JArray xs => foldr (λ x P, integral x ∧ P) True xs
  | JObject fs => foldr (λ '(_, x) P, integral x ∧ P) True fs
  | _ => True
  end.

Lemma integral_array xs : integral (JArray xs) ↔ Forall integral xs.
Proof. simpl. induction xs as [|x xs IH]; simpl; [by split|]. rewrite Forall_cons. tauto. Qed.

Lemma integral_object fs : integral (JObject fs) ↔ Forall integral fs.*2.
Proof.
  simpl. induction fs as [|[k x] fs IH]; [by split|]. rewrite fmap_cons, Forall_cons. simpl. tauto.
Qed.

Section read_back.
Context {SD : Strtod} {SL : StrtodLaws SD} {FN : FormatNumber} {FL : FormatNumberLaws FN}.
Context (slashes pretty : bool).

Abbreviation text := (json_serialize_to_buffer_r slashes pretty).
Abbreviation nl := (append_newline pretty).
Abbreviation ind := (append_indent pretty).

(** The loops of the serializer. *)
Definition items (level : nat) : list json → bytes := fix items (xs : list json) : bytes :=
  match xs with
  | [] => []
  | x :: xs =>
      ind (S level) ++ text (S level) x ++ (if xs is [] then [] else lit ",") ++ nl ++ items xs
  end.

Definition members (level : nat) : list (bytes * json) → bytes := fix members (fs : list (bytes * json)) : bytes :=
  match fs with
  | [] => []
  | (key, x) :: fs =>
      ind (S level) ++ json_serialize_string slashes (cstr key) ++ lit ":" ++ (if pretty then lit " " else []) ++
      text (S level) x ++ (if fs is [] then [] else lit ",") ++ nl ++ members fs
  end.

(** The items after the first one's indentation. *)
Fixpoint items_from (level : nat) (x : json) (xs : list json) : bytes :=
  text (S level) x ++ match xs with [] => nl | y :: ys => lit "," ++ nl ++ ind (S level) ++ items_from level y ys end.

Definition member (level : nat) (kx : bytes * json) : bytes :=
  json_serialize_string slashes kx.1 ++ lit ":" ++ (if pretty then lit " " else []) ++ text (S level) kx.2.

Fixpoint members_from (level : nat) (f : bytes * json) (fs : list (bytes * json)) : bytes :=
  member level f ++ match fs with [] => nl | g :: gs => lit "," ++ nl ++ ind (S level) ++ members_from level g gs end.

Lemma array_text level x xs :
  text level (JArray (x :: xs)) = lit "[" ++ (nl ++ ind (S level)) ++ items_from level x xs ++ ind level ++ lit "]".
Proof.
  change (text level (JArray (x :: xs))) with (lit "[" ++ nl ++ items level (x :: xs) ++ ind level ++ lit "]").
  enough (items level (x :: xs) = ind (S level) ++ items_from level x xs) as -> by by rewrite <- !app_assoc.
  revert x. induction xs as [|y ys IH]; intros x; cbn [items_from].
  - change (items level [x]) with (ind (S level) ++ text (S level) x ++ [] ++ nl ++ []). by rewrite app_nil_r.
  - rewrite <- IH. reflexivity.
Qed.

Lemma object_text level f fs :
  Forall nul_free (f :: fs).*1 →
  text level (JObject (f :: fs)) = lit "{" ++ (nl ++ ind (S level)) ++ members_from level f fs ++ ind level ++ lit "}".
Proof.
  intros Hf. change (text level (JObject (f :: fs))) with (lit "{" ++ nl ++ members level (f :: fs) ++ ind level ++ lit "}").
  enough (members level (f :: fs) = ind (S level) ++ members_from level f fs) as -> by by rewrite <- !app_assoc.
  assert (Hcons : ∀ g gs, nul_free g.1 → members level (g :: gs) =
    ind (S level) ++ member level g ++ (if gs is [] then [] else lit ",") ++ nl ++ members level gs).
  { intros [k x] gs Hk. unfold member. cbn [fst snd]. rewrite <- (cstr_id k Hk) at 2. by rewrite <- !app_assoc. }
  revert f Hf. induction fs as [|g gs IH]; intros f Hf; rewrite fmap_cons, Forall_cons in Hf; destruct Hf as [Hk Hf];
    rewrite Hcons by done; cbn [members_from].
  - change (members level []) with (@nil byte). by rewrite app_nil_r.
  - by rewrite IH.
Qed.

(** A value begins with a character that is neither white space nor a closing
    bracket, nor the first of a byte-order mark. *)
Definition solid (s : bytes) : Prop :=
  ∃ c t, s = c :: t ∧ isspace c = false ∧ c ≠ "]"%byte ∧ c ≠ "}"%byte ∧ c ≠ xef.

Lemma solid_app s t : solid s → solid (s ++ t).
Proof. intros (c & u & -> & H). by exists c, (u ++ t). Qed.

Lemma text_solid level v : integral v → solid (text level v).
Proof using FL SL.
  destruct v as [|b|q|s|xs|fs]; simpl.
  - intros _. eexists _, _. split; [reflexivity|]. done.
  - intros _. destruct b; eexists _, _; (split; [reflexivity|done]).
  - intros (n & -> & Hn). rewrite format_integer by done.
    destruct (fmt_d_shape n Hn) as [(c & ds & -> & Hs & Hc) _]. exists c, ds. split_and!; try done; intros ->; vm_compute in Hc; set_solver.
  - intros _. eexists _, _. split; [reflexivity|]. done.
  - intros _. eexists _, _. split; [reflexivity|]. done.
  - intros _. eexists _, _. split; [reflexivity|]. done.
Qed.

Lemma solid_nonempty s : solid s → s ≠ [].
Proof. by intros (c & t & -> & _). Qed.

Lemma solid_skip ws s : spaces ws → solid s → skip_whitespaces (ws ++ s) = s.
Proof. intros Hw (c & t & -> & Hc & _). by apply skip_solid. Qed.

Lemma solid_expect s : solid s → expect "]" s = None ∧ expect "}" s = None.
Proof. intros (c & t & -> & _ & H1 & H2 & _). simpl. by rewrite !bool_decide_eq_false_2. Qed.

(** What is shown of a value. *)
Definition reads_back (v : json) : Prop :=
  ∀ level fuel n ws rest,
    integral v → json_wf v → (depth v + n <= MAX_NESTING)%nat → spaces ws → ends_number rest →
    small (length (text level v)) → (3 * length (text level v) + 1 <= fuel)%nat →
    parse_value fuel n (ws ++ text level v ++ rest) [] = Done ((v, rest), []).

(** How [parse_value] begins on a text. *)
Lemma parse_value_solid fuel n ws c s :
  (n <= MAX_NESTING)%nat → spaces ws → isspace c = false →
  parse_value (S fuel) n (ws ++ c :: s) =
    if bool_decide (c = "{"%byte) then parse_object_value fuel (S n) s
    else if bool_decide (c = "["%byte) then parse_array_value fuel (S n) s
    else if bool_decide (c = x22) then parse_string_value (c :: s)
    else if bool_decide (c ∈ ["f"; "t"]%byte) then parse_boolean_value (c :: s)
    else if bool_decide (c ∈ ["-"; "0"; "1"; "2"; "3"; "4"; "5"; "6"; "7"; "8"; "9"]%byte)
    then parse_number_value (c :: s)
    else if bool_decide (c = "n"%byte) then parse_null_value (c :: s)
    else failed.
Proof.
  intros Hn Hw Hc. cbn [parse_value]. rewrite (proj2 (Nat.ltb_ge _ _)) by lia. by rewrite skip_solid.
Qed.

Lemma scalar_reads_back v : (∀ xs, v ≠ JArray xs) → (∀ fs, v ≠ JObject fs) → reads_back v.
Proof using SL FL.
  intros Ha Ho level fuel n ws rest Hi _ Hd Hw He _ Hf. assert (n <= MAX_NESTING)%nat by lia.
  destruct fuel as [|fuel]; [lia|]. destruct v as [|b|q|s|xs|fs].
  - change (text level JNull ++ rest) with ("n"%byte :: lit "ull" ++ rest). by rewrite parse_value_solid.
  - destruct b.
    + change (text level (JBool true) ++ rest) with ("t"%byte :: lit "rue" ++ rest). by rewrite parse_value_solid.
    + change (text level (JBool false) ++ rest) with ("f"%byte :: lit "alse" ++ rest). by rewrite parse_value_solid.
  - destruct Hi as (k & -> & Hk). cbn [json_serialize_to_buffer_r]. rewrite format_integer by done.
    pose proof (number_read_back k rest Hk He) as Hr. destruct (fmt_d_shape k Hk) as [(c & ds & E & Hs & Hc) _].
    rewrite E in *. cbn [app] in *. rewrite parse_value_solid by done.
    rewrite (bool_decide_eq_false_2 (c = "{"%byte)), (bool_decide_eq_false_2 (c = "["%byte)),
      (bool_decide_eq_false_2 (c = x22)), (bool_decide_eq_false_2 (c ∈ ["f"; "t"]%byte)),
      (bool_decide_eq_true_2 _ Hc) by (intros Hx; set_solver). done.
  - pose proof (string_read_back slashes s rest) as Hr. cbn [json_serialize_to_buffer_r]. unfold json_serialize_string in *.
    cbn [app] in *. rewrite parse_value_solid by done. rewrite !bool_decide_eq_false_2, bool_decide_eq_true_2 by done. unfold parse_string_value. rewrite (bind_done _ _ _ Hr). done.
  - by destruct (Ha xs).
  - by destruct (Ho fs).
Qed.

Lemma json_array_add_done xs capacity v :
  array_fits (xs, capacity) →
  ∃ capacity', json_array_add (xs, capacity) v [] = Done ((xs ++ [v], capacity'), []) ∧
    array_fits (xs ++ [v], capacity').
Proof.
  intros Hc. destruct (yields_done _ _ (json_array_add_yields _ v Hc)) as ([ys c] & E & Ey & Hf). simpl in Ey. subst ys. eauto.
Qed.

Lemma items_solid level x xs : integral x → solid (items_from level x xs).
Proof using SL FL. intros Hx. destruct xs; cbn [items_from]; by apply solid_app, text_solid. Qed.

Lemma members_solid level f fs : solid (members_from level f fs).
Proof. destruct fs; eexists _, _; (split; [reflexivity|done]). Qed.

Lemma ends_comma s : ends_number (lit "," ++ s).
Proof. right. apply list_elem_of_here. Qed.

Lemma expect_comma s : expect "," (skip_whitespaces (lit "," ++ s)) = Some s.
Proof. reflexivity. Qed.

Lemma array_children xs n m :
  (depth (JArray xs) + n <= m)%nat → Forall (λ v, depth v + S n <= m)%nat xs.
Proof.
  intros Hd. assert (1 <= depth (JArray xs))%nat by (simpl; lia).
  assert (Hk : (depth (JArray xs) <= S (m - n - 1))%nat) by lia. apply depth_array in Hk.
  eapply Forall_impl; [exact Hk|]. simpl. intros. lia.
Qed.

Lemma object_children fs n m :
  (depth (JObject fs) + n <= m)%nat → Forall (λ v, depth v + S n <= m)%nat fs.*2.
Proof.
  intros Hd. assert (1 <= depth (JObject fs))%nat by (simpl; lia).
  assert (Hk : (depth (JObject fs) <= S (m - n - 1))%nat) by lia. apply depth_object in Hk.
  eapply Forall_impl; [exact Hk|]. simpl. intros. lia.
Qed.

Lemma close_space pretty' level c rest :
  isspace c = false → skip_whitespaces (append_newline pretty' ++ append_indent pretty' level ++ c :: rest) = c :: rest.
Proof. intros Hc. rewrite app_assoc. apply skip_solid; auto with spaces. Qed.

(** The loop over the items. *)
Lemma items_read_back level xs x acc capacity fuel n rest :
  Forall reads_back (x :: xs) → Forall integral (x :: xs) → Forall json_wf (x :: xs) →
  Forall (λ v, depth v + n <= MAX_NESTING)%nat (x :: xs) →
  small (length (items_from level x xs)) → (3 * length (items_from level x xs) + 2 <= fuel)%nat →
  array_fits (acc, capacity) →
  ∃ capacity', parse_elements fuel n (acc, capacity) (items_from level x xs ++ ind level ++ "]"%byte :: rest) [] =
    Done ((acc ++ x :: xs, capacity', "]"%byte :: rest), []).
Proof using SL FL.
  revert x acc capacity fuel. induction xs as [|y ys IH]; intros x acc capacity fuel HP Hi Hj Hd Hs Hf Hcap;
    apply Forall_cons in HP as [Hx HP], Hi as [Hix Hi], Hj as [Hjx Hj], Hd as [Hdx Hd];
    (destruct fuel as [|fuel]; [lia|]); cbn [parse_elements];
    (rewrite bool_decide_eq_false_2 by (by apply solid_nonempty, solid_app, items_solid));
    cbn [items_from] in *; rewrite length_app in Hs, Hf; unfold small in *;
    (destruct (json_array_add_done acc capacity x Hcap) as (c' & Ha & Hcap')).
  - rewrite <- app_assoc. rewrite (bind_done _ _ _ (Hx (S level) fuel n [] (nl ++ ind level ++ "]"%byte :: rest)
      Hix Hjx Hdx (Forall_nil_2 _) ltac:(rewrite app_assoc; apply ends_number_spaces; [auto with spaces|set_solver])
      ltac:(unfold small; lia) ltac:(lia))).
    rewrite (bind_done _ _ _ Ha). cbv zeta. rewrite close_space by done. simpl. by eexists.
  - rewrite <- !app_assoc. set (tail_ := nl ++ ind (S level) ++ items_from level y ys ++ ind level ++ "]"%byte :: rest).
    pose proof (Hx (S level) fuel n [] (lit "," ++ tail_)
      Hix Hjx Hdx (Forall_nil_2 _) (ends_comma _) ltac:(unfold small; lia) ltac:(lia)) as Ex.
    cbn [app] in Ex. rewrite (bind_done _ _ _ Ex). subst tail_. clear Ex.
    rewrite (bind_done _ _ _ Ha). cbv zeta. rewrite expect_comma.
    rewrite (app_assoc nl), solid_skip by (auto with spaces; apply solid_app, items_solid; by apply Forall_cons in Hi as [? _]).
    rewrite (proj1 (solid_expect _ (solid_app _ _ (items_solid level y ys (proj1 (proj1 (Forall_cons _ _ _) Hi)))))).
    destruct (IH y (acc ++ [x]) c' fuel) as [c2 E]; try done.
    { unfold small. simpl in Hs. rewrite !length_app in Hs. lia. }
    { simpl in Hf. rewrite !length_app in Hf. lia. }
    exists c2. rewrite E. by rewrite <- app_assoc.
Qed.

Lemma array_reads_back xs : Forall reads_back xs → reads_back (JArray xs).
Proof using SL FL.
  intros HP level fuel n ws rest Hi Hj Hd Hw He Hs Hf. destruct fuel as [|[|fuel]]; [lia|simpl in Hf; lia|].
  rewrite integral_array in Hi. rewrite json_wf_array in Hj.
  destruct xs as [|x xs].
  { change (text level (JArray []) ++ rest) with ("["%byte :: "]"%byte :: rest). rewrite parse_value_solid by (done || lia).
    reflexivity. }
  pose proof (array_children _ _ _ Hd) as Hc. rewrite array_text in Hs, Hf |- *.
  rewrite !length_app in Hs, Hf. unfold small in *. assert (n <= MAX_NESTING)%nat by lia.
  change (length (lit "[")) with 1%nat in *. change (length (lit "]")) with 1%nat in *.
  set (body := (nl ++ ind (S level)) ++ items_from level x xs ++ ind level ++ lit "]").
  change ((lit "[" ++ body) ++ rest) with ("["%byte :: body ++ rest). rewrite parse_value_solid by done.
  rewrite bool_decide_eq_false_2, bool_decide_eq_true_2 by done. cbn [parse_array_value].
  rewrite !(bind_done malloc _ () eq_refl). cbv zeta. unfold body. rewrite <- !app_assoc.
  change (lit "]" ++ rest) with ("]"%byte :: rest).
  rewrite (app_assoc nl), solid_skip by (auto with spaces; apply solid_app, items_solid; by apply Forall_cons in Hi as [? _]).
  rewrite (proj1 (solid_expect _ (solid_app _ _ (items_solid level x xs (proj1 (proj1 (Forall_cons _ _ _) Hi)))))).
  destruct (items_read_back level xs x [] 0 fuel (S n) rest) as [capacity E]; try done; [unfold small; lia|lia|by apply Nat.le_0_l|].
  cbn [app] in E. rewrite (bind_done _ _ _ E). cbn [expect skip_whitespaces]. unfold json_array_resize.
  simpl. rewrite (proj2 (Nat.ltb_ge _ _)) by lia. reflexivity.
Qed.
(** A name that is not there is added. *)
Lemma json_object_add_done (o : json_object json) key v :
  object_wf o → nul_free key → key ∉ ob_names o → Z.of_nat (ob_count o) < 2 ^ 30 →
  ∃ o', json_object_add o key v [] = Done (o', []) ∧ extends o key v o'.
Proof.
  intros Hwf Hk Hn Hs. pose proof (json_object_add_spec o key v Hwf Hk Hs) as Ha.
  rewrite decide_False in Ha by done. by apply yields_done.
Qed.

Definition gap : bytes := if pretty then lit " " else [].

Lemma gap_spaces : spaces gap.
Proof. unfold gap. destruct pretty; by repeat constructor. Qed.

Lemma member_length level f : (3 <= length (member level f))%nat.
Proof. unfold member, json_serialize_string. rewrite !length_app. simpl. lia. Qed.

(** One member, up to what follows its value. *)
Lemma member_read_back level f fuel n (o : json_object json) rest :
  reads_back f.2 → integral f.2 → json_wf f.2 → (depth f.2 + n <= MAX_NESTING)%nat → nul_free f.1 →
  f.1 ∉ ob_names o → object_wf o → ends_number rest →
  small (4 * ob_count o + length (member level f)) → (3 * length (member level f) + 1 <= fuel)%nat →
  ∃ o', extends o f.1 f.2 o' ∧
    parse_members (S fuel) n o (member level f ++ rest) [] =
    (let s := skip_whitespaces rest in
     match expect "," s with
     | Some s => let s := skip_whitespaces s in
                 if expect "}" s is Some _ then mret (o', s) else parse_members fuel n o' s
     | None => mret (o', s)
     end) [].
Proof using SL FL.
  destruct f as [key v]. unfold member, small. cbn [fst snd]. intros Hv Hi Hj Hd Hk Hn Hwf He Hs Hf.
  fold gap in *. rewrite !length_app in Hs, Hf. change (length (lit ":")) with 1%nat in *.
  destruct (json_object_add_done o key v Hwf Hk Hn ltac:(lia)) as (o' & Ea & Hx).
  exists o'. split; [done|]. cbn [parse_members]. rewrite bool_decide_eq_false_2 by done. rewrite <- !app_assoc.
  rewrite (bind_done _ _ _ (string_read_back slashes key _)). rewrite (cstr_id key Hk), Nat.eqb_refl. cbn [negb].
  change (expect ":" (skip_whitespaces (lit ":" ++ ?s))) with (Some s). cbv iota.
  rewrite (bind_done _ _ _ (Hv (S level) fuel n gap rest Hi Hj Hd gap_spaces He ltac:(unfold small; lia) ltac:(lia))).
  by rewrite (bind_done _ _ _ Ea).
Qed.

(** The loop over the members. *)
Lemma members_read_back level fs f (o : json_object json) fuel n rest :
  Forall reads_back (f :: fs).*2 → Forall integral (f :: fs).*2 → Forall json_wf (f :: fs).*2 →
  Forall (λ v, depth v + n <= MAX_NESTING)%nat (f :: fs).*2 → Forall nul_free (f :: fs).*1 →
  object_wf o → NoDup (ob_names o ++ (f :: fs).*1) →
  small (4 * ob_count o + length (members_from level f fs)) → (3 * length (members_from level f fs) + 2 <= fuel)%nat →
  ∃ o', parse_members fuel n o (members_from level f fs ++ ind level ++ "}"%byte :: rest) [] =
      Done ((o', "}"%byte :: rest), []) ∧ fields o' = fields o ++ f :: fs.
Proof using SL FL.
  revert f o fuel. induction fs as [|g gs IH]; intros f o fuel HP Hi Hj Hd Hk Hwf Hnd Hs Hf; rewrite fmap_cons in *;
    apply Forall_cons in HP as [Hx HP], Hi as [Hix Hi], Hj as [Hjx Hj], Hd as [Hdx Hd], Hk as [Hkx Hk];
    assert (Hnew : f.1 ∉ ob_names o) by (intros Hin; apply NoDup_app in Hnd as (_ & Hnd & _); apply (Hnd _ Hin); left);
    (destruct fuel as [|fuel]; [lia|]);
    cbn [members_from] in *; rewrite length_app in Hs, Hf; unfold small in *; rewrite <- app_assoc.
  - destruct (member_read_back level f fuel n o (nl ++ ind level ++ "}"%byte :: rest)) as (o' & Hx' & ->); try done;
      [rewrite app_assoc; apply ends_number_spaces; [auto with spaces|set_solver]|unfold small; lia|lia|].
    cbv zeta. rewrite close_space by done. exists o'. split; [done|]. destruct Hx' as (_ & -> & _). by destruct f.
  - rewrite <- !app_assoc.
    edestruct (member_read_back level f fuel n o (lit "," ++ nl ++ ind (S level) ++ members_from level g gs ++ ind level ++ "}"%byte :: rest))
      as (o' & Hx' & ->); try done; [apply ends_comma|unfold small; lia|lia|].
    destruct Hx' as (Hwf' & Hf' & Hn' & _). cbv zeta. rewrite expect_comma.
    rewrite (app_assoc nl), solid_skip by (auto with spaces; apply solid_app, members_solid).
    rewrite (proj2 (solid_expect _ (solid_app _ _ (members_solid level g gs)))). rewrite !length_app in Hs, Hf. change (length (lit ",")) with 1%nat in *.
    destruct (IH g o' fuel) as (o2 & E & F); try done.
    { rewrite Hn'. by rewrite <- app_assoc. }
    { pose proof (member_length level f). unfold small, ob_count in *. rewrite Hn', length_app. simpl. lia. }
    { lia. }
    exists o2. split; [done|]. rewrite F, Hf'. destruct f. by rewrite <- app_assoc.
Qed.

Lemma object_reads_back fs : Forall reads_back fs.*2 → reads_back (JObject fs).
Proof using SL FL.
  intros HP level fuel n ws rest Hi Hj Hd Hw He Hs Hf. destruct fuel as [|[|fuel]]; [lia|simpl in Hf; lia|].
  rewrite integral_object in Hi. rewrite json_wf_object in Hj. destruct Hj as (Hnd & Hk & Hj).
  assert (n <= MAX_NESTING)%nat by lia. destruct fs as [|f fs].
  { change (text level (JObject []) ++ rest) with ("{"%byte :: "}"%byte :: rest). rewrite parse_value_solid by done.
    reflexivity. }
  pose proof (object_children _ _ _ Hd) as Hc. rewrite (object_text _ _ _ Hk) in Hs, Hf |- *.
  rewrite !length_app in Hs, Hf. unfold small in *.
  change (length (lit "{")) with 1%nat in *. change (length (lit "}")) with 1%nat in *.
  set (body := (nl ++ ind (S level)) ++ members_from level f fs ++ ind level ++ lit "}").
  change ((lit "{" ++ body) ++ rest) with ("{"%byte :: body ++ rest). rewrite parse_value_solid by done.
  rewrite bool_decide_eq_true_2 by done. cbn [parse_object_value].
  rewrite !(bind_done malloc _ () eq_refl), (bind_done _ _ (empty_object 0) eq_refl). cbv zeta. unfold body. rewrite <- !app_assoc.
  change (lit "}" ++ rest) with ("}"%byte :: rest).
  rewrite (app_assoc nl), solid_skip by (auto with spaces; apply solid_app, members_solid).
  rewrite (proj2 (solid_expect _ (solid_app _ _ (members_solid level f fs)))).
  destruct (members_read_back level fs f (empty_object 0) fuel (S n) rest) as (o & E & F); try done;
    [apply empty_object_wf; by left|unfold small, ob_count; simpl; lia|lia|].
  rewrite (bind_done _ _ _ E). simpl. by rewrite F.
Qed.

Lemma all_read_back v : reads_back v.
Proof using SL FL.
  induction v using json_ind'; [apply scalar_reads_back; discriminate..|by apply array_reads_back|by apply object_reads_back].
Qed.
(** ** No NUL in the text *)

Lemma json_serialize_string_nul_free s : nul_free (json_serialize_string slashes s).
Proof.
  unfold json_serialize_string, nul_free. constructor; [done|]. apply Forall_app. split; [|by repeat constructor].
  induction s as [|c s IH]; simpl; [constructor|]. apply Forall_app. split; [|done].
  destruct slashes, c; repeat constructor; discriminate.
Qed.

Lemma fmt_d_nul_free n : - 2 ^ 53 <= n <= 2 ^ 53 → nul_free (fmt_d n).
Proof.
  assert (Hd : ∀ k, 0 <= k <= 2 ^ 53 → nul_free (fmt_u k)).
  { intros k Hk. destruct (fmt_u_shape k Hk) as (c & ds & -> & Hf & _). eapply Forall_impl; [exact Hf|].
    intros x Hx ->. vm_compute in Hx. done. }
  intros Hn. unfold fmt_d. destruct (Z.ltb_spec n 0); [constructor; [done|]|]; apply Hd; lia.
Qed.

Lemma spaces_nul_free ws : spaces ws → nul_free ws.
Proof. intros Hw. eapply Forall_impl; [exact Hw|]. intros c Hc ->. done. Qed.

Lemma lit_nul_free t : forallb (λ b, negb (bool_decide (b = x00))) (lit t) = true → nul_free (lit t).
Proof.
  intros H. apply Forall_forall. intros b Hb ->. rewrite forallb_forall in H.
  by apply list_elem_of_In, H in Hb.
Qed.

Lemma nul_free_app s t : nul_free s → nul_free t → nul_free (s ++ t).
Proof. intros. by apply Forall_app. Qed.
Hint Resolve spaces_nul_free nul_free_app json_serialize_string_nul_free gap_spaces : spaces.
Hint Extern 1 (nul_free (lit _)) => (by apply lit_nul_free) : spaces.

Lemma text_nul_free v : integral v → json_wf v → ∀ level, nul_free (text level v).
Proof using FL.
  induction v as [|b|q|s|xs IH|fs IH] using json_ind'; intros Hi Hj level.
  - by apply (lit_nul_free "null").
  - destruct b; [by apply (lit_nul_free "true")|by apply (lit_nul_free "false")].
  - destruct Hi as (n & -> & Hn). cbn [json_serialize_to_buffer_r]. rewrite format_integer by done. by apply fmt_d_nul_free.
  - cbn [json_serialize_to_buffer_r]. auto with spaces.
  - rewrite integral_array in Hi. rewrite json_wf_array in Hj. destruct xs as [|x xs]; [by repeat constructor|].
    rewrite array_text. repeat apply nul_free_app; auto with spaces.
    revert x IH Hi Hj. induction xs as [|y ys IHxs]; intros x IH Hi Hj;
      apply Forall_cons in IH as [Hx IH], Hi as [Hix Hi], Hj as [Hjx Hj]; cbn [items_from]; auto 10 with spaces.
  - rewrite integral_object in Hi. rewrite json_wf_object in Hj. destruct Hj as (_ & Hk & Hj).
    destruct fs as [|f fs]; [by repeat constructor|]. rewrite object_text by done. repeat apply nul_free_app; auto with spaces.
    clear Hk. revert f IH Hi Hj. induction fs as [|g gs IHfs]; intros f IH Hi Hj; rewrite fmap_cons in *;
      apply Forall_cons in IH as [Hx IH], Hi as [Hix Hi], Hj as [Hjx Hj]; cbn [members_from]; unfold member; fold gap;
      auto 12 with spaces.
Qed.
End read_back.

(** The allocation the writing needs. *)
Lemma serialize_done {FN : FormatNumber} slashes pretty v :
  let text := json_serialize_to_buffer_r slashes pretty 0 v in
  Z.of_nat (length text) <= INT_MAX →
  json_serialize_to_string slashes pretty v [] = Done (text ++ [x00], []).
Proof.
  intros text Ht.
  assert (Hw : written_total slashes pretty v [] = Done (Z.of_nat (length text), [])).
  { unfold written_total. fold text. cbv zeta. by rewrite (proj2 (Z.leb_le _ _) Ht). }
  assert (Hn : json_serialization_size slashes pretty v [] = Done (Z.of_nat (length text) + 1, [])).
  { unfold json_serialization_size. by rewrite (bind_done _ _ _ Hw). }
  unfold json_serialize_to_string. rewrite (bind_done _ _ _ Hn), (bind_done malloc _ () eq_refl).
  unfold json_serialize_to_buffer. rewrite (bind_done _ _ _ Hn), Z.ltb_irrefl, (bind_done _ _ _ Hw). fold text.
  cbv zeta. by rewrite length_app, (proj2 (Z.ltb_ge _ _)) by (simpl; lia).
Qed.

(** Above [INT_MAX] the sums overflow. *)
Lemma serialize_overflow {FN : FormatNumber} slashes pretty v mem :
  INT_MAX < Z.of_nat (length (json_serialize_to_buffer_r slashes pretty 0 v)) →
  json_serialize_to_string slashes pretty v mem = Fault.
Proof.
  intros Ht. unfold json_serialize_to_string, json_serialization_size, written_total. cbv zeta.
  by rewrite (proj2 (Z.leb_gt _ _) Ht).
Qed.

(** C9: a tree whose numbers are integers a double holds exactly, with distinct
    names and no deeper than the parser follows, is written and read back
    unchanged, compact or indented, whichever characters its strings hold, when
    its text is no longer than the [int] of the serializer counts. *)
Theorem json_round_trip {SD : Strtod} {SL : StrtodLaws SD} {FN : FormatNumber} {FL : FormatNumberLaws FN}
    (slashes pretty : bool) (v : json) :
  integral v → json_wf v → (depth v <= MAX_NESTING)%nat →
  Z.of_nat (length (json_serialize_to_buffer_r slashes pretty 0 v)) <= INT_MAX →
  ∃ buf, json_serialize_to_string slashes pretty v [] = Done (buf, []) ∧
    json_parse_string (cstr buf) [] = Done (v, []).
Proof.
  intros Hi Hj Hd Hs. exists (json_serialize_to_buffer_r slashes pretty 0 v ++ [x00]). split; [by apply serialize_done|].
  rewrite cstr_app_nul by (by apply text_nul_free). unfold json_parse_string.
  assert (Hb : bool_decide (take 3 (json_serialize_to_buffer_r slashes pretty 0 v) = [xef; xbb; xbf]) = false).
  { apply bool_decide_eq_false_2. destruct (text_solid slashes pretty 0 v Hi) as (c & t & -> & _ & _ & _ & Hc). simpl. congruence. }
  rewrite Hb. pose proof (all_read_back slashes pretty v 0%nat (text_fuel (json_serialize_to_buffer_r slashes pretty 0 v)) 0%nat
    [] [] Hi Hj ltac:(lia) (Forall_nil_2 _) I ltac:(unfold small, INT_MAX in *; cbn [length]; lia) ltac:(unfold text_fuel; lia)) as E.
  rewrite app_nil_r in E. cbn [app] in E. by rewrite (bind_done _ _ _ E).
Qed.

(** [%1.17g] of an integer; other numbers are not needed. *)
Definition integer_format : FormatNumber := λ q, fmt_d (Qnum q).

#[export] Instance integer_format_laws : FormatNumberLaws integer_format.
Proof. by split. Qed.

Definition sample_config : json :=
  JObject [(lit "groups", JArray [JNumber 1; JNumber (-20)]); (lit "a/b", JObject [([x22; x5c], JString [x0a; x00; xc3])]);
           (lit "on", JBool true); (lit "empty", JArray [])].

Lemma json_round_trip_witness :
  (∃ buf, @json_serialize_to_string integer_format true true sample_config [] = Done (buf, []) ∧
    @json_parse_string integer_strtod (cstr buf) [] = Done (sample_config, [])) ∧
  (∃ buf, @json_serialize_to_string integer_format false false sample_config [] = Done (buf, []) ∧
    @json_parse_string integer_strtod (cstr buf) [] = Done (sample_config, [])).
Proof.
  assert (Hi : integral sample_config).
  { simpl. split_and!; try done; [by exists 1|by exists (-20)]. }
  assert (Hj : json_wf sample_config).
  { simpl. split_and!; try done; try (apply bool_decide_unpack; vm_compute; exact I); repeat constructor; try done; set_solver. }
  split; apply (@json_round_trip integer_strtod integer_strtod_laws integer_format integer_format_laws);
    try done; vm_compute; repeat constructor.
Defined.
