(* ===== verification/JsonTree.v ===== *)
(** * Copying, checking and walking JSON trees

    [json_value_deep_copy], [json_validate] and [json_object_dotget_value] of
    [kmod/parson.c], on the trees the parser returns.  The recursions follow values
    that are looked up by name, so they take fuel; one unit more than the depth of
    the tree, or than the length of the path, is enough. *)
From Stdlib Require Import Strings.Byte ZArith QArith Lia.
From stdpp Require Import base numbers list sets.
From S2P Require Import Prelude Userspace JsonObject JsonParse JsonPrint.

#[local] Open Scope Z_scope.

(** ** Copies *)

(** [json_array_add] of the copies of the items, from the array [a] on *)
Definition copy_items (copy : json → run json) : list json → list json * nat → run (list json * nat) :=
  fix items (xs : list json) (a : list json * nat) :=
    match xs with
    | [] => mret a
    | x :: xs => y ← copy x; a ← json_array_add a y; items xs a
    end.

(** The loop over the names of [fs]; each value is looked up by its name. *)
Definition copy_members (copy : json → run json) (fs : JSON_Object)
    : list bytes → json_object json → run (json_object json) :=
  fix members (names : list bytes) (o : json_object json) :=
    match names with
    | [] => mret o
    | key :: names =>
        match json_object_get_value fs key with
        | None => failed
        | Some x => y ← copy x; _ ← malloc; o ← json_object_add o key y; members names o
        end
    end.

Fixpoint json_value_deep_copy (fuel : nat) (v : json) : run json :=
  match fuel with
  | O => fault
  | S fuel =>
      match v with
      | JArray xs =>
          _ ← malloc; _ ← malloc;
          '(ys, _) ← copy_items (json_value_deep_copy fuel) xs ([], 0%nat);
          mret (JArray ys)
      | JObject fs =>
          _ ← malloc; o ← json_object_make;
          o ← copy_members (json_value_deep_copy fuel) fs fs.*1 o;
          mret (JObject (fields o))
      | JBool b => json_value_init (JBool b)
      | JNumber q => json_value_init_number (Some q)
      | JString s => _ ← malloc; json_value_init (JString s)
      | JNull => json_value_init JNull
      end
  end.

(** ** Schemas *)

Inductive JSON_Value_Type := JSONNull | JSONString | JSONNumber | JSONObject | JSONArray | JSONBoolean.

#[export] Instance value_type_eq_dec : EqDecision JSON_Value_Type.
Proof. solve_decision. Defined.

Definition json_value_get_type (v : json) : JSON_Value_Type :=
  match v with
  | JNull => JSONNull | JString _ => JSONString | JNumber _ => JSONNumber | JObject _ => JSONObject
  | JArray _ => JSONArray | JBool _ => JSONBoolean
  end.

(** [None] when the fuel is used up *)
Fixpoint all_true (rs : list (option bool)) : option bool :=
  match rs with
  | [] => Some true
  | r :: rs => b ← r; if b : bool then all_true rs else Some false
  end.

Fixpoint json_validate (fuel : nat) (schema value : json) : option bool :=
  match fuel with
  | O => None
  | S fuel =>
      if negb (bool_decide (json_value_get_type schema = json_value_get_type value)) &&
         negb (bool_decide (json_value_get_type schema = JSONNull))
      then Some false
      else
        match schema, value with
        | JArray [], _ => Some true
        | JArray (s :: _), JArray vs => all_true ((λ v, json_validate fuel s v) <$> vs)
        | JObject [], _ => Some true
        | JObject ss, JObject vs =>
            if (length vs <? length ss)%nat then Some false
            else all_true ((λ key, match json_object_get_value ss key, json_object_get_value vs key with
                                   | Some s, Some v => json_validate fuel s v
                                   | _, None => Some false
                                   | None, Some _ => Some false
                                   end) <$> ss.*1)
        | _, _ => Some true
        end
  end.

(** What a schema asks for. *)
#[warnings="-register-all"]
Inductive conforms : json → json → Prop :=
  | ConformsNull v : conforms JNull v
  | ConformsBool b b' : conforms (JBool b) (JBool b')
  | ConformsNumber q q' : conforms (JNumber q) (JNumber q')
  | ConformsString s s' : conforms (JString s) (JString s')
  | ConformsAnyArray vs : conforms (JArray []) (JArray vs)
  | ConformsArray s ss vs : Forall (conforms s) vs → conforms (JArray (s :: ss)) (JArray vs)
  | ConformsObject ss vs :
      (∀ k s, (k, s) ∈ ss → ∃ v, json_object_get_value vs k = Some v ∧ conforms s v) →
      conforms (JObject ss) (JObject vs).

(** ** Paths *)

(** [strchr(name, '.')]: what is before and after the first dot *)
Fixpoint split_dot (name : bytes) : option (bytes * bytes) :=
  match name with
  | [] => None
  | c :: name =>
      if bool_decide (c = "."%byte) then Some ([], name)
      else '(a, b) ← split_dot name; mret (c :: a, b)
  end.

(** [None] is the NULL object and the NULL value. *)
Fixpoint json_object_dotget_value (fuel : nat) (object : option JSON_Object) (name : bytes) : option json :=
  match fuel with
  | O => None
  | S fuel =>
      match split_dot name with
      | None => o ← object; json_object_get_value o name
      | Some (key, rest) =>
          json_object_dotget_value fuel (json_value_get_object (o ← object; json_object_get_value o key)) rest
      end
  end.

(** A path of names, joined by dots. *)
Fixpoint dotted (key : bytes) (keys : list bytes) : bytes :=
  match keys with [] => key | k :: keys => key ++ "."%byte :: dotted k keys end.

(** The value at a path of names. *)
Fixpoint value_at (object : JSON_Object) (key : bytes) (keys : list bytes) : option json :=
  match keys with
  | [] => json_object_get_value object key
  | k :: keys =>
      match json_object_get_value object key with Some (JObject o) => value_at o k keys | _ => None end
  end.

(** ** Copies are equal *)

(** No object has too many fields to index. *)
Fixpoint narrow (v : json) : Prop :=
  match v with
  | JArray xs => foldr (λ x P, narrow x ∧ P) True xs
  | JObject fs => Z.of_nat (length fs) < 2 ^ 30 ∧ foldr (λ '(_, x) P, narrow x ∧ P) True fs
  | _ => True
  end.

Lemma narrow_array xs : narrow (JArray xs) ↔ Forall narrow xs.
Proof. simpl. induction xs as [|x xs IH]; simpl; [by split|]. rewrite Forall_cons. tauto. Qed.

Lemma narrow_object fs : narrow (JObject fs) ↔ Z.of_nat (length fs) < 2 ^ 30 ∧ Forall narrow fs.*2.
Proof.
  simpl. assert (H : foldr (λ '(_, x) P, narrow x ∧ P) True fs ↔ Forall narrow fs.*2); [|tauto].
  induction fs as [|[k x] fs IH]; [by split|]. rewrite fmap_cons, Forall_cons. simpl. tauto.
Qed.

Abbreviation copies copy v := (yields (copy v) (λ v', v' = v)).

Lemma copy_items_yields copy xs acc capacity :
  Forall (λ x, copies copy x) xs → array_fits (acc, capacity) →
  yields (copy_items copy xs (acc, capacity)) (λ a, a.1 = acc ++ xs).
Proof.
  intros Hx. revert acc capacity. induction Hx as [|x xs Hx _ IH]; intros acc capacity Hc; cbn [copy_items].
  { apply yields_ret. by rewrite app_nil_r. }
  eapply yields_bind; [exact Hx|]. intros ? ->. eapply yields_bind; [apply json_array_add_yields, Hc|].
  intros [ys c] [E Hc']. simpl in E. subst ys. eapply yields_weaken; [by apply IH|]. intros a ->. by rewrite <- app_assoc.
Qed.

Lemma fields_names {A} (o : json_object A) : object_wf o → (fields o).*1 = ob_names o.
Proof. intros Hwf. unfold fields. apply fst_zip. pose proof (ow_values o Hwf) as H. unfold ob_count in H. lia. Qed.

Lemma copy_members_yields copy fs done rest o :
  NoDup fs.*1 → Forall nul_free fs.*1 → Z.of_nat (length fs) < 2 ^ 30 → fs = done ++ rest →
  Forall (λ x, copies copy x) rest.*2 → object_wf o → fields o = done →
  yields (copy_members copy fs rest.*1 o) (λ o', fields o' = fs).
Proof.
  intros Hnd Hnf Hlen. revert done o. induction rest as [|[key x] rest IH]; intros done o Ef Hc Hwf Ho.
  { apply yields_ret. by rewrite Ef, app_nil_r. }
  rewrite !fmap_cons in *. cbn [fst snd copy_members] in *. apply Forall_cons in Hc as [Hx Hc].
  rewrite (assoc_found fs (length done) key x Hnd) by (by rewrite Ef, list_lookup_middle).
  assert (Hkey : key ∈ fs.*1) by (rewrite Ef, fmap_app; apply elem_of_app; right; left).
  assert (Hnames : ob_names o = done.*1) by (by rewrite <- fields_names, Ho).
  assert (Hnew : key ∉ ob_names o).
  { rewrite Hnames. intros Hin. rewrite Ef, fmap_app in Hnd. apply NoDup_app in Hnd as (_ & Hd & _).
    apply (Hd _ Hin). left. }
  eapply yields_bind; [exact Hx|]. intros ? ->. eapply yields_bind; [apply yields_malloc|]. intros _ _.
  pose proof (json_object_add_spec o key x Hwf (proj1 (Forall_forall _ _) Hnf key Hkey)) as Ha.
  rewrite decide_False in Ha by done. eapply yields_bind; [apply Ha|].
  { unfold ob_count. rewrite Hnames, length_fmap. rewrite Ef, length_app in Hlen. lia. }
  intros o' (Hwf' & Hf & _). apply (IH (done ++ [(key, x)])); try done; [|by rewrite Hf, Ho].
  by rewrite <- app_assoc.
Qed.

Lemma deep_copy_copies fuel v :
  json_wf v → narrow v → (depth v < fuel)%nat → copies (json_value_deep_copy fuel) v.
Proof.
  revert v. induction fuel as [|fuel IH]; intros v Hj Hn Hd; [lia|].
  destruct v as [|b|q|s|xs|fs]; cbn [json_value_deep_copy];
    unfold json_value_init_number, json_value_init;
    try (repeat (eapply yields_bind; [apply yields_malloc|intros _ _]); by apply yields_ret).
  - rewrite json_wf_array in Hj. rewrite narrow_array in Hn.
    do 2 (eapply yields_bind; [apply yields_malloc|]; intros _ _). eapply yields_bind.
    + apply copy_items_yields; [|by apply Nat.le_0_l]. apply Forall_forall. intros x Hx. apply IH; [by eapply Forall_forall|by eapply Forall_forall|].
      assert (Hle : (depth (JArray xs) <= S (fuel - 1))%nat) by lia. apply depth_array in Hle. rewrite Forall_forall in Hle.
      specialize (Hle x Hx). simpl in Hd. lia.
    + intros [ys c] E. simpl in E. subst ys. by apply yields_ret.
  - rewrite json_wf_object in Hj. rewrite narrow_object in Hn. destruct Hj as (Hnd & Hnf & Hj). destruct Hn as [Hlen Hn].
    eapply yields_bind; [apply yields_malloc|]. intros _ _. eapply (yields_bind _ _ (λ o, o = empty_object 0)).
    { unfold json_object_make. eapply yields_bind; [apply yields_malloc|]. intros _ _. by apply init_yields. }
    intros ? ->. eapply yields_bind.
    + apply (copy_members_yields _ fs []); try done; [|apply empty_object_wf; by left].
      apply Forall_forall. intros x Hx. apply IH; [by eapply Forall_forall|by eapply Forall_forall|].
      assert (Hle : (depth (JObject fs) <= S (fuel - 1))%nat) by lia. apply depth_object in Hle. rewrite Forall_forall in Hle.
      specialize (Hle x Hx). simpl in Hd. lia.
    + intros o Ho. apply yields_ret. by rewrite Ho.
Qed.

(** ** Schemas are decided *)

Lemma all_true_decides {X} (f : X → option bool) (P : X → Prop) l :
  Forall (λ x, ∃ b, f x = Some b ∧ (b = true ↔ P x)) l → ∃ b, all_true (f <$> l) = Some b ∧ (b = true ↔ Forall P l).
Proof.
  induction 1 as [|x l (b & Eb & Hb) _ (bs & Es & Hs)]; [by exists true|]. rewrite fmap_cons. cbn [all_true].
  rewrite Eb. simpl. destruct b.
  - rewrite Es. exists bs. split; [done|]. rewrite Hs, Forall_cons. tauto.
  - exists false. split; [done|]. rewrite Forall_cons. split; [done|]. intros [? _]. tauto.
Qed.

Lemma assoc_elem (l : JSON_Object) k v : json_object_get_value l k = Some v → (k, v) ∈ l.
Proof.
  induction l as [|[k' v'] l IH]; [done|]. simpl. case_bool_decide as E; [intros [= ->]; subst; left|]. right. by apply IH.
Qed.

Lemma assoc_unique (l : JSON_Object) k v : NoDup l.*1 → (k, v) ∈ l → json_object_get_value l k = Some v.
Proof. intros Hnd [j Hj]%list_elem_of_lookup. by eapply assoc_found. Qed.

(** All names there, so enough fields: the comparison of the counts refuses
    nothing else. *)
Lemma enough_fields (ss vs : JSON_Object) :
  NoDup ss.*1 → (∀ k, k ∈ ss.*1 → is_Some (json_object_get_value vs k)) → (length ss <= length vs)%nat.
Proof.
  intros Hnd Hall. rewrite <- (length_fmap fst ss), <- (length_fmap fst vs). apply submseteq_length, NoDup_submseteq; [done|].
  intros k [v Hv%assoc_elem]%Hall. apply (list_elem_of_fmap_2 fst) in Hv. done.
Qed.

(** The types are compared and that is all. *)
Ltac scalar_schema v :=
  destruct v;
  first [exists true; split; [reflexivity|split; [intros _; constructor|done]]
        |exists false; split; [reflexivity|split; [done|by inversion 1]]].

Lemma validate_decides fuel schema v :
  json_wf schema → (depth schema < fuel)%nat → ∃ b, json_validate fuel schema v = Some b ∧ (b = true ↔ conforms schema v).
Proof.
  revert schema v. induction fuel as [|fuel IH]; intros schema v Hj Hd; [lia|].
  cbn [json_validate].
  destruct schema as [|b|q|s|[|s ss]|ss];
    [exists true; split; [by destruct v|split; [intros _; apply ConformsNull|done]]|scalar_schema v..| |].
  - destruct v as [| | | |vs|]; simpl; try (exists false; split; [done|split; [done|by inversion 1]]).
    apply json_wf_array, Forall_cons in Hj as [Hs _].
    destruct (all_true_decides (json_validate fuel s) (conforms s) vs) as (r & Er & Hr).
    { apply Forall_forall. intros x _. apply IH; [done|]. simpl in Hd. lia. }
    exists r. split; [done|]. rewrite Hr. split; [by constructor|by inversion 1].
  - apply json_wf_object in Hj as (Hnd & _ & Hj). destruct v as [| | | | |vs]; simpl;
      try (by destruct ss; exists false; (split; [done|split; [done|by inversion 1]])).
    assert (Hobj : conforms (JObject ss) (JObject vs) ↔
      Forall (λ k, ∃ s w, json_object_get_value ss k = Some s ∧ json_object_get_value vs k = Some w ∧ conforms s w) ss.*1).
    { rewrite Forall_forall. split.
      - intros Hc k ([k' s] & -> & Hin)%list_elem_of_fmap. inversion Hc as [| | | | | |? ? Hall]; subst.
        destruct (Hall k' s Hin) as (w & Hw & Hcw). exists s, w. split_and!; try done. by apply assoc_unique.
      - intros Hall. constructor. intros k s Hin. destruct (Hall k) as (s' & w & Hs' & Hw & Hc).
        { by apply (list_elem_of_fmap_2 fst) in Hin. }
        rewrite (assoc_unique ss k s Hnd Hin) in Hs'. simplify_eq. eauto. }
    destruct ss as [|s0 ss]; [exists true; split; [done|split; [intros _; apply Hobj; constructor|done]]|].
    set (all := s0 :: ss) in *. change (?x <? S (length ss))%nat with (x <? length all)%nat.
    destruct (Nat.ltb_spec (length vs) (length all)) as [Hlt|Hge].
    { exists false. split; [done|]. split; [done|]. rewrite Hobj. intros Hall.
      assert (length all <= length vs)%nat; [|lia]. apply enough_fields; [done|]. intros k Hk.
      rewrite Forall_forall in Hall. destruct (Hall k Hk) as (? & w & _ & Hw & _). eauto. }
    edestruct (all_true_decides (λ key, match json_object_get_value all key, json_object_get_value vs key with
        | Some s, Some v => json_validate fuel s v | _, None => Some false | None, Some _ => Some false end)) as (r & Er & Hr);
      [|exists r; split; [exact Er|]; rewrite Hr, Hobj; reflexivity].
    apply Forall_forall. intros k ([k' s] & -> & Hin)%list_elem_of_fmap. cbn [fst].
    rewrite (assoc_unique all k' s Hnd Hin). destruct (json_object_get_value vs k') as [w|].
    + destruct (IH s w) as (b & Eb & Hb).
      * rewrite Forall_forall in Hj. apply Hj. by apply (list_elem_of_fmap_2 snd) in Hin.
      * assert (Hle : (depth (JObject all) <= S (fuel - 1))%nat) by lia. apply depth_object in Hle. rewrite Forall_forall in Hle.
        apply (list_elem_of_fmap_2 snd) in Hin. specialize (Hle s Hin). simpl in Hd. lia.
      * exists b. split; [done|]. rewrite Hb. naive_solver.
    + exists false. split; [done|]. naive_solver.
Qed.

(** ** Paths are walked *)

Definition dot_free (key : bytes) : Prop := "."%byte ∉ key.

Lemma split_dot_free key : dot_free key → split_dot key = None.
Proof.
  unfold dot_free. induction key as [|c key IH]; [done|]. rewrite not_elem_of_cons. intros [Hc Hk]. simpl.
  by rewrite bool_decide_eq_false_2, IH.
Qed.

Lemma split_dot_app key rest : dot_free key → split_dot (key ++ "."%byte :: rest) = Some (key, rest).
Proof.
  unfold dot_free. induction key as [|c key IH]; [done|]. rewrite not_elem_of_cons. intros [Hc Hk]. simpl.
  by rewrite bool_decide_eq_false_2, IH.
Qed.

Lemma dotget_null fuel name : json_object_dotget_value fuel None name = None.
Proof. revert name. induction fuel as [|fuel IH]; intros name; simpl; [done|]. destruct (split_dot name) as [[? ?]|]; [apply IH|done]. Qed.

(** ** Properties *)

(** A deep copy is equal to its original, whichever names and values it has;
    it fails only for lack of memory. *)
Theorem deep_copy_exact v :
  json_wf v → narrow v → yields (json_value_deep_copy (S (depth v)) v) (λ v', v' = v).
Proof. intros. apply deep_copy_copies; [done..|lia]. Qed.

(** Validation against a schema decides exactly what the schema asks for: the
    recursion ends, and comparing the numbers of fields first refuses nothing
    that the schema allows. *)
Theorem validate_exact schema v :
  json_wf schema → ∃ b, json_validate (S (depth schema)) schema v = Some b ∧ (b = true ↔ conforms schema v).
Proof. intros Hj. apply validate_decides; [done|lia]. Qed.

(** A dotted name is the path of its parts. *)
Theorem dotget_path object key keys :
  Forall dot_free (key :: keys) →
  json_object_dotget_value (S (length keys)) (Some object) (dotted key keys) = value_at object key keys.
Proof.
  revert object key. induction keys as [|k keys IH]; intros object key Hf; apply Forall_cons in Hf as [Hk Hf];
    cbn [json_object_dotget_value dotted value_at length].
  - by rewrite split_dot_free.
  - rewrite split_dot_app by done. simpl. destruct (json_object_get_value object key) as [[| | | | |o]|]; simpl;
      try apply (dotget_null (S (length keys))). by apply IH.
Qed.

(** ** Examples *)

Lemma sample_config_wf : json_wf sample_config ∧ narrow sample_config.
Proof.
  split; simpl; split_and!; try done; try (apply bool_decide_unpack; vm_compute; exact I); repeat constructor; try done; set_solver.
Qed.

Lemma deep_copy_exact_witness : json_value_deep_copy 3 sample_config [] = Done (sample_config, []).
Proof.
  destruct (yields_done _ _ (deep_copy_exact sample_config (proj1 sample_config_wf) (proj2 sample_config_wf)))
    as (v & E & ->). exact E.
Defined.

Definition sample_schema : json :=
  JObject [(lit "groups", JArray [JNumber 0]); (lit "on", JBool false)].

Lemma validate_exact_witness : conforms sample_schema sample_config ∧ ¬ conforms sample_schema (JObject [(lit "on", JNull)]).
Proof.
  assert (Hj : json_wf sample_schema).
  { simpl. split_and!; try done; try (apply bool_decide_unpack; vm_compute; exact I); repeat constructor; try done; set_solver. }
  split.
  - destruct (validate_exact sample_schema sample_config Hj) as (b & E & Hb). apply Hb. vm_compute in E. congruence.
  - destruct (validate_exact sample_schema (JObject [(lit "on", JNull)]) Hj) as (b & E & Hb). rewrite <- Hb.
    vm_compute in E. congruence.
Defined.

Lemma dotget_path_witness :
  json_object_dotget_value 2 (Some [(lit "apps", JObject [(lit "uid", JNumber 7)])]) (lit "apps.uid") = Some (JNumber 7).
Proof.
  apply (dotget_path [(lit "apps", JObject [(lit "uid", JNumber 7)])] (lit "apps") [lit "uid"]).
  apply Forall_cons; split; [|apply Forall_cons; split; [|apply Forall_nil_2]]; refine (bool_decide_unpack ("."%byte ∉ _) _); vm_compute; exact I.
Defined.
