(* ===== verification/JsonText.v ===== *)
(** * Comments and equality

    [remove_comments] and [json_parse_string_with_comments], which blank comments
    before a text is parsed, and [json_value_equals] of [kmod/parson.c].  A text is
    the bytes before its NUL.  Numbers are compared through [close], the comparison
    of two doubles up to the library's epsilon. *)
From Stdlib Require Import Strings.Byte ZArith QArith Lia.
From stdpp Require Import base numbers list sets.
From S2P Require Import Prelude Userspace FileHiding JsonObject JsonParse JsonPrint JsonTree.

#[local] Open Scope Z_scope.

(** ** Comments *)

Definition blank (n : nat) : bytes := replicate n x20.

(** The loop over the text; one unit of fuel per character and one more. *)
Fixpoint remove_from (fuel : nat) (start_token end_token : bytes) (s : bytes) (in_string escaped : bool) : bytes :=
  match fuel, s with
  | S fuel, c :: rest =>
      if bool_decide (c = x5c) && negb escaped then c :: remove_from fuel start_token end_token rest in_string true
      else if bool_decide (c = x22) && negb escaped
           then c :: remove_from fuel start_token end_token rest (negb in_string) false
      else if negb in_string && starts_with s start_token then
        let tail := drop (length start_token) s in
        blank (length start_token) ++
        match strstr tail end_token 0 with
        | None => tail
        | Some n => blank (n + length end_token) ++
                    remove_from fuel start_token end_token (drop (n + length end_token) tail) in_string false
        end
      else c :: remove_from fuel start_token end_token rest in_string false
  | _, _ => s
  end.

Definition remove_comments (s start_token end_token : bytes) : bytes :=
  if bool_decide (start_token = []) || bool_decide (end_token = []) then s
  else remove_from (S (length s)) start_token end_token s false false.

Definition json_parse_string_with_comments {SD : Strtod} (s : bytes) : run json :=
  _ ← malloc;
  let t := remove_comments s (lit "/*") (lit "*/") in
  let t := remove_comments t (lit "//") [x0a] in
  '(v, _) ← parse_value (text_fuel t) 0 t; mret v.

Definition json_parse_file_with_comments {SD : Strtod} (file : option bytes) : run json :=
  contents ← read_file file; json_parse_string_with_comments (cstr contents).

(** ** Equality *)

Section equals.
Context (close : Q → Q → bool).

(** [None] among the values is NULL, of type [JSONError]; [None] as the result
    means that the fuel is used up. *)
Fixpoint json_value_equals (fuel : nat) (a b : option json) : option bool :=
  match fuel with
  | O => None
  | S fuel =>
      match a, b with
      | None, None => Some true
      | Some a, Some b =>
          match a, b with
          | JArray xs, JArray ys =>
              if (length xs =? length ys)%nat
              then all_true (zip_with (λ x y, json_value_equals fuel (Some x) (Some y)) xs ys) else Some false
          | JObject fs, JObject gs =>
              if (length fs =? length gs)%nat
              then all_true ((λ key, json_value_equals fuel (json_object_get_value fs key) (json_object_get_value gs key))
                             <$> fs.*1)
              else Some false
          | JString s, JString t => Some ((length s =? length t)%nat && bool_decide (s = t))
          | JBool x, JBool y => Some (Bool.eqb x y)
          | JNumber q, JNumber r => Some (close q r)
          | JNull, JNull => Some true
          | _, _ => Some false
          end
      | _, _ => Some false
      end
  end.

(** Equal values: numbers up to [close], fields in any order. *)
#[warnings="-register-all"]
Inductive same : json → json → Prop :=
  | SameNull : same JNull JNull
  | SameBool b : same (JBool b) (JBool b)
  | SameNumber q r : close q r = true → same (JNumber q) (JNumber r)
  | SameString s : same (JString s) (JString s)
  | SameArray xs ys : Forall2 same xs ys → same (JArray xs) (JArray ys)
  | SameObject fs gs : length fs = length gs →
      (∀ k v, (k, v) ∈ fs → ∃ w, json_object_get_value gs k = Some w ∧ same v w) → same (JObject fs) (JObject gs).
End equals.

(** ** Comments are blanked, strings are not *)

(** What may stand between the quotes of a string. *)
Inductive string_body : bytes → Prop :=
  | BodyNil : string_body []
  | BodyChar c s : c ≠ x5c → c ≠ x22 → string_body s → string_body (c :: s)
  | BodyEscape c s : string_body s → string_body (x5c :: c :: s).

(** The text with its comments blanked: characters outside strings and comments
    stay, strings stay whatever they hold, a comment becomes as many spaces, and
    of one that does not end only the token that starts it. *)
Inductive blanked (start_token end_token : bytes) : bytes → bytes → Prop :=
  | BlankedNil : blanked start_token end_token [] []
  | BlankedChar c s t : c ≠ x5c → c ≠ x22 → starts_with (c :: s) start_token = false →
      blanked start_token end_token s t → blanked start_token end_token (c :: s) (c :: t)
  | BlankedString body s t : string_body body → blanked start_token end_token s t →
      blanked start_token end_token (x22 :: body ++ x22 :: s) (x22 :: body ++ x22 :: t)
  | BlankedComment body s t : strstr (body ++ end_token ++ s) end_token 0 = Some (length body) →
      blanked start_token end_token s t →
      blanked start_token end_token (start_token ++ body ++ end_token ++ s)
        (blank (length start_token) ++ blank (length body + length end_token) ++ t)
  | BlankedUnclosed body : strstr body end_token 0 = None →
      blanked start_token end_token (start_token ++ body) (blank (length start_token) ++ body).

Lemma starts_with_app s t : starts_with (s ++ t) s = true.
Proof. induction s as [|c s IH]; [by destruct t|]. simpl. by rewrite bool_decide_eq_true_2. Qed.

Section tokens.
Context (c0 : byte) (start_rest end_token : bytes) (Hc0 : c0 ≠ x5c ∧ c0 ≠ x22) (Hend : end_token ≠ []).
Abbreviation start_token := (c0 :: start_rest).
Abbreviation go := (λ fuel s, remove_from fuel start_token end_token s).

(** Inside a string everything is kept up to its closing quote. *)
Lemma remove_in_string body s fuel :
  string_body body → (length (body ++ x22 :: s) < fuel)%nat →
  ∃ fuel', (length s < fuel')%nat ∧
    remove_from fuel start_token end_token (body ++ x22 :: s) true false =
    body ++ x22 :: remove_from fuel' start_token end_token s false false.
Proof.
  intros Hb. revert fuel. induction Hb as [|c b Hc1 Hc2 _ IH|c b _ IH]; intros fuel Hf.
  - destruct fuel as [|fuel]; [simpl in Hf; lia|]. exists fuel. split; [simpl in Hf; lia|done].
  - destruct fuel as [|fuel]; [simpl in Hf; lia|]. destruct (IH fuel) as (f' & Hl & E); [simpl in Hf; lia|].
    exists f'. split; [done|]. cbn [app remove_from]. rewrite !bool_decide_eq_false_2 by done. cbn [andb negb]. by rewrite E.
  - destruct fuel as [|[|fuel]]; [simpl in Hf; lia..|]. destruct (IH fuel) as (f' & Hl & E); [simpl in Hf; lia|].
    exists f'. split; [done|]. cbn [app remove_from]. rewrite (bool_decide_eq_true_2 (x5c = x5c)) by done. cbn [andb negb].
    rewrite !andb_false_r. cbn [andb]. by rewrite E.
Qed.

Lemma remove_from_blanked s t fuel :
  blanked start_token end_token s t → (length s < fuel)%nat →
  remove_from fuel start_token end_token s false false = t.
Proof.
  intros Hb. revert fuel. induction Hb as [|c s t H1 H2 Hs _ IH|body s t Hbody _ IH|body s t Hf _ IH|body Hf]; intros fuel Hl.
  - by destruct fuel.
  - destruct fuel as [|fuel]; [simpl in Hl; lia|]. cbn [remove_from]. rewrite !bool_decide_eq_false_2 by done.
    cbn [andb negb]. rewrite Hs. f_equal. apply IH. simpl in Hl. lia.
  - destruct fuel as [|fuel]; [simpl in Hl; lia|].
    destruct (remove_in_string body s fuel Hbody) as (f' & Hl' & E); [simpl in Hl; lia|].
    cbn [remove_from]. rewrite (bool_decide_eq_false_2 (x22 = x5c)), (bool_decide_eq_true_2 (x22 = x22)) by done.
    cbn [andb negb]. rewrite E. by rewrite IH.
  - destruct fuel as [|fuel]; [simpl in Hl; lia|]. destruct Hc0 as [Ha Hb].
    change ((c0 :: start_rest) ++ body ++ end_token ++ s) with (c0 :: start_rest ++ body ++ end_token ++ s).
    cbn [remove_from]. rewrite !bool_decide_eq_false_2 by done. cbn [andb negb].
    change (c0 :: start_rest ++ body ++ end_token ++ s) with ((c0 :: start_rest) ++ body ++ end_token ++ s).
    rewrite starts_with_app, drop_app_length, Hf. do 2 f_equal.
    rewrite <- length_app, app_assoc, drop_app_length. apply IH.
    rewrite !length_app in Hl. destruct end_token; [done|]. simpl in Hl. lia.
  - destruct fuel as [|fuel]; [simpl in Hl; lia|]. destruct Hc0 as [Ha Hb].
    change ((c0 :: start_rest) ++ body) with (c0 :: start_rest ++ body).
    cbn [remove_from]. rewrite !bool_decide_eq_false_2 by done. cbn [andb negb].
    change (c0 :: start_rest ++ body) with ((c0 :: start_rest) ++ body).
    by rewrite starts_with_app, drop_app_length, Hf.
Qed.

(** Comments are blanked and nothing else: a token within a string starts no
    comment, the text keeps its length, so that positions stay what they are. *)
Theorem comments_blanked s t :
  blanked start_token end_token s t → remove_comments s start_token end_token = t ∧ length t = length s.
Proof.
  intros Hb. split.
  - unfold remove_comments. rewrite !bool_decide_eq_false_2 by done. cbn [orb]. apply remove_from_blanked; [done|lia].
  - unfold blank. induction Hb; unfold blank; simpl; rewrite ?length_app; simpl; rewrite ?length_app, ?length_replicate; simpl; lia.
Qed.
End tokens.

(** ** Equality is decided *)

Section decided.
Context (close : Q → Q → bool).

Lemma all_true_zip {X} (f : X → X → option bool) (P : X → X → Prop) xs ys :
  length xs = length ys → (∀ x y, x ∈ xs → ∃ b, f x y = Some b ∧ (b = true ↔ P x y)) →
  ∃ b, all_true (zip_with f xs ys) = Some b ∧ (b = true ↔ Forall2 P xs ys).
Proof.
  revert ys. induction xs as [|x xs IH]; intros [|y ys] Hl Hf; try done.
  { exists true. split; [done|]. split; [constructor|done]. }
  destruct (Hf x y ltac:(left)) as (b & Eb & Hb). cbn [zip_with all_true]. rewrite Eb. simpl.
  destruct (IH ys) as (bs & Es & Hs); [simpl in Hl; lia|intros; apply Hf; by right|]. destruct b.
  - rewrite Es. exists bs. split; [done|]. rewrite Hs, Forall2_cons. tauto.
  - exists false. split; [done|]. rewrite Forall2_cons. split; [done|]. intros [? _]. tauto.
Qed.

Lemma equals_decides fuel a b :
  json_wf a → (depth a < fuel)%nat →
  ∃ r, json_value_equals close fuel (Some a) (Some b) = Some r ∧ (r = true ↔ same close a b).
Proof.
  revert a b. induction fuel as [|fuel IH]; intros a b Hj Hd; [lia|].
  assert (Hno : ¬ same close a b → ∃ r, Some false = Some r ∧ (r = true ↔ same close a b))
    by (intros H; exists false; split; [done|by split]).
  destruct a as [|x|q|s|xs|fs], b as [|y|r|t|ys|gs]; cbn [json_value_equals]; try (apply Hno; by inversion 1).
  - exists true. split; [done|]. by split; [intros; constructor|].
  - eexists. split; [reflexivity|]. rewrite eqb_true_iff. split; [intros ->; constructor|by inversion 1].
  - eexists. split; [reflexivity|]. split; [by constructor|by inversion 1].
  - eexists. split; [reflexivity|]. rewrite andb_true_iff, Nat.eqb_eq, bool_decide_eq_true.
    split; [intros [_ ->]; constructor|by inversion 1].
  - destruct (Nat.eqb_spec (length xs) (length ys)) as [Hl|Hl].
    + rewrite json_wf_array in Hj. assert (Hle : (depth (JArray xs) <= S (fuel - 1))%nat) by lia. apply depth_array in Hle.
      destruct (all_true_zip (λ x y, json_value_equals close fuel (Some x) (Some y)) (same close) xs ys Hl) as (r & Er & Hr).
      { intros x y Hx. rewrite Forall_forall in Hj, Hle. apply IH; [by apply Hj|]. specialize (Hle x Hx). simpl in Hd. lia. }
      exists r. split; [done|]. rewrite Hr. split; [by constructor|by inversion 1].
    + apply Hno. inversion 1 as [| | | |? ? H2|]; subst. by apply Forall2_length in H2.
  - apply json_wf_object in Hj as (Hnd & _ & Hj). destruct (Nat.eqb_spec (length fs) (length gs)) as [Hl|Hl]; [|apply Hno; by inversion 1].
    assert (Hle : (depth (JObject fs) <= S (fuel - 1))%nat) by lia. apply depth_object in Hle.
    edestruct (all_true_decides (λ key, json_value_equals close fuel (json_object_get_value fs key) (json_object_get_value gs key))
      (λ k, ∃ v w, json_object_get_value fs k = Some v ∧ json_object_get_value gs k = Some w ∧ same close v w)) as (r & Er & Hr).
    2:{ exists r. split; [exact Er|]. rewrite Hr, Forall_forall. split.
        - intros Hall. constructor; [done|]. intros k v Hin. destruct (Hall k) as (v' & w & Hv & Hw & Hs).
          { by apply (list_elem_of_fmap_2 fst) in Hin. }
          rewrite (assoc_unique fs k v Hnd Hin) in Hv. simplify_eq. eauto.
        - intros Hs k ([k' v] & -> & Hin)%list_elem_of_fmap. inversion Hs as [| | | | |? ? _ Hall]; subst.
          destruct (Hall k' v Hin) as (w & Hw & Hvw). exists v, w. split_and!; try done. by apply assoc_unique. }
    apply Forall_forall. intros k ([k' v] & -> & Hin)%list_elem_of_fmap. cbn [fst].
    rewrite (assoc_unique fs k' v Hnd Hin). pose proof (list_elem_of_fmap_2 snd _ _ Hin) as Hin2. cbn [snd] in Hin2.
    rewrite Forall_forall in Hj, Hle. specialize (Hle v Hin2). destruct (json_object_get_value gs k') as [w|].
    + destruct (IH v w (Hj v Hin2)) as (b & Eb & Hb); [simpl in Hd; lia|]. exists b. split; [done|]. rewrite Hb. naive_solver.
    + exists false. split; [destruct fuel; [simpl in Hd; lia|done]|]. naive_solver.
Qed.

(** The comparison of two values ends and decides equality up to the order of
    fields and [close] of numbers. *)
Theorem value_equals_exact a b :
  json_wf a → ∃ r, json_value_equals close (S (depth a)) (Some a) (Some b) = Some r ∧ (r = true ↔ same close a b).
Proof. intros Hj. apply equals_decides; [done|lia]. Qed.
End decided.

(** ** Examples *)

(** Apostrophes stand for quotes. *)
Definition quotes (s : bytes) : bytes := (λ c, if bool_decide (c = "'"%byte) then x22 else c) <$> s.

Example comment_tokens_in_strings :
  remove_comments (quotes (lit "{/*x*/'a/*b':'\'/*'} /*")) (lit "/*") (lit "*/") =
    quotes (lit "{     'a/*b':'\'/*'}   ").
Proof. vm_compute. reflexivity. Qed.

Lemma comments_blanked_witness :
  remove_comments (lit "1/*2*/3") (lit "/*") (lit "*/") = lit "1     3" ∧ length (lit "1     3") = length (lit "1/*2*/3").
Proof.
  apply (comments_blanked "/"%byte (lit "*") (lit "*/")).
  - by split.
  - done.
  - apply BlankedChar; [done|done|reflexivity|].
    apply (BlankedComment (lit "/*") (lit "*/") (lit "2") (lit "3") (lit "3")); [reflexivity|].
    apply BlankedChar; [done|done|reflexivity|]. apply BlankedNil.
Defined.

(** A copy of a configuration is equal to it, whichever comparison of numbers. *)
Lemma value_equals_exact_witness close :
  ∃ r, json_value_equals close 3 (Some sample_config) (Some sample_config) = Some r ∧
    (r = true ↔ same close sample_config sample_config).
Proof. apply (value_equals_exact close sample_config sample_config (proj1 sample_config_wf)). Defined.
