(* ===== verification/CtlMain.v ===== *)
(** * The command line tool

    [main] of [kmod/vpnhide_ctl.c]: the commands, what each prints and returns,
    and what it leaves in the device.  Together with the parser this takes a
    policy from the text of a file to the kernel.  Messages on standard error are
    not modelled. *)
From Stdlib Require Import Strings.Byte ZArith QArith Lia.
From stdpp Require Import base gmap numbers list.
From S2P Require Import Prelude Abi Userspace PolicyResolve Ctl Snapshot PolicyQuery RoundTrip Stats Device DeviceInv CharDev EndToEnd Load StatsRing StatsJson JsonObject JsonParse.

#[local] Open Scope Z_scope.

(** ** The environment of a run *)

Record ctl_env := mk_ctl_env {
  (** the contents of a readable file *)
  en_file : bytes → option bytes;
  (** [/dev/vpnhide_ctrl] can be opened *)
  en_opens : bool;
  (** the caller's privilege, its memory, the clock and the allocations of the kernel *)
  en_capable : bool;
  en_copy_out : bool;
  en_now : Z;
  en_kernel : allocs;
  (** the allocations of the parser, of the policy compiler and of the statistics *)
  en_parse_mem : list bool;
  en_mem : list bool;
  en_calloc : bool;
  (** the daemon's answer to a command, as it is read, and whether the last read
      fails; [None] when the socket cannot be used *)
  en_daemon : bytes → option (list bytes * bool);
  en_stdout : bool
}.

(** The exit status, the standard output, and the device. *)
Record ctl_end := mk_ctl_end { ct_status : Z; ct_stdout : bytes; ct_device : device }.

Definition exits (status : Z) (d : device) : option ctl_end := Some (mk_ctl_end status [] d).
Definition prints (text : bytes) (d : device) : option ctl_end := Some (mk_ctl_end 0 text d).

Definition zero_terminated (size : nat) (text : bytes) : option bytes :=
  if bool_decide (x00 ∈ take size text) then Some (cstr text) else None.

Section ctl.
Context {KS : KSort} {FC : FloatConv} {SD : Strtod}.
Context (HZ : Z) (ipv6_is_linklocal : bytes → bool).
Context (scan3 : bytes → option (Z * bytes * Z)) (scan2 : bytes → option (Z * Z)).
(** [inet_pton]: the address in network order, [None] when the text is not one. *)
Context (inet_pton4 : bytes → option Z) (inet_pton6 : bytes → option bytes).
Context (env : ctl_env).

Definition ioctl (cmd : vh_ioctl) (d : device) : ioctl_end :=
  handle_vpnhide_ioctl HZ ipv6_is_linklocal (en_capable env) (en_copy_out env) (en_now env) cmd d.

(** [strcmp(argv[i], word) == 0] for an argument that is there *)
Definition arg_is (argv : list bytes) (i : nat) (word : string) : bool := bool_decide (argv !! i = Some (lit word)).

(** ** [stats_history] *)

(** The daemon's answer is copied to the output piece by piece. *)
Definition print_stats_history (clear : bool) (d : device) : option ctl_end :=
  match en_daemon env (if clear then lit "CLEAR_HISTORY" ++ nl else lit "GET_STATS" ++ nl) with
  | None => exits 1 d
  | Some (pieces, failed) =>
      if negb (bool_decide (pieces = [])) && negb (en_stdout env) then exits 1 d
      else Some (mk_ctl_end (if failed then 1 else 0) (mjoin pieces) d)
  end.

(** ** [version] *)

Definition kmod_version (d : device) : Z :=
  if en_opens env
  then match ioctl VH_GET_VERSION d with mk_end None (OutWord w) _ => w | _ => -1 end
  else -1.

Definition cmd_version (argv : list bytes) (d : device) : option ctl_end :=
  let kversion := kmod_version d in
  if (2 <? length argv)%nat then
    if arg_is argv 2 "ctl" then prints (fmt_d VPNHIDE_VERSION_CODE ++ nl) d
    else if arg_is argv 2 "kmod" then prints (fmt_d kversion ++ nl) d
    else exits 1 d
  else prints (lit "ctl: " ++ fmt_d VPNHIDE_VERSION_CODE ++ nl ++ lit "kmod: " ++ fmt_d kversion ++ nl) d.

(** ** [validate] and [preview] *)

Definition vpnhide_list_mode_name (mode : vpnhide_list_mode) : bytes :=
  match mode with VPNHIDE_LIST_ALLOWLIST => lit "ALLOWLIST" | VPNHIDE_LIST_BLACKLIST => lit "BLACKLIST" end.

Definition print_field (name : string) (value : bytes) : bytes := lit name ++ lit "=" ++ value ++ nl.

Definition print_summary (s : vpnhide_policy_summary) : bytes :=
  print_field "mode" (vpnhide_list_mode_name (sm_mode s)) ++
  print_field "configured_entries" (fmt_d (sm_configured_entries s)) ++
  print_field "rejected_core_uids" (fmt_d (sm_rejected_core_uids s)) ++
  print_field "match_mode" (match sm_mode s with VPNHIDE_LIST_ALLOWLIST => lit "EXCLUDE" | _ => lit "INCLUDE" end) ++
  print_field "kmod_targets" (fmt_d (sm_kmod_targets s)) ++
  print_field "lsposed_entries" (fmt_d (sm_lsposed_entries s)) ++
  print_field "port_targets" (fmt_d (sm_port_targets s)).

Definition port_target_label (i : nat) : bytes := lit "port_target[" ++ fmt_u (Z.of_nat i) ++ lit "].".

Definition preview_rule (i j : nat) (r : vpnhide_port_rule) : bytes :=
  port_target_label i ++ lit "rule[" ++ fmt_u (Z.of_nat j) ++ lit "]=" ++ fmt_u (start_port r) ++ lit "-" ++
  fmt_u (end_port r) ++ lit "/" ++ fmt_u (protocol r) ++ nl.

Definition preview_target (i : nat) (t : vpnhide_port_target) : bytes :=
  port_target_label i ++ lit "uid=" ++ fmt_u (tg_uid t) ++ nl ++
  port_target_label i ++ lit "mode=" ++ fmt_u (tg_mode t) ++ nl ++
  mjoin (imap (preview_rule i) (tg_rules t)).

(** The file is read and has an object at its root; a failure to parse and
    another root are [Some None], a fault is [None]. *)
Definition parse_config (path : bytes) : option (option JSON_Object) :=
  match json_parse_file (en_file env path) (en_parse_mem env) with
  | Done (JObject root, _) => Some (Some root)
  | Done _ | Failed => Some None
  | Fault => None
  end.

Definition cmd_check (preview : bool) (argv : list bytes) (d : device) : option ctl_end :=
  match argv !! 2%nat with
  | None => exits 1 d
  | Some path =>
      match parse_config path with
      | None => None
      | Some None => exits 1 d
      | Some (Some root) =>
          match ('(_, _, summary) ← vpnhide_resolve_targets root; vpnhide_resolve_port_rules root summary) (en_mem env) with
          | Err _ => exits 1 d
          | Ok ((ports, summary), _) =>
              prints (print_summary summary ++
                      if preview then mjoin (imap preview_target (pp_targets ports)) else []) d
          end
      end
  end.

(** ** [load] *)

Definition cmd_load (argv : list bytes) (d : device) : option ctl_end :=
  match argv !! 2%nat with
  | None => exits 1 d
  | Some path =>
      match parse_config path with
      | None => None
      | Some None => exits 1 d
      | Some (Some root) =>
          match load_policy root (en_mem env) with
          | Err _ => exits 1 d
          | Ok (payload, _) =>
              let request := mk_policy_ioctl VPNHIDE_POLICY_ABI_VERSION_V4 (Z.of_nat (length payload)) 1 0 in
              let r := ioctl (VH_SET_POLICY (en_kernel env) (Some request) payload) d in
              match ie_error r with Some _ => exits 1 (ie_device r) | None => exits 0 (ie_device r) end
          end
      end
  end.

(** ** The other commands *)

(** Failures end with status 1, and the device as the ioctl left it. *)
Definition after_ioctl (r : ioctl_end) (k : ioctl_out → device → option ctl_end) : option ctl_end :=
  match ie_error r with Some _ => exits 1 (ie_device r) | None => k (ie_out r) (ie_device r) end.

Definition cmd_set_spoof_ip (argv : list bytes) (d : device) : option ctl_end :=
  match argv !! 2%nat, argv !! 3%nat with
  | Some a4, Some a6 =>
      let v4 := if bool_decide (a4 = lit "none") then Some (0, 0) else (λ a, (a, 1)) <$> inet_pton4 a4 in
      let v6 := if bool_decide (a6 = lit "none") then Some (replicate 16 x00, 0) else (λ a, (a, 1)) <$> inet_pton6 a6 in
      match v4, v6 with
      | Some (ipv4, has4), Some (ipv6, has6) =>
          let spoof := mk_spoof_ip ipv4 ipv6 (replicate 16 x00) has4 has6 0 0 0 0 in
          after_ioctl (ioctl (VH_SET_SPOOF_IP (al_snapshot (en_kernel env)) (Some spoof)) d) (λ _, exits 0)
      | _, _ => exits 1 d
      end
  | _, _ => exits 1 d
  end.

(** [active_hooks] and [java_hooks] *)
Definition cmd_mask (cmd : vh_ioctl) (argv : list bytes) (d : device) : option ctl_end :=
  if (length argv <? 3)%nat
  then after_ioctl (ioctl cmd d) (λ out d, match out with OutWord w => prints (fmt_u w ++ nl) d | _ => exits 1 d end)
  else exits 1 d.

Definition cmd_hook_status (d : device) : option ctl_end :=
  after_ioctl (ioctl VH_GET_HOOK_STATUS d) (λ out d,
    match out with
    | OutText text =>
        match zero_terminated 256 text with
        | None => None
        | Some s => prints (((λ c, if bool_decide (c = ";"%byte) then newline else c) <$> s) ++ nl) d
        end
    | _ => exits 1 d
    end).

Definition cmd_java_stats (argv : list bytes) (d : device) : option ctl_end :=
  if arg_is argv 2 "clear" then
    match vpnhide_dev_write scan3 scan2 (al_payload (en_kernel env)) 11 (Some (lit "clear_stats")) d with
    | Err _ => exits 1 d
    | Ok (_, d) => exits 0 d
    end
  else
    after_ioctl (ioctl VH_GET_JAVA_STATS d) (λ out d,
      match out with
      | OutText text => match zero_terminated 4096 text with None => None | Some s => prints s d end
      | _ => exits 1 d
      end).

Definition stats_line (e : kmod_uid_stats_total) : bytes :=
  fmt_u (st_uid e) ++
  mjoin ((λ c, lit ";" ++ fmt_u (counter c e)) <$>
         [ioctl_count; netlink_count; proc_count; sockopt_count; connect_count; getname_count; port_count]) ++ nl.

(** The loop that grows the buffer until the rows fit; [None] when the fuel is
    used up or unwritten memory would be printed. *)
Fixpoint stats_loop (fuel : nat) (capacity : Z) (d : device) : option ctl_end :=
  match fuel with
  | O => None
  | S fuel =>
      let r := ioctl (VH_GET_STATS (al_stats (en_kernel env)) (kmod_stats (dv_stats d))
                        (Some (capacity, buffer_ptr capacity))) d in
      match ie_error r, ie_out r with
      | None, OutStats reply =>
          match rp_entries reply with
          | Values rows => prints (mjoin (stats_line <$> rows)) (ie_device r)
          | Uninitialised _ _ => None
          end
      | Some ENOSPC, OutStats reply =>
          if rp_count reply <=? capacity then exits 1 (ie_device r)
          else if en_calloc env then stats_loop fuel (rp_count reply) (ie_device r) else exits 1 (ie_device r)
      | _, _ => exits 1 (ie_device r)
      end
  end.

Definition cmd_stats (argv : list bytes) (d : device) : option ctl_end :=
  if arg_is argv 2 "clear"
  then after_ioctl (ioctl (VH_CLEAR_STATS (al_stats (en_kernel env))) d) (λ _, exits 0)
  else stats_loop 2 0 d.

(** ** [main] *)

Definition main (argv : list bytes) (d : device) : option ctl_end :=
  if (length argv <? 2)%nat then exits 1 d
  else if arg_is argv 1 "stats_history" then print_stats_history (arg_is argv 2 "clear") d
  else if arg_is argv 1 "version" then cmd_version argv d
  else if arg_is argv 1 "validate" || arg_is argv 1 "preview" then cmd_check (arg_is argv 1 "preview") argv d
  else if negb (en_opens env) then exits 1 d
  else if arg_is argv 1 "load" then cmd_load argv d
  else if arg_is argv 1 "set_spoof_ip" then cmd_set_spoof_ip argv d
  else if arg_is argv 1 "active_hooks" then cmd_mask VH_GET_ACTIVE_HOOKS argv d
  else if arg_is argv 1 "java_hooks" then cmd_mask VH_GET_JAVA_HOOK_MASK argv d
  else if arg_is argv 1 "hook_status" then cmd_hook_status d
  else if arg_is argv 1 "java_stats" then cmd_java_stats argv d
  else if arg_is argv 1 "stats" then cmd_stats argv d
  else exits 1 d.
End ctl.

(** ** Loading *)

(** The policy enforces the configuration: it hides from the UIDs, blocks the
    ports and runs the hooks that the configuration names. *)
Definition enforces {FC : FloatConv} (root : JSON_Object) (s : vpnhide_policy_snapshot) : Prop :=
  (∀ uid, is_target_uid_val (Some s) uid = true ↔ config_hides root uid) ∧
  (∀ uid port proto, real_port port proto →
    ∃ b, port_blocked s uid port proto = Some b ∧ (b = true ↔ config_blocks root uid port proto)) ∧
  (∀ uid h, is_hook_active (Some s) h uid = config_hook root uid h).

Lemma loaded_enforces {FC : FloatConv} {HFC : FloatConvLaws FC} root s : loaded root s → enforces root s.
Proof.
  intros Hl. split_and!; [intros; by apply loaded_hides| |intros; by apply loaded_hooks].
  intros uid port proto Hreal. destruct (port_blocked_spec s uid port proto (ld_wf _ _ Hl)) as (b & Hb & Hiff).
  exists b. split; [done|]. rewrite Hiff. by apply (ld_blocks _ _ Hl).
Qed.

Section load.
Context {KS : KSort} {HKS : KSortLaws KS} {FC : FloatConv} {HFC : FloatConvLaws FC} {SD : Strtod} {SL : StrtodLaws SD}.
Context (HZ : Z) (ll : bytes → bool) (scan3 : bytes → option (Z * bytes * Z)) (scan2 : bytes → option (Z * Z)).
Context (pton4 : bytes → option Z) (pton6 : bytes → option bytes).

(** Kernel memory does not change what a payload is accepted as. *)
Lemma snapshot_steady a b payload s :
  policy_snapshot_from_v4 a b payload = Ok s → policy_snapshot_from_v4 true true payload = Ok s.
Proof.
  unfold policy_snapshot_from_v4. cbv zeta. repeat (destruct (_ || _); [done|]).
  destruct a; [|done]. destruct b; [done|]. unfold policy_snapshot_from_v3. cbv zeta.
  by destruct (policy_v3_layout _ _).
Qed.

(** The request the tool makes. *)
Definition load_request (payload : bytes) : vpnhide_policy_ioctl :=
  mk_policy_ioctl VPNHIDE_POLICY_ABI_VERSION_V4 (Z.of_nat (length payload)) 1 0.

(** The ioctl hands the payload to the snapshot builder, or refuses. *)
Lemma load_request_outcome al payload d :
  592 <= Z.of_nat (length payload) <= VPNHIDE_POLICY_MAX_BYTES →
  ioctl_set_policy al (Some (load_request payload)) payload d =
    if al_payload al then commit (vpnhide_apply_policy_v4 (al_v3 al) (al_snapshot al) (al_stats al) payload 0 d) d
    else fail ENOMEM d.
Proof.
  intros Hl. unfold ioctl_set_policy, load_request. cbn -[Z.of_nat VPNHIDE_POLICY_MAX_BYTES].
  assert (size_bad (Z.of_nat (length payload)) (Z.of_nat sizeof_payload_v4) = false) as ->.
  { unfold size_bad, sizeof_payload_v4. apply orb_false_iff. split; apply Z.ltb_ge; lia. }
  destruct (al_payload al); [|done]. cbn [negb].
  unfold copy_from_user. rewrite Z.ltb_irrefl, Nat2Z.id, take_ge by lia. done.
Qed.

Lemma apply_published al payload d d' :
  vpnhide_apply_policy_v4 (al_v3 al) (al_snapshot al) (al_stats al) payload 0 d = Ok d' →
  ∃ s, policy_snapshot_from_v4 true true payload = Ok s ∧ published d s d'.
Proof.
  unfold vpnhide_apply_policy_v4. intros H. destruct (policy_snapshot_from_v4 _ _ _) as [s|] eqn:E; [|done].
  apply snapshot_steady in E. exists s. split; [done|]. by apply publish_published in H as [? _].
Qed.

(** [load] with a path: refused, or the parsed configuration is in force. *)
Lemma cmd_load_outcome env argv path d :
  argv !! 2%nat = Some path → (∀ contents, en_file env path = Some contents → small (length contents)) →
  ∃ e, cmd_load HZ ll env argv d = Some e ∧ ct_stdout e = [] ∧
    (ct_status e = 1 ∧ ct_device e = d ∨
     ct_status e = 0 ∧ ∃ root s, json_parse_file (en_file env path) [] = Done (JObject root, []) ∧
       published d s (ct_device e) ∧ enforces root s).
Proof.
  intros Hp Hs. unfold cmd_load. rewrite Hp. unfold parse_config.
  assert (Hend : ends (json_parse_file (en_file env path)) (λ _, True) ∧ steady (json_parse_file (en_file env path))).
  { destruct (en_file env path) as [c|] eqn:Ef; [|split; [by intros mem|by intros mem a mem']].
    destruct (parse_file_good c (Hs c eq_refl)) as [He ?]. split; [|done]. by eapply ends_weaken. }
  destruct Hend as [Hend Hst]. specialize (Hend (en_parse_mem env)).
  destruct (json_parse_file (en_file env path) (en_parse_mem env)) as [[v mem]| |] eqn:Ep; [|by eexists; eauto|done].
  apply Hst in Ep. destruct v as [|b|q|s|xs|root]; try by eexists; eauto.
  destruct (load_policy root (en_mem env)) as [[payload mem']|] eqn:El; [|by eexists; eauto].
  apply load_policy_accepted in El as [(s & Hacc & Hl) Hlen]. fold (load_request payload). cbv zeta.
  unfold ioctl, handle_vpnhide_ioctl. destruct (en_capable env); [|by eexists; eauto]. cbn [negb].
  rewrite load_request_outcome by done. destruct (al_payload _); [|by eexists; eauto].
  destruct (vpnhide_apply_policy_v4 _ _ _ _ _ _) as [d'|e] eqn:Ea; [|by eexists; eauto].
  apply apply_published in Ea as (s' & Hs' & Hpub). eexists. split; [reflexivity|]. split; [done|]. right.
  split; [done|]. exists root, s. replace s with s' in * by congruence. split_and!; [done|done|].
  by apply loaded_enforces.
Qed.

(** With privilege and memory it is in force. *)
Lemma cmd_load_succeeds env argv path root d :
  argv !! 2%nat = Some path → en_capable env = true → en_kernel env = mk_allocs true true true true → en_mem env = [] →
  json_parse_file (en_file env path) (en_parse_mem env) = Done (JObject root, []) → loadable root →
  ∃ d' s, cmd_load HZ ll env argv d = exits 0 d' ∧ published d s d' ∧ enforces root s.
Proof.
  intros Hp Hc Hk Hm Hr Hl. unfold cmd_load. rewrite Hp. unfold parse_config. rewrite Hr, Hm.
  destruct (load_total root Hl) as [payload El]. rewrite El.
  apply load_policy_accepted in El as [(s & Hacc & Hld) Hlen]. fold (load_request payload). cbv zeta.
  unfold ioctl, handle_vpnhide_ioctl. rewrite Hc, Hk. cbn [negb].
  assert (Ha : ∃ d', vpnhide_apply_policy_v4 true true true payload 0 d = Ok d').
  { unfold vpnhide_apply_policy_v4. rewrite Hacc. unfold publish_policy_snapshot, publish_locked, kmod_stats_reconcile.
    simpl. rewrite andb_false_r. by eexists. }
  destruct Ha as [d' Ha].
  destruct (apply_published (mk_allocs true true true true) payload d d' Ha) as (s' & Hs' & Hpub).
  rewrite load_request_outcome by done. cbn [al_payload al_v3 al_snapshot al_stats]. rewrite Ha. exists d', s'. split_and!; [done|done|].
  replace s' with s by congruence. by apply loaded_enforces.
Qed.
End load.

(** ** The other commands *)

Section other.
Context {KS : KSort} {FC : FloatConv} {SD : Strtod}.
Context (HZ : Z) (ll : bytes → bool) (scan3 : bytes → option (Z * bytes * Z)) (scan2 : bytes → option (Z * Z)).
Context (pton4 : bytes → option Z) (pton6 : bytes → option bytes) (env : ctl_env).

(** The run, if it ends, leaves the policy of [d]. *)
Definition keeps_policy (d : device) (o : option ctl_end) : Prop :=
  ∀ e, o = Some e → dv_policy (ct_device e) = dv_policy d.

Lemma keeps_exits status d : keeps_policy d (exits status d).
Proof. by intros e [= <-]. Qed.
Lemma keeps_prints text d : keeps_policy d (prints text d).
Proof. by intros e [= <-]. Qed.
Lemma keeps_trans d d' o : dv_policy d' = dv_policy d → keeps_policy d' o → keeps_policy d o.
Proof. intros E H e He. rewrite <- E. by apply H. Qed.

Lemma keeps_after d r k :
  dv_policy (ie_device r) = dv_policy d → (∀ out d', dv_policy d' = dv_policy d → keeps_policy d (k out d')) →
  keeps_policy d (after_ioctl r k).
Proof.
  intros Hr Hk. unfold after_ioctl. destruct (ie_error r); [|by apply Hk]. by apply (keeps_trans d _ _ Hr), keeps_exits.
Qed.

(** The ioctls of the other commands. *)
Lemma ioctl_keeps_policy cmd d :
  (∀ al request mem, cmd ≠ VH_SET_POLICY al request mem) →
  dv_policy (ie_device (ioctl HZ ll env cmd d)) = dv_policy d.
Proof.
  intros Hcmd. unfold ioctl, handle_vpnhide_ioctl. destruct (en_capable env); [|done]. cbn [negb].
  destruct cmd; [by destruct (Hcmd al request mem)|..];
    unfold ioctl_get_targets, ioctl_get_word, ioctl_set_spoof_ip, ioctl_set_cover_iface, ioctl_get_iface_prefixes,
      ioctl_set_vpn_ifindexes, ioctl_get_app_hook_masks, ioctl_get_stats, ioctl_get_stats_v2, ioctl_clear_stats,
      ioctl_get_text, ioctl_set_port_eventfd, ioctl_set_owned_ports, fail, done_;
    repeat case_match; try done; subst; simpl; try done.
Qed.

Lemma stats_loop_keeps fuel capacity d : keeps_policy d (stats_loop HZ ll env fuel capacity d).
Proof.
  revert capacity d. induction fuel as [|fuel IH]; intros capacity d; [by intros e|]. cbn [stats_loop]. cbv zeta.
  set (r := ioctl _ _ _ _ _). assert (Hr : dv_policy (ie_device r) = dv_policy d) by (by apply ioctl_keeps_policy).
  repeat case_match; try (by intros e); try (by apply (keeps_trans d _ _ Hr), keeps_exits).
  - by apply (keeps_trans d _ _ Hr), IH.
  - by apply (keeps_trans d _ _ Hr), keeps_prints.
Qed.

Create HintDb keeps.
Hint Resolve keeps_exits keeps_prints : keeps.

Lemma others_keep argv d :
  keeps_policy d (print_stats_history env (arg_is argv 2 "clear") d) ∧ keeps_policy d (cmd_version HZ ll env argv d) ∧
  (∀ preview, keeps_policy d (cmd_check env preview argv d)) ∧ keeps_policy d (cmd_set_spoof_ip HZ ll pton4 pton6 env argv d) ∧
  (∀ cmd, (∀ al request mem, cmd ≠ VH_SET_POLICY al request mem) → keeps_policy d (cmd_mask HZ ll env cmd argv d)) ∧
  keeps_policy d (cmd_hook_status HZ ll env d) ∧ keeps_policy d (cmd_java_stats HZ ll scan3 scan2 env argv d) ∧
  keeps_policy d (cmd_stats HZ ll env argv d).
Proof.
  split_and!.
  - unfold print_stats_history. repeat case_match; auto with keeps; by intros e [= <-].
  - unfold cmd_version. repeat case_match; auto with keeps.
  - intros preview. unfold cmd_check. repeat case_match; auto with keeps. by intros e.
  - unfold cmd_set_spoof_ip. repeat case_match; auto with keeps; apply keeps_after;
      (by apply ioctl_keeps_policy) || (intros; eapply keeps_trans; eauto with keeps).
  - intros cmd Hcmd. unfold cmd_mask. case_match; auto with keeps. apply keeps_after; [by apply ioctl_keeps_policy|].
    intros out d' Hd. apply (keeps_trans d d' _ Hd). case_match; auto with keeps.
  - unfold cmd_hook_status. apply keeps_after; [by apply ioctl_keeps_policy|].
    intros out d' Hd. apply (keeps_trans d d' _ Hd). repeat case_match; auto with keeps. by intros e.
  - unfold cmd_java_stats. destruct (arg_is argv 2 "clear").
    + destruct (vpnhide_dev_write _ _ _ _ _ _) as [[n d']|] eqn:E; [|auto with keeps].
      apply (keeps_trans d d'); [|auto with keeps]. unfold vpnhide_dev_write in E. repeat case_match; try done.
      injection E as _ <-. done.
    + apply keeps_after; [by apply ioctl_keeps_policy|].
      intros out d' Hd. apply (keeps_trans d d' _ Hd). repeat case_match; auto with keeps. by intros e.
  - unfold cmd_stats. destruct (arg_is argv 2 "clear"); [|apply stats_loop_keeps].
    apply keeps_after; [by apply ioctl_keeps_policy|]. intros out d' Hd. apply (keeps_trans d d' _ Hd). auto with keeps.
Qed.

(** ** [stats] *)

(** The first round learns the number of rows, the second gets them. *)
Lemma stats_loop_prints d :
  en_capable env = true → en_copy_out env = true → en_calloc env = true → al_stats (en_kernel env) = true →
  ∃ d', stats_loop HZ ll env 2 0 d = prints (mjoin (stats_line <$> kmod_stats (dv_stats d))) d' ∧
    kmod_stats (dv_stats d') = kmod_stats (dv_stats d).
Proof.
  intros Hc Ho Ha Hk. set (rows := kmod_stats (dv_stats d)).
  assert (Hio : ∀ capacity d0, kmod_stats (dv_stats d0) = rows → capacity = 0 ∨ capacity = Z.of_nat (length rows) →
    ∃ d' sequence, kmod_stats (dv_stats d') = rows ∧
      ioctl HZ ll env (VH_GET_STATS true (kmod_stats (dv_stats d0)) (Some (capacity, buffer_ptr capacity))) d0 =
      if capacity <? Z.of_nat (length rows)
      then mk_end (Some ENOSPC) (OutStats (mk_reply (Some ENOSPC) sequence (Z.of_nat (length rows)) (Values []))) d'
      else mk_end None (OutStats (mk_reply None sequence (Z.of_nat (length rows)) (Values rows))) d').
  { intros capacity d0 Hd Hcap. unfold ioctl, handle_vpnhide_ioctl, ioctl_get_stats, vh_get_stats, buffer_ptr, nonzero.
    rewrite Hc, Ho, Hd. cbn [negb]. rewrite andb_false_r.
    assert (negb (capacity =? 0) && ((if capacity =? 0 then 0 else 1) =? 0) = false) as -> by (by destruct (capacity =? 0)).
    eexists _, _. destruct (Z.ltb_spec capacity (Z.of_nat (length rows))) as [Hlt|Hge].
    - split; [|reflexivity]. done.
    - split; [|destruct (Z.eqb_spec (Z.min capacity (Z.of_nat (length rows))) 0) as [Hz|Hz]].
      + done.
      + assert (rows = []) as -> by (apply length_zero_iff_nil; lia). done.
      + rewrite !(proj2 (Z.leb_le _ _)) by lia. done. }
  destruct (Hio 0 d eq_refl (or_introl eq_refl)) as (d1 & q1 & Hd1 & E1).
  cbn [stats_loop]. rewrite Hk, E1, Ha. destruct (Z.ltb_spec 0 (Z.of_nat (length rows))) as [Hlt|Hge].
  - cbn [ie_error ie_out rp_count ie_device]. rewrite (proj2 (Z.leb_gt _ _)) by lia.
    destruct (Hio (Z.of_nat (length rows)) d1 Hd1 (or_intror eq_refl)) as (d2 & q2 & Hd2 & E2). rewrite E2.
    rewrite Z.ltb_irrefl. exists d2. by split.
  - exists d1. by split.
Qed.
End other.

(** ** Properties *)

(** C2: loading a file is all or nothing, whatever the file holds and whichever
    allocations or copies fail, in the tool or in the kernel: the tool ends; it
    fails and the device is exactly as before, or it reports success, and then the
    file parses as a configuration and the device hides, blocks and hooks exactly
    what that configuration says. *)
Theorem ctl_load_atomic {KS : KSort} {HKS : KSortLaws KS} {FC : FloatConv} {HFC : FloatConvLaws FC} {SD : Strtod}
    {SL : StrtodLaws SD} HZ ll scan3 scan2 pton4 pton6 env prog path rest d :
  (∀ contents, en_file env path = Some contents → small (length contents)) →
  ∃ e, main HZ ll scan3 scan2 pton4 pton6 env (prog :: lit "load" :: path :: rest) d = Some e ∧ ct_stdout e = [] ∧
    (ct_status e = 1 ∧ ct_device e = d ∨
     ct_status e = 0 ∧ ∃ root s, json_parse_file (en_file env path) [] = Done (JObject root, []) ∧
       published d s (ct_device e) ∧ enforces root s).
Proof.
  intros Hs. unfold main. cbn -[cmd_load]. destruct (en_opens env); cbn [negb]; [|by eexists; eauto].
  by apply cmd_load_outcome with (path := path).
Qed.

(** A run by a privileged user on a machine with enough memory. *)
Record healthy (env : ctl_env) : Prop := {
  he_opens : en_opens env = true;
  he_capable : en_capable env = true;
  he_copy_out : en_copy_out env = true;
  he_kernel : en_kernel env = mk_allocs true true true true;
  he_parse_mem : en_parse_mem env = [];
  he_mem : en_mem env = [];
  he_calloc : en_calloc env = true;
  he_stdout : en_stdout env = true
}.

(** C1: a text that parses as a loadable configuration gets into force: the tool
    succeeds, and the policy it publishes hides, blocks and hooks exactly what the
    text says. *)
Theorem ctl_load_installs {KS : KSort} {HKS : KSortLaws KS} {FC : FloatConv} {HFC : FloatConvLaws FC} {SD : Strtod}
    HZ ll scan3 scan2 pton4 pton6 env prog path rest root d :
  healthy env → json_parse_file (en_file env path) [] = Done (JObject root, []) → loadable root →
  ∃ d' s, main HZ ll scan3 scan2 pton4 pton6 env (prog :: lit "load" :: path :: rest) d = exits 0 d' ∧
    published d s d' ∧ enforces root s.
Proof.
  intros [Ho Hc _ Hk Hp Hm _ _] Hr Hl. unfold main. cbn -[cmd_load]. rewrite Ho. cbn [negb].
  apply cmd_load_succeeds with (path := path); try done. by rewrite Hp.
Qed.

(** No command but [load] changes the policy, whatever its arguments and
    whether it succeeds or fails. *)
Theorem ctl_only_load_sets_policy {KS : KSort} {FC : FloatConv} {SD : Strtod} HZ ll scan3 scan2 pton4 pton6 env argv d e :
  argv !! 1%nat ≠ Some (lit "load") → main HZ ll scan3 scan2 pton4 pton6 env argv d = Some e →
  dv_policy (ct_device e) = dv_policy d.
Proof.
  intros Ha. destruct (others_keep HZ ll scan3 scan2 pton4 pton6 env argv d) as (H1 & H2 & H3 & H4 & H5 & H6 & H7 & H8).
  revert e. change (keeps_policy d (main HZ ll scan3 scan2 pton4 pton6 env argv d)).
  unfold main. assert (arg_is argv 1 "load" = false) as -> by (by apply bool_decide_eq_false_2).
  repeat case_match; auto using keeps_exits; by apply H5.
Qed.

(** [stats] prints one line for each row of the kernel's table and leaves the
    table as it is.  Two rounds of the growing loop are enough. *)
Theorem ctl_stats_prints_table {KS : KSort} {FC : FloatConv} {SD : Strtod} HZ ll scan3 scan2 pton4 pton6 env prog d :
  healthy env →
  ∃ d', main HZ ll scan3 scan2 pton4 pton6 env [prog; lit "stats"] d =
      prints (mjoin (stats_line <$> kmod_stats (dv_stats d))) d' ∧
    kmod_stats (dv_stats d') = kmod_stats (dv_stats d).
Proof.
  intros [Ho Hc Hu Hk _ _ Ha _]. unfold main. cbn -[cmd_stats]. rewrite Ho. cbn [negb].
  apply stats_loop_prints; try done. by rewrite Hk.
Qed.

Lemma clear_ring_wf r : ring_wf (clear_stats_ring r).
Proof. split_and!; [done|..]; unfold STATS_RING_POINTS; simpl; lia. Qed.

(** [stats_history] prints the history the daemon holds, as the JSON document
    of its points, and nothing when the daemon does not answer this user;
    [stats_history clear] empties it first. *)
Theorem ctl_history_shows_ring {KS : KSort} {FC : FloatConv} {SD : Strtod} HZ ll scan3 scan2 pton4 pton6 env prog
    peer allowed_uid r clear pieces d :
  let command := (if clear : bool then lit "CLEAR_HISTORY" else lit "GET_STATS") ++ nl in
  let answer := (serve_stats_client (Some peer) allowed_uid command true r).2 in
  ring_wf r → en_stdout env = true → en_daemon env command = Some (pieces, false) → mjoin pieces = default [] answer →
  main HZ ll scan3 scan2 pton4 pton6 env ([prog; lit "stats_history"] ++ if clear then [lit "clear"] else []) d =
    prints (if bool_decide (peer = allowed_uid ∨ peer = 0)
            then render (stats_tree (if clear then clear_stats_ring r else r)) ++ nl else []) d.
Proof.
  cbv zeta. intros Hr Ho Hd Hp.
  assert (E : main HZ ll scan3 scan2 pton4 pton6 env ([prog; lit "stats_history"] ++ if clear then [lit "clear"] else []) d =
    print_stats_history env clear d) by (by destruct clear).
  rewrite E. unfold print_stats_history.
  replace (en_daemon env _) with (Some (pieces, false)) by (rewrite <- Hd; by destruct clear).
  rewrite Ho, Hp. cbn [negb]. rewrite andb_false_r.
  unfold serve_stats_client. destruct (bool_decide_reflect (peer = allowed_uid ∨ peer = 0)) as [Hu|Hu].
  - assert (negb (peer =? allowed_uid) && negb (peer =? 0) = false) as ->.
    { destruct (Z.eqb_spec peer allowed_uid), (Z.eqb_spec peer 0); (done || exfalso; tauto). }
    destruct clear; cbn -[write_stats_json render clear_stats_ring]; rewrite stats_json_text by (done || apply clear_ring_wf); done.
  - assert (negb (peer =? allowed_uid) && negb (peer =? 0) = true) as ->; [|done].
    destruct (Z.eqb_spec peer allowed_uid), (Z.eqb_spec peer 0); (done || exfalso; tauto).
Qed.

(** ** A run *)

(** The text of a configuration; quotes are written as apostrophes. *)
Definition example_text : bytes :=
  (λ c, if bool_decide (c = "'"%byte) then x22 else c) <$> lit
"{ 'globalConfig': {'listMode': 'BLACKLIST', 'kernelHookMask': 7, 'javaHookMask': 15, 'debugLogging': 0},
   'apps': [ {'uid': 10123, 'packageName': 'org.example', 'kmod': true, 'lsposed': true, 'portHiding': true},
             {'uid': 10200, 'kmod': true, 'kernelHookMask': 3} ],
   'portRules': [ {'packageName': 'org.example', 'enabled': true, 'startPort': 8080, 'endPort': 8090, 'protocol': 'TCP'} ] }".

Definition config_path : bytes := lit "/data/adb/vpnhide/config.json".

Definition example_env : ctl_env :=
  mk_ctl_env (λ path, if bool_decide (path = config_path) then Some example_text else None) true true true 1000
    (mk_allocs true true true true) [] [] true
    (λ command, Some ([default [] (serve_stats_client (Some 0) 10300 command true example_ring).2], false)) true.

Lemma example_env_healthy : healthy example_env.
Proof. by split. Qed.

Lemma example_text_parses :
  json_parse_file (SD := integer_strtod) (en_file example_env config_path) [] = Done (JObject example_root, []).
Proof. vm_compute. reflexivity. Qed.

Abbreviation run_ctl := (main (KS := merge_ksort) (FC := arm64_conv) (SD := integer_strtod) 100 (λ _, false) no_scan3 no_scan2
  (λ _, None) (λ _, None) example_env).

Lemma ctl_load_atomic_witness :
  ∃ e, run_ctl [lit "vpnhide_ctl"; lit "load"; config_path] initial_device = Some e ∧ ct_status e = 0 ∧
    ∃ root s, published initial_device s (ct_device e) ∧ enforces (FC := arm64_conv) root s.
Proof.
  destruct (ctl_load_atomic (KS := merge_ksort) (HKS := merge_ksort_laws) (FC := arm64_conv) (HFC := arm64_conv_laws)
    (SD := integer_strtod) (SL := integer_strtod_laws) 100 (λ _, false) no_scan3 no_scan2 (λ _, None) (λ _, None) example_env
    (lit "vpnhide_ctl") config_path [] initial_device) as (e & He & _ & [[Hs _]|(Hs & root & s & _ & Hp & Hr)]).
  - intros contents [= <-]. vm_compute. reflexivity.
  - exfalso. assert (Some 0 = Some 1); [|discriminate]. rewrite <- Hs.
    change (Some (ct_status e)) with (ct_status <$> Some e). rewrite <- He. vm_compute. reflexivity.
  - exists e. split; [exact He|]. split; [exact Hs|]. exists root, s. split; assumption.
Defined.

Lemma ctl_load_installs_witness :
  ∃ d' s, run_ctl [lit "vpnhide_ctl"; lit "load"; config_path] initial_device = exits 0 d' ∧
    published initial_device s d' ∧ enforces (FC := arm64_conv) example_root s.
Proof.
  apply (ctl_load_installs (KS := merge_ksort) (HKS := merge_ksort_laws) (FC := arm64_conv) (HFC := arm64_conv_laws)
    (SD := integer_strtod) 100 (λ _, false) no_scan3 no_scan2 (λ _, None) (λ _, None) example_env
    (lit "vpnhide_ctl") config_path [] example_root initial_device example_env_healthy example_text_parses example_root_loadable).
Defined.

Lemma ctl_only_load_sets_policy_witness :
  ∃ e, run_ctl [lit "vpnhide_ctl"; lit "stats"; lit "clear"] example_device = Some e ∧
    dv_policy (ct_device e) = Some example_snapshot.
Proof.
  assert (Hok : ct_status <$> run_ctl [lit "vpnhide_ctl"; lit "stats"; lit "clear"] example_device = Some 0)
    by (vm_compute; reflexivity).
  destruct (run_ctl [lit "vpnhide_ctl"; lit "stats"; lit "clear"] example_device) as [e|] eqn:E; [|discriminate Hok].
  exists e. split; [reflexivity|].
  apply (ctl_only_load_sets_policy (KS := merge_ksort) (FC := arm64_conv) (SD := integer_strtod) 100 (λ _, false) no_scan3
    no_scan2 (λ _, None) (λ _, None) example_env [lit "vpnhide_ctl"; lit "stats"; lit "clear"] example_device e); [discriminate|exact E].
Defined.

Lemma ctl_stats_prints_table_witness :
  ∃ d', run_ctl [lit "vpnhide_ctl"; lit "stats"] example_device =
      prints (mjoin (stats_line <$> kmod_stats (dv_stats example_device))) d' ∧
    kmod_stats (dv_stats d') = kmod_stats (dv_stats example_device).
Proof.
  apply (ctl_stats_prints_table (KS := merge_ksort) (FC := arm64_conv) (SD := integer_strtod) 100 (λ _, false) no_scan3
    no_scan2 (λ _, None) (λ _, None) example_env (lit "vpnhide_ctl") example_device example_env_healthy).
Defined.

Lemma ctl_history_shows_ring_witness :
  run_ctl [lit "vpnhide_ctl"; lit "stats_history"] initial_device = prints (render (stats_tree example_ring) ++ nl) initial_device.
Proof.
  apply (ctl_history_shows_ring (KS := merge_ksort) (FC := arm64_conv) (SD := integer_strtod) 100 (λ _, false) no_scan3
    no_scan2 (λ _, None) (λ _, None) example_env (lit "vpnhide_ctl") 0 10300 example_ring false
    [default [] (serve_stats_client (Some 0) 10300 (lit "GET_STATS" ++ nl) true example_ring).2] initial_device).
  - unfold ring_wf. split_and!; [vm_compute; reflexivity|apply Nat.ltb_lt; vm_compute; reflexivity|
      apply Nat.leb_le; vm_compute; reflexivity].
  - reflexivity.
  - reflexivity.
  - vm_compute. reflexivity.
Defined.
