(* ===== verification/CtlPreview.v ===== *)
(** * The dry run of the control tool

    The [validate] and [preview] commands of [kmod/vpnhide_ctl.c] resolve a
    configuration and print the result without touching the device; [load]
    resolves it again and installs it.  What the dry run prints is what a load
    puts in force. *)
From Stdlib Require Import Strings.Byte Strings.String ZArith Lia.
From stdpp Require Import base numbers list.
From S2P Require Import Prelude Abi Snapshot PolicyQuery Userspace PolicyResolve Ctl RoundTrip EndToEnd Load Device CharDev DeviceInv JsonObject JsonParse CtlMain.

(** ** Reading the output *)

(** The lines of a text, ended by newlines; what follows the last one is its last
    element. *)
Fixpoint text_lines (s : bytes) : list bytes :=
  match s with
  | [] => [[]]
  | c :: s =>
      if bool_decide (c = x0a) then [] :: text_lines s
      else match text_lines s with l :: ls => (c :: l) :: ls | [] => [[c]] end
  end.

Definition decimal (s : bytes) : Prop := Forall (λ c, is_dec c = true) s.

(** The output tells that the target of index [i] is a UID, has a mode, has a rule. *)
Definition says_uid (out i : bytes) (uid : Z) : Prop :=
  decimal i ∧ lit "port_target[" ++ i ++ lit "].uid=" ++ fmt_u uid ∈ text_lines out.
Definition says_mode (out i : bytes) (mode : Z) : Prop :=
  decimal i ∧ lit "port_target[" ++ i ++ lit "].mode=" ++ fmt_u mode ∈ text_lines out.
Definition says_rule (out i : bytes) (first last proto : Z) : Prop :=
  decimal i ∧ fits 32 first ∧ fits 32 last ∧ fits 32 proto ∧ ∃ j, decimal j ∧
  lit "port_target[" ++ i ++ lit "].rule[" ++ j ++ lit "]=" ++
    fmt_u first ++ lit "-" ++ fmt_u last ++ lit "/" ++ fmt_u proto ∈ text_lines out.

(** A reader of the output takes a port of a UID for blocked: there is a target of
    the UID that denies everything or has a rule for the port, or there is no
    target of the UID and the mode is to exclude, and the UID is not reserved. *)
Definition told_blocked (out : bytes) (uid port proto : Z) : Prop :=
  (∃ i, says_uid out i uid ∧
     (says_mode out i VH_PORT_POLICY_DENY_ALL ∨
      says_mode out i VH_PORT_POLICY_RULES ∧ ∃ first last p,
        says_rule out i first last p ∧ first <= port <= last ∧ (p = VH_PROTO_BOTH ∨ p = proto))) ∨
  ((∀ i, ¬ says_uid out i uid) ∧ lit "match_mode=EXCLUDE" ∈ text_lines out ∧ eligible uid).

Definition one_line (l : bytes) : Prop := x0a ∉ l.

Lemma text_lines_cons l s : one_line l → text_lines (l ++ x0a :: s) = l :: text_lines s.
Proof.
  unfold one_line. induction l as [|c l IH]; intros Hl; [done|]. apply not_elem_of_cons in Hl as [Hc Hl].
  cbn [app text_lines]. rewrite bool_decide_eq_false_2 by done. by rewrite IH.
Qed.

Definition unlines (ls : list bytes) : bytes := mjoin ((λ l, l ++ [x0a]) <$> ls).

Lemma unlines_app a b : unlines (a ++ b) = unlines a ++ unlines b.
Proof. unfold unlines. by rewrite fmap_app, join_app. Qed.

Lemma text_lines_unlines ls : Forall one_line ls → text_lines (unlines ls) = ls ++ [[]].
Proof.
  induction 1 as [|l ls Hl _ IH]; [done|]. unfold unlines in *. rewrite fmap_cons, mjoin_cons, <- app_assoc.
  cbn [app]. rewrite text_lines_cons by done. by rewrite IH.
Qed.

(** *** Decimal numbers *)

Lemma fmt_u_decimal n : decimal (fmt_u n).
Proof.
  unfold fmt_u, decimal. generalize 20%nat. intros fuel. revert n. induction fuel as [|fuel IH]; intros n; [constructor|].
  cbn [dec_digits]. apply Forall_app. split; [destruct (_ <? _); [constructor|apply IH]|]. constructor; [|done].
  pose proof (Z.mod_pos_bound n 10 eq_refl). unfold is_dec. rewrite byte_to_of, Z.mod_small by lia.
  apply andb_true_iff. split; apply Z.leb_le; lia.
Qed.

Lemma fmt_u_inj n m : fits 32 n → fits 32 m → fmt_u n = fmt_u m → n = m.
Proof.
  unfold fits, fmt_u. intros Hn Hm E.
  assert (Hb : ∀ k, 0 <= k < 2 ^ 32 → 0 <= k < 10 ^ Z.of_nat 20).
  { change (10 ^ Z.of_nat 20) with 100000000000000000000. lia. }
  rewrite <- (dec_digits_value 19 n (Hb n Hn)), <- (dec_digits_value 19 m (Hb m Hm)). by rewrite E.
Qed.

Lemma decimal_one_line s : decimal s → one_line s.
Proof. intros Hs Hin. unfold decimal in Hs. rewrite Forall_forall in Hs. by specialize (Hs _ Hin). Qed.

(** A number ends at the first character that is no digit. *)
Lemma decimal_split a b c x y :
  decimal a → decimal b → is_dec c = false → a ++ c :: x = b ++ c :: y → a = b ∧ x = y.
Proof.
  intros Ha. revert b. induction Ha as [|d a Hd _ IH]; intros b Hb Hc E.
  - destruct b as [|e b]; simplify_eq/=; [done|]. apply Forall_cons in Hb as [? _]. congruence.
  - destruct b as [|e b]; simplify_eq/=; [congruence|]. apply Forall_cons in Hb as [_ Hb].
    destruct (IH b Hb Hc) as [-> ->]; done.
Qed.

Lemma label_inj i i' s s' :
  decimal i → decimal i' → lit "port_target[" ++ i ++ x5d :: s = lit "port_target[" ++ i' ++ x5d :: s' → i = i' ∧ s = s'.
Proof. intros Hi Hi' E%app_inv_head. by apply decimal_split in E. Qed.

(** *** The lines of [preview] *)

Definition summary_lines (s : vpnhide_policy_summary) : list bytes :=
  [lit "mode=" ++ vpnhide_list_mode_name (sm_mode s);
   lit "configured_entries=" ++ fmt_d (sm_configured_entries s);
   lit "rejected_core_uids=" ++ fmt_d (sm_rejected_core_uids s);
   lit "match_mode=" ++ (match sm_mode s with VPNHIDE_LIST_ALLOWLIST => lit "EXCLUDE" | _ => lit "INCLUDE" end);
   lit "kmod_targets=" ++ fmt_d (sm_kmod_targets s);
   lit "lsposed_entries=" ++ fmt_d (sm_lsposed_entries s);
   lit "port_targets=" ++ fmt_d (sm_port_targets s)].

Definition uid_line (i : bytes) (uid : Z) : bytes := lit "port_target[" ++ i ++ lit "].uid=" ++ fmt_u uid.
Definition mode_line (i : bytes) (mode : Z) : bytes := lit "port_target[" ++ i ++ lit "].mode=" ++ fmt_u mode.
Definition rule_line (i j : bytes) (first last proto : Z) : bytes :=
  lit "port_target[" ++ i ++ lit "].rule[" ++ j ++ lit "]=" ++
    fmt_u first ++ lit "-" ++ fmt_u last ++ lit "/" ++ fmt_u proto.

Definition target_lines (i : nat) (t : vpnhide_port_target) : list bytes :=
  let label := fmt_u (Z.of_nat i) in
  uid_line label (tg_uid t) :: mode_line label (tg_mode t) ::
  imap (λ j r, rule_line label (fmt_u (Z.of_nat j)) (start_port r) (end_port r) (protocol r)) (tg_rules t).

Definition preview_text (summary : vpnhide_policy_summary) (targets : list vpnhide_port_target) : bytes :=
  print_summary summary ++ mjoin (imap preview_target targets).

Lemma print_summary_unlines s : print_summary s = unlines (summary_lines s).
Proof.
  unfold print_summary, print_field, unlines, summary_lines. cbn [fmap list_fmap mjoin list_join].
  by rewrite app_nil_r, <- !app_assoc.
Qed.

Lemma unlines_join lss : unlines (mjoin lss) = mjoin (unlines <$> lss).
Proof. induction lss as [|ls lss IH]; [done|]. by rewrite fmap_cons, !mjoin_cons, unlines_app, IH. Qed.

Lemma preview_target_unlines i t : preview_target i t = unlines (target_lines i t).
Proof.
  unfold preview_target, target_lines, unlines, uid_line, mode_line, port_target_label. cbv zeta.
  rewrite !fmap_cons, !mjoin_cons, fmap_imap.
  erewrite (imap_ext (preview_rule i)); [rewrite <- !app_assoc; reflexivity|].
  intros j r _. unfold preview_rule, port_target_label, rule_line. cbn [compose]. by rewrite <- !app_assoc.
Qed.

Lemma preview_unlines summary ts :
  preview_text summary ts = unlines (summary_lines summary ++ mjoin (imap target_lines ts)).
Proof.
  unfold preview_text. rewrite unlines_app, unlines_join, <- print_summary_unlines, fmap_imap. do 2 f_equal.
  apply imap_ext. intros i t _. apply preview_target_unlines.
Qed.

Lemma one_line_app a b : one_line a → one_line b → one_line (a ++ b).
Proof. unfold one_line. rewrite elem_of_app. tauto. Qed.
Lemma one_line_lit a : bool_decide (x0a ∈ a) = false → one_line a.
Proof. apply bool_decide_eq_false_1. Qed.
Lemma fmt_d_one_line n : one_line (fmt_d n).
Proof.
  unfold fmt_d. pose proof (λ k, decimal_one_line _ (fmt_u_decimal k)) as Hu. destruct (_ <? _); [|apply Hu].
  apply not_elem_of_cons. split; [done|apply Hu].
Qed.

Ltac by_parts :=
  repeat match goal with
  | |- one_line (_ ++ _) => apply one_line_app
  | |- one_line (fmt_u _) => apply decimal_one_line, fmt_u_decimal
  | |- one_line (fmt_d _) => apply fmt_d_one_line
  | |- one_line (lit _) => apply one_line_lit; reflexivity
  end.

Lemma preview_one_line summary ts : Forall one_line (summary_lines summary ++ mjoin (imap target_lines ts)).
Proof.
  apply Forall_app. split.
  - unfold summary_lines, vpnhide_list_mode_name. repeat constructor; destruct (sm_mode summary); by_parts.
  - apply Forall_forall. intros l (ls & Hl & (i & t & -> & Hi)%elem_of_lookup_imap_1)%list_elem_of_join.
    unfold target_lines in Hl. cbv zeta in Hl. unfold uid_line, mode_line, rule_line in Hl.
    repeat (apply elem_of_cons in Hl as [->|Hl]; [by_parts|]). apply elem_of_lookup_imap_1 in Hl as (j & r & -> & _). by_parts.
Qed.

(** Every line of the output. *)
Lemma preview_lines summary ts l :
  l ∈ text_lines (preview_text summary ts) ↔
  l ∈ summary_lines summary ∨ (∃ i t, ts !! i = Some t ∧ l ∈ target_lines i t) ∨ l = [].
Proof.
  rewrite preview_unlines, text_lines_unlines by apply preview_one_line.
  rewrite !elem_of_app, list_elem_of_join, list_elem_of_singleton. setoid_rewrite elem_of_lookup_imap. naive_solver.
Qed.

(** Of the lines of the summary none begins as those of a target. *)
Lemma summary_no_label summary s : lit "port_target[" ++ s ∉ summary_lines summary.
Proof. intros Hin. unfold summary_lines in Hin. repeat (apply elem_of_cons in Hin as [Hin|Hin]; [discriminate Hin|]). by inversion Hin. Qed.

Section told.
Context (summary : vpnhide_policy_summary) (ts : list vpnhide_port_target).
Context (Hts : Forall user_target_ok ts) (Hlen : Z.of_nat (length ts) < 2 ^ 32).
Abbreviation out := (preview_text summary ts).

Definition rule_text (j : bytes) (first last proto : Z) : bytes :=
  lit ".rule[" ++ j ++ lit "]=" ++ fmt_u first ++ lit "-" ++ fmt_u last ++ lit "/" ++ fmt_u proto.

(** The lines with a label are those of the targets. *)
Lemma label_lines i s :
  decimal i →
  lit "port_target[" ++ i ++ x5d :: s ∈ text_lines out ↔
  ∃ k t, ts !! k = Some t ∧ i = fmt_u (Z.of_nat k) ∧
    (s = lit ".uid=" ++ fmt_u (tg_uid t) ∨ s = lit ".mode=" ++ fmt_u (tg_mode t) ∨
     ∃ j r, tg_rules t !! j = Some r ∧ s = rule_text (fmt_u (Z.of_nat j)) (start_port r) (end_port r) (protocol r)).
Proof using.
  intros Hi. rewrite preview_lines. split.
  - intros [[]%summary_no_label|[(k & t & Hk & Hl)|Hl]]; [|discriminate Hl]. exists k, t.
    assert (Hlab : ∀ s', lit "port_target[" ++ i ++ x5d :: s = lit "port_target[" ++ fmt_u (Z.of_nat k) ++ x5d :: s' →
      i = fmt_u (Z.of_nat k) ∧ s = s') by (intros s'; apply label_inj; [done|apply fmt_u_decimal]).
    apply elem_of_cons in Hl as [[-> ->]%Hlab|Hl]; [by auto|].
    apply elem_of_cons in Hl as [[-> ->]%Hlab|Hl]; [by auto|].
    apply elem_of_lookup_imap_1 in Hl as (j & r & [-> ->]%Hlab & Hr). eauto 8.
  - intros (k & t & Hk & -> & Hs). right; left. exists k, t. split; [done|]. unfold target_lines. cbv zeta.
    destruct Hs as [->|[->|(j & r & Hr & ->)]]; [left|right; left|right; right].
    apply elem_of_lookup_imap. eauto.
Qed.

(** An index belongs to one target. *)
Lemma index_inj k k' t t' :
  ts !! k = Some t → ts !! k' = Some t' → fmt_u (Z.of_nat k) = fmt_u (Z.of_nat k') → t = t'.
Proof using Hlen.
  intros Hk Hk' E. pose proof (lookup_lt_Some _ _ _ Hk). pose proof (lookup_lt_Some _ _ _ Hk').
  apply fmt_u_inj in E; [|unfold fits; lia..]. apply Nat2Z.inj in E as ->. congruence.
Qed.

Lemma target_bounds k t : ts !! k = Some t → fits 32 (tg_uid t) ∧ fits 32 (tg_mode t) ∧ Forall user_rule_ok (tg_rules t).
Proof using Hts.
  intros Hk. destruct (Forall_lookup_1 _ _ _ _ Hts Hk) as (? & ? & ?). unfold fits, VH_PORT_POLICY_DENY_ALL in *.
  split_and!; done || lia.
Qed.

Lemma says_uid_iff i uid :
  fits 32 uid → says_uid out i uid ↔ ∃ k t, ts !! k = Some t ∧ i = fmt_u (Z.of_nat k) ∧ tg_uid t = uid.
Proof using Hts.
  intros Hu. unfold says_uid. split.
  - intros [Hi (k & t & Hk & -> & Hs)%(label_lines i (lit ".uid=" ++ fmt_u uid) Hi)]. exists k, t. split_and!; try done.
    destruct Hs as [E|[E|(j & r & _ & E)]]; [|discriminate E..]. apply app_inv_head in E.
    symmetry. by apply fmt_u_inj; [|eapply target_bounds|].
  - intros (k & t & Hk & -> & <-). split; [apply fmt_u_decimal|].
    apply (label_lines _ (lit ".uid=" ++ fmt_u (tg_uid t))); [apply fmt_u_decimal|]. eauto 8.
Qed.

Lemma says_mode_iff i mode :
  fits 32 mode → says_mode out i mode ↔ ∃ k t, ts !! k = Some t ∧ i = fmt_u (Z.of_nat k) ∧ tg_mode t = mode.
Proof using Hts.
  intros Hu. unfold says_mode. split.
  - intros [Hi (k & t & Hk & -> & Hs)%(label_lines i (lit ".mode=" ++ fmt_u mode) Hi)]. exists k, t. split_and!; try done.
    destruct Hs as [E|[E|(j & r & _ & E)]]; [discriminate E| |discriminate E]. apply app_inv_head in E.
    symmetry. by apply fmt_u_inj; [|eapply target_bounds|].
  - intros (k & t & Hk & -> & <-). split; [apply fmt_u_decimal|].
    apply (label_lines _ (lit ".mode=" ++ fmt_u (tg_mode t))); [apply fmt_u_decimal|]. eauto 8.
Qed.

Lemma rule_text_inj j j' a b c a' b' c' :
  decimal j → decimal j' → fits 32 a → fits 32 b → fits 32 c → fits 32 a' → fits 32 b' → fits 32 c' →
  rule_text j a b c = rule_text j' a' b' c' → a = a' ∧ b = b' ∧ c = c'.
Proof using.
  intros Hj Hj' Ha Hb Hc Ha' Hb' Hc' E%app_inv_head.
  apply (decimal_split _ _ x5d) in E as [_ E]; [|done..]. apply (app_inv_head (lit "=")) in E.
  apply (decimal_split _ _ x2d) in E as [Ea E]; [|apply fmt_u_decimal|apply fmt_u_decimal|done].
  apply (decimal_split _ _ x2f) in E as [Eb E]; [|apply fmt_u_decimal|apply fmt_u_decimal|done].
  split_and!; by apply fmt_u_inj.
Qed.

Lemma says_rule_iff i first last proto :
  says_rule out i first last proto ↔
  ∃ k t r, ts !! k = Some t ∧ i = fmt_u (Z.of_nat k) ∧ r ∈ tg_rules t ∧
    start_port r = first ∧ end_port r = last ∧ protocol r = proto.
Proof using Hts.
  assert (Hb : ∀ k t j r, ts !! k = Some t → tg_rules t !! j = Some r →
    fits 32 (start_port r) ∧ fits 32 (end_port r) ∧ fits 32 (protocol r)).
  { intros k t j r Hk Hr. destruct (target_bounds k t Hk) as (_ & _ & Ht).
    destruct (Forall_lookup_1 _ _ _ _ Ht Hr) as (? & ? & ?). unfold fits, VH_PROTO_BOTH in *. lia. }
  unfold says_rule. split.
  - intros (Hi & Hf & Hl & Hp & j & Hj & Hin). apply (label_lines i (rule_text j first last proto) Hi) in Hin as (k & t & Hk & -> & Hs).
    destruct Hs as [E|[E|(j' & r & Hr & E)]]; [discriminate E..|]. destruct (Hb k t j' r Hk Hr) as (? & ? & ?).
    apply rule_text_inj in E as (-> & -> & ->); try done; [|apply fmt_u_decimal].
    exists k, t, r. split_and!; try done. by eapply list_elem_of_lookup_2.
  - intros (k & t & r & Hk & -> & [j Hr]%list_elem_of_lookup & <- & <- & <-). destruct (Hb k t j r Hk Hr) as (? & ? & ?).
    split_and!; try done; [apply fmt_u_decimal|]. exists (fmt_u (Z.of_nat j)). split; [apply fmt_u_decimal|].
    apply (label_lines _ (rule_text (fmt_u (Z.of_nat j)) (start_port r) (end_port r) (protocol r))); [apply fmt_u_decimal|].
    eauto 10.
Qed.

Lemma says_exclude : lit "match_mode=EXCLUDE" ∈ text_lines out ↔ sm_mode summary = VPNHIDE_LIST_ALLOWLIST.
Proof using.
  rewrite preview_lines. split.
  - intros [Hin|[(k & t & _ & Hl)|Hl]]; [| |discriminate Hl].
    + unfold summary_lines in Hin. do 3 (apply elem_of_cons in Hin as [Hin|Hin]; [discriminate Hin|]).
      apply elem_of_cons in Hin as [Hin|Hin]; [by destruct (sm_mode summary)|].
      do 3 (apply elem_of_cons in Hin as [Hin|Hin]; [discriminate Hin|]). by inversion Hin.
    + unfold target_lines in Hl. cbv zeta in Hl. do 2 (apply elem_of_cons in Hl as [Hl|Hl]; [discriminate Hl|]).
      by apply elem_of_lookup_imap_1 in Hl as (j & r & Hl & _).
  - intros E. left. unfold summary_lines. rewrite E. do 3 right. left.
Qed.

(** What is said of an index is true of its target. *)
Lemma told_target k t port proto :
  ts !! k = Some t →
  (says_mode out (fmt_u (Z.of_nat k)) VH_PORT_POLICY_DENY_ALL ∨
   says_mode out (fmt_u (Z.of_nat k)) VH_PORT_POLICY_RULES ∧ ∃ first last p,
     says_rule out (fmt_u (Z.of_nat k)) first last p ∧ first <= port <= last ∧ (p = VH_PROTO_BOTH ∨ p = proto)) ↔
  user_target_blocks t port proto.
Proof using Hts Hlen.
  intros Hk. unfold user_target_blocks, user_rules_cover, user_rule_covers.
  assert (Hmode : ∀ mode, fits 32 mode → says_mode out (fmt_u (Z.of_nat k)) mode ↔ tg_mode t = mode).
  { intros mode Hm. rewrite says_mode_iff by done. split; [|eauto]. intros (k' & t' & Hk' & E & <-).
    by rewrite (index_inj k k' t t' Hk Hk' E). }
  rewrite !Hmode by (vm_compute; done). setoid_rewrite says_rule_iff. apply or_iff_compat_l, and_iff_compat_l. split.
  - intros (first & last & p & (k' & t' & r & Hk' & E & Hr & <- & <- & <-) & Hc).
    rewrite (index_inj k k' t t' Hk Hk' E). eauto.
  - intros (r & Hr & Hc). eauto 15.
Qed.

(** What a reader takes from the output is what the targets stand for. *)
Lemma told_blocked_iff uid port proto :
  fits 32 uid →
  told_blocked out uid port proto ↔
  ports_block ts (match sm_mode summary with VPNHIDE_LIST_ALLOWLIST => VPNHIDE_MATCH_EXCLUDE
                                           | VPNHIDE_LIST_BLACKLIST => VPNHIDE_MATCH_INCLUDE end) uid port proto.
Proof using Hts Hlen.
  intros Hu. unfold told_blocked, ports_block. rewrite says_exclude. setoid_rewrite (says_uid_iff _ _ Hu).
  assert (Hmode : sm_mode summary = VPNHIDE_LIST_ALLOWLIST ↔
    match sm_mode summary with VPNHIDE_LIST_ALLOWLIST => VPNHIDE_MATCH_EXCLUDE
                             | VPNHIDE_LIST_BLACKLIST => VPNHIDE_MATCH_INCLUDE end = VPNHIDE_MATCH_EXCLUDE)
    by (by destruct (sm_mode summary)).
  rewrite <- Hmode. split.
  - intros [(i & (k & t & Hk & -> & Ht) & Hb)|(Hno & Hrest)].
    + left. exists t. split_and!; [by eapply list_elem_of_lookup_2|done|]. by apply (told_target k).
    + right. split; [|done]. intros t [k Hk]%list_elem_of_lookup Ht. apply (Hno (fmt_u (Z.of_nat k))). eauto.
  - intros [(t & [k Hk]%list_elem_of_lookup & Ht & Hb)|(Hno & Hrest)].
    + left. exists (fmt_u (Z.of_nat k)). split; [by eauto|]. by apply (told_target k t).
    + right. split; [|done]. intros i (k & t & Hk & _ & Ht). apply (Hno t); [by eapply list_elem_of_lookup_2|done].
Qed.
End told.

(** ** Memory *)

Section preview.
Context {KS : KSort} {HKS : KSortLaws KS} {FC : FloatConv} {HFC : FloatConvLaws FC} {SD : Strtod} {SL : StrtodLaws SD}.
Context (HZ : Z) (ll : bytes → bool) (scan3 : bytes → option (Z * bytes * Z)) (scan2 : bytes → option (Z * Z)).
Context (pton4 : bytes → option Z) (pton6 : bytes → option bytes).

(** Collecting the masks leaves a machine with enough memory. *)
Lemma append_mask_rich v m v' mem : append_app_hook_mask v m [] = Ok (v', mem) → mem = [].
Proof.
  unfold append_app_hook_mask. destruct (bool_decide _); [by intros [= _ <-]|]. intros Hr. run_alloc. simplify_eq.
  match goal with H : (if _ =? _ then _ else _) _ = _ |- _ => rename H into Hc end.
  destruct (_ =? _); [|by run_alloc]. cbv zeta in Hc. destruct (_ || _); [done|].
  unfold mbind, alloc_bind, alloc_once in Hc. by injection Hc as _ <-.
Qed.

Lemma collect_masks_rich g apps v v' mem : collect_app_masks g apps v [] = Ok (v', mem) → mem = [].
Proof.
  revert v. induction apps as [|app apps IH]; intros v; cbn [collect_app_masks]; [by intros [= _ <-]|].
  intros H. run_alloc. match goal with H : (if _ then _ else _) [] = Ok (_, ?m) |- _ =>
    assert (m = []) as -> by (destruct (_ && _); [by eapply append_mask_rich|by run_alloc]) end.
  by eapply IH.
Qed.

Lemma pack_target_count targets lsposed ports masks ifaces active java debug mode mem r :
  pack_policy_v4 targets lsposed ports masks ifaces active java debug mode mem = Ok r → Z.of_nat (length ports) < 2 ^ 32.
Proof.
  unfold pack_policy_v4. destruct (sum_rules _ _); [|done]. cbv zeta. destruct (_ || _) eqn:E; [done|]. intros _.
  unfold UINT32_MAX in E. b2p. lia.
Qed.

(** A load that gets to its payload has resolved what the dry run resolves. *)
Lemma load_resolves root payload mem :
  load_policy root [] = Ok (payload, mem) →
  ∃ ports summary mem', ('(_, _, summary) ← vpnhide_resolve_targets root; vpnhide_resolve_port_rules root summary) [] =
      Ok ((ports, summary), mem') ∧
    sm_mode summary = read_mode root ∧
    Forall user_target_ok (pp_targets ports) ∧ Z.of_nat (length (pp_targets ports)) < 2 ^ 32 ∧
    ∀ uid port proto, real_port port proto →
      ports_block (pp_targets ports) (match_mode_of root) uid port proto ↔ config_blocks root uid port proto.
Proof.
  unfold load_policy. intros H. run_alloc.
  match goal with H : collect_app_masks _ _ _ _ = Ok _ |- _ => apply collect_masks_rich in H as -> end.
  match goal with H : vpnhide_resolve_targets _ _ = Ok (?x, _) |- _ =>
    destruct x as [[targets lsposed] summary]; pose proof H as Ht; apply resolve_targets_spec in H as (Hmode & _) end.
  run_alloc.
  match goal with H : vpnhide_resolve_port_rules _ _ _ = Ok (?x, _) |- _ => destruct x as [ports summary']; rename H into Hp end.
  exists ports, summary'. eexists. split_and!.
  - apply alloc_bind_Ok. do 2 eexists. split; [exact Ht|]. exact Hp.
  - unfold vpnhide_resolve_port_rules in Hp. run_alloc. by simplify_eq.
  - by apply resolve_port_rules_targets in Hp as [? _].
  - eapply pack_target_count; eassumption.
  - intros uid port proto Hreal. by eapply resolve_port_rules_blocks.
Qed.

(** C6: the dry run tells the truth.  Whenever [load] reports success on a machine
    with enough memory, [validate] and [preview] of the same file succeed too,
    leave the device alone and [preview] adds lines to those of [validate]; and for
    every application, port and protocol the kernel blocks after the load exactly
    what a reader of the printed lines takes for blocked: the line of a target with
    the UID and the lines of its mode and its rules, or the absence of such a line
    and the mode [EXCLUDE]. *)
Theorem ctl_preview_tells env prog path rest d e :
  healthy env → (∀ contents, en_file env path = Some contents → small (length contents)) →
  main HZ ll scan3 scan2 pton4 pton6 env (prog :: lit "load" :: path :: rest) d = Some e → ct_status e = 0 →
  ∃ out more s,
    main HZ ll scan3 scan2 pton4 pton6 env (prog :: lit "preview" :: path :: rest) d =
      Some (mk_ctl_end 0 (out ++ more) d) ∧
    main HZ ll scan3 scan2 pton4 pton6 env (prog :: lit "validate" :: path :: rest) d = Some (mk_ctl_end 0 out d) ∧
    published d s (ct_device e) ∧
    ∀ uid port proto, fits 32 uid → real_port port proto →
      ∃ b, port_blocked s uid port proto = Some b ∧ (b = true ↔ told_blocked (out ++ more) uid port proto).
Proof.
  intros [Ho Hc _ Hk Hpm Hm _ _] Hs Hl He. unfold main in *. cbn -[cmd_load] in Hl. rewrite Ho in Hl.
  change (cmd_load HZ ll env (prog :: lit "load" :: path :: rest) d = Some e) in Hl.
  destruct (cmd_load_outcome HZ ll env (prog :: lit "load" :: path :: rest) path d eq_refl Hs)
    as (e' & Hl' & _ & [[Hf _]|(_ & root & s & Hroot & Hpub & Henf)]); [congruence|].
  assert (e' = e) as -> by congruence. clear Hl'.
  assert (Hparse : parse_config env path = Some (Some root)) by (unfold parse_config; by rewrite Hpm, Hroot).
  unfold cmd_load in Hl. cbn -[parse_config] in Hl. rewrite Hparse, Hm in Hl.
  destruct (load_policy root []) as [[payload mem]|] eqn:El; [|by injection Hl as <-].
  destruct (load_resolves root payload mem El) as (ports & summary & mem' & Hres & Hmode & Hts & Hlen & Hblocks).
  exists (print_summary summary), (mjoin (imap preview_target (pp_targets ports))), s. split_and!; [| |done|].
  - cbn -[cmd_check]. unfold cmd_check. cbn -[parse_config]. rewrite Hparse, Hm, Hres. done.
  - cbn -[cmd_check]. unfold cmd_check. cbn -[parse_config]. rewrite Hparse, Hm, Hres. by rewrite app_nil_r.
  - intros uid port proto Hu Hreal. destruct Henf as (_ & Hports & _). destruct (Hports uid port proto Hreal) as (b & Hb & Hiff).
    exists b. split; [done|]. rewrite (told_blocked_iff summary _ Hts Hlen uid port proto Hu).
    rewrite Hiff, <- Hblocks by done. unfold match_mode_of. by rewrite Hmode.
Qed.
End preview.

(** The output for the example, with one of its lines. *)
Lemma ctl_preview_tells_witness :
  ∃ e out s,
    run_ctl [lit "vpnhide_ctl"; lit "load"; config_path] initial_device = Some e ∧ ct_status e = 0 ∧
    run_ctl [lit "vpnhide_ctl"; lit "preview"; config_path] initial_device = Some (mk_ctl_end 0 out initial_device) ∧
    text_lines out !! 9%nat = Some (lit "port_target[0].rule[0]=8080-8090/0") ∧
    published initial_device s (ct_device e) ∧
    ∀ uid port proto, fits 32 uid → real_port port proto →
      ∃ b, port_blocked s uid port proto = Some b ∧ (b = true ↔ told_blocked out uid port proto).
Proof.
  assert (Hok : ct_status <$> run_ctl [lit "vpnhide_ctl"; lit "load"; config_path] initial_device = Some 0)
    by (vm_compute; reflexivity).
  destruct (run_ctl [lit "vpnhide_ctl"; lit "load"; config_path] initial_device) as [e|] eqn:E; [|discriminate Hok].
  injection Hok as Hok.
  destruct (ctl_preview_tells (KS := merge_ksort) (HKS := merge_ksort_laws) (FC := arm64_conv) (HFC := arm64_conv_laws)
    (SD := integer_strtod) (SL := integer_strtod_laws) 100 (λ _, false) no_scan3 no_scan2 (λ _, None) (λ _, None)
    example_env (lit "vpnhide_ctl") config_path [] initial_device e example_env_healthy) as (out & more & s & Hp & _ & H).
  - intros contents [= <-]. vm_compute. reflexivity.
  - exact E.
  - exact Hok.
  - exists e, (out ++ more), s. split; [reflexivity|]. split; [exact Hok|]. split; [exact Hp|].
    split; [|exact H].
    assert (E9 : option_map (λ e, text_lines (ct_stdout e) !! 9%nat)
      (run_ctl [lit "vpnhide_ctl"; lit "preview"; config_path] initial_device) =
      Some (Some (lit "port_target[0].rule[0]=8080-8090/0"))) by (vm_compute; reflexivity).
    change (run_ctl [lit "vpnhide_ctl"; lit "preview"; config_path] initial_device = Some (mk_ctl_end 0 (out ++ more) initial_device)) in Hp.
    rewrite Hp in E9. injection E9 as E9. exact E9.
Defined.
