(* ===== verification/CtlStats.v ===== *)
(** * The [stats] command against a live table

    The loop of the [stats] command of [kmod/vpnhide_ctl.c] asks for the size of
    the kernel's table, allocates and asks again while hooks, other tools and
    policy changes go on altering the table.  Here every call of the loop meets
    the device another client may have changed, and so does each of the two locked
    sections of a call: [k n] has the table at the first section of the [n]-th call
    and the device at the second.  [CtlMain] has the same loop for a table that
    rests. *)
From Stdlib Require Import Strings.Byte Strings.String ZArith Lia.
From stdpp Require Import base numbers list.
From S2P Require Import Prelude Abi Snapshot PolicyQuery Userspace PolicyResolve Ctl Stats Device DeviceInv StatsRing JsonParse CtlMain.

Section session.
Context {KS : KSort}.
Context (HZ : Z) (ll : bytes → bool) (env : ctl_env).

(** What one call of the loop meets: the table its first locked section finds,
    and the device at the second. *)
Record call := mk_call {
  cl_first : list kmod_uid_stats_total;
  cl_device : device
}.

Definition get_stats (capacity : Z) (c : call) : ioctl_end :=
  ioctl HZ ll env (VH_GET_STATS (al_stats (en_kernel env)) (cl_first c)
                     (Some (capacity, buffer_ptr capacity))) (cl_device c).

(** How the loop ends: with the exit of the tool, or by printing kernel memory
    that was never written. *)
Inductive session_end :=
  | Ended (e : ctl_end)
  | PrintsUnwritten (allocated count : Z).

(** The buffer of the tool when the rows [written] were copied to it: [calloc]
    zeroed the rest, and [count] rows are printed. *)
Definition printed_rows (count : Z) (written : list kmod_uid_stats_total) : list kmod_uid_stats_total :=
  take (Z.to_nat count) written ++ replicate (Z.to_nat count - length written) (zero_stats 0).

(** The loop from its [n]-th call, with the number of the call that ended it;
    [None] when the fuel is used up. *)
Fixpoint stats_session (fuel : nat) (k : nat → call) (n : nat) (capacity : Z)
    : option (nat * session_end) :=
  match fuel with
  | O => None
  | S fuel =>
      let r := get_stats capacity (k n) in
      let failed := Some (n, Ended (mk_ctl_end 1 [] (ie_device r))) in
      match ie_error r, ie_out r with
      | None, OutStats reply =>
          match rp_entries reply with
          | Values rows =>
              Some (n, Ended (mk_ctl_end 0 (mjoin (stats_line <$> printed_rows (rp_count reply) rows))
                                (ie_device r)))
          | Uninitialised allocated count => Some (n, PrintsUnwritten allocated count)
          end
      | Some ENOSPC, OutStats reply =>
          if rp_count reply <=? capacity then failed
          else if en_calloc env then stats_session fuel k (S n) (rp_count reply) else failed
      | _, _ => failed
      end
  end.

(** ** One call *)

(** The outcomes of a call: the rows the second section finds, their number when
    they do not fit, another error; or, when the table grew between the two
    sections, success without the rows. *)
Inductive stats_outcome (first rows : list kmod_uid_stats_total) (capacity : Z) (r : ioctl_end) : Prop :=
  | Fetched reply : ie_error r = None → ie_out r = OutStats reply → rp_entries reply = Values rows →
      rp_count reply = Z.of_nat (length rows) → stats_outcome first rows capacity r
  | TooSmall reply : ie_error r = Some ENOSPC → ie_out r = OutStats reply →
      rp_count reply = Z.of_nat (length rows) → capacity < rp_count reply → stats_outcome first rows capacity r
  | Refused e : ie_error r = Some e → e ≠ ENOSPC → stats_outcome first rows capacity r
  | Grown reply : (length first < length rows)%nat → ie_error r = None → ie_out r = OutStats reply →
      rp_count reply = Z.of_nat (length rows) →
      rp_entries reply = (if decide (first = []) then Values []
                          else Uninitialised (Z.of_nat (length first)) (Z.of_nat (length rows))) →
      stats_outcome first rows capacity r.

Lemma get_stats_outcome capacity c :
  0 <= capacity → stats_outcome (cl_first c) (kmod_stats (dv_stats (cl_device c))) capacity (get_stats capacity c).
Proof.
  intros Hcap. unfold get_stats, ioctl, handle_vpnhide_ioctl. destruct (en_capable env); [|by eapply Refused].
  cbn [negb]. unfold ioctl_get_stats. set (rows := kmod_stats (dv_stats (cl_device c))).
  destruct (vh_get_stats _ _ _ _ _) as [[reply st]|e] eqn:E; unfold vh_get_stats in E; fold rows in E; cbv zeta in E;
    destruct (nonzero capacity && _) eqn:E1 in E; try done.
  - destruct (_ && negb _) in E; [done|]. destruct (en_copy_out env); [|by eapply Refused]. cbn [negb].
    destruct (Z.ltb_spec capacity (Z.of_nat (length rows))) as [Hlt|Hge] in E; injection E as <- _.
    { by eapply TooSmall. }
    destruct (decide (length (cl_first c) < length rows)%nat) as [Hg|Hg].
    { eapply Grown; [done|done|done|done|]. cbn [rp_entries]. rewrite Z.min_r by lia.
      destruct (decide (cl_first c = [])) as [->|Hne]; [done|].
      assert (length (cl_first c) ≠ 0%nat) by (by intros ?%length_zero_iff_nil).
      rewrite (proj2 (Z.eqb_neq _ _)), (proj2 (Z.leb_gt _ (Z.of_nat (length (cl_first c))))), andb_false_r by lia.
      done. }
    eapply Fetched; [done|done| |done]. cbn [rp_entries].
    destruct (Z.eqb_spec (Z.min capacity (Z.of_nat (length (cl_first c)))) 0) as [Hz|Hz].
    + assert (rows = []) as -> by (apply length_zero_iff_nil; lia). done.
    + by rewrite !(proj2 (Z.leb_le _ _)) by lia.
  - injection E as <-. by eapply Refused.
  - destruct (_ && negb _) in E; [|done]. injection E as <-. by eapply Refused.
Qed.

(** ** The loop *)

(** How the session may end at call [m]: it fails and prints nothing, or it prints
    the rows the second section of the call found; or the table grew within the
    call, and then zeroes or unwritten memory are printed for the rows. *)
Definition session_result (c : call) (r : session_end) : Prop :=
  let rows := kmod_stats (dv_stats (cl_device c)) in
  (∃ d, r = Ended (mk_ctl_end 1 [] d)) ∨
  (∃ d, r = Ended (mk_ctl_end 0 (mjoin (stats_line <$> rows)) d)) ∨
  ((length (cl_first c) < length rows)%nat ∧
   ((cl_first c = [] ∧ ∃ d, r = Ended (mk_ctl_end 0 (mjoin (stats_line <$> replicate (length rows) (zero_stats 0))) d)) ∨
    (cl_first c ≠ [] ∧ r = PrintsUnwritten (Z.of_nat (length (cl_first c))) (Z.of_nat (length rows))))).

Lemma printed_rows_all rows : printed_rows (Z.of_nat (length rows)) rows = rows.
Proof. unfold printed_rows. by rewrite Nat2Z.id, firstn_all, Nat.sub_diag, app_nil_r. Qed.

Lemma stats_session_ends fuel k n capacity :
  (∀ n, Z.of_nat (length (kmod_stats (dv_stats (cl_device (k n))))) <= 4096) →
  0 <= capacity → (Z.to_nat (4096 - capacity) < fuel)%nat →
  ∃ m r, stats_session fuel k n capacity = Some (m, r) ∧ session_result (k m) r.
Proof.
  intros Hk. revert n capacity. induction fuel as [|fuel IH]; intros n capacity Hcap Hf; [lia|].
  cbn [stats_session]. cbv zeta.
  destruct (get_stats_outcome capacity (k n) Hcap)
    as [reply -> -> Hv Hc|reply -> -> Hc Hlt|e -> He|reply Hg -> -> Hc Hv].
  - rewrite Hv, Hc, printed_rows_all. eexists n, _. split; [reflexivity|]. right. left. by eexists.
  - rewrite (proj2 (Z.leb_gt _ _)) by done. destruct (en_calloc env).
    + specialize (Hk n) as Hkn. apply IH; lia.
    + eexists n, _. split; [reflexivity|]. left. by eexists.
  - exists n, (Ended (mk_ctl_end 1 [] (ie_device (get_stats capacity (k n))))). split; [by destruct e|].
    left. by eexists.
  - rewrite Hv, Hc. destruct (decide (cl_first (k n) = [])) as [Hn|Hn]; eexists n, _; (split; [reflexivity|]);
      right; right; (split; [done|]); [left|right; by split].
    split; [done|]. unfold printed_rows. rewrite take_nil, Nat2Z.id, Nat.sub_0_r. by eexists.
Qed.
End session.

(** C37: the [stats] command ends, after at most 4097 calls whatever happens to
    the device between its calls and between the two locked sections of a call,
    and whichever allocations fail, since every retry needs a larger buffer and
    the table is bounded.  It fails and prints nothing, or it prints one line for
    each row the table had in the second section of its last call.  The one
    exception is a last call within which the table grew: then it reports success
    and prints zeroes, or kernel memory that was never written, for the rows. *)
Theorem ctl_stats_consistent {KS : KSort} HZ ll env (k : nat → call) :
  (∀ n, device_wf ll (cl_device (k n))) →
  ∃ m r, stats_session HZ ll env (Z.to_nat 4097) k 0 0 = Some (m, r) ∧ session_result (k m) r.
Proof.
  intros Hd. apply stats_session_ends; [|done|lia].
  intros n. destruct (dw_stats _ _ (Hd n)) as [_ _ Hl Hc]. unfold VPNHIDE_UID_STATS_CAPACITY in Hc. lia.
Qed.

(** A table that grows between the first two calls. *)
Definition row (uid : Z) : kmod_uid_stats_total := zero_stats uid.
Definition table_device (uids : list Z) : device :=
  set_stats initial_device (mk_stats (row <$> uids) 4096 0) (dv_port_stats initial_device).
Definition growing (n : nat) : call :=
  let uids := match n with O => [10123] | _ => [10123; 10200] end in mk_call (row <$> uids) (table_device uids).

Lemma growing_wf n : device_wf (λ _, false) (cl_device (growing n)).
Proof.
  destruct (initial_device_wf (λ _, false)). split; try done.
  destruct n; (split; [|repeat (apply Forall_cons_2; [by apply zero_stats_ok|]); apply Forall_nil_2|
    vm_compute; discriminate..]); unfold strictly_sorted; repeat constructor.
Qed.

(** The loop took three calls and printed both rows. *)
Lemma ctl_stats_consistent_witness :
  (∃ d, stats_session (KS := merge_ksort) 100 (λ _, false) example_env (Z.to_nat 4097) growing 0 0 =
    Some (2%nat, Ended (mk_ctl_end 0 (mjoin (stats_line <$> [row 10123; row 10200])) d))) ∧
  ∃ m r, stats_session (KS := merge_ksort) 100 (λ _, false) example_env (Z.to_nat 4097) growing 0 0 = Some (m, r) ∧
    session_result (growing m) r.
Proof.
  split.
  - eexists. cbv [Z.to_nat Pos.to_nat Pos.iter_op Nat.add]. reflexivity.
  - apply (ctl_stats_consistent (KS := merge_ksort) 100 (λ _, false) example_env growing growing_wf).
Defined.

Example growing_calls :
  stats_session (KS := merge_ksort) 100 (λ _, false) example_env 2 growing 0 0 = None.
Proof. vm_compute. done. Qed.

(** The exception is real: when a row is added between the sections of the second
    call, the tool reports success and prints memory the kernel never wrote. *)
Definition torn (n : nat) : call :=
  match n with
  | O => mk_call [row 10123; row 10200] (table_device [10123; 10200])
  | _ => mk_call [row 10123] (table_device [10123; 10200])
  end.

Example torn_prints_unwritten :
  stats_session (KS := merge_ksort) 100 (λ _, false) example_env 2 torn 0 0 = Some (1%nat, PrintsUnwritten 1 2).
Proof. vm_compute. done. Qed.
