(* ===== verification/DaemonMain.v ===== *)
(** * The daemon as a program

    [main] of [daemon/main.c] around its timers ([DaemonLoop]): the arguments,
    the descriptors it opens and closes on every path, the array it gives to
    [poll] and the dispatch of what [poll] reports; with [open_stats_socket] of
    [daemon/stats.c] and [open_diag_events] of [daemon/owned_ports.c].  A system
    call that yields a descriptor is an argument, negative when it fails; the
    descriptors a process holds are a list.  Messages on standard error are left
    out. *)
From Stdlib Require Import Strings.Byte Strings.String ZArith Lia.
From stdpp Require Import base gmap numbers list.
From S2P Require Import Prelude Abi Snapshot Userspace CharDev StatsRing StatsJson DaemonLoop JsonParse.

(** ** Arguments *)

Definition PATH_MAX : Z := 4096.
Definition UINT_MAX : Z := 2 ^ 32 - 1.
Definition ULONG_MAX : Z := 2 ^ 64 - 1.
Definition NO_UID : Z := 2 ^ 32 - 1.

(** [strrchr(path, '/') - path]. *)
Fixpoint last_slash (path : bytes) (at_ : nat) : option nat :=
  match path with
  | [] => None
  | c :: path =>
      match last_slash path (S at_) with
      | Some n => Some n
      | None => if bool_decide (c = x2f) then Some at_ else None
      end
  end.

(** The directory that is watched: none when the path has no slash but a first
    one, or when the directory does not fit its buffer. *)
Definition config_dir (config : bytes) : option bytes :=
  let dir_len := match last_slash config 0 with Some n => n | None => O end in
  if (0 <? Z.of_nat dir_len) && (Z.of_nat dir_len <? PATH_MAX) then Some (take dir_len config) else None.

(** [strtoul(s, &end, 10)]: the value and what [end] points at. *)
Definition strtoul10 (s : bytes) : Z * bytes :=
  let t := skip_whitespaces s in
  let '(neg, t) :=
    match t with
    | c :: rest => if bool_decide (c = x2d) then (true, rest)
                   else if bool_decide (c = x2b) then (false, rest) else (false, t)
    | [] => (false, t)
    end in
  match read_digits t 0 0 with
  | (_, O) => (0, s)
  | (v, n) => (if ULONG_MAX <? v then ULONG_MAX else if neg : bool then u64 (- v) else v, drop n t)
  end.

(** The UID the statistics are served to, from the third argument. *)
Definition parse_self_uid (self_uid : option bytes) : option Z :=
  match self_uid with
  | None | Some [] => None
  | Some s => let '(parsed, rest) := strtoul10 s in
              if bool_decide (rest = []) && (parsed <=? UINT_MAX) then Some parsed else None
  end.

(** ** Descriptors *)

(** The results of the system calls of the start-up; a flag is the success of a
    call that yields no descriptor. *)
Record startup_calls := mk_calls {
  sc_ctrl : Z;
  sc_netlink : Z;
  sc_netlink_bind : bool;
  sc_inotify : Z;
  sc_watch : bool;
  sc_unix : Z;
  sc_unix_bind : bool;
  sc_listen : bool;
  sc_eventfd : Z;
  sc_set_eventfd : bool;
  sc_diag : Z;
  sc_diag_bind : bool
}.

(** The descriptors the process holds. *)
Definition opened (fd : Z) (held : list Z) : list Z := if 0 <=? fd then fd :: held else held.
Fixpoint released (fd : Z) (held : list Z) : list Z :=
  match held with
  | [] => []
  | x :: held => if x =? fd then held else x :: released fd held
  end.

Definition open_stats_socket (c : startup_calls) (held : list Z) : Z * list Z :=
  let fd := sc_unix c in
  let held := opened fd held in
  if (fd <? 0) || negb (sc_unix_bind c) || negb (sc_listen c)
  then (-1, if 0 <=? fd then released fd held else held)
  else (fd, held).

Definition open_diag_events (c : startup_calls) (held : list Z) : Z * list Z :=
  let fd := sc_diag c in
  let held := opened fd held in
  if fd <? 0 then (-1, held)
  else if negb (sc_diag_bind c) then (-1, released fd held)
  else (fd, held).

Definition open_config_watch (c : startup_calls) (ctl config : option bytes) (held : list Z) : Z * list Z :=
  match config, ctl with
  | Some config, Some _ =>
      match config_dir config with
      | Some _ =>
          let fd := sc_inotify c in
          let held := opened fd held in
          if (0 <=? fd) && negb (sc_watch c) then (-1, released fd held) else (fd, held)
      | None => (-1, held)
      end
  | _, _ => (-1, held)
  end.

Definition open_port_events (c : startup_calls) (held : list Z) : Z * list Z :=
  let fd := sc_eventfd c in
  let held := opened fd held in
  if (0 <=? fd) && negb (sc_set_eventfd c) then (-1, released fd held) else (fd, held).

(** What the loop works with. *)
Record descriptors := mk_descriptors {
  ds_ctrl : Z;
  ds_netlink : Z;
  ds_config : Z;
  ds_stats : Z;
  ds_port : Z;
  ds_diag : Z;
  ds_allowed_uid : Z
}.

Inductive startup_result :=
  | Exited (status : Z) (held : list Z)
  | Running (ds : descriptors) (held : list Z).

Definition startup (c : startup_calls) (ctl config self_uid : option bytes) : startup_result :=
  if sc_ctrl c <? 0 then Exited 1 []
  else
    let held := opened (sc_ctrl c) [] in
    if sc_netlink c <? 0 then Exited 1 (released (sc_ctrl c) held)
    else
      let held := opened (sc_netlink c) held in
      if negb (sc_netlink_bind c) then Exited 1 (released (sc_ctrl c) (released (sc_netlink c) held))
      else
        let '(config_fd, held) := open_config_watch c ctl config held in
        let '(allowed, (stats_fd, held)) :=
          match parse_self_uid self_uid with
          | Some uid => (uid, open_stats_socket c held)
          | None => (NO_UID, (-1, held))
          end in
        let '(port_fd, held) := open_port_events c held in
        let '(diag_fd, held) := open_diag_events c held in
        Running (mk_descriptors (sc_ctrl c) (sc_netlink c) config_fd stats_fd port_fd diag_fd allowed) held.

(** The jobs done before the loop, whatever has been opened. *)
Definition startup_actions : list action := [RefreshPorts; UpdateSpoofIp; SampleStats].

(** ** Polling *)

Definition POLLIN : Z := 0x1.
Definition POLLERR : Z := 0x8.
Definition POLLHUP : Z := 0x10.
Definition POLLNVAL : Z := 0x20.
Definition NETLINK_EVENTS : Z := Z.lor (Z.lor POLLIN POLLERR) (Z.lor POLLHUP POLLNVAL).

Record pollfd := mk_pollfd { pf_fd : Z; pf_events : Z }.

(** [if (fd >= 0) { index = nfds; pfds[nfds] = ...; nfds++; }] *)
Definition add_poll (fd : Z) (pfds : list pollfd) : list pollfd * Z :=
  if 0 <=? fd then (pfds ++ [mk_pollfd fd POLLIN], Z.of_nat (length pfds)) else (pfds, -1).

Record poll_indices := mk_indices { pi_config : Z; pi_stats : Z; pi_port : Z; pi_diag : Z }.

Definition poll_set (ds : descriptors) : list pollfd * poll_indices :=
  let pfds := [mk_pollfd (ds_netlink ds) NETLINK_EVENTS] in
  let '(pfds, config) := add_poll (ds_config ds) pfds in
  let '(pfds, stats) := add_poll (ds_stats ds) pfds in
  let '(pfds, port) := add_poll (ds_port ds) pfds in
  let '(pfds, diag) := add_poll (ds_diag ds) pfds in
  (pfds, mk_indices config stats port diag).

(** [index >= 0 && ret > 0 && (pfds[index].revents & mask)] *)
Definition reported (ret : Z) (revents : list Z) (index mask : Z) : bool :=
  (0 <=? index) && (0 <? ret) && nonzero (Z.land (default 0 (revents !! Z.to_nat index)) mask).

Definition dispatch (ret : Z) (revents : list Z) (ix : poll_indices) : poll_events :=
  mk_poll (reported ret revents 0 NETLINK_EVENTS) (reported ret revents (pi_config ix) POLLIN)
    (reported ret revents (pi_stats ix) POLLIN) (reported ret revents (pi_port ix) POLLIN)
    (reported ret revents (pi_diag ix) POLLIN).

(** What [poll] returned: an error, interrupted or not, or the number of
    descriptors that have something with the returned events of each. *)
Inductive poll_result :=
  | PollFailed (interrupted : bool)
  | Polled (ret : Z) (revents : list Z).

(** One turn of the loop: after an error the next turn begins, a second later
    unless the call was interrupted. *)
Definition loop_turn (fuel : nat) (ds : descriptors) (s : loop_state) (ck : clock_reads) (r : poll_result)
    (publish_ok : bool) : option (loop_state * list action) :=
  match r with
  | PollFailed _ => Some (s, [])
  | Polled ret revents => loop_round fuel s ck (dispatch ret revents (poll_set ds).2) publish_ok
  end.

(** ** Start-up *)

Lemma released_opened fd held : 0 <= fd → released fd (opened fd held) = held.
Proof. intros H. unfold opened. destruct (Z.leb_spec 0 fd); [|lia]. simpl. by rewrite Z.eqb_refl. Qed.

(** An optional descriptor: what the call leaves is what the process holds. *)
Definition keeps (held : list Z) (r : Z * list Z) : Prop := r.2 = opened r.1 held.

Lemma opened_neg fd held : fd < 0 → opened fd held = held.
Proof. intros H. unfold opened. by destruct (Z.leb_spec 0 fd); [lia|]. Qed.

Lemma keeps_none held : keeps held (-1, held).
Proof. done. Qed.

#[local] Hint Resolve keeps_none : core.

Lemma open_stats_keeps c held : keeps held (open_stats_socket c held).
Proof.
  unfold open_stats_socket, keeps. destruct (Z.ltb_spec (sc_unix c) 0); cbn [orb].
  - destruct (Z.leb_spec 0 (sc_unix c)); [lia|]. by apply opened_neg.
  - destruct (negb _ || negb _); [|done]. destruct (Z.leb_spec 0 (sc_unix c)); [|lia]. by apply released_opened.
Qed.

Lemma open_diag_keeps c held : keeps held (open_diag_events c held).
Proof.
  unfold open_diag_events, keeps. destruct (Z.ltb_spec (sc_diag c) 0); [by apply opened_neg|].
  destruct (negb _); [|done]. by apply released_opened.
Qed.

(** [if (fd >= 0 && !ok) { close(fd); fd = -1; }] *)
Lemma open_or_close_keeps fd ok held :
  keeps held (if (0 <=? fd) && negb ok then (-1, released fd (opened fd held)) else (fd, opened fd held)).
Proof.
  unfold keeps. destruct (Z.leb_spec 0 fd); [|done]. destruct ok; [done|]. by apply released_opened.
Qed.

Lemma open_config_keeps c ctl config held : keeps held (open_config_watch c ctl config held).
Proof.
  unfold open_config_watch. destruct config as [config|]; [|done]. destruct ctl; [|done].
  destruct (config_dir config); [|done]. apply open_or_close_keeps.
Qed.

(** The descriptors of the loop in the order they are opened. *)
Definition loop_descriptors (ds : descriptors) : list Z :=
  filter (λ fd, 0 <= fd) [ds_diag ds; ds_port ds; ds_stats ds; ds_config ds; ds_netlink ds; ds_ctrl ds].

Lemma opened_filter fd held fds :
  held = filter (λ fd, 0 <= fd) fds → opened fd held = filter (λ fd, 0 <= fd) (fd :: fds).
Proof.
  intros ->. unfold opened. destruct (Z.leb_spec 0 fd);
    [by rewrite filter_cons_True|by rewrite filter_cons_False by lia].
Qed.

(** No descriptor is lost: whichever calls of the start-up fail, when the daemon
    gives up it has released what it had opened, and when it goes on it holds
    exactly the descriptors its loop knows; it gives up only without the control
    device or the route socket. *)
Theorem startup_keeps_descriptors c ctl config self_uid :
  match startup c ctl config self_uid with
  | Exited status held => status = 1 ∧ held = [] ∧ (sc_ctrl c < 0 ∨ sc_netlink c < 0 ∨ sc_netlink_bind c = false)
  | Running ds held => held = loop_descriptors ds ∧ 0 <= ds_ctrl ds ∧ 0 <= ds_netlink ds
  end.
Proof.
  unfold startup. destruct (Z.ltb_spec (sc_ctrl c) 0); [auto|].
  destruct (Z.ltb_spec (sc_netlink c) 0); [rewrite released_opened; auto|].
  destruct (sc_netlink_bind c); cbn [negb]; [|rewrite !released_opened; auto].
  set (held := opened (sc_netlink c) _).
  assert (Hh : held = filter (λ fd, 0 <= fd) [sc_netlink c; sc_ctrl c]) by by do 2 apply opened_filter.
  clearbody held. pose proof (open_config_keeps c ctl config held) as Hc.
  destruct (open_config_watch c ctl config held) as [config_fd held1]. unfold keeps in Hc. cbn in Hc. subst held1.
  set (p := match parse_self_uid self_uid with Some uid => _ | None => _ end).
  assert (Hs : keeps (opened config_fd held) p.2).
  { unfold p. destruct (parse_self_uid self_uid); [apply open_stats_keeps|done]. }
  clearbody p. destruct p as [allowed [stats_fd held2]]. unfold keeps in Hs. cbn in Hs. subst held2.
  pose proof (open_or_close_keeps (sc_eventfd c) (sc_set_eventfd c) (opened stats_fd (opened config_fd held))) as Hp.
  unfold open_port_events. destruct (if _ && _ then _ else _) as [port_fd held3]. unfold keeps in Hp. cbn in Hp. subst held3.
  pose proof (open_diag_keeps c (opened port_fd (opened stats_fd (opened config_fd held)))) as Hd.
  destruct (open_diag_events c _) as [diag_fd held4]. unfold keeps in Hd. cbn in Hd. subst held4.
  split; [|done]. unfold loop_descriptors. cbn [ds_ctrl ds_netlink ds_config ds_stats ds_port ds_diag]. by do 4 apply opened_filter.
Qed.

(** ** Dispatch *)

(** Does a descriptor that is in use report one of the events of [mask]? *)
Definition reports (rev : Z → Z) (ret fd mask : Z) : bool :=
  (0 <=? fd) && (0 <? ret) && nonzero (Z.land (rev fd) mask).

Lemma add_poll_spec fd pfds :
  let '(pfds', index) := add_poll fd pfds in
  (∃ rest, pfds' = pfds ++ rest ∧ (length rest <= 1)%nat ∧ pf_fd <$> rest = filter (λ fd, 0 <= fd) [fd]) ∧
  ∀ rev ret more, reported ret (rev <$> (pf_fd <$> pfds' ++ more)) index POLLIN = reports rev ret fd POLLIN.
Proof.
  unfold add_poll. destruct (Z.leb_spec 0 fd) as [Hfd|Hfd].
  - split; [exists [mk_pollfd fd POLLIN]; by rewrite filter_cons_True|].
    intros rev ret more. unfold reported, reports. rewrite <- app_assoc, Nat2Z.id, !list_lookup_fmap.
    rewrite lookup_app_r, Nat.sub_diag by done. cbn.
    destruct (Z.leb_spec 0 fd), (Z.leb_spec 0 (Z.of_nat (length pfds))); [done|lia..].
  - split; [exists []; rewrite filter_cons_False, app_nil_r by lia; cbn; auto with lia|].
    intros rev ret more. unfold reported, reports. destruct (Z.leb_spec 0 fd); [lia|done].
Qed.

(** Every descriptor in use is polled, once, in an array of at most five, and
    what [poll] reports for a descriptor reaches its own job whichever of the
    others are missing: the indices the loop keeps are those of the array. *)
Theorem poll_dispatch_exact ds rev ret :
  let '(pfds, ix) := poll_set ds in
  (length pfds <= 5)%nat ∧
  pf_fd <$> pfds = ds_netlink ds :: filter (λ fd, 0 <= fd) [ds_config ds; ds_stats ds; ds_port ds; ds_diag ds] ∧
  dispatch ret (rev <$> (pf_fd <$> pfds)) ix =
    mk_poll ((0 <? ret) && nonzero (Z.land (rev (ds_netlink ds)) NETLINK_EVENTS))
      (reports rev ret (ds_config ds) POLLIN) (reports rev ret (ds_stats ds) POLLIN)
      (reports rev ret (ds_port ds) POLLIN) (reports rev ret (ds_diag ds) POLLIN).
Proof.
  unfold poll_set. set (p0 := [mk_pollfd _ _]).
  pose proof (add_poll_spec (ds_config ds) p0) as H1. destruct (add_poll (ds_config ds) p0) as [p1 i1].
  destruct H1 as ((r1 & -> & Hl1 & Hr1) & H1).
  pose proof (add_poll_spec (ds_stats ds) (p0 ++ r1)) as H2. destruct (add_poll _ (p0 ++ r1)) as [p2 i2].
  destruct H2 as ((r2 & -> & Hl2 & Hr2) & H2).
  pose proof (add_poll_spec (ds_port ds) ((p0 ++ r1) ++ r2)) as H3. destruct (add_poll _ (_ ++ r2)) as [p3 i3].
  destruct H3 as ((r3 & -> & Hl3 & Hr3) & H3).
  pose proof (add_poll_spec (ds_diag ds) (((p0 ++ r1) ++ r2) ++ r3)) as H4. destruct (add_poll _ (_ ++ r3)) as [p4 i4].
  destruct H4 as ((r4 & -> & Hl4 & Hr4) & H4). split_and!.
  - rewrite !length_app. cbn. lia.
  - rewrite !fmap_app, Hr1, Hr2, Hr3, Hr4. cbn [p0 fmap list_fmap pf_fd app]. f_equal. rewrite <- !filter_app. done.
  - unfold dispatch. cbn [pi_config pi_stats pi_port pi_diag]. f_equal.
    + by specialize (H1 rev ret (r2 ++ r3 ++ r4)); rewrite !app_assoc in H1.
    + by specialize (H2 rev ret (r3 ++ r4)); rewrite !app_assoc in H2.
    + by specialize (H3 rev ret r4).
    + by specialize (H4 rev ret []); rewrite app_nil_r in H4.
Qed.

(** ** The UID that is served *)

Lemma fmt_u_start u :
  0 <= u < 2 ^ 32 →
  ∃ c ds, fmt_u u = c :: ds ∧ isspace c = false ∧ c ≠ x2d ∧ c ≠ x2b ∧ read_digits (c :: ds) 0 0 = (u, S (length ds)).
Proof.
  intros Hu. destruct (fmt_u_shape u) as (c & ds & E & Hf & _); [lia|]. exists c, ds.
  assert (Hr : read_digits (c :: ds) 0 0 = (u, S (length ds))).
  { rewrite <- E, <- (app_nil_r (fmt_u u)), read_decimal by (done || lia). by rewrite E. }
  apply Forall_cons in Hf as [Hc _].
  split_and!; [done| | | |done]; clear -Hc; intros; [by destruct c|by intros ->|by intros ->].
Qed.

Lemma parse_self_uid_fmt u : 0 <= u < 2 ^ 32 → parse_self_uid (Some (fmt_u u)) = Some u.
Proof.
  intros Hu. destruct (fmt_u_start u Hu) as (c & ds & -> & Hs & Hm & Hp & Hr).
  unfold parse_self_uid, strtoul10. cbn [skip_whitespaces]. rewrite Hs, !bool_decide_eq_false_2 by done.
  rewrite Hr. destruct (Z.ltb_spec ULONG_MAX u); [unfold ULONG_MAX in *; lia|].
  rewrite drop_ge by (simpl; lia). rewrite bool_decide_eq_true_2 by done.
  destruct (Z.leb_spec u UINT_MAX); [done|unfold UINT_MAX in *; lia].
Qed.

(** The daemon started with the decimal UID of the application, as the
    start script passes it, serves the statistics to that application and to root
    and to nobody else. *)
Theorem daemon_serves_its_app c ctl config u ds held :
  0 <= u < 2 ^ 32 → startup c ctl config (Some (fmt_u u)) = Running ds held →
  ds_allowed_uid ds = u ∧
  ∀ peer command r, peer ≠ u → peer ≠ 0 →
    serve_stats_client (Some peer) (ds_allowed_uid ds) command true r = (r, None).
Proof.
  intros Hu Hs. assert (Ha : ds_allowed_uid ds = u).
  { unfold startup in Hs. rewrite (parse_self_uid_fmt u Hu) in Hs.
    destruct (sc_ctrl c <? 0); [done|]. destruct (sc_netlink c <? 0); [done|]. destruct (negb _); [done|].
    destruct (open_config_watch _ _ _ _), (open_stats_socket _ _), (open_port_events _ _), (open_diag_events _ _).
    by injection Hs as <- _. }
  split; [done|]. intros peer command r Hp H0. unfold serve_stats_client. rewrite Ha.
  by rewrite (proj2 (Z.eqb_neq peer u)), (proj2 (Z.eqb_neq peer 0)).
Qed.

Definition all_calls : startup_calls := mk_calls 3 4 true 5 true 6 true true 7 true 8 true.

Lemma daemon_serves_its_app_witness :
  ∃ ds held, startup all_calls (Some (lit "ctl")) (Some (lit "/data/adb/config.json")) (Some (fmt_u 10123)) = Running ds held ∧
    ds_config ds = 5 ∧ ds_allowed_uid ds = 10123 ∧
    ∀ peer command r, peer ≠ 10123 → peer ≠ 0 →
      serve_stats_client (Some peer) (ds_allowed_uid ds) command true r = (r, None).
Proof.
  do 2 eexists. split; [vm_compute; reflexivity|]. split; [reflexivity|].
  eapply (daemon_serves_its_app all_calls (Some (lit "ctl")) (Some (lit "/data/adb/config.json")) 10123).
  - lia.
  - vm_compute. reflexivity.
Defined.

(** ** A change of the configuration *)

(** When the watch is in place and reports an event, the turn reads the events,
    and it refreshes the owned ports then or within a tenth of a second. *)
Theorem config_event_handled fuel ds s ck rev ret ok s' acts :
  0 <= ds_config ds → 0 < ret → Z.land (rev (ds_config ds)) POLLIN ≠ 0 →
  loop_turn fuel ds s ck (Polled ret (rev <$> (pf_fd <$> (poll_set ds).1))) ok = Some (s', acts) →
  DrainConfig ∈ acts ∧
  (RefreshPorts ∈ acts ∨
   lp_owned_ports_due s' ∈ [ck_config ck + 100; ck_port ck + 75; ck_diag ck + 25]).
Proof.
  intros Hfd Hret Hrev. pose proof (poll_dispatch_exact ds rev ret) as Hd. unfold loop_turn.
  destruct (poll_set ds) as [pfds ix]. cbn [fst snd]. destruct Hd as (_ & _ & ->).
  assert (reports rev ret (ds_config ds) POLLIN = true) as ->.
  { unfold reports, nonzero. destruct (Z.leb_spec 0 (ds_config ds)); [|lia]. destruct (Z.ltb_spec 0 ret); [|lia].
    by rewrite (proj2 (Z.eqb_neq _ 0)). }
  set (ev := mk_poll _ true _ _ _). unfold loop_round.
  destruct (if sample_due s ck then _ else _) as [n|]; [|done]. cbn [mbind option_bind].
  destruct (next_follow_up s ck ev) as [[next pending] retry]. intros [= <- <-]. split.
  - unfold round_actions. apply elem_of_app. left. by apply list_elem_of_singleton.
  - unfold round_actions. destruct (refresh_due s ck ev).
    + left. rewrite !elem_of_app. right; right; right; left. by apply list_elem_of_singleton.
    + right. cbn [lp_owned_ports_due]. unfold owned_due_after. cbn [ev pe_config pe_port pe_diag].
      rewrite !elem_of_cons. destruct (reports rev ret (ds_diag ds) POLLIN), (reports rev ret (ds_port ds) POLLIN); auto.
Qed.
