(* ===== verification/Reload.v ===== *)
(** * A change of the configuration takes effect

    The daemon ([DaemonMain], [DaemonLoop]), the control tool ([CtlMain]) and the
    module composed: from the inotify event of a rewritten configuration file to
    the decisions of the kernel. *)
From Stdlib Require Import Strings.Byte Strings.String ZArith Lia.
From stdpp Require Import base numbers list sets.
From S2P Require Import Prelude Abi Snapshot PolicyQuery Userspace PolicyResolve Ctl RoundTrip EndToEnd Load Device DeviceInv DaemonLoop JsonObject JsonParse CtlMain DaemonMain.

(** ** Paths *)

Definition slash_free (name : bytes) : Prop := x2f ∉ name.

Lemma last_slash_none name at_ : slash_free name → last_slash name at_ = None.
Proof.
  unfold slash_free. revert at_. induction name as [|c name IH]; intros at_; [done|]. rewrite not_elem_of_cons.
  intros [Hc Hn]. cbn [last_slash]. by rewrite IH, bool_decide_eq_false_2.
Qed.

Lemma last_slash_path dir name at_ :
  slash_free name → last_slash (dir ++ x2f :: name) at_ = Some (at_ + length dir)%nat.
Proof.
  intros Hn. revert at_. induction dir as [|c dir IH]; intros at_; cbn [app last_slash length].
  - by rewrite last_slash_none, bool_decide_eq_true_2, Nat.add_0_r.
  - rewrite IH. f_equal. lia.
Qed.

Lemma base_name_free name acc : slash_free name → base_name name acc = acc.
Proof.
  unfold slash_free. revert acc. induction name as [|c name IH]; intros acc; [done|]. rewrite not_elem_of_cons.
  intros [Hc Hn]. cbn [base_name]. by rewrite bool_decide_eq_false_2, IH.
Qed.

Lemma base_name_path dir name acc : slash_free name → base_name (dir ++ x2f :: name) acc = name.
Proof.
  intros Hn. revert acc. induction dir as [|c dir IH]; intros acc; cbn [app base_name].
  - rewrite bool_decide_eq_true_2 by done. by apply base_name_free.
  - case_bool_decide; apply IH.
Qed.

(** A path of a directory that fits and a file in it. *)
Record watched_path (dir name : bytes) : Prop := {
  wp_dir : (0 < length dir < 4096)%nat;
  wp_name : name ≠ [];
  wp_slash : slash_free name;
  wp_nul : Forall (λ b, b ≠ x00) name
}.

Lemma config_dir_watched dir name : watched_path dir name → config_dir (dir ++ x2f :: name) = Some dir.
Proof.
  intros [Hd _ Hs _]. unfold config_dir. rewrite last_slash_path by done. cbn [Nat.add].
  rewrite (proj2 (Z.ltb_lt 0 _)) by lia. rewrite (proj2 (Z.ltb_lt _ PATH_MAX)) by (unfold PATH_MAX; lia).
  cbn [andb]. by rewrite take_app_length.
Qed.

(** The watch is what the loop polls. *)
Lemma startup_watches c ctl dir name self_uid ds held :
  watched_path dir name → 0 <= sc_inotify c → sc_watch c = true →
  startup c (Some ctl) (Some (dir ++ x2f :: name)) self_uid = Running ds held → ds_config ds = sc_inotify c.
Proof.
  intros Hp Hfd Hw Hs. unfold startup in Hs. destruct (sc_ctrl c <? 0); [done|]. destruct (sc_netlink c <? 0); [done|].
  destruct (negb _); [done|]. unfold open_config_watch in Hs. rewrite config_dir_watched in Hs by done.
  rewrite Hw, andb_false_r in Hs.
  destruct (match parse_self_uid self_uid with Some _ => _ | None => _ end) as [allowed [stats_fd held2]].
  destruct (open_port_events _ _), (open_diag_events _ _). by injection Hs as <- _.
Qed.

(** The kernel pads the name of an event with NULs. *)
Lemma event_of_file dir name e k :
  watched_path dir name → ev_name e = name ++ replicate k x00 →
  Z.land (ev_mask e) (Z.lor IN_CLOSE_WRITE IN_MOVED_TO) ≠ 0 → event_matches (dir ++ x2f :: name) e = true.
Proof.
  intros [_ Hn Hs H0] He Hm. unfold event_matches, config_name, strcmp_eq. rewrite base_name_path by done. rewrite He.
  rewrite bool_decide_eq_false_2 by (destruct name; done). cbn [negb andb].
  assert (cstr (name ++ replicate k x00) = name) as ->.
  { destruct k as [|k]; [rewrite app_nil_r; by apply cstr_id|]. by apply cstr_app_nul. }
  rewrite (cstr_id name) by done. rewrite bool_decide_eq_true_2 by done. cbn [andb].
  apply negb_true_iff, Z.eqb_neq. intros Hz. apply Hm. apply Z.bits_inj'. intros i Hi. rewrite Z.bits_0.
  assert (Hb : Z.testbit (Z.land (ev_mask e) (Z.lor (Z.lor IN_CLOSE_WRITE IN_MOVED_TO) (Z.lor IN_CREATE IN_ATTRIB))) i = false)
    by (by rewrite Hz, Z.bits_0).
  rewrite !Z.land_spec, !Z.lor_spec in *. destruct (Z.testbit (ev_mask e) i); [|done].
  cbn [andb] in *. apply orb_false_iff in Hb as [Hb _]. by apply orb_false_iff in Hb as [-> ->].
Qed.

(** ** A turn of the loop on the system *)

(** A turn in which the watch is reported drains it first. *)
Lemma round_drains s ck ev :
  pe_config ev = true → ∃ rest, round_actions s ck ev = DrainConfig :: rest ∧ DrainConfig ∉ rest.
Proof.
  intros Hc. unfold round_actions. rewrite Hc. cbn [when app]. eexists. split; [done|].
  rewrite !not_elem_of_app. split_and!; unfold when; case_match; set_solver.
Qed.

Lemma watch_reported ds rev ret :
  0 <= ds_config ds → 0 < ret → Z.land (rev (ds_config ds)) POLLIN ≠ 0 →
  pe_config (dispatch ret (rev <$> (pf_fd <$> (poll_set ds).1)) (poll_set ds).2) = true.
Proof.
  intros Hfd Hret Hrev. pose proof (poll_dispatch_exact ds rev ret) as Hd.
  destruct (poll_set ds) as [pfds ix]. cbn [fst snd]. destruct Hd as (_ & _ & ->). cbn [pe_config].
  unfold reports, nonzero. destruct (Z.leb_spec 0 (ds_config ds)); [|lia]. destruct (Z.ltb_spec 0 ret); [|lia].
  by rewrite (proj2 (Z.eqb_neq _ 0)).
Qed.

Section turn.
Context {KS : KSort} {HKS : KSortLaws KS} {FC : FloatConv} {HFC : FloatConvLaws FC} {SD : Strtod} {SL : StrtodLaws SD}.
Context (HZ : Z) (ll : bytes → bool) (scan3 : bytes → option (Z * bytes * Z)) (scan2 : bytes → option (Z * Z)).
Context (pton4 : bytes → option Z) (pton6 : bytes → option bytes).

(** The environment the tool meets, and the files it can open are those the daemon
    finds readable. *)
Context (env : ctl_env).

Definition accessible (path : bytes) : bool := if en_file env path is Some _ then true else false.

(** The control tool as a program: its exit status and the device it leaves. *)
Definition tool (argv : list bytes) (d : device) : option Z * device :=
  match main HZ ll scan3 scan2 pton4 pton6 env argv d with
  | Some e => (Some (ct_status e), ct_device e)
  | None => (None, d)
  end.

(** The daemon's descriptors see [reads] from the watch; [denv] is its own
    environment and [requests] are the ioctls its other jobs make. *)
Context (reads : list (list inotify_event)) (config ctl : bytes) (calls : reload_calls).
Context (denv : ctl_env) (requests : action → list vh_ioctl).

Definition sets_policy (cmd : vh_ioctl) : bool := if cmd is VH_SET_POLICY _ _ _ then true else false.

Definition perform (a : action) (d : device) : device :=
  match a with
  | DrainConfig => (drain_config_events tool reads config (Some ctl) calls d).2
  | _ => foldl (λ d cmd, ie_device (ioctl HZ ll denv cmd d)) d (requests a)
  end.

(** The jobs of a turn in their order. *)
Definition performed (acts : list action) (d : device) : device := foldl (λ d a, perform a d) d acts.

Lemma performed_cons a acts d : performed (a :: acts) d = performed acts (perform a d).
Proof. done. Qed.

(** The daemon's own ioctls do not set policies. *)
Context (Hreq : ∀ a, Forall (λ cmd, sets_policy cmd = false) (requests a)).

Lemma perform_keeps a d : a ≠ DrainConfig → dv_policy (perform a d) = dv_policy d.
Proof.
  intros Ha. destruct a; [done|..]; unfold perform;
    match goal with |- context [requests ?a] => generalize (Hreq a); generalize (requests a) end;
    intros cmds Hc; clear -Hc; revert d; induction Hc as [|cmd cmds Hcmd _ IH]; intros d; cbn [foldl]; try done;
    rewrite IH; apply ioctl_keeps_policy; intros ??? ->; done.
Qed.

Lemma performed_keeps acts d : DrainConfig ∉ acts → dv_policy (performed acts d) = dv_policy d.
Proof.
  unfold performed. revert d. induction acts as [|a acts IH]; intros d; [done|]. rewrite not_elem_of_cons.
  intros [Ha Hn]. cbn [foldl]. rewrite IH by done. by apply perform_keeps.
Qed.

Lemma drain_enforces e root d :
  e ∈ mjoin reads → event_matches config e = true →
  rc_access calls config = accessible config → 0 <= rc_fork calls → rc_exec calls = true → rc_wait calls = true →
  healthy env → json_parse_file (en_file env config) [] = Done (JObject root, []) → loadable root →
  ∃ d' p, drain_config_events tool reads config (Some ctl) calls d = (Reloaded, d') ∧ published d p d' ∧ enforces root p.
Proof.
  intros He Hm Hacc Hfork Hexec Hwait Henv Hroot Hl.
  assert (∃ d' p, main HZ ll scan3 scan2 pton4 pton6 env [ctl; lit "load"; config] d = exits 0 d' ∧
    published d p d' ∧ enforces root p) as (d' & p & Hmain & Hpub & Hen).
  { destruct Henv as [Ho Hc _ Hk Hpm Hmm _ _]. unfold main. cbn -[cmd_load]. rewrite Ho. cbn [negb].
    apply cmd_load_succeeds with (path := config); try done. by rewrite Hpm. }
  exists d', p. split; [|done]. apply drain_runs_tool with e; try done.
  - rewrite Hacc. unfold accessible. destruct (en_file env config); [done|]. by vm_compute in Hroot.
  - unfold tool. by rewrite Hmain.
Qed.
End turn.

(** ** From the event to the kernel *)

(** C3: a change of the configuration file takes effect.  The daemon was started
    with the path of a file in a directory and got its watch.  In a turn of its
    loop [poll] reports the watch, and among the events it reads one says that the
    file has been written or moved into place.  Then the turn ends (with enough
    steps for the minutes it may have to catch up), and when the child can be
    started and the file parses as a loadable configuration, the device as the
    jobs of the turn leave it has a policy that hides, blocks and hooks exactly
    what the file says: the reload ran, and no other job of the turn undid it. *)
Theorem config_change_enforced {KS : KSort} {HKS : KSortLaws KS} {FC : FloatConv} {HFC : FloatConvLaws FC} {SD : Strtod}
    {SL : StrtodLaws SD} HZ ll scan3 scan2 pton4 pton6 c ctl dir name self_uid ds held
    fuel limit s ck rev ret ok reads e k env calls denv requests root d :
  let config := dir ++ x2f :: name in
  watched_path dir name → 0 <= sc_inotify c → sc_watch c = true →
  startup c (Some ctl) (Some config) self_uid = Running ds held →
  0 < ret → Z.land (rev (ds_config ds)) POLLIN ≠ 0 →
  (∀ i, ck_catch_up ck i <= limit) → limit < lp_next_stats_sample s + period * Z.of_nat fuel → (0 < fuel)%nat →
  e ∈ mjoin reads → ev_name e = name ++ replicate k x00 →
  Z.land (ev_mask e) (Z.lor IN_CLOSE_WRITE IN_MOVED_TO) ≠ 0 →
  rc_access calls config = accessible env config → 0 <= rc_fork calls → rc_exec calls = true → rc_wait calls = true →
  healthy env → json_parse_file (en_file env config) [] = Done (JObject root, []) → loadable root →
  (∀ a, Forall (λ cmd, sets_policy cmd = false) (requests a)) →
  ∃ s' acts, loop_turn fuel ds s ck (Polled ret (rev <$> (pf_fd <$> (poll_set ds).1))) ok = Some (s', acts) ∧
    ∃ p, dv_policy (performed HZ ll scan3 scan2 pton4 pton6 env reads config ctl calls denv requests acts d) = Some p ∧
      enforces root p.
Proof.
  cbv zeta. intros Hp Hfd Hw Hs Hret Hrev Hck Hlim Hf He Hname Hmask Hacc Hfork Hexec Hwait Henv Hroot Hl Hreq.
  assert (Hds : 0 <= ds_config ds) by (by rewrite (startup_watches c ctl dir name self_uid ds held)).
  pose proof (watch_reported ds rev ret Hds Hret Hrev) as Hev. unfold loop_turn.
  set (ev := dispatch _ _ _) in *.
  destruct (loop_round_total fuel s ck ev ok limit Hck Hlim Hf) as [s' Hround].
  exists s', (round_actions s ck ev). split; [exact Hround|].
  destruct (round_drains s ck ev Hev) as (rest & -> & Hrest). rewrite performed_cons.
  assert (Hm : event_matches (dir ++ x2f :: name) e = true) by (by eapply event_of_file).
  destruct (drain_enforces HZ ll scan3 scan2 pton4 pton6 env reads (dir ++ x2f :: name) ctl calls e root d)
    as (d' & p & Hd & Hpub & Hen); try done.
  exists p. split; [|done]. rewrite performed_keeps by done. unfold perform. rewrite Hd. cbn [snd].
  by destruct Hpub as (-> & _).
Qed.

Definition example_dir : bytes := lit "/data/adb/vpnhide".
Definition example_name : bytes := lit "config.json".

Lemma example_watched : watched_path example_dir example_name.
Proof.
  split; [simpl; lia|done| |by repeat constructor].
  refine (bool_decide_unpack (x2f ∉ example_name) _). vm_compute. exact I.
Qed.

(** The start-up gets descriptor 5 for the watch; in the turn at 6000 ms [poll]
    reports it, the file was moved into place, and its contents are then in force.
    The daemon reads its statistics in the same turn. *)
Definition example_calls : reload_calls := mk_reload_calls (accessible example_env) 4242 true true.

Definition example_requests (a : action) : list vh_ioctl :=
  match a with SampleStats => [VH_GET_STATS_SESSION 7; VH_GET_STATS true [] (Some (0, 0))] | _ => [] end.

Definition example_reads : list (list inotify_event) :=
  [[mk_event IN_CREATE (lit "other" ++ [x00])]; [mk_event IN_MOVED_TO (example_name ++ replicate 5 x00)]].

Definition example_turn : option (loop_state * list action) :=
  loop_turn 2 (mk_descriptors 3 4 5 (-1) 7 8 NO_UID) (initial_loop 5000) (clock_at 66000)
    (Polled 1 ((λ fd, if fd =? 5 then POLLIN else 0) <$>
       (pf_fd <$> (poll_set (mk_descriptors 3 4 5 (-1) 7 8 NO_UID)).1))) true.

Lemma config_change_enforced_witness :
  snd <$> example_turn = Some [DrainConfig; SampleStats; RefreshPorts; UpdateSpoofIp] ∧
  ∃ s' acts, example_turn = Some (s', acts) ∧
    ∃ p, dv_policy (performed (KS := merge_ksort) (FC := arm64_conv) (SD := integer_strtod) 100 (λ _, false)
        no_scan3 no_scan2 (λ _, None) (λ _, None) example_env example_reads config_path (lit "ctl")
        example_calls example_env example_requests acts initial_device) = Some p ∧
      enforces (FC := arm64_conv) example_root p.
Proof.
  split; [vm_compute; reflexivity|].
  apply (config_change_enforced (KS := merge_ksort) (HKS := merge_ksort_laws) (FC := arm64_conv) (HFC := arm64_conv_laws)
    (SD := integer_strtod) (SL := integer_strtod_laws) 100 (λ _, false) no_scan3 no_scan2 (λ _, None) (λ _, None)
    all_calls (lit "ctl") example_dir example_name None
    (mk_descriptors 3 4 5 (-1) 7 8 NO_UID) [8; 7; 5; 4; 3]
    2 66000 (initial_loop 5000) (clock_at 66000) (λ fd, if fd =? 5 then POLLIN else 0) 1 true
    example_reads (mk_event IN_MOVED_TO (example_name ++ replicate 5 x00)) 5
    example_env example_calls example_env example_requests example_root initial_device).
  - exact example_watched.
  - vm_compute. discriminate.
  - reflexivity.
  - vm_compute. reflexivity.
  - reflexivity.
  - vm_compute. discriminate.
  - intros i. simpl. lia.
  - vm_compute. reflexivity.
  - lia.
  - vm_compute. right. left.
  - reflexivity.
  - vm_compute. discriminate.
  - reflexivity.
  - vm_compute. discriminate.
  - reflexivity.
  - reflexivity.
  - exact example_env_healthy.
  - exact example_text_parses.
  - exact example_root_loadable.
  - intros []; repeat constructor.
Defined.
